(* ===== verification/_CoqProject ===== *)
-Q . S2P
Prelude.v
GoStd.v
Sha256.v
Role.v
Llmd.v
Cell.v
Compile.v
Manager.v
ManagerFacts.v
WellFormed.v
ManagerSpec.v
Json.v
InnerApi.v
EppData.v
Hub.v
Discovery.v
DiscoveryLoop.v
ClusterTable.v
Frame.v
Poller.v
Lifecycle.v
Sources.v
Typing.v
System.v
Threads.v
Interleaved.v
Teardown.v
Readiness.v
Races.v
Demux.v
Requests.v
Plugins.v
App.v
Control.v
Run.v
Process.v
Serving.v
Freshness.v
Labels.v
