(* ===== verification/Prelude.v ===== *)
(** * ai-gateway-epp: a verification library

    The program (src/) is the endpoint picker of an AI gateway: one process that
    holds, per inference cluster it is assigned, a _cell_ - a resident data plane
    and a hot-swappable policy _engine_ built from llm-d-router - and routes
    ext-proc request streams to the engine of the cluster they name.

    ** How the parts interact

    Two polling loops (pkg/poller) fetch versioned documents from the InnerAPI
    (pkg/innerapi) or from local files.  The epp_data loop hands a snapshot of
    configurations and assignments to the watcher, which drives the cell manager
    (pkg/cell): ensure, drop, apply.  Applying compiles an engine, swaps it in and
    queues the old one for draining; drain workers cancel it, wait and tear down.
    The discovery loop replaces the endpoint hub (pkg/eppplugin/clustertable);
    each engine generation has a goroutine that waits for changes of the hub and
    feeds the differences to its datastore.  The demux server (pkg/demux) routes
    a stream to a cell, counts it in on the engine and hands it over.  cmd/epp
    wires all this, gates readiness and serves health.

    ** The files

    - Prelude, GoStd: results, state passing, transition systems, automation; and
      what the program uses of Go's standard library (errors, maps in any order,
      strings, net/url, path/filepath, 64-bit integers).
    - Sha256: crypto/sha256 and encoding/hex in full, and [HashConfig] of engine.go.
    - Json: encoding/json's scanner, its decoding rules, and the proof that
      compact texts are read back.
    - Llmd: the interface to llm-d-router, a class of types and functions.
    - Role, Cell, Compile, Manager: pkg/cell (role.go; cell.go, engine.go and
      metrics.go; compile.go; manager.go).  Cells and engines live in two heaps of
      one [World], because registry, drain queue, request streams and goroutines
      share them by pointer.
    - ManagerFacts, WellFormed, ManagerSpec: symbolic execution of the manager,
      the invariant [wf], and the abstract table of roles it refines.
    - InnerApi: client.go; requests, envelope, version protocol, over the transport
      interface [HTTP].
    - EppData: epp_data.go; [Handle], role resolution, refinement of the table.
    - Hub, Discovery, DiscoveryLoop: hub.go and discovery.go of clustertable; the
      hub, the diff, the goroutine against concurrent writers.
    - ClusterTable: discovery.go of pkg/poller; conversion and consumer.
    - Poller: helpers.go and poller.go; the loop for any source and consumer.
    - Frame: relations that no manager call leaves; drain queue and metrics.
    - Lifecycle: sequences of manager calls: swap, failure, drop, demotion.
    - Sources: the four [Fetch] methods, and the documents they read.
    - Typing: types of decoded documents, and that the sources respect them.
    - System: the manager, workers, waiters and request streams taking turns; the
      steps of the epp_data goroutine are apart from those of all others.
    - Threads: goroutines as programs of atomic actions over any shared state.
    - Interleaved: [Handle] as a program of manager calls, any steps of the other
      goroutines between them.
    - Teardown: the drain workers; every drain ends and removes its cell.
    - Readiness: the waiters of [Engine.start]; when a cell becomes ready.
    - Races: [markReady] in two halves, and what a manager call between them does.
    - Plugins: plugins.go, the registrations over the imported packages.
    - Demux: demux.go and server.go; [Process] with panics, defer and recover.
    - Requests: the request path as a program of atomic actions, any steps of the
      other goroutines between them.
    - App: health.go, config.go, the servers and the readiness gate of main.go.
    - Control: both loops run against an API server or local files, from the bytes
      of a response to cells and hub.
    - Run: the error group of main.go, from start-up to shutdown.
    - Process: every goroutine of main.go on one state; any of them may take the
      next step.  Serving, Freshness, Labels: what follows for the process as a
      whole, about readiness and endpoints, about the discovery plugins of all
      engine generations, and about the labels of its metrics.

    ** What the theorems show

    - Configuration: a snapshot does to every cluster what the abstract table says
      (EppData), also when it arrives as bytes over the network (Control) or in a
      file; unchanged clusters are left alone; Go's map order does not matter; a
      failed compilation keeps the old engine serving and leaks no context.
    - Concurrency: the same table is refined when everything else runs between the
      calls of [Handle] (Interleaved); every draining cluster has a teardown on
      its way, and the workers come to an end that leaves none (Teardown); at a
      clean end of the drain of a replaced engine no request uses it, and none
      will (System); heaps, counters and queues stay consistent; a stale teardown
      cannot unregister a newer cell; a cell is ready only after a full discovery
      sync of one of its engines, and no cell waits for ever for plugins that have
      signalled (Readiness).
    - Discovery: the hub loses no wake-up; a blocked discovery goroutine is
      up to date and a stale one catches up; what a ready plugin has put into the
      datastore is one table's list; the conversion of the table is exact.
    - Polling: versions move only with accepted data, back-off is exact and
      bounded, a rejected round is retried, a published one is applied once.
    - The client: what every whole response means, that no truncated one is taken
      for a whole one, and that the server reads the client's version.  Whatever
      bytes arrive, names and addresses handed on are UTF-8 and numbers fit 64
      bits (Typing).
    - Requests: when a stream is admitted and with which status it is refused, and
      that [Process] leaves no trace in any counter, panics included; with swaps,
      drops and drains between its actions, the answer is still explained by
      states the process went through, and an engine is not drained under a
      request it serves (Requests).
    - The whole process: an execution of it is one of System, so that what is
      proved there holds of it, and when the [Handle] of a snapshot ends, with
      everything else running, the clusters are as the snapshot says (Process);
      an answer SERVING was earned by a snapshot and by a plugin of an engine of
      every cell having applied a table, the gate opens when the cells are ready,
      and every endpoint of a datastore was listed for the cluster that a plugin
      of that cell asks for (Serving); a plugin that waits has applied the table
      of now, and as the only one of its cell its datastore is exactly the list
      (Freshness); no metric is given a label that is not UTF-8 (Labels).
    - The result of [run], and that shutdown terminates (Run).
    Several theorems state what the code does where that is not what its
    documents say: a promotion after a demotion serves with a canceled engine, a
    reassignment during a drain is lost, draining cells admit requests, a new
    generation keeps endpoints that left the table, a rejected configuration
    configures the data plane, a null Config is an empty snapshot, a cluster
    dropped while it becomes ready looks alive until its teardown, a request that
    a swap overtakes is refused instead of retried on the new engine, a plugin
    started before the first cluster table is ready with no endpoints, and a
    draining engine's plugin can delete an endpoint under the new engine's, which
    does not put it back (Freshness).

    ** Bounds and fuel

    No definition runs on fuel: the scanner and the decoders are structural, the
    polling loop is structural on the list of times at which its timer fires, and
    concurrent code is a step relation.  [maxNestingDepth] (10000), the body limit
    (32 MiB), the drain queue (64) and the back-off (1 s to 30 s) are the code's.
    Durations and versions wrap at 64 bits; the discovery theorems assume fewer
    than 2^64 writes between two snapshots, after which versions would repeat.
    Six turns of the discovery goroutine suffice to catch up, two of [WaitChange];
    a drain takes two steps of a worker; a waiter takes one effective turn more
    than the plugins it waits for.

    ** Not modelled, and why

    The sources of llm-d-router, Envoy, gRPC, net/http, controller-runtime and
    errgroup are not part of the repository: they are classes or arguments.
    The texts of JSON decoding errors, log lines, and the registration of metric
    vectors have no effect on behaviour.  The registry that plugins.go fills is
    llm-d-router's, an interface; test/ is test support.  Time enters as data
    (the clock of the poller, [now] of the world); the waits of a drain are
    nondeterministic ends in System.  The manager's methods are atomic in System
    and between the steps of Interleaved: they run in one goroutine, and of the
    fields of a cell they test and set, only the lifecycle state is also tested
    and set by another, in [markReady], which Races treats.  In Process a round of
    the discovery loop is one step, since only its [ReplaceAll], under the hub's
    lock, is seen by the others; a plugin applies a snapshot in one step, under
    its own lock, so that two generations of a cell take turns on the datastore
    by whole snapshots; plugins of other types signal when they please and their
    endpoints are not followed. *)

From stdpp Require Export base tactics option list gmap strings pretty fin_maps sets.
From Stdlib Require Export ZArith Lia.

(** ** Results

    A Go function that returns [(T, error)] and whose value is meaningless on
    error is modelled by [result]; the few whose value matters on error return
    a tuple with an [option] error. *)

Inductive result (E A : Type) : Type :=
| Ok (a : A)
| Err (e : E).
Arguments Ok {E A} a.
Arguments Err {E A} e.

#[export] Instance result_ret {E} : MRet (result E) := fun _ a => Ok a.
#[export] Instance result_bind {E} : MBind (result E) :=
  fun _ _ f m => match m with Ok a => f a | Err e => Err e end.
#[export] Instance result_eq_dec `{EqDecision E, EqDecision A} : EqDecision (result E A).
Proof. solve_decision. Defined.

Definition is_ok {E A} (r : result E A) : bool :=
  match r with Ok _ => true | Err _ => false end.

(** ** State passing

    Code that mutates shared objects is a function from the store it runs in
    to a value and the store it leaves. *)

Definition St (S A : Type) : Type := S -> A * S.

#[export] Instance St_ret {S} : MRet (St S) := fun _ a s => (a, s).
#[export] Instance St_bind {S} : MBind (St S) :=
  fun _ _ f m s => let '(a, s') := m s in f a s'.

Definition get_st {S} : St S S := fun s => (s, s).
Definition gets {S A} (f : S -> A) : St S A := fun s => (f s, s).
Definition modify {S} (f : S -> S) : St S unit := fun s => (tt, f s).
Definition when_st {S} (b : bool) (m : St S unit) : St S unit :=
  if b then m else mret tt.

(** [for _, x := range xs { f(x) }] *)
Fixpoint for_each {S A} (xs : list A) (f : A -> St S unit) : St S unit :=
  match xs with
  | [] => mret tt
  | x :: xs' => f x ;; for_each xs' f
  end.

(** The store left by a computation. *)
Abbreviation exec m s := (snd (m s)).

Lemma St_bind_run {S A B} (m : St S A) (f : A -> St S B) s :
  (m ≫= f) s = f (m s).1 (m s).2.
Proof. unfold mbind, St_bind. by destruct (m s). Qed.

(** Symbolic execution, one [bind] at a time. *)
Lemma bind_step {S A B} (m : St S A) (f : A -> St S B) s a s' :
  m s = (a, s') -> (m ≫= f) s = f a s'.
Proof. intros H. by rewrite St_bind_run, H. Qed.

Lemma gets_run {S A} (f : S -> A) (s : S) : gets f s = (f s, s).
Proof. done. Qed.

Lemma exec_for_each_cons {S A} (x : A) xs (f : A -> St S unit) (s : S) :
  exec (for_each (x :: xs) f) s = exec (for_each xs f) (exec (f x) s).
Proof. simpl. by rewrite St_bind_run. Qed.

Lemma exec_for_each_app {S A} xs ys (f : A -> St S unit) (s : S) :
  exec (for_each (xs ++ ys) f) s = exec (for_each ys f) (exec (for_each xs f) s).
Proof.
  revert s. induction xs as [|x xs IH]; intros s; [done|].
  by rewrite <- app_comm_cons, !exec_for_each_cons, IH.
Qed.

Lemma for_each_map {S A B} (g : A -> B) xs (f : B -> St S unit) (s : S) :
  for_each (g <$> xs) f s = for_each xs (fun x => f (g x)) s.
Proof.
  revert s. induction xs as [|x xs IH]; intros s; [done|].
  rewrite fmap_cons. cbn [for_each]. by rewrite !St_bind_run, IH.
Qed.

(** A property preserved by every iteration is preserved by the loop. *)
Lemma for_each_preserve {S A} (P : S -> Prop) xs (f : A -> St S unit) s :
  (forall x s, x ∈ xs -> P s -> P (exec (f x) s)) -> P s -> P (exec (for_each xs f) s).
Proof.
  revert s. induction xs as [|x xs IH]; intros s Hf Hs; [done|].
  rewrite exec_for_each_cons. apply IH; [|apply Hf; [left|done]].
  intros y s' Hy. apply Hf. by right.
Qed.

(** ** Transition systems *)

Section Reach.
Context {A : Type} (R : A -> A -> Prop).

(** Reflexive-transitive closure, extended at the end: the induction principle
    used for invariants. *)
Inductive reach (a : A) : A -> Prop :=
| reach_refl : reach a a
| reach_snoc b c : reach a b -> R b c -> reach a c.

Lemma reach_trans a b c : reach a b -> reach b c -> reach a c.
Proof. intros Hab Hbc. induction Hbc; [done|]. by econstructor. Qed.

Lemma reach_one a b : R a b -> reach a b.
Proof. intros. econstructor; [constructor|done]. Qed.

Lemma reach_cons a b c : R a b -> reach b c -> reach a c.
Proof. intros H1 H2. eapply reach_trans; [by apply reach_one|done]. Qed.

(** An inductive invariant holds in every reachable state. *)
Lemma reach_invariant (I : A -> Prop) a b :
  (forall x y, I x -> R x y -> I y) -> I a -> reach a b -> I b.
Proof. intros Hstep Ha Hr. induction Hr; eauto. Qed.
End Reach.
Arguments reach_refl {A R a}.

(** ** Automation *)

Create HintDb epp.
#[export] Hint Resolve reach_refl reach_one : epp.

(** Case analysis on every [match] and [if] in sight, closing the absurd
    branches. *)
Ltac break := repeat (case_match || case_decide); simplify_eq/=.

(** [step lem] runs the next bound computation by the equation [lem]. *)
Tactic Notation "step" uconstr(lem) :=
  erewrite bind_step; [|solve [eapply lem; eauto | eapply lem]]; cbn beta.
