(* ===== verification/GoStd.v ===== *)
(** * The Go standard library, as far as the program uses it

    Errors and [errors.Is]; byte-string helpers of [strings], [bytes],
    [strconv], [net] and [net/url]; [time.Duration] arithmetic on 64-bit
    integers. *)

From S2P Require Import Prelude.
From Stdlib Require Import Ascii String.
Local Open Scope string_scope.
Local Open Scope Z_scope.
#[local] Arguments String.append !_ _ /.

(** ** Errors *)

(** gRPC status codes the program answers with. *)
Inductive Code := Internal | Unavailable | Unimplemented.
#[export] Instance Code_eq_dec : EqDecision Code.
Proof. solve_decision. Defined.

(** An [error] value: a package-level sentinel made by [errors.New], identified
    by its variable; any other leaf error; [fmt.Errorf("p: %w", e)]; and
    [status.Error(code, msg)]. *)
Inductive error :=
| Sentinel (var msg : string)
| NewError (msg : string)
| Errorf (prefix : string) (wrapped : error)
| StatusError (code : Code) (msg : string).
#[export] Instance error_eq_dec : EqDecision error.
Proof. solve_decision. Defined.

(** [err.Error()] *)
Fixpoint Error (e : error) : string :=
  match e with
  | Sentinel _ msg | NewError msg => msg
  | Errorf p e' => p ++ ": " ++ Error e'
  | StatusError _ msg => msg
  end.

(** [errors.Is(e, target)]: [e] or one of the errors it wraps is [target]. *)
Fixpoint errors_Is (e target : error) : bool :=
  bool_decide (e = target) ||
  match e with Errorf _ e' => errors_Is e' target | _ => false end.

(** ** Maps *)

(** [for k, v := range m] visits every entry once, in an order the language
    leaves open. Theorems hold for every such order; [list_range] is one. *)
Class MapRange : Type := {
  range : forall {K} `{Countable K} {A : Type}, gmap K A -> list (K * A);
  range_perm : forall {K} `{Countable K} {A : Type} (m : gmap K A), range m ≡ₚ map_to_list m }.
Definition list_range : MapRange :=
  {| range K _ _ A m := map_to_list m; range_perm K _ _ A m := Permutation_refl _ |}.

Definition reverse_range : MapRange :=
  {| range K _ _ A m := reverse (map_to_list m);
     range_perm K _ _ A m := reverse_Permutation (map_to_list m) |}.

Lemma elem_of_range `{MapRange} `{Countable K} {A} (m : gmap K A) k a :
  (k, a) ∈ range m <-> m !! k = Some a.
Proof. rewrite range_perm. apply elem_of_map_to_list. Qed.

Lemma NoDup_range `{MapRange} `{Countable K} {A} (m : gmap K A) : NoDup (range m).*1.
Proof. rewrite range_perm. apply NoDup_fst_map_to_list. Qed.

Lemma elem_of_range_keys `{MapRange} `{Countable K} {A} (m : gmap K A) k :
  k ∈ (range m).*1 <-> is_Some (m !! k).
Proof.
  rewrite list_elem_of_fmap. split.
  - intros ([k' a] & -> & Hin%elem_of_range). by eexists.
  - intros [a Ha]. exists (k, a). by rewrite elem_of_range.
Qed.

(** ** Bytes *)

Definition code (c : ascii) : Z := Z.of_N (N_of_ascii c).
Definition between (a : Z) (c : ascii) (b : Z) : bool := (a <=? code c) && (code c <=? b).
Definition dquote : ascii := ascii_of_nat 34.
Definition single (c : ascii) : string := String c "".

Definition is_digit (c : ascii) : bool := between 48 c 57.

(** The value of a hexadecimal digit. *)
Definition unhex (c : ascii) : option Z :=
  if is_digit c then Some (code c - 48)
  else if between 97 c 102 then Some (code c - 87)
  else if between 65 c 70 then Some (code c - 55)
  else None.
Definition byte (z : Z) : ascii := ascii_of_N (Z.to_N z).

(** One case per byte. *)
Ltac every_byte c := destruct c as [[] [] [] [] [] [] [] []].

(** ** Byte strings *)

Fixpoint string_existsb (p : ascii -> bool) (s : string) : bool :=
  match s with
  | EmptyString => false
  | String c s' => p c || string_existsb p s'
  end.

(** [strings.IndexByte(s, c) >= 0] *)
Definition has_byte (c : ascii) (s : string) : bool := string_existsb (Ascii.eqb c) s.

(** [strings.ToLower] on ASCII. *)
Definition lower_byte (c : ascii) : ascii :=
  let n := nat_of_ascii c in
  if (65 <=? n)%nat && (n <=? 90)%nat then ascii_of_nat (n + 32) else c.
Fixpoint ToLower (s : string) : string :=
  match s with EmptyString => EmptyString | String c s' => String (lower_byte c) (ToLower s') end.

(** [strconv.Itoa] *)
Definition Itoa (n : Z) : string := pretty n.

(** [strconv.Quote], the verb [%q]; bytes from 128 on are taken to be printable
    UTF-8, which it leaves alone. *)
Definition lowerhex (z : Z) : ascii := byte (if z <? 10 then 48 + z else 87 + z).
Definition quote_byte (c : ascii) : string :=
  if Ascii.eqb c dquote || Ascii.eqb c "\" then String "\" (single c)
  else match code c with
  | 7 => "\a" | 8 => "\b" | 9 => "\t" | 10 => "\n" | 11 => "\v" | 12 => "\f" | 13 => "\r"
  | n => if (n <? 32) || (n =? 127)
         then "\x" ++ String (lowerhex (n / 16)) (single (lowerhex (n mod 16)))
         else single c
  end.
Fixpoint quote_bytes (s : string) : string :=
  match s with "" => "" | String c s' => quote_byte c ++ quote_bytes s' end.
Definition Quote (s : string) : string := String dquote (quote_bytes s ++ single dquote).

(** [net.JoinHostPort]: a host with a colon is put in brackets. *)
Definition JoinHostPort (host port : string) : string :=
  if has_byte ":" host then "[" ++ host ++ "]:" ++ port else host ++ ":" ++ port.

(** [s[i:j]] *)
Definition slice (i j : nat) (s : string) : string := substring i (j - i) s.

(** [strings.TrimRight(s, c)] for a cutset of one byte. *)
Fixpoint TrimRight (c : ascii) (s : string) : string :=
  match s with
  | "" => ""
  | String a s' =>
      match TrimRight c s' with
      | "" => if Ascii.eqb a c then "" else single a
      | t => String a t
      end
  end.

(** [bytes.TrimSpace] on text that starts and ends with ASCII bytes. *)
Definition ascii_space (c : ascii) : bool := existsb (Z.eqb (code c)) [9; 10; 11; 12; 13; 32].
Fixpoint trim_left (s : string) : string :=
  match s with
  | "" => ""
  | String a s' => if ascii_space a then trim_left s' else s
  end.
Fixpoint trim_right (s : string) : string :=
  match s with
  | "" => ""
  | String a s' =>
      match trim_right s' with
      | "" => if ascii_space a then "" else single a
      | t => String a t
      end
  end.
Definition TrimSpace (s : string) : string := trim_right (trim_left s).

(** ** net/url: query components *)

(** The bytes [url.QueryEscape] leaves alone. *)
Definition unreserved (c : ascii) : bool :=
  between 97 c 122 || between 65 c 90 || is_digit c ||
  existsb (Ascii.eqb c) ["-"; "_"; "."; "~"]%char.
Definition upperhex (z : Z) : ascii := byte (if z <? 10 then 48 + z else 55 + z).
Definition query_escape_byte (c : ascii) : string :=
  if unreserved c then single c
  else if Ascii.eqb c " " then "+"
  else String "%" (String (upperhex (code c / 16)) (single (upperhex (code c mod 16)))).
Fixpoint QueryEscape (s : string) : string :=
  match s with "" => "" | String c s' => query_escape_byte c ++ QueryEscape s' end.

(** [url.QueryUnescape] *)
Fixpoint QueryUnescape (s : string) : option string :=
  match s with
  | "" => Some ""
  | String c s1 =>
      if Ascii.eqb c "%" then
        match s1 with
        | String h (String l s2) =>
            h ← unhex h; l ← unhex l; t ← QueryUnescape s2; Some (String (byte (h * 16 + l)) t)
        | _ => None
        end
      else t ← QueryUnescape s1; Some (String (if Ascii.eqb c "+" then " "%char else c) t)
  end.

(** What an escaped component is made of: nothing that ends it. *)
Definition query_safe (c : ascii) : bool := unreserved c || Ascii.eqb c "%" || Ascii.eqb c "+".

(** ** path/filepath, with slashes *)

Fixpoint split_on (c : ascii) (s : string) : list string :=
  match s with
  | "" => [""]
  | String a s' =>
      if Ascii.eqb a c then "" :: split_on c s'
      else match split_on c s' with [] => [single a] | t :: ts => String a t :: ts end
  end.
Fixpoint join (sep : string) (ts : list string) : string :=
  match ts with
  | [] => ""
  | [t] => t
  | t :: ts' => t ++ sep ++ join sep ts'
  end.

(** [filepath.Clean]: the elements that are kept, innermost first. *)
Definition clean_element (rooted : bool) (out : list string) (e : string) : list string :=
  if decide (e = "" \/ e = ".") then out
  else if decide (e = "..") then
    match out with
    | [] => if rooted then [] else [e]
    | t :: out' => if decide (t = "..") then e :: out else out'
    end
  else e :: out.
Definition Clean (path : string) : string :=
  if decide (path = "") then "."
  else
    let rooted := match path with String c _ => Ascii.eqb c "/" | "" => false end in
    let out := rev (fold_left (clean_element rooted) (split_on "/" path) []) in
    if rooted then "/" ++ join "/" out
    else if decide (out = []) then "." else join "/" out.

(** [filepath.Join(a, b)] *)
Definition Join (a b : string) : string :=
  if decide (a <> "") then Clean (a ++ "/" ++ b)
  else if decide (b <> "") then Clean b
  else "".

(** ** 64-bit integers and durations *)

(** Two's complement wrap-around of [int64] and [uint64]. *)
Definition int64 (z : Z) : Z := (z + 2 ^ 63) mod 2 ^ 64 - 2 ^ 63.
Definition uint64 (z : Z) : Z := z mod 2 ^ 64.

Definition Second : Z := 1000000000.
Definition Millisecond : Z := 1000000.

Lemma int64_small z : - 2 ^ 63 <= z < 2 ^ 63 -> int64 z = z.
Proof. intros H. unfold int64. rewrite Z.mod_small by lia. lia. Qed.

Lemma uint64_succ_ne z : uint64 (uint64 z + 1) <> uint64 z.
Proof.
  unfold uint64. pose proof (Z.mod_pos_bound z (2 ^ 64) eq_refl) as Hz.
  set (m := z mod 2 ^ 64) in *. destruct (decide (m = 2 ^ 64 - 1)) as [->|].
  - by vm_compute.
  - rewrite Z.mod_small by lia. lia.
Qed.

Lemma string_existsb_app p s t :
  string_existsb p (s ++ t) = string_existsb p s || string_existsb p t.
Proof. induction s as [|c s IH]; [done|]. simpl. by rewrite IH, orb_assoc. Qed.

Lemma string_app_nil_r (s : string) : s ++ "" = s.
Proof. induction s as [|c s IH]; [done|]. simpl. by rewrite IH. Qed.

Lemma string_app_assoc (s t u : string) : (s ++ t) ++ u = s ++ (t ++ u).
Proof. induction s as [|c s IH]; [done|]. simpl. by rewrite IH. Qed.

Lemma string_length_app (s t : string) :
  String.length (s ++ t) = (String.length s + String.length t)%nat.
Proof. induction s as [|c s IH]; [done|]. simpl. by rewrite IH. Qed.

Lemma substring_all (s t : string) : substring 0 (String.length s) (s ++ t) = s.
Proof. induction s as [|c s IH]; simpl; [by destruct t|]. by rewrite IH. Qed.

(** A decimal numeral contains none but digits and a sign. *)
Lemma has_byte_pretty_N_go c x s :
  (forall d, pretty_N_char d <> c) -> has_byte c (pretty_N_go x s) = has_byte c s.
Proof.
  intros Hc. revert s. induction (N.lt_wf_0 x) as [x _ IH]; intros s.
  destruct (decide (x = 0)%N) as [->|Hx]; [by rewrite pretty_N_go_0|].
  rewrite pretty_N_go_step by lia. rewrite IH by (apply N.div_lt; lia).
  unfold has_byte. simpl. destruct (Ascii.eqb_spec c (pretty_N_char (x mod 10)%N)) as [He|]; [|done].
  by destruct (Hc (x mod 10)%N).
Qed.

Lemma has_byte_Itoa c n :
  (forall d, pretty_N_char d <> c) -> c <> "-"%char -> has_byte c (Itoa n) = false.
Proof.
  intros Hc Hm. assert (HN : forall x : N, has_byte c (pretty x) = false).
  { intros x. unfold pretty, pretty_N. case_decide as Hx.
    - specialize (Hc 0%N). unfold has_byte. simpl in *.
      destruct (Ascii.eqb_spec c "0"%char) as [He|]; [by destruct Hc|done].
    - by rewrite has_byte_pretty_N_go. }
  destruct n as [|p|p].
  - exact (HN 0%N).
  - exact (HN (N.pos p)).
  - change (has_byte c (String "-" (pretty (N.pos p))) = false). unfold has_byte. simpl.
    destruct (Ascii.eqb_spec c "-"%char); [done|]. apply HN.
Qed.

#[export] Instance Itoa_inj : Inj eq eq Itoa.
Proof. unfold Itoa. apply _. Qed.

(** The first separator splits a string whose parts do not contain it. *)
Lemma split_first (c : ascii) (s t s' t' : string) :
  has_byte c s = false -> has_byte c s' = false ->
  s ++ String c t = s' ++ String c t' -> s = s' /\ t = t'.
Proof.
  revert s'. induction s as [|a s IH]; intros [|b s'] Hs Hs' Heq; simpl in *; simplify_eq.
  - done.
  - unfold has_byte in Hs'. simpl in Hs'. by rewrite Ascii.eqb_refl in Hs'.
  - unfold has_byte in Hs. simpl in Hs. by rewrite Ascii.eqb_refl in Hs.
  - unfold has_byte in Hs, Hs'. simpl in Hs, Hs'. apply orb_false_iff in Hs as [_ Hs].
    apply orb_false_iff in Hs' as [_ Hs']. by destruct (IH s' Hs Hs' H) as [-> ->].
Qed.

(** The last separator splits a string whose right parts do not contain it. *)
Lemma split_last (c : ascii) (s t s' t' : string) :
  has_byte c t = false -> has_byte c t' = false ->
  s ++ String c t = s' ++ String c t' -> s = s' /\ t = t'.
Proof.
  assert (Hin : forall u v, has_byte c (u ++ String c v) = true).
  { intros u v. unfold has_byte. rewrite string_existsb_app. simpl.
    rewrite Ascii.eqb_refl. by rewrite orb_true_r. }
  revert s'. induction s as [|a s IH]; intros [|b s'] Ht Ht' Heq; simpl in *; simplify_eq.
  - done.
  - by rewrite Hin in Ht.
  - by rewrite Hin in Ht'.
  - by destruct (IH s' Ht Ht' H) as [-> ->].
Qed.

(** ** Query escaping *)

Lemma query_escape_cases c :
  (query_escape_byte c = single c /\ Ascii.eqb c "%" = false /\ Ascii.eqb c "+" = false /\ query_safe c = true) \/
  (query_escape_byte c = "+" /\ c = " "%char) \/
  exists h l zh zl, query_escape_byte c = String "%" (String h (single l)) /\
    unhex h = Some zh /\ unhex l = Some zl /\ byte (zh * 16 + zl) = c /\
    query_safe h = true /\ query_safe l = true.
Proof.
  every_byte c; first
    [ left; vm_compute; by repeat split
    | right; left; by vm_compute
    | right; right; do 4 eexists; split; [vm_compute; reflexivity|];
      split; [vm_compute; reflexivity|]; split; [vm_compute; reflexivity|]; by vm_compute ].
Qed.

Lemma QueryUnescape_QueryEscape s : QueryUnescape (QueryEscape s) = Some s.
Proof.
  induction s as [|c s IH]; [done|]. cbn [QueryEscape].
  destruct (query_escape_cases c) as [(-> & H1 & H2 & _)|[[-> ->]|(h & l & zh & zl & -> & H1 & H2 & H3 & _)]].
  - cbn [single String.append QueryUnescape]. by rewrite H1, H2, IH.
  - cbn. by rewrite IH.
  - cbn [single String.append QueryUnescape Ascii.eqb Bool.eqb]. by rewrite H1, H2, IH; cbn; rewrite H3.
Qed.

Lemma QueryEscape_safe s : string_existsb (fun c => negb (query_safe c)) (QueryEscape s) = false.
Proof.
  induction s as [|c s IH]; [done|]. cbn [QueryEscape]. rewrite string_existsb_app, IH, orb_false_r.
  destruct (query_escape_cases c) as [(-> & _ & _ & H)|[[-> _]|(h & l & zh & zl & -> & _ & _ & _ & H1 & H2)]].
  - cbn. by rewrite H.
  - done.
  - cbn [string_existsb single]. by rewrite H1, H2.
Qed.
