(* ===== verification/Sha256.v ===== *)
(** * SHA-256 and the configuration fingerprint (pkg/cell/engine.go, HashConfig)

    [crypto/sha256] and [encoding/hex] are standard-library code: the digest is
    the function of FIPS 180-4 on 32-bit words, executable, so that a
    fingerprint can be evaluated. *)

From S2P Require Import Prelude.
From Stdlib Require Import Ascii.
Local Open Scope Z_scope.

Module Sha256.
Definition word (z : Z) : Z := z mod 2 ^ 32.
Definition rotr (n x : Z) : Z := Z.lor (Z.shiftr x n) (word (Z.shiftl x (32 - n))).
Definition xor3 (a b c : Z) : Z := Z.lxor a (Z.lxor b c).

Definition Ch (x y z : Z) : Z := Z.lxor (Z.land x y) (Z.land (Z.lxor x (2 ^ 32 - 1)) z).
Definition Maj (x y z : Z) : Z := xor3 (Z.land x y) (Z.land x z) (Z.land y z).
Definition Sigma0 (x : Z) : Z := xor3 (rotr 2 x) (rotr 13 x) (rotr 22 x).
Definition Sigma1 (x : Z) : Z := xor3 (rotr 6 x) (rotr 11 x) (rotr 25 x).
Definition sigma0 (x : Z) : Z := xor3 (rotr 7 x) (rotr 18 x) (Z.shiftr x 3).
Definition sigma1 (x : Z) : Z := xor3 (rotr 17 x) (rotr 19 x) (Z.shiftr x 10).

(** The constants are the first 32 bits of the fractional parts of the cube and
    square roots of the first primes. *)
Fixpoint root_bits (k : Z) (i : nat) (x acc : Z) : Z :=
  match i with
  | O => acc
  | S i' => let r := acc + 2 ^ Z.of_nat i' in root_bits k i' x (if r ^ k <=? x then r else acc)
  end.
Definition root_fraction (k p : Z) : Z := word (root_bits k 36 (p * 2 ^ (32 * k)) 0).
Definition is_prime (n : Z) : bool := forallb (fun d => negb (n mod d =? 0)) (seqZ 2 (n - 2)).
Definition primes : list Z := List.filter is_prime (seqZ 2 310).

Definition K : list Z := Eval vm_compute in root_fraction 3 <$> primes.
Definition H0 : list Z := Eval vm_compute in root_fraction 2 <$> take 8 primes.

(** Big-endian bytes of a [n]-byte integer. *)
Fixpoint be_bytes (n : nat) (z : Z) : list Z :=
  match n with
  | O => []
  | S n' => Z.shiftr z (8 * Z.of_nat n') mod 256 :: be_bytes n' z
  end.

Definition pad (m : list Z) : list Z :=
  let n := Z.of_nat (length m) in
  m ++ [0x80] ++ repeat 0 (Z.to_nat ((55 - n) mod 64)) ++ be_bytes 8 (8 * n).

Definition be_word (b : list Z) : Z := fold_left (fun a x => a * 256 + x) b 0.

(** Cut a list in [k] pieces of [n] elements. *)
Fixpoint pieces {A} (n k : nat) (l : list A) : list (list A) :=
  match k with O => [] | S k' => take n l :: pieces n k' (drop n l) end.

(** The message schedule, latest word first. *)
Fixpoint schedule (t : nat) (rev_w : list Z) : list Z :=
  match t with
  | O => rev_w
  | S t' =>
      let w i := default 0 (rev_w !! i) in
      schedule t' (word (sigma1 (w 1%nat) + w 6%nat + sigma0 (w 14%nat) + w 15%nat) :: rev_w)
  end.

Definition round (st : list Z) (kw : Z * Z) : list Z :=
  match st with
  | [a; b; c; d; e; f; g; h] =>
      let t1 := h + Sigma1 e + Ch e f g + kw.1 + kw.2 in
      let t2 := Sigma0 a + Maj a b c in
      [word (t1 + t2); a; b; c; word (d + t1); e; f; g]
  | _ => st
  end.

Definition compress (st : list Z) (block : list Z) : list Z :=
  let w := rev (schedule 48 (rev (be_word <$> pieces 4 16 block))) in
  zip_with (fun x y => word (x + y)) st (fold_left round (zip K w) st).

(** [sha256.Sum256] *)
Definition Sum256 (m : list Z) : list Z :=
  let p := pad m in
  concat (be_bytes 4 <$> fold_left compress (pieces 64 (length p / 64) p) H0).

(** [hex.EncodeToString] *)
Definition hex_digit (d : Z) : ascii :=
  ascii_of_N (Z.to_N (if d <? 10 then 48 + d else 87 + d)).
Fixpoint EncodeToString (bs : list Z) : string :=
  match bs with
  | [] => EmptyString
  | b :: bs' => String (hex_digit (b / 16)) (String (hex_digit (b mod 16)) (EncodeToString bs'))
  end.

Fixpoint bytes_of_string (s : string) : list Z :=
  match s with
  | EmptyString => []
  | String c s' => Z.of_N (N_of_ascii c) :: bytes_of_string s'
  end.
End Sha256.

Import Sha256.

(** [HashConfig(raw)]: the canonical fingerprint of a raw cluster config. *)
Definition HashConfig (raw : string) : string := EncodeToString (Sum256 (bytes_of_string raw)).

(** Test vectors of FIPS 180-4: one block, and two blocks. *)
Example hash_abc :
  HashConfig "abc" = "ba7816bf8f01cfea414140de5dae2223b00361a396177a9cb410ff61f20015ad"%string.
Proof. vm_compute. reflexivity. Qed.
Example hash_two_blocks :
  HashConfig "abcdbcdecdefdefgefghfghighijhijkijkljklmklmnlmnomnopnopq" =
  "248d6a61d20638b8e5c026930c3e6039a33ce45964ff2167f6ecedd419db06c1"%string.
Proof. vm_compute. reflexivity. Qed.

(** ** The shape of a fingerprint *)

Lemma be_bytes_length n z : length (be_bytes n z) = n.
Proof. induction n as [|n IH]; simpl; congruence. Qed.

Lemma be_bytes_byte n z : Forall (fun b => 0 <= b < 256) (be_bytes n z).
Proof. induction n; simpl; constructor; [apply Z.mod_pos_bound; lia|done]. Qed.

Lemma round_length st kw : length (round st kw) = length st.
Proof. by do 9 (destruct st as [|? st]; [done|]). Qed.

Lemma compress_length st b : length st = 8%nat -> length (compress st b) = 8%nat.
Proof.
  intros H. unfold compress. rewrite length_zip_with.
  assert (Hf : forall l s, length (fold_left round l s) = length s).
  { induction l as [|x l IH]; intros s; [done|]. simpl. by rewrite IH, round_length. }
  rewrite Hf. lia.
Qed.

Lemma Sum256_bytes m :
  length (Sum256 m) = 32%nat /\ Forall (fun b => 0 <= b < 256) (Sum256 m).
Proof.
  unfold Sum256. set (bl := pieces _ _ _). clearbody bl.
  assert (H : forall l s, length s = 8%nat -> length (fold_left compress l s) = 8%nat).
  { induction l as [|x l IH]; intros s Hs; [done|]. simpl. by apply IH, compress_length. }
  specialize (H bl H0 eq_refl). set (st := fold_left compress bl H0) in *. clearbody st.
  split.
  - do 9 (destruct st as [|? st]; [done|]). done.
  - clear H. induction st as [|w st IH]; [constructor|].
    rewrite fmap_cons. cbn [concat]. apply Forall_app. split; [apply be_bytes_byte|done].
Qed.

Lemma hex_digit_inj d d' :
  0 <= d < 16 -> 0 <= d' < 16 -> hex_digit d = hex_digit d' -> d = d'.
Proof.
  intros H H' Heq. assert (Hn : N_of_ascii (hex_digit d) = N_of_ascii (hex_digit d')) by congruence.
  unfold hex_digit in Hn.
  assert (Hb : forall x, 0 <= x < 16 ->
    N_of_ascii (ascii_of_N (Z.to_N (if x <? 10 then 48 + x else 87 + x))) =
    Z.to_N (if x <? 10 then 48 + x else 87 + x)).
  { intros x Hx. apply N_ascii_embedding. destruct (x <? 10); lia. }
  rewrite !Hb in Hn by done. destruct (Z.ltb_spec d 10), (Z.ltb_spec d' 10); lia.
Qed.

Lemma EncodeToString_inj bs bs' :
  Forall (fun b => 0 <= b < 256) bs -> Forall (fun b => 0 <= b < 256) bs' ->
  EncodeToString bs = EncodeToString bs' -> bs = bs'.
Proof.
  intros Hb. revert bs'. induction Hb as [|b bs Hb Hbs IH]; intros [|b' bs'] Hb' Heq; try done.
  inversion Hb' as [|? ? Hr Hrs]; subst. simpl in Heq.
  injection Heq as Hhi Hlo Hrest. apply hex_digit_inj in Hhi; [|split..];
    [|try (apply Z.div_pos; lia); try (apply Z.div_lt_upper_bound; lia)..].
  apply hex_digit_inj in Hlo; [|apply Z.mod_pos_bound; lia..].
  f_equal; [|by apply IH]. pose proof (Z.div_mod b 16). pose proof (Z.div_mod b' 16). lia.
Qed.

Lemma EncodeToString_length bs : String.length (EncodeToString bs) = (2 * length bs)%nat.
Proof. induction bs as [|b bs IH]; [done|]. simpl. rewrite IH. lia. Qed.

Definition is_lower_hex (c : ascii) : bool :=
  let n := N_of_ascii c in
  ((48 <=? n) && (n <=? 57) || (97 <=? n) && (n <=? 102))%N.

Fixpoint string_forallb (p : ascii -> bool) (s : string) : bool :=
  match s with EmptyString => true | String c s' => p c && string_forallb p s' end.

Lemma hex_digit_lower d : 0 <= d < 16 -> is_lower_hex (hex_digit d) = true.
Proof.
  intros H.
  assert (Hall : Forall (fun x => is_lower_hex (hex_digit x) = true) (seqZ 0 16))
    by (repeat (constructor; [reflexivity|]); constructor).
  apply (proj1 (Forall_forall _ _) Hall), elem_of_seqZ. lia.
Qed.

Lemma EncodeToString_lower bs :
  Forall (fun b => 0 <= b < 256) bs -> string_forallb is_lower_hex (EncodeToString bs) = true.
Proof.
  induction 1 as [|b bs Hb Hbs IH]; [done|]. simpl. rewrite !hex_digit_lower, IH; [done|..].
  - apply Z.mod_pos_bound; lia.
  - split; [apply Z.div_pos; lia|apply Z.div_lt_upper_bound; lia].
Qed.

(** A fingerprint is always 64 lower-case hexadecimal digits, and two
    configurations have the same fingerprint exactly when they have the same
    SHA-256 digest: the textual form loses nothing. *)
Theorem HashConfig_faithful raw raw' :
  String.length (HashConfig raw) = 64%nat /\
  string_forallb is_lower_hex (HashConfig raw) = true /\
  (HashConfig raw = HashConfig raw' <->
   Sum256 (bytes_of_string raw) = Sum256 (bytes_of_string raw')).
Proof.
  unfold HashConfig. destruct (Sum256_bytes (bytes_of_string raw)) as [Hl Hb].
  destruct (Sum256_bytes (bytes_of_string raw')) as [Hl' Hb'].
  rewrite EncodeToString_length, Hl. split; [done|]. split; [by apply EncodeToString_lower|].
  split; [by apply EncodeToString_inj|congruence].
Qed.
