(* ===== verification/Role.v ===== *)
(** * Roles and lifecycle states (pkg/cell/role.go) *)

From S2P Require Import Prelude.
Local Open Scope string_scope.

(** [type Key string] *)
Abbreviation Key := string.

(** [type Role int32]; the zero value is [RoleNone]. *)
Inductive Role := RoleNone | RoleStandby | RolePrimary.
#[export] Instance Role_eq_dec : EqDecision Role.
Proof. solve_decision. Defined.

Definition Role_String (r : Role) : string :=
  match r with RoleStandby => "standby" | RolePrimary => "primary" | _ => "none" end.

(** [type State int32]; the zero value is [StateCreating]. *)
Inductive State := StateCreating | StateStandby | StatePrimary | StateDraining.
#[export] Instance State_eq_dec : EqDecision State.
Proof. solve_decision. Defined.

Definition State_String (s : State) : string :=
  match s with
  | StateCreating => "creating"
  | StateStandby => "standby"
  | StatePrimary => "primary"
  | StateDraining => "draining"
  end.

#[export] Instance Role_String_inj : Inj eq eq Role_String.
Proof. by intros [] [] H. Qed.
#[export] Instance State_String_inj : Inj eq eq State_String.
Proof. by intros [] [] H. Qed.
