(* ===== verification/Llmd.v ===== *)
(** * The llm-d-router packages the program is composed from

    [github.com/llm-d/llm-d-router] is a dependency whose sources are not part
    of the repository.  Everything the program takes from it is a field of the
    class [LlmdRouter]: abstract types for its objects and one function per
    call, with the object it mutates threaded through.  The models of pkg/cell
    and pkg/eppplugin are written against this class; [ToyLlmd] is a concrete
    instance, used to evaluate examples. *)

From S2P Require Import Prelude.
From S2P Require Import GoStd.

(** [k8stypes.NamespacedName] *)
Record NamespacedName := mkName { Namespace : string; Name : string }.
#[export] Instance NamespacedName_eq_dec : EqDecision NamespacedName.
Proof. solve_decision. Defined.
#[export] Instance NamespacedName_countable : Countable NamespacedName.
Proof.
  refine (inj_countable' (fun n => (Namespace n, Name n)) (fun p => mkName p.1 p.2) _).
  by intros [].
Defined.

(** [fwkdl.EndpointMetadata], the fields the program sets. *)
Record EndpointMetadata := mkEndpoint {
  ID : NamespacedName;
  EpName : string;
  Address : string;
  Port : string;
  MetricsHost : string }.
#[export] Instance EndpointMetadata_eq_dec : EqDecision EndpointMetadata.
Proof. solve_decision. Defined.

(** What the constructor of a flow controller and of a director are given. *)
Class LlmdRouter := {
  (* datalayer, datastore *)
  Runtime : Type;
  DataConfig : Type;
  EndpointPool : Type;
  Datastore : Type;
  DsState : Type;
  Pod : Type;
  NewRuntime : Z -> Runtime;
  NewEndpointPool : string -> string -> EndpointPool;
  NewDatastore : Runtime -> Datastore;
  WithEndpointPool : Datastore -> EndpointPool -> Datastore;
  PodList : Datastore -> DsState -> list Pod;
  GetMetadata_ID : Pod -> NamespacedName;
  Configure : DataConfig -> St Runtime (option error);

  (* plugins *)
  Plugin : Type;
  Handle : Type;
  Discovery : Type;
  DAG : Type;
  Scopes : Type;
  TypedName : Plugin -> string;
  NewEppHandle : (DsState -> list NamespacedName) -> Handle;
  GetAllPlugins : Handle -> list Plugin;
  Handle_Plugin : Handle -> string -> option Plugin;
  as_Registrant : Plugin -> option (St Runtime (option error));
  as_EndpointDiscovery : Plugin -> option Discovery;
  CreateMissingDataProducers : St Handle (option error);
  ValidateAndOrderDataDependencies : list Plugin -> result error DAG;
  RegisterScopeSpecs : list Plugin -> Scopes -> Scopes;
  ValidatePluginStability : Handle -> bool -> option error;

  (* config/loader *)
  RawConfig : Type;
  Config : Type;
  FlowControlConfig : Type;
  SchedulerConfig : Type;
  SaturationDetector : Type;
  ParserRegistry : Type;
  FeatureGate : string;
  LoadRawConfig : string -> result error (RawConfig * gmap string bool);
  InstantiateAndConfigure : RawConfig -> St Handle (result error Config);
  DataLayerConfig : Type;
  DiscoveryConfig : Type;
  EndpointsConfig : Type;
  raw_DataLayer : RawConfig -> option DataLayerConfig;
  dl_Discovery : DataLayerConfig -> option DiscoveryConfig;
  disc_Endpoints : DiscoveryConfig -> option EndpointsConfig;
  ep_PluginRef : EndpointsConfig -> string;
  cfg_DataConfig : Config -> DataConfig;
  cfg_SchedulerConfig : Config -> SchedulerConfig;
  cfg_FlowControlConfig : Config -> option FlowControlConfig;
  cfg_SaturationDetector : Config -> SaturationDetector;
  cfg_ParserRegistry : Config -> ParserRegistry;

  (* requestcontrol, flowcontrol, scheduling, handlers *)
  RcConfig : Type;
  Candidates : Type;
  Scheduler : Type;
  FlowRegistry : Type;
  FlowController : Type;
  AdmissionController : Type;
  Director : Type;
  StreamingServer : Type;
  NewConfig : RcConfig;
  AddPlugins : list Plugin -> RcConfig -> RcConfig;
  OrderPlugins : DAG -> RcConfig -> RcConfig;
  NewSchedulerWithConfig : SchedulerConfig -> Scheduler;
  NewDatastoreEndpointCandidates : Datastore -> Candidates;
  NewCachedEndpointCandidates : Candidates -> Z -> Candidates;
  NewFlowRegistry : FlowControlConfig -> FlowRegistry;
  NewFlowController : string -> FlowControlConfig -> FlowRegistry -> SaturationDetector ->
    Candidates -> FlowController;
  NewFlowControlAdmissionController : FlowController -> string -> Candidates -> AdmissionController;
  NewLegacyAdmissionController : SaturationDetector -> Candidates -> AdmissionController;
  NewDirectorWithConfig : Datastore -> Scheduler -> AdmissionController -> Candidates ->
    RcConfig -> Director;
  NewStreamingServer : Datastore -> Director -> ParserRegistry -> Z -> StreamingServer
}.

(** ** A concrete instance

    A configuration is a comma-free word: ["bad"] does not decode, ["disc"], bare or
    as a JSON string, asks for the discovery plugin ["ep"], ["noref"] for a plugin that does not exist;
    a runtime counts how often it was configured. *)
Module ToyLlmd.
Local Open Scope string_scope.

Definition toy_configure (d : string) : St (list string) (option error) :=
  fun rt => match rt with [] => (None, [d]) | _ => (Some (NewError "already configured"), rt) end.

#[export] Instance toy : LlmdRouter := {|
  Runtime := list string; DataConfig := string; EndpointPool := string * string;
  Datastore := list string; DsState := list NamespacedName; Pod := NamespacedName;
  NewRuntime _ := []; NewEndpointPool ns n := (ns, n); NewDatastore rt := rt;
  WithEndpointPool ds p := p.2 :: ds; PodList _ st := st; GetMetadata_ID p := p;
  Configure := toy_configure;
  Plugin := string; Handle := list string; Discovery := string; DAG := list string;
  Scopes := nat; TypedName p := p; NewEppHandle _ := []; GetAllPlugins h := h;
  Handle_Plugin h n := if decide (n ∈ h) then Some n else None;
  as_Registrant _ := None;
  as_EndpointDiscovery p := if decide (p = "ep") then Some p else None;
  CreateMissingDataProducers := fun h => (None, h);
  ValidateAndOrderDataDependencies ps := Ok ps;
  RegisterScopeSpecs ps n := S n; ValidatePluginStability _ _ := None;
  RawConfig := string; Config := string; FlowControlConfig := string;
  SchedulerConfig := string; SaturationDetector := unit; ParserRegistry := unit;
  FeatureGate := "flowControl";
  LoadRawConfig raw := if decide (raw = "bad") then Err (NewError "syntax") else Ok (raw, ∅);
  InstantiateAndConfigure rc := fun _ => (Ok rc, ["ep"; "kv-scorer"]);
  DataLayerConfig := string; DiscoveryConfig := string; EndpointsConfig := string;
  raw_DataLayer rc := if decide (rc = "plain") then None else Some rc;
  dl_Discovery d := Some d;
  disc_Endpoints d :=
    if decide (d = "disc" \/ d = Quote "disc") then Some "ep"
    else if decide (d = "noref") then Some "missing" else None;
  ep_PluginRef e := e;
  cfg_DataConfig c := c; cfg_SchedulerConfig c := c; cfg_FlowControlConfig _ := None;
  cfg_SaturationDetector _ := tt; cfg_ParserRegistry _ := tt;
  RcConfig := list string; Candidates := list string; Scheduler := string;
  FlowRegistry := string; FlowController := string; AdmissionController := unit;
  Director := string; StreamingServer := string;
  NewConfig := []; AddPlugins ps rc := (rc ++ ps)%list; OrderPlugins _ rc := rc;
  NewSchedulerWithConfig c := c; NewDatastoreEndpointCandidates ds := ds;
  NewCachedEndpointCandidates c _ := c; NewFlowRegistry c := c;
  NewFlowController k _ _ _ _ := k;
  NewFlowControlAdmissionController _ _ _ := tt; NewLegacyAdmissionController _ _ := tt;
  NewDirectorWithConfig _ s _ _ _ := s; NewStreamingServer _ d _ _ := d
|}.
End ToyLlmd.
