(* ===== verification/Cell.v ===== *)
(** * Cells, engines and the store they live in (pkg/cell/cell.go, engine.go)

    Cells and engines are shared by pointer between the registry, the drain
    queue, the request streams and the goroutines an engine starts; the model
    keeps them in two heaps indexed by pointers, inside one [World]. *)

From S2P Require Import Prelude.
From S2P Require Import GoStd.
From S2P Require Import Role.
From S2P Require Import Llmd.
Local Open Scope Z_scope.

Section Data.
Context {L : LlmdRouter}.

(** The data plane of a cell: [ds], [rt] and [dataConfigured]. *)
Record DataPlane := mkData { ds : Datastore; rt : Runtime; dataConfigured : bool }.

(** [type Engine struct], the part fixed by the compilation; [cancel] tells
    whether the [cancel] function is set. *)
Record Engine := mkEngine {
  Version : string;
  director : option Director;
  fc : option FlowController;
  handle : option Handle;
  parserRegistry : option ParserRegistry;
  streamer : option StreamingServer;
  discovery : list Discovery;
  cancel : bool }.

(** An engine in the heap: the cell whose context its own derives from, whether
    its context was canceled, and the counter of its [wg]. *)
Record EngineObj := mkEngineObj {
  eng : Engine; parent : nat; canceled : bool; wg : Z }.

(** [type Cell struct]. [readyCloses] counts the calls of [close(c.ready)]. *)
Record Cell := mkCell {
  c_key : Key;
  c_data : DataPlane;
  c_closed : bool;              (* ctx canceled *)
  c_engine : option nat;        (* engine atomic.Pointer[Engine] *)
  c_role : Role;
  c_state : State;
  c_hash : option string;       (* currentHash atomic.Value *)
  c_once : bool;                (* readyOnce *)
  readyCloses : nat;
  readyAt : Z }.

(** [type drainTask struct] *)
Record drainTask := mkTask { t_cell : nat; t_eng : nat; t_teardown : bool }.

(** The calls made on the metric vectors of pkg/cell/metrics.go, and on the
    [assignmentNoMatch] gauge of pkg/poller/epp_data.go. *)
Inductive metric_call :=
| CellState_Set (cluster role state : string) (v : Z)
| EngineReloads_Inc (cluster result : string)
| CurrentVersion_DeletePartialMatch (cluster : string)
| CurrentVersion_Set (cluster version : string) (v : Z)
| DrainDuration_Observe (cluster : string)
| AssignmentNoMatch_Set (v : Z).
#[export] Instance metric_call_eq_dec : EqDecision metric_call.
Proof. solve_decision. Defined.

(** The goroutine of [Engine.start] that waits for every discovery plugin:
    [w_next] is the index of the channel it waits for. *)
Record waiter := mkWaiter { w_eng : nat; w_cell : nat; w_next : nat }.

(** Everything the goroutines share. *)
Record World := mkWorld {
  cells : gmap nat Cell;
  engines : gmap nat EngineObj;
  registry : gmap Key nat;          (* Manager.cells sync.Map *)
  drainCh : list drainTask;         (* Manager.drainCh, oldest first *)
  waiters : list waiter;
  started : list (nat * nat);       (* discovery goroutines: engine, index *)
  readies : gset (nat * nat);       (* closed Ready() channels: engine, index *)
  scopes : Scopes;                  (* the process-wide scope registry of llm-d *)
  metrics : list metric_call;       (* calls so far, oldest first *)
  now : Z;
  next_cell : nat;
  next_eng : nat }.

End Data.

(** ** Field updates *)

Section Updates.
Context {L : LlmdRouter}.

Definition set_data d c := mkCell (c_key c) d (c_closed c) (c_engine c) (c_role c) (c_state c)
  (c_hash c) (c_once c) (readyCloses c) (readyAt c).
Definition set_closed c := mkCell (c_key c) (c_data c) true (c_engine c) (c_role c) (c_state c)
  (c_hash c) (c_once c) (readyCloses c) (readyAt c).
Definition set_engine e c := mkCell (c_key c) (c_data c) (c_closed c) e (c_role c) (c_state c)
  (c_hash c) (c_once c) (readyCloses c) (readyAt c).
Definition set_role r c := mkCell (c_key c) (c_data c) (c_closed c) (c_engine c) r (c_state c)
  (c_hash c) (c_once c) (readyCloses c) (readyAt c).
Definition set_state s c := mkCell (c_key c) (c_data c) (c_closed c) (c_engine c) (c_role c) s
  (c_hash c) (c_once c) (readyCloses c) (readyAt c).
Definition set_hash h c := mkCell (c_key c) (c_data c) (c_closed c) (c_engine c) (c_role c)
  (c_state c) (Some h) (c_once c) (readyCloses c) (readyAt c).
Definition set_ready t c := mkCell (c_key c) (c_data c) (c_closed c) (c_engine c) (c_role c)
  (c_state c) (c_hash c) true (S (readyCloses c)) t.

Definition set_canceled e := mkEngineObj (eng e) (parent e) true (wg e).
Definition add_wg n e := mkEngineObj (eng e) (parent e) (canceled e) (wg e + n).

Definition on_cells f w := mkWorld (f (cells w)) (engines w) (registry w) (drainCh w) (waiters w)
  (started w) (readies w) (scopes w) (metrics w) (now w) (next_cell w) (next_eng w).
Definition on_engines f w := mkWorld (cells w) (f (engines w)) (registry w) (drainCh w) (waiters w)
  (started w) (readies w) (scopes w) (metrics w) (now w) (next_cell w) (next_eng w).
Definition on_registry f w := mkWorld (cells w) (engines w) (f (registry w)) (drainCh w) (waiters w)
  (started w) (readies w) (scopes w) (metrics w) (now w) (next_cell w) (next_eng w).
Definition on_drainCh f w := mkWorld (cells w) (engines w) (registry w) (f (drainCh w)) (waiters w)
  (started w) (readies w) (scopes w) (metrics w) (now w) (next_cell w) (next_eng w).
Definition on_waiters f w := mkWorld (cells w) (engines w) (registry w) (drainCh w) (f (waiters w))
  (started w) (readies w) (scopes w) (metrics w) (now w) (next_cell w) (next_eng w).
Definition on_started f w := mkWorld (cells w) (engines w) (registry w) (drainCh w) (waiters w)
  (f (started w)) (readies w) (scopes w) (metrics w) (now w) (next_cell w) (next_eng w).
Definition on_readies f w := mkWorld (cells w) (engines w) (registry w) (drainCh w) (waiters w)
  (started w) (f (readies w)) (scopes w) (metrics w) (now w) (next_cell w) (next_eng w).
Definition set_scopes x w := mkWorld (cells w) (engines w) (registry w) (drainCh w) (waiters w)
  (started w) (readies w) x (metrics w) (now w) (next_cell w) (next_eng w).
Definition on_metrics f w := mkWorld (cells w) (engines w) (registry w) (drainCh w) (waiters w)
  (started w) (readies w) (scopes w) (f (metrics w)) (now w) (next_cell w) (next_eng w).
Definition set_now t w := mkWorld (cells w) (engines w) (registry w) (drainCh w) (waiters w)
  (started w) (readies w) (scopes w) (metrics w) t (next_cell w) (next_eng w).

(** [&Cell{...}] and [&Engine{...}] *)
Definition new_cell (c : Cell) : St World nat := fun w =>
  (next_cell w, mkWorld (<[next_cell w := c]> (cells w)) (engines w) (registry w) (drainCh w)
     (waiters w) (started w) (readies w) (scopes w) (metrics w) (now w)
     (S (next_cell w)) (next_eng w)).
Definition new_engine (e : EngineObj) : St World nat := fun w =>
  (next_eng w, mkWorld (cells w) (<[next_eng w := e]> (engines w)) (registry w) (drainCh w)
     (waiters w) (started w) (readies w) (scopes w) (metrics w) (now w)
     (next_cell w) (S (next_eng w))).

(** The program before its first poll. *)
Definition empty_world (sc : Scopes) : World :=
  mkWorld ∅ ∅ ∅ [] [] [] ∅ sc [] 1 0 0.
End Updates.

(** ** Methods of [Cell] *)

Section CellOps.
Context {L : LlmdRouter}.
Abbreviation M := (St World).

(** Reading a field through a cell pointer. *)
Definition load {A} (f : Cell -> A) (d : A) (c : nat) : M A :=
  gets (fun w => from_option f d (cells w !! c)).
(** Updating the cell a pointer denotes. *)
Definition on_cell (f : Cell -> Cell) (c : nat) : M unit := modify (on_cells (alter f c)).
Definition on_engine (f : EngineObj -> EngineObj) (e : nat) : M unit :=
  modify (on_engines (alter f e)).
Definition metric (m : metric_call) : M unit := modify (on_metrics (fun l => l ++ [m])).

(** [(c *Cell) Engine()], [Role()], [State()] *)
Definition Cell_Engine (c : nat) : M (option nat) := load c_engine None c.
Definition Cell_Role (c : nat) : M Role := load c_role RoleNone c.
Definition Cell_State (c : nat) : M State := load c_state StateCreating c.
Definition Cell_Key (c : nat) : M Key := load c_key ""%string c.

(** [(c *Cell) setRole(r)] *)
Definition setRole (c : nat) (r : Role) : M unit :=
  on_cell (set_role r) c ;;
  k ← Cell_Key c; s ← Cell_State c;
  metric (CellState_Set k (Role_String r) (State_String s) 1).

(** [(c *Cell) setState(s)] *)
Definition setState (c : nat) (s : State) : M unit :=
  on_cell (set_state s) c ;;
  k ← Cell_Key c; r ← Cell_Role c;
  metric (CellState_Set k (Role_String r) (State_String s) 1).

(** [(c *Cell) markReady()] *)
Definition markReady (c : nat) : M unit :=
  once ← load c_once true c;
  if once : bool then mret tt else
    t ← gets now;
    on_cell (set_ready t) c ;;
    s ← Cell_State c;
    if decide (s = StateCreating) then setState c StateStandby else mret tt.

(** The channel [Ready()] is closed. *)
Definition Cell_Ready (c : nat) : M bool :=
  n ← load readyCloses 0%nat c; mret (0 <? n)%nat.

(** [(c *Cell) ReadySince()]; [None] is the zero [time.Time]. *)
Definition ReadySince (c : nat) : M (option Z) :=
  t ← load readyAt 0 c; mret (if t =? 0 then None else Some t).

(** [(c *Cell) Track(e)]: the three atomic actions it is made of, and their
    composition; [true] hands the caller [e.wg.Done]. *)
Definition wg_Add (e : nat) : M unit := on_engine (add_wg 1) e.
Definition wg_Done (e : nat) : M unit := on_engine (add_wg (-1)) e.
Definition is_current (c e : nat) : M bool :=
  cur ← Cell_Engine c; mret (bool_decide (cur = Some e)).
Definition Track (c e : nat) : M bool :=
  wg_Add e ;;
  cur ← is_current c e;
  if cur : bool then mret true else wg_Done e ;; mret false.

(** [(c *Cell) Close()] *)
Definition Close (c : nat) : M unit := on_cell set_closed c.

(** ** Methods of [Engine] *)

(** [e.ctx.Done()] is closed: the engine was canceled, or its cell. *)
Definition ctx_done (w : World) (e : nat) : bool :=
  match engines w !! e with
  | Some o => canceled o || from_option c_closed false (cells w !! parent o)
  | None => false
  end.

(** [(e *Engine) start(c, logger)]: launch the discovery plugins and the waiter
    that marks the cell ready. *)
Definition start (e c : nat) : M unit :=
  n ← gets (fun w => from_option (fun o => length (discovery (eng o))) 0%nat (engines w !! e));
  if decide (n = 0%nat) then markReady c
  else
    modify (on_started (fun l => l ++ ((fun i => (e, i)) <$> seq 0 n))) ;;
    modify (on_waiters (fun l => l ++ [mkWaiter e c 0])).

(** One turn of that waiter: [None] when it has finished. The [select] takes a
    closed channel; when both are closed either branch may run, hence [prefer]. *)
Definition waiter_step (prefer_ctx : bool) (x : waiter) : M (option waiter) :=
  w ← get_st;
  let n := from_option (fun o => length (discovery (eng o))) 0%nat (engines w !! w_eng x) in
  let ready := bool_decide ((w_eng x, w_next x) ∈ readies w) in
  let done := ctx_done w (w_eng x) in
  if (n <=? w_next x)%nat then markReady (w_cell x) ;; mret None
  else if done && (prefer_ctx || negb ready) then mret None
  else if ready then mret (Some (mkWaiter (w_eng x) (w_cell x) (S (w_next x))))
  else mret (Some x).

(** [(e *Engine) drain(timeout)]: cancel, then wait for [wg] or the timeout.
    The wait ends by itself and changes nothing; see System.v for what it
    guarantees. *)
Definition Engine_drain (e : nat) : M unit :=
  on_engine (fun o => if cancel (eng o) then set_canceled o else o) e.

End CellOps.

(** ** Symbolic execution

    [put] writes a whole cell, [note] appends metric calls: on a known cell every
    operation above is a composition of the two. *)

Section Run.
Context {L : LlmdRouter}.

Definition put (c : nat) (o : Cell) (w : World) : World := on_cells (insert c o) w.
Definition note (ms : list metric_call) (w : World) : World := on_metrics (fun l => l ++ ms) w.

Lemma cells_put c o w : cells (put c o w) !! c = Some o.
Proof. apply lookup_insert_eq. Qed.

Lemma cells_put_ne c c' o w : c <> c' -> cells (put c o w) !! c' = cells w !! c'.
Proof. intros. by apply lookup_insert_ne. Qed.

Lemma put_put c o o' w : put c o (put c o' w) = put c o w.
Proof. unfold put, on_cells. simpl. by rewrite insert_insert_eq. Qed.

Lemma put_note c o ms w : put c o (note ms w) = note ms (put c o w).
Proof. done. Qed.

Lemma note_note ms ms' w : note ms (note ms' w) = note (ms' ++ ms) w.
Proof. unfold note, on_metrics. simpl. by rewrite <- app_assoc. Qed.

Lemma put_id c o w : cells w !! c = Some o -> put c o w = w.
Proof. intros H. unfold put, on_cells. rewrite insert_id by done. by destruct w. Qed.

Lemma on_cells_put f c o w :
  cells w !! c = Some o -> on_cells (alter f c) w = put c (f o) w.
Proof.
  intros H. unfold put, on_cells. f_equal. apply map_eq. intros i. destruct (decide (i = c)) as [->|].
  - by rewrite lookup_alter_eq, lookup_insert_eq, H.
  - by rewrite lookup_alter_ne, lookup_insert_ne by done.
Qed.

Lemma on_cell_run f c o w :
  cells w !! c = Some o -> on_cell f c w = (tt, put c (f o) w).
Proof. intros H. unfold on_cell, modify. by rewrite (on_cells_put _ _ o). Qed.

Lemma metric_run m w : metric m w = (tt, note [m] w).
Proof. done. Qed.

Lemma load_run {A} (f : Cell -> A) d c o w :
  cells w !! c = Some o -> load f d c w = (f o, w).
Proof. intros H. unfold load, gets. by rewrite H. Qed.

Definition state_call (o : Cell) : metric_call :=
  CellState_Set (c_key o) (Role_String (c_role o)) (State_String (c_state o)) 1.

Lemma setRole_run c r o w : cells w !! c = Some o ->
  setRole c r w = (tt, note [state_call (set_role r o)] (put c (set_role r o) w)).
Proof.
  intros H. unfold setRole, Cell_Key, Cell_State. step on_cell_run.
  step (load_run _ _ _ _ _ (cells_put _ _ _)). by step (load_run _ _ _ _ _ (cells_put _ _ _)).
Qed.

Lemma setState_run c s o w : cells w !! c = Some o ->
  setState c s w = (tt, note [state_call (set_state s o)] (put c (set_state s o) w)).
Proof.
  intros H. unfold setState, Cell_Key, Cell_Role. step on_cell_run.
  step (load_run _ _ _ _ _ (cells_put _ _ _)). by step (load_run _ _ _ _ _ (cells_put _ _ _)).
Qed.

Lemma Close_run c o w : cells w !! c = Some o -> Close c w = (tt, put c (set_closed o) w).
Proof. apply on_cell_run. Qed.

(** The cell [markReady] leaves, and the metric calls it makes. *)
Definition ready_cell (t : Z) (o : Cell) : Cell :=
  if c_once o then o else
  let o' := set_ready t o in
  if decide (c_state o = StateCreating) then set_state StateStandby o' else o'.

Lemma note_nil w : note [] w = w.
Proof. unfold note, on_metrics. rewrite app_nil_r. by destruct w. Qed.

Lemma markReady_run c o w : cells w !! c = Some o ->
  exists ms, markReady c w = (tt, note ms (put c (ready_cell (now w) o) w)).
Proof.
  intros H. unfold markReady, ready_cell, Cell_State. step load_run.
  destruct (c_once o); [exists []; by rewrite put_id, note_nil|].
  step gets_run. step on_cell_run. step (load_run _ _ _ _ _ (cells_put _ _ _)).
  change (c_state (set_ready (now w) o)) with (c_state o). case_decide.
  - eexists. rewrite (setState_run _ _ (set_ready (now w) o)) by apply cells_put.
    by rewrite put_put.
  - exists []. by rewrite note_nil.
Qed.
End Run.
