(* ===== verification/Compile.v ===== *)
(** * Compiling a configuration into an engine (pkg/cell/compile.go)

    [Compile] is one pass over calls of llm-d-router with an early return per
    failing call.  It runs in a small state-and-error monad whose state is what
    outlives the call: the cell's data plane, the process-wide scope registry
    and the engine context. *)

From S2P Require Import Prelude.
From S2P Require Import GoStd.
From S2P Require Import Sha256.
From S2P Require Import Role.
From S2P Require Import Llmd.
From S2P Require Import Cell.
Local Open Scope string_scope.
Local Open Scope Z_scope.

Section Compile.
Context {L : LlmdRouter}.

(** [engCtx]: not created yet, or created and possibly canceled. *)
Record CompileState := mkCompile {
  cs_data : DataPlane; cs_scopes : Scopes; cs_ctx : option bool }.

Definition CM (A : Type) : Type := CompileState -> result error A * CompileState.
#[export] Instance CM_ret : MRet CM := fun _ a s => (Ok a, s).
#[export] Instance CM_bind : MBind CM := fun _ _ f m s =>
  match m s with (Ok a, s') => f a s' | (Err e, s') => (Err e, s') end.

Definition throw {A} (e : error) : CM A := fun s => (Err e, s).
Definition set_cs_data d s := mkCompile d (cs_scopes s) (cs_ctx s).
Definition set_cs_rt r s :=
  set_cs_data (mkData (ds (cs_data s)) r (dataConfigured (cs_data s))) s.

(** [context.WithCancel(cellCtx)] and [cancel()] *)
Definition with_cancel : CM unit := fun s => (Ok tt, mkCompile (cs_data s) (cs_scopes s) (Some false)).
Definition cancel_ctx : CM unit := fun s => (Ok tt, mkCompile (cs_data s) (cs_scopes s) (Some true)).

(** [fail := func(err error) ... { cancel(); return nil, err }] *)
Definition fail {A} (e : error) : CM A := cancel_ctx ;; throw e.

(** [if err := ...; err != nil { return fail(fmt.Errorf(p + ": %w", err)) }] *)
Definition check (p : string) (r : option error) : CM unit :=
  match r with None => mret tt | Some e => fail (Errorf p e) end.
Definition check_ok {A} (p : string) (r : result error A) : CM A :=
  match r with Ok a => mret a | Err e => fail (Errorf p e) end.

Definition scopes_add (ps : list Plugin) : CM unit := fun s =>
  (Ok tt, mkCompile (cs_data s) (RegisterScopeSpecs ps (cs_scopes s)) (cs_ctx s)).
(** Run a call that mutates the cell's runtime. *)
Definition on_runtime {A} (m : St Runtime A) : CM A := fun s =>
  let '(a, r) := m (rt (cs_data s)) in (Ok a, set_cs_rt r s).
(** [c.dataConfigured.Load()] and [.Store(true)] *)
Definition data_configured : CM bool := fun s => (Ok (dataConfigured (cs_data s)), s).
Definition set_configured : CM unit := fun s =>
  (Ok tt, set_cs_data (mkData (ds (cs_data s)) (rt (cs_data s)) true) s).
Definition cell_ds : CM Datastore := fun s => (Ok (ds (cs_data s)), s).

(** [makePodListFunc(ds)]: the closure lists the pods at the time it is called. *)
Definition makePodListFunc (d : Datastore) : DsState -> list NamespacedName :=
  fun now => GetMetadata_ID <$> PodList d now.

(** [type Dependencies struct], without the logger and the metrics recorder. *)
Record Dependencies := mkDeps {
  dep_PoolNamespace : string; dep_RefreshMetricsInterval : Z;
  dep_MaxPoolBufferSize : Z; dep_AllowExperimentalPlugins : bool }.

(** [for _, p := range handle.GetAllPlugins() { RegisterDependencies }] *)
Fixpoint register_dependencies (ps : list Plugin) : CM unit :=
  match ps with
  | [] => mret tt
  | p :: ps' =>
      match as_Registrant p with
      | Some reg =>
          r ← on_runtime reg;
          check ("plugin " +:+ TypedName p +:+ " register dependencies") r ;;
          register_dependencies ps'
      | None => register_dependencies ps'
      end
  end.

(** The data layer runtime is configured by the first configuration only. *)
Definition configure_once (d : DataConfig) : CM unit :=
  configured ← data_configured;
  if configured : bool then mret tt else
    r ← on_runtime (Configure d);
    check "configure datalayer runtime" r ;;
    set_configured.

(** [rawConfig.DataLayer.Discovery.Endpoints.PluginRef], if no pointer is nil. *)
Definition discovery_ref (rc : RawConfig) : option string :=
  dl ← raw_DataLayer rc; di ← dl_Discovery dl; ep ← disc_Endpoints di;
  Some (ep_PluginRef ep).

(** The discovery plugin the configuration names. *)
Definition find_discovery (rc : RawConfig) (h : Handle) : CM (list Discovery) :=
  match discovery_ref rc with
  | None => mret []
  | Some ref =>
      match Handle_Plugin h ref with
      | None => fail (NewError ("discovery: no plugin found with name " +:+ Quote ref))
      | Some p =>
          match as_EndpointDiscovery p with
          | None => fail (NewError ("discovery: plugin " +:+ Quote ref +:+
                                    " does not implement EndpointDiscovery"))
          | Some d => mret [d]
          end
      end
  end.

(** [Compile(cellCtx, key, raw, c, deps)] *)
Definition Compile (key : Key) (raw : string) (deps : Dependencies) : CM Engine :=
  match LoadRawConfig raw with
  | Err e => throw (Errorf "decode config" e)
  | Ok (rawConfig, featureGates) =>
      with_cancel ;;
      d ← cell_ds;
      let handle := NewEppHandle (makePodListFunc d) in
      let '(rcfg, handle) := InstantiateAndConfigure rawConfig handle in
      cfg ← check_ok "instantiate plugins" rcfg;
      let '(rprod, handle) := CreateMissingDataProducers handle in
      check "create data producers" rprod ;;
      let rcConfig := AddPlugins (GetAllPlugins handle) NewConfig in
      register_dependencies (GetAllPlugins handle) ;;
      dag ← check_ok "order data dependencies" (ValidateAndOrderDataDependencies (GetAllPlugins handle));
      let rcConfig := OrderPlugins dag rcConfig in
      scopes_add (GetAllPlugins handle) ;;
      check "plugin stability" (ValidatePluginStability handle (dep_AllowExperimentalPlugins deps)) ;;
      configure_once (cfg_DataConfig cfg) ;;
      let scheduler := NewSchedulerWithConfig (cfg_SchedulerConfig cfg) in
      let candidates := NewDatastoreEndpointCandidates d in
      let '(fc, admission, candidates) :=
        match default false (featureGates !! FeatureGate), cfg_FlowControlConfig cfg with
        | true, Some fcc =>
            let candidates := NewCachedEndpointCandidates candidates (50 * Millisecond) in
            let registry := NewFlowRegistry fcc in
            let fc := NewFlowController key fcc registry (cfg_SaturationDetector cfg) candidates in
            (Some fc, NewFlowControlAdmissionController fc key candidates, candidates)
        | _, _ => (None, NewLegacyAdmissionController (cfg_SaturationDetector cfg) candidates, candidates)
        end in
      let director := NewDirectorWithConfig d scheduler admission candidates rcConfig in
      let streamer := NewStreamingServer d director (cfg_ParserRegistry cfg) (dep_MaxPoolBufferSize deps) in
      discs ← find_discovery rawConfig handle;
      mret (mkEngine (HashConfig raw) (Some director) fc (Some handle)
              (Some (cfg_ParserRegistry cfg)) (Some streamer) discs true)
  end.

(** ** What a compilation does to the state around it *)

(** Every step keeps the datastore pointer, never un-configures the runtime, and
    a step that fails leaves the engine context canceled. *)
Definition safe {A} (m : CM A) : Prop := forall s, cs_ctx s = Some false ->
  ds (cs_data (m s).2) = ds (cs_data s) /\
  (dataConfigured (cs_data s) = true -> dataConfigured (cs_data (m s).2) = true) /\
  match (m s).1 with Ok _ => cs_ctx (m s).2 = Some false | Err _ => cs_ctx (m s).2 = Some true end.

Lemma safe_ret {A} (a : A) : safe (mret a).
Proof. by intros s Hs. Qed.

Lemma safe_bind {A B} (m : CM A) (f : A -> CM B) :
  safe m -> (forall a, safe (f a)) -> safe (m ≫= f).
Proof.
  intros Hm Hf s Hs. unfold mbind, CM_bind. destruct (Hm s Hs) as (Hd & Hc & Hx).
  destruct (m s) as [[a|e] s']; simpl in *; [|done].
  destruct (Hf a s' Hx) as (Hd' & Hc' & Hx'). by rewrite Hd'; auto.
Qed.

Lemma safe_fail {A} e : safe (fail (A := A) e).
Proof. by intros s Hs. Qed.

Lemma safe_check p r : safe (check p r).
Proof. destruct r; [apply safe_fail|apply safe_ret]. Qed.

Lemma safe_check_ok {A} p (r : result error A) : safe (check_ok p r).
Proof. destruct r; [apply safe_ret|apply safe_fail]. Qed.

Lemma safe_on_runtime {A} (m : St Runtime A) : safe (on_runtime m).
Proof. intros s Hs. unfold on_runtime. by destruct (m _). Qed.

Lemma safe_prim :
  safe data_configured /\ safe set_configured /\ safe cell_ds /\ (forall ps, safe (scopes_add ps)).
Proof. by repeat split. Qed.

End Compile.

#[export] Hint Resolve safe_ret safe_bind safe_fail safe_check safe_check_ok safe_on_runtime : epp.

Section Facts.
Context {L : LlmdRouter}.

Lemma safe_register ps : safe (register_dependencies ps).
Proof. induction ps as [|p ps IH]; simpl; [|case_match]; auto 8 with epp. Qed.

Lemma safe_configure d : safe (configure_once d).
Proof.
  destruct safe_prim as (H1 & H2 & _). unfold configure_once.
  apply safe_bind; [done|]. intros []; auto 8 with epp.
Qed.

Lemma safe_find_discovery rc h : safe (find_discovery rc h).
Proof. unfold find_discovery. repeat case_match; auto with epp. Qed.

(** The part of [Compile] after the raw configuration was decoded. *)
Lemma Compile_decoded key raw deps rc gates :
  LoadRawConfig raw = Ok (rc, gates) ->
  exists m, Compile key raw deps = (with_cancel ;; m) /\ safe m.
Proof.
  intros Hl. unfold Compile. rewrite Hl. eexists. split; [reflexivity|].
  destruct safe_prim as (_ & _ & H3 & H4). apply safe_bind; [done|]. intros d.
  destruct (InstantiateAndConfigure _ _) as [rcfg h].
  apply safe_bind; [apply safe_check_ok|]. intros cfg.
  destruct (CreateMissingDataProducers h) as [rprod h'].
  repeat first [apply safe_check|apply safe_check_ok|apply safe_register|apply safe_configure
               |apply H4|apply safe_bind; [|intros ?]].
  repeat case_match; simplify_eq; (apply safe_bind; [apply safe_find_discovery|intros ?; apply safe_ret]).
Qed.

(** *** The scope registry is written, never read *)

(** Two compile states that differ only in the scope registry. *)
Definition same_data (s s' : CompileState) : Prop := cs_data s = cs_data s' /\ cs_ctx s = cs_ctx s'.
Definition scope_blind {A} (m : CM A) : Prop := forall s s', same_data s s' ->
  (m s).1 = (m s').1 /\ same_data (m s).2 (m s').2.

Lemma blind_ret {A} (a : A) : scope_blind (mret a).
Proof. by intros s s' H. Qed.

Lemma blind_bind {A B} (m : CM A) (f : A -> CM B) :
  scope_blind m -> (forall a, scope_blind (f a)) -> scope_blind (m ≫= f).
Proof.
  intros Hm Hf s s' Hs. unfold mbind, CM_bind. destruct (Hm s s' Hs) as [He Hd].
  destruct (m s) as [[a|e] s1], (m s') as [[a'|e'] s1']; simpl in *; simplify_eq; [|done].
  by apply Hf.
Qed.

Lemma blind_fail {A} e : scope_blind (fail (A := A) e).
Proof. intros s s' [H1 H2]. split; [done|]. by split. Qed.

Lemma blind_check p r : scope_blind (check p r).
Proof. destruct r; [apply blind_fail|apply blind_ret]. Qed.

Lemma blind_check_ok {A} p (r : result error A) : scope_blind (check_ok p r).
Proof. destruct r; [apply blind_ret|apply blind_fail]. Qed.

Lemma blind_on_runtime {A} (m : St Runtime A) : scope_blind (on_runtime m).
Proof.
  intros s s' [H1 H2]. unfold on_runtime. rewrite <- H1. destruct (m _) as [a r].
  split; [done|]. split; [|done]. simpl. by rewrite H1.
Qed.

Lemma blind_prim :
  scope_blind with_cancel /\ scope_blind data_configured /\ scope_blind set_configured /\
  scope_blind cell_ds /\ (forall ps, scope_blind (scopes_add ps)).
Proof.
  unfold scope_blind, same_data. repeat split; simpl; destruct H as [H1 H2]; congruence.
Qed.

Lemma blind_register ps : scope_blind (register_dependencies ps).
Proof.
  induction ps as [|p ps IH]; simpl; [apply blind_ret|]. case_match; [|done].
  apply blind_bind; [apply blind_on_runtime|]. intros r. apply blind_bind; [apply blind_check|done].
Qed.

Lemma blind_configure d : scope_blind (configure_once d).
Proof.
  destruct blind_prim as (_ & H1 & H2 & _). unfold configure_once.
  apply blind_bind; [done|]. intros []; [apply blind_ret|].
  apply blind_bind; [apply blind_on_runtime|]. intros r. by apply blind_bind; [apply blind_check|].
Qed.

Lemma blind_find_discovery rc h : scope_blind (find_discovery rc h).
Proof. unfold find_discovery. repeat case_match; apply blind_ret || apply blind_fail. Qed.

Lemma Compile_scope_blind key raw deps : scope_blind (Compile key raw deps).
Proof.
  destruct blind_prim as (H1 & _ & _ & H2 & H3). unfold Compile.
  destruct (LoadRawConfig raw) as [[rc gates]|e]; [|by intros s s' Hs].
  apply blind_bind; [done|]. intros _. apply blind_bind; [done|]. intros d.
  destruct (InstantiateAndConfigure _ _) as [rcfg h].
  apply blind_bind; [apply blind_check_ok|]. intros cfg.
  destruct (CreateMissingDataProducers h) as [rprod h'].
  repeat first [apply blind_check|apply blind_check_ok|apply blind_register|apply blind_configure
               |apply H3|apply blind_bind; [|intros ?]].
  repeat case_match; simplify_eq;
    (apply blind_bind; [apply blind_find_discovery|intros ?; apply blind_ret]).
Qed.

(** C29. Compilation releases what it acquires: when it fails, the engine
    context was either never created or is canceled, so that nothing of the
    failed generation keeps running; when it succeeds the context is live. In
    both cases the cell keeps its datastore and a configured runtime stays
    configured. *)
Theorem Compile_releases_context key raw deps d sc :
  let '(r, s) := Compile key raw deps (mkCompile d sc None) in
  ds (cs_data s) = ds d /\
  (dataConfigured d = true -> dataConfigured (cs_data s) = true) /\
  cs_ctx s = match r with
             | Ok _ => Some false
             | Err _ => if is_ok (LoadRawConfig raw) then Some true else None
             end.
Proof.
  destruct (LoadRawConfig raw) as [[rc gates]|e] eqn:Hl.
  - destruct (Compile_decoded key raw deps rc gates Hl) as (m & -> & Hm).
    unfold mbind, CM_bind, with_cancel. simpl.
    destruct (Hm (mkCompile d sc (Some false)) eq_refl) as (H1 & H2 & H3).
    by destruct (m _) as [[a|e] s].
  - unfold Compile. by rewrite Hl.
Qed.

(** With no plugin that registers dependencies the registration loop is a no-op. *)
Lemma register_none ps s :
  Forall (fun p => as_Registrant p = None) ps -> register_dependencies ps s = (Ok tt, s).
Proof. induction 1 as [|p ps Hp _ IH]; simpl; [done|]. by rewrite Hp. Qed.

(** A rejected configuration still decides the data plane: when everything
    but the discovery reference is in order, the compilation fails, but only
    after it has configured the runtime of the cell, which no later
    configuration does again. *)
Theorem rejected_config_configures_data_plane key raw deps d sc rc gates cfg h h' dag rt' ref :
  LoadRawConfig raw = Ok (rc, gates) ->
  InstantiateAndConfigure rc (NewEppHandle (makePodListFunc (ds d))) = (Ok cfg, h) ->
  CreateMissingDataProducers h = (None, h') ->
  Forall (fun p => as_Registrant p = None) (GetAllPlugins h') ->
  ValidateAndOrderDataDependencies (GetAllPlugins h') = Ok dag ->
  ValidatePluginStability h' (dep_AllowExperimentalPlugins deps) = None ->
  dataConfigured d = false -> Configure (cfg_DataConfig cfg) (rt d) = (None, rt') ->
  discovery_ref rc = Some ref -> Handle_Plugin h' ref = None ->
  let '(r, s) := Compile key raw deps (mkCompile d sc None) in
  is_ok r = false /\ cs_data s = mkData (ds d) rt' true /\ cs_ctx s = Some true.
Proof.
  intros Hl Hi Hp Hr Hv Hs Hd Hc Href Hpl. destruct d as [dds drt dconf]. simpl in *. subst dconf.
  unfold Compile, mbind, CM_bind. rewrite Hl. unfold with_cancel, cell_ds. simpl.
  rewrite Hi. simpl. rewrite Hp. unfold check. simpl. rewrite (register_none _ _ Hr). simpl.
  rewrite Hv. simpl. rewrite Hs. simpl. unfold configure_once, mbind, CM_bind, data_configured. simpl.
  unfold on_runtime. simpl. rewrite Hc. simpl. unfold find_discovery. rewrite Href, Hpl.
  by destruct (default false _); [destruct (cfg_FlowControlConfig cfg)|].
Qed.

End Facts.

Lemma rejected_config_configures_data_plane_witness :
  let '(r, s) := Compile (L := ToyLlmd.toy) "a" "noref" (mkDeps "" 0 0 false)
    (mkCompile (@mkData ToyLlmd.toy ["a"] [] false) 0%nat None) in
  is_ok r = false /\ rt (cs_data s) = ["noref"].
Proof.
  pose proof (@rejected_config_configures_data_plane ToyLlmd.toy "a" "noref" (mkDeps "" 0 0 false)
    (@mkData ToyLlmd.toy ["a"] [] false) 0%nat "noref" ∅ "noref" ["ep"; "kv-scorer"] ["ep"; "kv-scorer"]
    ["ep"; "kv-scorer"] ["noref"] "missing") as Hw.
  destruct (Compile _ _ _ _) as [r s].
  destruct Hw as (Hr & Hs & _); try reflexivity.
  - repeat constructor.
  - split; [exact Hr|]. exact (f_equal rt Hs).
Defined.
