(* ===== verification/Manager.v ===== *)
(** * The cell manager (pkg/cell/manager.go)

    Every method is a function on the [World] of Cell.v.  Methods run by the
    epp_data goroutine are atomic; what runs between them is modelled step by
    step in System.v. *)

From S2P Require Import Prelude.
From S2P Require Import GoStd.
From S2P Require Import Sha256.
From S2P Require Import Role.
From S2P Require Import Llmd.
From S2P Require Import Cell.
From S2P Require Import Compile.
Local Open Scope Z_scope.

(** [var ErrNotAssigned = errors.New(...)] *)
Definition ErrNotAssigned : error :=
  Sentinel "ErrNotAssigned" "cell not assigned to this instance".

Section Manager.
Context {L : LlmdRouter}.
Abbreviation M := (St World).

(** [type CompileFunc func(...)], and the type of [Options.NewCell]: a cell
    creator builds the data plane of the new cell. *)
Definition CompileFunc : Type := Key -> string -> CM Engine.
Definition NewCellFunc : Type := Key -> result error DataPlane.

(** [type Options struct] *)
Record Options := mkOptions {
  PoolNamespace : string;
  RefreshMetricsInterval : Z;
  MaxPoolBufferSize : Z;
  AllowExperimentalPlugins : bool;
  DrainTimeout : Z;
  DrainWorkers : Z;
  opt_Compile : option CompileFunc;
  opt_NewCell : option NewCellFunc }.

(** [type Manager struct]: what is fixed at creation; its maps and channels are
    in the [World]. *)
Record Manager := mkManager { m_opts : Options; m_compile : CompileFunc; m_newCell : NewCellFunc }.

(** [make(chan drainTask, 64)] *)
Definition drain_capacity : nat := 64.

(** [(m *Manager) defaultNewCell(ctx, key)] *)
Definition defaultNewCell (o : Options) (key : Key) : result error DataPlane :=
  let r := NewRuntime (RefreshMetricsInterval o) in
  let pool := NewEndpointPool (PoolNamespace o) key in
  Ok (mkData (WithEndpointPool (NewDatastore r) pool) r false).

(** [NewManager(ctx, opts)]; the drain workers it starts are steps of System.v. *)
Definition NewManager (opts : Options) : Manager :=
  let o := mkOptions (PoolNamespace opts) (RefreshMetricsInterval opts) (MaxPoolBufferSize opts)
    (AllowExperimentalPlugins opts)
    (if DrainTimeout opts <=? 0 then 60 * Second else DrainTimeout opts)
    (if DrainWorkers opts <=? 0 then 4 else DrainWorkers opts)
    (opt_Compile opts) (opt_NewCell opts) in
  mkManager o
    (default (fun key raw => Compile key raw
       (mkDeps (PoolNamespace o) (RefreshMetricsInterval o) (MaxPoolBufferSize o) (AllowExperimentalPlugins o))) (opt_Compile o))
    (default (defaultNewCell o) (opt_NewCell o)).

(** [(m *Manager) Get(key)] *)
Definition Get (key : Key) : M (option nat) := gets (fun w => registry w !! key).

(** [(m *Manager) List()]; [sync.Map.Range] visits the entries in some order. *)
Definition List_cells `{MapRange} : M (list nat) := gets (fun w => (range (registry w)).*2).

(** [m.cells.LoadOrStore(key, c)] and [m.cells.CompareAndDelete(key, c)] *)
Definition LoadOrStore (key : Key) (c : nat) : M (nat * bool) :=
  r ← Get key;
  match r with
  | Some c' => mret (c', true)
  | None => modify (on_registry (insert key c)) ;; mret (c, false)
  end.
Definition CompareAndDelete (key : Key) (c : nat) : M unit :=
  modify (on_registry (fun r => if decide (r !! key = Some c) then delete key r else r)).

(** [(m *Manager) drain(t)]: canceling the engine starts the drain; the teardown
    follows when the wait is over. *)
Definition drain_begin (t : drainTask) : M unit := Engine_drain (t_eng t).
Definition drain_end (t : drainTask) : M unit :=
  k ← Cell_Key (t_cell t);
  metric (DrainDuration_Observe k) ;;
  if t_teardown t then Close (t_cell t) ;; CompareAndDelete k (t_cell t) else mret tt.
Definition drain (t : drainTask) : M unit := drain_begin t ;; drain_end t.

(** [(m *Manager) scheduleDrain(c, eng, teardown)] *)
Definition scheduleDrain (c e : nat) (teardown : bool) : M unit :=
  n ← gets (fun w => length (drainCh w));
  if decide (n < drain_capacity)%nat
  then modify (on_drainCh (fun q => q ++ [mkTask c e teardown]))
  else drain (mkTask c e teardown).

(** The case [t := <-m.drainCh] of [drainWorker]. *)
Definition drain_next : M (option drainTask) := fun w =>
  match drainCh w with
  | [] => (None, w)
  | t :: q => (Some t, on_drainCh (fun _ => q) w)
  end.
(** A worker that takes and completes one task. *)
Definition drainWorker_turn : M unit :=
  t ← drain_next;
  match t with Some t => drain t | None => mret tt end.

(** [(m *Manager) Promote(key)] *)
Definition Promote (key : Key) : M unit :=
  r ← Get key;
  match r with
  | None => mret tt
  | Some c =>
      s ← Cell_State c;
      if decide (s = StateDraining) then mret tt else
        setRole c RolePrimary ;;
        s ← Cell_State c;
        if decide (s = StateStandby \/ s = StateCreating) then setState c StatePrimary else mret tt
  end.

(** [(m *Manager) Demote(key)] *)
Definition Demote (key : Key) : M unit :=
  r ← Get key;
  match r with
  | None => mret tt
  | Some c =>
      s ← Cell_State c;
      if decide (s = StateDraining) then mret tt else
        setRole c RoleStandby ;;
        s ← Cell_State c;
        (if decide (s = StatePrimary) then setState c StateStandby else mret tt) ;;
        e ← Cell_Engine c;
        match e with Some e => scheduleDrain c e false | None => mret tt end
  end.

(** [(m *Manager) Drop(key)] *)
Definition Drop (key : Key) : M unit :=
  r ← Get key;
  match r with
  | None => mret tt
  | Some c =>
      setState c StateDraining ;;
      e ← Cell_Engine c;
      match e with
      | Some e => scheduleDrain c e true
      | None => Close c ;; CompareAndDelete key c
      end
  end.

(** The role switch at the end of [Ensure]. *)
Definition apply_role (key : Key) (c : nat) (role : Role) : M unit :=
  cur ← Cell_Role c;
  if decide (cur = role) then mret tt else
  match role with
  | RolePrimary => Promote key
  | RoleStandby => if decide (cur = RoleNone) then setRole c RoleStandby else Demote key
  | RoleNone => mret tt
  end.

(** [Ensure]'s second half of the creation: publish the new cell [nc], or close
    it when another goroutine published one first. *)
Definition publish (key : Key) (nc : nat) : M nat :=
  setState nc StateCreating ;;
  al ← LoadOrStore key nc;
  if al.2 : bool then Close nc ;; mret al.1 else mret nc.

(** [(m *Manager) Ensure(ctx, key, role)] *)
Definition Ensure (m : Manager) (key : Key) (role : Role) : M (result error nat) :=
  r ← Get key;
  c ← (match r with
       | Some c => mret (Ok c)
       | None =>
           match m_newCell m key with
           | Err e => mret (Err (Errorf ("create cell " +:+ key) e))
           | Ok d =>
               nc ← new_cell (mkCell key d false None RoleNone StateCreating None false 0 0);
               c ← publish key nc; mret (Ok c)
           end
       end);
  match c with
  | Err e => mret (Err e)
  | Ok c => apply_role key c role ;; mret (Ok c)
  end.

(** Run a compile function against the data plane of cell [c]. *)
Definition run_compile {A} (c : nat) (m : CM A) : M (result error A) := fun w =>
  match cells w !! c with
  | None => (Err (NewError "nil pointer dereference"), w)
  | Some o =>
      let '(r, s) := m (mkCompile (c_data o) (scopes w) None) in
      (r, set_scopes (cs_scopes s) (on_cells (alter (set_data (cs_data s)) c) w))
  end.

(** [(m *Manager) ApplyConfig(ctx, key, raw)] *)
Definition ApplyConfig (m : Manager) (key : Key) (raw : string) : M (bool * option error) :=
  r ← Get key;
  match r with
  | None => mret (false, Some ErrNotAssigned)
  | Some c =>
      s ← Cell_State c;
      if decide (s = StateDraining) then mret (false, Some ErrNotAssigned) else
      let hash := HashConfig raw in
      cur ← load c_hash None c;
      if decide (cur = Some hash) then mret (false, None) else
      r ← run_compile c (m_compile m key raw);
      match r with
      | Err e => metric (EngineReloads_Inc key "invalid") ;; mret (false, Some e)
      | Ok eng =>
          e ← new_engine (mkEngineObj eng c false 0);
          old ← Cell_Engine c;
          on_cell (set_engine (Some e)) c ;;
          on_cell (set_hash hash) c ;;
          metric (EngineReloads_Inc key "success") ;;
          metric (CurrentVersion_DeletePartialMatch key) ;;
          metric (CurrentVersion_Set key (Version eng) 1) ;;
          start e c ;;
          (match old with Some o => scheduleDrain c o false | None => mret tt end) ;;
          mret (true, None)
      end
  end.

(** The condition [WaitReady] polls: every listed cell exists and is ready.
    [ctx_err] is the error of the context once it is done; the [select] may then
    prefer it to a ready channel. *)
Fixpoint WaitReady_cond (ctx_err : option error) (prefer_ctx : bool) (keys : list Key) :
    M (bool * option error) :=
  match keys with
  | [] => mret (true, None)
  | k :: ks =>
      r ← Get k;
      match r with
      | None => mret (false, None)
      | Some c =>
          ready ← Cell_Ready c;
          match ctx_err with
          | Some e =>
              if ready && negb prefer_ctx then WaitReady_cond ctx_err prefer_ctx ks
              else mret (false, Some e)
          | None =>
              if ready : bool then WaitReady_cond ctx_err prefer_ctx ks else mret (false, None)
          end
      end
  end.

End Manager.
