(* ===== verification/ManagerFacts.v ===== *)
(** * Symbolic execution of the manager

    The first half gives every manager method a closed form on a known cell:
    which cell it writes, what it queues, what it tears down.  The
    invariant itself, [wf], is in WellFormed.v. *)

From S2P Require Import Prelude.
From S2P Require Import GoStd.
From S2P Require Import Sha256.
From S2P Require Import Role.
From S2P Require Import Llmd.
From S2P Require Import Cell.
From S2P Require Import Compile.
From S2P Require Import Manager.
Local Open Scope Z_scope.

Section Forms.
Context {L : LlmdRouter}.

(** ** Building blocks *)

Definition cancel_obj (o : EngineObj) : EngineObj := if cancel (eng o) then set_canceled o else o.
Definition cancel_eng (e : nat) (w : World) : World := on_engines (alter cancel_obj e) w.
Definition unregister (k : Key) (c : nat) (w : World) : World :=
  on_registry (fun r => if decide (r !! k = Some c) then delete k r else r) w.
(** Close the cell and take it out of the registry. *)
Definition torn (c : nat) (o : Cell) (w : World) : World :=
  unregister (c_key o) c (put c (set_closed o) w).
Definition drained (td : bool) (c e : nat) (o : Cell) (w : World) : World :=
  if td then torn c o (cancel_eng e w) else cancel_eng e w.
Definition enqueue (t : drainTask) (w : World) : World := on_drainCh (fun q => q ++ [t]) w.
Definition scheduled (td : bool) (c e : nat) (o : Cell) (w : World) : World :=
  if decide (length (drainCh w) < drain_capacity)%nat then enqueue (mkTask c e td) w
  else drained td c e o w.

Definition promoted (o : Cell) : Cell :=
  set_state (if decide (c_state o = StateStandby \/ c_state o = StateCreating)
             then StatePrimary else c_state o) (set_role RolePrimary o).
Definition demoted (o : Cell) : Cell :=
  set_state (if decide (c_state o = StatePrimary) then StateStandby else c_state o)
    (set_role RoleStandby o).
Definition dropped (o : Cell) : Cell := set_state StateDraining o.

(** The engine of [o], if any, goes to the drain queue. *)
Definition drain_engine (td : bool) (c : nat) (o : Cell) (w : World) : World :=
  match c_engine o with Some e => scheduled td c e o w | None => if td then torn c o w else w end.

Lemma set_state_id o : set_state (c_state o) o = o.
Proof. by destruct o. Qed.

(** ** Closed forms *)

Lemma drain_run t o w : cells w !! t_cell t = Some o ->
  exists ms, drain t w = (tt, note ms (drained (t_teardown t) (t_cell t) (t_eng t) o w)).
Proof.
  intros H. unfold drain, drain_begin, Engine_drain, on_engine, drain_end, Cell_Key, drained.
  erewrite bind_step by reflexivity. cbn beta.
  step (load_run c_key ""%string (t_cell t) o (cancel_eng (t_eng t) w) H).
  eexists. erewrite bind_step by reflexivity. cbn beta.
  destruct (t_teardown t); [|reflexivity].
  erewrite bind_step; [|apply (Close_run _ o); exact H]. reflexivity.
Qed.

Lemma scheduleDrain_run c e td o w : cells w !! c = Some o ->
  exists ms, scheduleDrain c e td w = (tt, note ms (scheduled td c e o w)).
Proof.
  intros H. unfold scheduleDrain, scheduled. step gets_run. case_decide.
  - exists []. by rewrite note_nil.
  - apply (drain_run (mkTask c e td)). done.
Qed.

Lemma drained_note td c e o ms w : drained td c e o (note ms w) = note ms (drained td c e o w).
Proof. destruct td; reflexivity. Qed.

Lemma scheduled_note td c e o ms w :
  scheduled td c e o (note ms w) = note ms (scheduled td c e o w).
Proof.
  unfold scheduled. change (drainCh (note ms w)) with (drainCh w).
  case_decide; [done|apply drained_note].
Qed.

Lemma drain_engine_note td c o ms w :
  drain_engine td c o (note ms w) = note ms (drain_engine td c o w).
Proof. unfold drain_engine. destruct (c_engine o); [apply scheduled_note|destruct td; reflexivity]. Qed.

Lemma Promote_run k c o w :
  registry w !! k = Some c -> cells w !! c = Some o -> c_state o <> StateDraining ->
  exists ms, Promote k w = (tt, note ms (put c (promoted o) w)).
Proof.
  intros Hr Hc Hs. unfold Promote, Get, Cell_State, promoted. step gets_run. rewrite Hr. step load_run.
  rewrite decide_False by done. step setRole_run.
  erewrite bind_step; [|apply (load_run _ _ _ (set_role RolePrimary o)); apply cells_put]. cbn beta.
  change (c_state (set_role RolePrimary o)) with (c_state o). case_decide.
  - rewrite (setState_run _ _ (set_role RolePrimary o)) by apply cells_put.
    eexists. by rewrite put_note, put_put, note_note.
  - eexists. rewrite <- (set_state_id (set_role RolePrimary o)) at 1. done.
Qed.

Lemma Promote_draining k c o w :
  registry w !! k = Some c -> cells w !! c = Some o -> c_state o = StateDraining ->
  Promote k w = (tt, w).
Proof.
  intros Hr Hc Hs. unfold Promote, Get, Cell_State. step gets_run. rewrite Hr. step load_run.
  by rewrite decide_True.
Qed.

(** The engine branch at the end of [Demote]. *)
Lemma drain_engine_run td c o w : cells w !! c = Some o ->
  exists ms,
    match c_engine o with
    | Some e => scheduleDrain c e td
    | None => if td then (Close c ;; CompareAndDelete (c_key o) c) else mret tt
    end w = (tt, note ms (drain_engine td c o w)).
Proof.
  intros H. unfold drain_engine. destruct (c_engine o) as [e|].
  - by apply scheduleDrain_run.
  - exists []. rewrite note_nil. destruct td; [|done].
    erewrite bind_step; [|by apply Close_run]. done.
Qed.

Lemma Demote_run k c o w :
  registry w !! k = Some c -> cells w !! c = Some o -> c_state o <> StateDraining ->
  exists ms, Demote k w = (tt, note ms (drain_engine false c (demoted o) (put c (demoted o) w))).
Proof.
  intros Hr Hc Hs. unfold Demote, Get, Cell_State, demoted. step gets_run. rewrite Hr. step load_run.
  rewrite decide_False by done. step setRole_run.
  erewrite bind_step; [|apply (load_run _ _ _ (set_role RoleStandby o)); apply cells_put]. cbn beta.
  change (c_state (set_role RoleStandby o)) with (c_state o).
  set (o' := set_state _ _).
  assert (Hst : exists ms, (if decide (c_state o = StatePrimary) then setState c StateStandby
     else mret tt) (note [state_call (set_role RoleStandby o)] (put c (set_role RoleStandby o) w))
     = (tt, note ms (put c o' w))).
  { unfold o'. case_decide.
    - rewrite (setState_run _ _ (set_role RoleStandby o)) by apply cells_put.
      eexists. by rewrite put_note, put_put, note_note.
    - eexists. rewrite <- (set_state_id (set_role RoleStandby o)) at 1. done. }
  destruct Hst as [ms Hst]. erewrite bind_step by exact Hst. cbn beta. unfold Cell_Engine.
  erewrite bind_step; [|apply (load_run _ _ _ o'); apply cells_put]. cbn beta.
  destruct (drain_engine_run false c o' (note ms (put c o' w)) (cells_put _ _ _)) as [ms' Hd].
  exists (ms ++ ms'). rewrite <- note_note, <- drain_engine_note. exact Hd.
Qed.

Lemma Demote_draining k c o w :
  registry w !! k = Some c -> cells w !! c = Some o -> c_state o = StateDraining ->
  Demote k w = (tt, w).
Proof.
  intros Hr Hc Hs. unfold Demote, Get, Cell_State. step gets_run. rewrite Hr. step load_run.
  by rewrite decide_True.
Qed.

Lemma Drop_run k c o w :
  registry w !! k = Some c -> cells w !! c = Some o -> c_key o = k ->
  exists ms, Drop k w = (tt, note ms (drain_engine true c (dropped o) (put c (dropped o) w))).
Proof.
  intros Hr Hc Hk. unfold Drop, Get. step gets_run. rewrite Hr. step setState_run.
  unfold Cell_Engine. erewrite bind_step; [|apply (load_run _ _ _ (dropped o)); apply cells_put].
  cbn beta. set (ms := [_]).
  destruct (drain_engine_run true c (dropped o) (note ms (put c (dropped o) w)) (cells_put _ _ _))
    as [ms' Hd].
  exists (ms ++ ms'). rewrite <- note_note, <- drain_engine_note. rewrite <- Hd.
  change (c_key (dropped o)) with (c_key o). by rewrite Hk.
Qed.

Lemma Drop_absent k w : registry w !! k = None -> Drop k w = (tt, w).
Proof. intros H. unfold Drop, Get. step gets_run. by rewrite H. Qed.

(** What [apply_role] does to a registered cell. *)
Definition role_applied (c : nat) (o : Cell) (r : Role) (w : World) : World :=
  if decide (c_role o = r) then w else
  match r with
  | RolePrimary => if decide (c_state o = StateDraining) then w else put c (promoted o) w
  | RoleStandby =>
      if decide (c_role o = RoleNone) then put c (set_role RoleStandby o) w
      else if decide (c_state o = StateDraining) then w
      else drain_engine false c (demoted o) (put c (demoted o) w)
  | RoleNone => w
  end.

Lemma role_applied_note c o r ms w :
  role_applied c o r (note ms w) = note ms (role_applied c o r w).
Proof.
  unfold role_applied. repeat case_match; try done. by rewrite put_note, drain_engine_note.
Qed.

Lemma apply_role_run k c o r w :
  registry w !! k = Some c -> cells w !! c = Some o ->
  exists ms, apply_role k c r w = (tt, note ms (role_applied c o r w)).
Proof.
  intros Hr Hc. unfold apply_role, Cell_Role, role_applied. step load_run.
  case_decide; [exists []; by rewrite note_nil|]. destruct r.
  - exists []. by rewrite note_nil.
  - case_decide; [eexists; by apply setRole_run|]. case_decide.
    + exists []. rewrite note_nil. by eapply Demote_draining.
    + by apply Demote_run.
  - case_decide; [|by apply Promote_run].
    exists []. rewrite note_nil. by eapply Promote_draining.
Qed.

(** ** Creating a cell *)

(** The cell [Ensure] publishes for a key it does not know. *)
Definition fresh_cell (k : Key) (d : DataPlane) : Cell :=
  mkCell k d false None RoleNone StateCreating None false 0 0.
Definition with_new_cell (k : Key) (o : Cell) (w : World) : World :=
  on_registry (insert k (next_cell w)) (new_cell o w).2.

Lemma Ensure_known m k c r o w :
  registry w !! k = Some c -> cells w !! c = Some o ->
  exists ms, Ensure m k r w = (Ok c, note ms (role_applied c o r w)).
Proof.
  intros Hr Hc. unfold Ensure, Get. step gets_run. rewrite Hr.
  erewrite bind_step by reflexivity. cbn beta iota.
  destruct (apply_role_run k c o r w Hr Hc) as [ms Ha]. exists ms.
  by erewrite bind_step by exact Ha.
Qed.

Lemma Ensure_new m k d r w :
  registry w !! k = None -> m_newCell m k = Ok d ->
  let c := next_cell w in let o := fresh_cell k d in
  exists ms, Ensure m k r w = (Ok c, note ms (role_applied c o r (with_new_cell k o w))).
Proof.
  intros Hr Hn c o. unfold Ensure, Get. step gets_run. rewrite Hr, Hn.
  set (w1 := (new_cell o w).2).
  assert (Ho : cells w1 !! c = Some o) by apply lookup_insert_eq.
  assert (Hp : publish k c w1 =
    (c, note [state_call (set_state StateCreating o)] (with_new_cell k o w))).
  { unfold publish, LoadOrStore, Get. step setState_run.
    erewrite bind_step; [|step gets_run; change (registry _ !! k) with (registry w !! k);
      rewrite Hr; reflexivity].
    cbn beta iota. change (set_state StateCreating o) with o. unfold put, on_cells.
    unfold w1, new_cell, with_new_cell, mret, St_ret. cbn. f_equal. unfold on_registry, note, on_metrics.
    cbn. by rewrite insert_insert_eq. }
  erewrite bind_step; [|erewrite bind_step by reflexivity; cbn beta;
    erewrite bind_step by exact Hp; reflexivity].
  cbn beta iota.
  destruct (apply_role_run k c o r
    (note [state_call (set_state StateCreating o)] (with_new_cell k o w))) as [ms2 Ha2].
  { apply lookup_insert_eq. } { apply lookup_insert_eq. }
  exists ([state_call (set_state StateCreating o)] ++ ms2).
  erewrite bind_step by exact Ha2. by rewrite role_applied_note, note_note.
Qed.

(** ** Applying a configuration *)

(** The cell a successful compilation swaps the new engine into. *)
Definition swapped (h : string) (e : nat) (d : DataPlane) (o : Cell) : Cell :=
  set_hash h (set_engine (Some e) (set_data d o)).
Definition compiled_world (c : nat) (o : Cell) (s : CompileState) (w : World) : World :=
  set_scopes (cs_scopes s) (put c (set_data (cs_data s) o) w).
(** The goroutines of [start], or the cell they would have marked ready. *)
Definition launched (e c : nat) (en : Engine) (o : Cell) (w : World) : World :=
  if decide (length (discovery en) = 0%nat) then put c (ready_cell (now w) o) w
  else on_waiters (fun l => l ++ [mkWaiter e c 0])
         (on_started (fun l => l ++ ((fun i => (e, i)) <$> seq 0 (length (discovery en)))) w).
Definition retired (old : option nat) (c : nat) (o : Cell) (w : World) : World :=
  match old with Some x => scheduled false c x o w | None => w end.
(** The world before the old engine is retired. *)
Definition swapped_world (c : nat) (o : Cell) (h : string) (en : Engine) (s : CompileState)
    (w : World) : World :=
  let e := next_eng w in
  let o' := swapped h e (cs_data s) o in
  launched e c en o' (put c o' (new_engine (mkEngineObj en c false 0) (compiled_world c o s w)).2).

Lemma start_run e c x o w :
  engines w !! e = Some x -> cells w !! c = Some o ->
  exists ms, start e c w = (tt, note ms (launched e c (eng x) o w)).
Proof.
  intros He Hc. unfold start, launched. step gets_run. rewrite He. cbn [from_option].
  case_decide.
  - by apply markReady_run.
  - exists []. by rewrite note_nil.
Qed.

Lemma launched_note e c en o ms w :
  launched e c en o (note ms w) = note ms (launched e c en o w).
Proof. unfold launched. by case_decide. Qed.

Lemma run_compile_run {A} c o (m : CM A) w :
  cells w !! c = Some o ->
  let '(r, s) := m (mkCompile (c_data o) (scopes w) None) in
  run_compile c m w = (r, compiled_world c o s w).
Proof.
  intros Hc. destruct (m _) as [r s] eqn:Hm. unfold run_compile, compiled_world. rewrite Hc, Hm.
  by rewrite (on_cells_put _ _ o).
Qed.

(** The branches of [ApplyConfig] on a live cell. *)
Lemma ApplyConfig_unchanged m k raw c o w :
  registry w !! k = Some c -> cells w !! c = Some o -> c_state o <> StateDraining ->
  c_hash o = Some (HashConfig raw) -> ApplyConfig m k raw w = ((false, None), w).
Proof.
  intros Hr Hc Hs Hh. unfold ApplyConfig, Get, Cell_State. step gets_run. rewrite Hr. step load_run.
  rewrite decide_False by done. step load_run. by rewrite decide_True.
Qed.

Lemma ApplyConfig_unassigned m k raw w :
  registry w !! k = None \/
  (exists c o, registry w !! k = Some c /\ cells w !! c = Some o /\ c_state o = StateDraining) ->
  ApplyConfig m k raw w = ((false, Some ErrNotAssigned), w).
Proof.
  unfold ApplyConfig, Get, Cell_State. intros [Hr|(c & o & Hr & Hc & Hs)]; step gets_run; rewrite Hr.
  - done.
  - step load_run. by rewrite decide_True.
Qed.

Lemma ApplyConfig_invalid m k raw c o e s w :
  registry w !! k = Some c -> cells w !! c = Some o -> c_state o <> StateDraining ->
  c_hash o <> Some (HashConfig raw) ->
  m_compile m k raw (mkCompile (c_data o) (scopes w) None) = (Err e, s) ->
  ApplyConfig m k raw w =
    ((false, Some e), note [EngineReloads_Inc k "invalid"] (compiled_world c o s w)).
Proof.
  intros Hr Hc Hs Hh Hm. unfold ApplyConfig, Get, Cell_State. step gets_run. rewrite Hr. step load_run.
  rewrite decide_False by done. step load_run. rewrite decide_False by done.
  pose proof (run_compile_run c o (m_compile m k raw) w Hc) as Hrun. rewrite Hm in Hrun.
  by step Hrun.
Qed.

Lemma ApplyConfig_success m k raw c o en s w :
  registry w !! k = Some c -> cells w !! c = Some o -> c_state o <> StateDraining ->
  c_hash o <> Some (HashConfig raw) ->
  m_compile m k raw (mkCompile (c_data o) (scopes w) None) = (Ok en, s) ->
  exists ms o', cells (swapped_world c o (HashConfig raw) en s w) !! c = Some o' /\
    ApplyConfig m k raw w =
      ((true, None), note ms (retired (c_engine o) c o' (swapped_world c o (HashConfig raw) en s w))).
Proof.
  intros Hr Hc Hs Hh Hm. unfold ApplyConfig, Get, Cell_State. step gets_run. rewrite Hr. step load_run.
  rewrite decide_False by done. step load_run. rewrite decide_False by done.
  pose proof (run_compile_run c o (m_compile m k raw) w Hc) as Hrun. rewrite Hm in Hrun.
  step Hrun. cbn iota. set (x := mkEngineObj en c false 0). set (w1 := (new_engine x (compiled_world c o s w)).2).
  erewrite bind_step by (change (new_engine x (compiled_world c o s w)) with (next_eng w, w1); reflexivity).
  cbn beta. assert (Hc1 : cells w1 !! c = Some (set_data (cs_data s) o)) by apply lookup_insert_eq.
  unfold Cell_Engine. step (load_run _ _ _ _ _ Hc1). step (on_cell_run _ _ _ _ Hc1).
  step (on_cell_run _ _ _ _ (cells_put _ _ _)). rewrite put_put.
  change (set_hash _ _) with (swapped (HashConfig raw) (next_eng w) (cs_data s) o).
  set (o' := swapped _ _ _ _). do 3 (step metric_run). rewrite !note_note. set (ms := _ ++ _).
  destruct (start_run (next_eng w) c x o' (note ms (put c o' w1))) as [ms1 Hst];
    [apply lookup_insert_eq|apply lookup_insert_eq|].
  step Hst. rewrite launched_note, note_note.
  change (launched _ _ _ _ _) with (swapped_world c o (HashConfig raw) en s w).
  assert (Ho3 : exists o3, cells (swapped_world c o (HashConfig raw) en s w) !! c = Some o3).
  { unfold swapped_world, launched. case_decide; eexists; apply lookup_insert_eq. }
  destruct Ho3 as [o3 Ho3]. unfold retired.
  change (c_engine (set_data _ _)) with (c_engine o). destruct (c_engine o) as [old|].
  - destruct (scheduleDrain_run c old false o3 (note (ms ++ ms1) (swapped_world c o (HashConfig raw) en s w)))
      as [ms2 Hsd]; [exact Ho3|].
    exists ((ms ++ ms1) ++ ms2), o3. split; [exact Ho3|].
    cbn iota. erewrite bind_step by exact Hsd. cbn beta.
    rewrite scheduled_note, note_note. reflexivity.
  - exists (ms ++ ms1), o3. split; [done|]. reflexivity.
Qed.

End Forms.
