(* ===== verification/WellFormed.v ===== *)
(** * The well-formedness invariant of the manager's world

    [cell_ok] is what holds of every cell between two atomic operations, [wf]
    what holds of the heaps, the registry, the drain queue and the waiters. *)

From S2P Require Import Prelude.
From S2P Require Import GoStd.
From S2P Require Import Sha256.
From S2P Require Import Role.
From S2P Require Import Llmd.
From S2P Require Import Cell.
From S2P Require Import Compile.
From S2P Require Import Manager.
From S2P Require Import ManagerFacts.
Local Open Scope Z_scope.

Section Invariant.
Context {L : LlmdRouter}.

(** An engine pointer is set exactly when a configuration hash is; the ready
    channel is closed exactly when [readyOnce] has run; outside [DRAINING] the
    lifecycle state is [PRIMARY] exactly for the primary role; a cell that was
    marked ready has left [CREATING]. *)
Record cell_ok (o : Cell) : Prop := mkCellOk {
  ok_hash : is_Some (c_engine o) <-> is_Some (c_hash o);
  ok_ready : readyCloses o = if c_once o then 1%nat else 0%nat;
  ok_role : c_state o <> StateDraining -> (c_role o = RolePrimary <-> c_state o = StatePrimary);
  ok_left : c_once o = true -> c_state o <> StateCreating }.

(** [o'] may replace [o]: same key, same engine, and [DRAINING] is final. *)
Record succ (o o' : Cell) : Prop := mkSucc {
  succ_key : c_key o' = c_key o;
  succ_eng : c_engine o' = c_engine o;
  succ_drain : c_state o = StateDraining -> c_state o' = StateDraining }.

Definition owned (w : World) (e c : nat) : Prop :=
  exists x, engines w !! e = Some x /\ parent x = c.

Record wf (w : World) : Prop := mkWf {
  wf_cells : forall c o, cells w !! c = Some o -> (c < next_cell w)%nat /\ cell_ok o;
  wf_engines : forall e x, engines w !! e = Some x ->
    (e < next_eng w)%nat /\ is_Some (cells w !! parent x);
  wf_ptr : forall c o e, cells w !! c = Some o -> c_engine o = Some e -> owned w e c;
  wf_reg : forall k c, registry w !! k = Some c -> exists o,
    cells w !! c = Some o /\ c_key o = k /\ c_closed o = false;
  wf_tasks : forall t, t ∈ drainCh w -> owned w (t_eng t) (t_cell t) /\
    forall o, cells w !! t_cell t = Some o -> t_teardown t = true -> c_state o = StateDraining;
  wf_waiters : forall x, x ∈ waiters w -> owned w (w_eng x) (w_cell x) }.

Lemma wf_empty sc : wf (empty_world sc).
Proof. split; set_solver. Qed.

Lemma wf_note ms w : wf w -> wf (note ms w).
Proof. by intros []. Qed.

Lemma succ_refl o : succ o o.
Proof. by split. Qed.

(** Replacing a cell, possibly repointing it to another engine of its own. *)
Lemma wf_repoint c o o' w :
  wf w -> cells w !! c = Some o -> cell_ok o' -> c_key o' = c_key o -> c_closed o' = c_closed o ->
  (c_state o = StateDraining -> c_state o' = StateDraining) ->
  (forall e, c_engine o' = Some e -> owned w e c) ->
  wf (put c o' w).
Proof.
  intros [Hc He Hp Hr Ht Hw] Ho Hok Hk Hcl Hdr Hen.
  assert (Hsome : forall i, is_Some (cells w !! i) -> is_Some (cells (put c o' w) !! i)).
  { intros i Hi. destruct (decide (i = c)) as [->|]; [rewrite cells_put|rewrite cells_put_ne]; done. }
  split.
  - intros i oi Hi. destruct (decide (i = c)) as [->|].
    + rewrite cells_put in Hi. simplify_eq. split; [by eapply Hc|done].
    + rewrite cells_put_ne in Hi by done. by apply Hc.
  - intros e x Hx. destruct (He e x Hx) as [H1 H2]. split; [done|by apply Hsome].
  - intros i oi e Hi Hoe. destruct (decide (i = c)) as [->|].
    + rewrite cells_put in Hi. simplify_eq. by apply Hen.
    + rewrite cells_put_ne in Hi by done. by eapply Hp.
  - intros k i Hi. destruct (Hr k i Hi) as (oi & Hoi & Hki & Hci).
    destruct (decide (i = c)) as [->|].
    + exists o'. rewrite cells_put. simplify_eq. by rewrite Hk, Hcl.
    + exists oi. by rewrite cells_put_ne.
  - intros t Hin. destruct (Ht t Hin) as [H1 H2]. split; [done|]. intros oi Hi Htd.
    destruct (decide (t_cell t = c)) as [Heq|].
    + rewrite Heq, cells_put in Hi. simplify_eq. by apply Hdr, H2.
    + rewrite cells_put_ne in Hi by done. by apply H2.
  - exact Hw.
Qed.

(** Replacing a cell by a successor that is not closed more than before. *)
Lemma wf_put c o o' w :
  wf w -> cells w !! c = Some o -> cell_ok o' -> succ o o' -> c_closed o' = c_closed o ->
  wf (put c o' w).
Proof.
  intros Hwf Ho Hok [Hk Hen Hdr] Hcl. eapply wf_repoint; eauto.
  intros e He. rewrite Hen in He. by eapply wf_ptr.
Qed.

Lemma owned_cancel w e e' c : owned w e c -> owned (cancel_eng e' w) e c.
Proof.
  intros (x & Hx & Hp). unfold owned, cancel_eng, on_engines. simpl.
  destruct (decide (e = e')) as [->|].
  - exists (cancel_obj x). rewrite lookup_alter_eq, Hx. split; [done|].
    unfold cancel_obj. by destruct (cancel (eng x)).
  - exists x. by rewrite lookup_alter_ne.
Qed.

Lemma wf_cancel e w : wf w -> wf (cancel_eng e w).
Proof.
  intros [Hc He Hp Hr Ht Hw]. split; try done.
  - intros e' x Hx. unfold cancel_eng, on_engines in Hx. simpl in Hx.
    apply lookup_alter_Some in Hx as [(-> & y & Hy & ->)|[_ Hx]]; [|by apply (He _ x)].
    destruct (He _ y Hy) as [H1 H2]. split; [done|]. unfold cancel_obj. by destruct (cancel (eng y)).
  - intros c o e' Ho Hoe. apply owned_cancel. by eapply Hp.
  - intros t Hin. destruct (Ht t Hin). by split; [apply owned_cancel|].
  - intros x Hin. by apply owned_cancel, Hw.
Qed.

Lemma wf_torn c o w : wf w -> cells w !! c = Some o -> wf (torn c o w).
Proof.
  intros Hwf Ho. destruct Hwf as [Hc He Hp Hr Ht Hw].
  assert (Hcells : forall i, i <> c -> cells (torn c o w) !! i = cells w !! i).
  { intros i Hi. by apply lookup_insert_ne. }
  assert (Hself : cells (torn c o w) !! c = Some (set_closed o)) by apply lookup_insert_eq.
  split.
  - intros i oi Hi. destruct (decide (i = c)) as [->|].
    + rewrite Hself in Hi. simplify_eq. destruct (Hc _ _ Ho) as [? []]. by split.
    + rewrite Hcells in Hi by done. by apply Hc.
  - intros e x Hx. destruct (He e x Hx) as [H1 H2]. split; [done|].
    destruct (decide (parent x = c)) as [->|]; [by rewrite Hself|by rewrite Hcells].
  - intros i oi e Hi Hoe. destruct (decide (i = c)) as [->|].
    + rewrite Hself in Hi. simplify_eq. by eapply Hp.
    + rewrite Hcells in Hi by done. by eapply Hp.
  - intros k i Hi. unfold torn, unregister, on_registry in Hi. simpl in Hi.
    assert (Hi' : registry w !! k = Some i /\ i <> c).
    { case_decide as Hd.
      - apply lookup_delete_Some in Hi as [Hne Hi]. split; [done|]. intros ->.
        destruct (Hr _ _ Hi) as (o1 & Ho1 & Hk & _).
        destruct (Hr _ _ Hd) as (o2 & Ho2 & Hk2 & _). by simplify_eq.
      - split; [done|]. intros ->. destruct (Hr _ _ Hi) as (o1 & Ho1 & Hk & _).
        rewrite Ho in Ho1. by simplify_eq. }
    destruct Hi' as [Hi' Hne]. destruct (Hr _ _ Hi') as (oi & ? & ? & ?).
    exists oi. by rewrite Hcells.
  - intros t Hin. destruct (Ht t Hin) as [H1 H2]. split; [done|]. intros oi Hi Htd.
    destruct (decide (t_cell t = c)) as [Heq|].
    + rewrite Heq, Hself in Hi. simplify_eq. simpl. apply H2; congruence.
    + rewrite Hcells in Hi by done. by apply H2.
  - exact Hw.
Qed.

Lemma wf_drained td c e o w : wf w -> cells w !! c = Some o -> wf (drained td c e o w).
Proof.
  intros Hwf Ho. unfold drained. destruct td; [apply wf_torn|]; auto using wf_cancel.
Qed.

Lemma wf_scheduled td c e o w :
  wf w -> cells w !! c = Some o -> owned w e c ->
  (td = true -> c_state o = StateDraining) -> wf (scheduled td c e o w).
Proof.
  intros Hwf Ho He Htd. unfold scheduled. case_decide; [|by apply wf_drained].
  destruct Hwf as [H1 H2 H3 H4 H5 H6]. split; try done.
  intros t Hin. unfold enqueue, on_drainCh in Hin. simpl in Hin.
  apply elem_of_app in Hin as [Hin| ->%list_elem_of_singleton]; [by apply H5|].
  split; [done|]. simpl. intros o' Ho'. by simplify_eq.
Qed.

Lemma wf_dequeue q w : wf w -> (forall t, t ∈ q -> t ∈ drainCh w) -> wf (on_drainCh (fun _ => q) w).
Proof. intros [H1 H2 H3 H4 H5 H6] Hq. split; [exact H1|exact H2|exact H3|exact H4| |exact H6]. intros t Ht. by apply H5, Hq. Qed.

Lemma wf_drain_engine td c o w :
  wf w -> cells w !! c = Some o -> (td = true -> c_state o = StateDraining) ->
  wf (drain_engine td c o w).
Proof.
  intros Hwf Ho Htd. unfold drain_engine. destruct (c_engine o) eqn:He.
  - apply wf_scheduled; eauto using wf_ptr.
  - destruct td; [by apply wf_torn|done].
Qed.

Lemma wf_new_cell k o w :
  wf w -> cell_ok o -> c_key o = k -> c_closed o = false -> c_engine o = None ->
  wf (with_new_cell k o w).
Proof.
  intros [Hc He Hp Hr Ht Hw] Hok Hk Hcl Hen. set (c := next_cell w).
  assert (Hfresh : forall i, is_Some (cells w !! i) -> i <> c).
  { intros i [oi Hi]. destruct (Hc _ _ Hi). unfold c. lia. }
  assert (Hcells : forall i, i <> c -> cells (with_new_cell k o w) !! i = cells w !! i).
  { intros i Hi. by apply lookup_insert_ne. }
  assert (Hself : cells (with_new_cell k o w) !! c = Some o) by apply lookup_insert_eq.
  split.
  - intros i oi Hi. simpl. destruct (decide (i = c)) as [->|].
    + rewrite Hself in Hi. simplify_eq. unfold c. split; [lia|done].
    + rewrite Hcells in Hi by done. destruct (Hc _ _ Hi). split; [lia|done].
  - intros e x Hx. destruct (He e x Hx) as [H1 H2]. split; [done|].
    rewrite Hcells; [done|]. by apply Hfresh.
  - intros i oi e Hi Hoe. destruct (decide (i = c)) as [->|].
    + rewrite Hself in Hi. by simplify_eq.
    + rewrite Hcells in Hi by done. by eapply Hp.
  - intros k' i Hi. simpl in Hi. apply lookup_insert_Some in Hi as [[<- <-]|[Hne Hi]].
    + exists o. split; [exact Hself|done].
    + destruct (Hr _ _ Hi) as (oi & Hoi & ?). exists oi. rewrite Hcells; [done|]. apply Hfresh. by eexists.
  - intros t Hin. destruct (Ht t Hin) as [H1 H2]. split; [done|]. intros oi Hi Htd.
    destruct H1 as (x & Hx & Hpx). destruct (He _ _ Hx) as [_ Hpar].
    rewrite Hcells in Hi; [by apply H2|]. apply Hfresh. by rewrite <- Hpx.
  - exact Hw.
Qed.

Lemma wf_set_scopes sc w : wf w -> wf (set_scopes sc w).
Proof. by intros []. Qed.

Lemma wf_new_engine x w :
  wf w -> is_Some (cells w !! parent x) -> wf (new_engine x w).2.
Proof.
  intros [Hc He Hp Hr Ht Hw] Hx.
  assert (Hown : forall e c, owned w e c -> owned (new_engine x w).2 e c).
  { intros e c (y & Hy & Hpar). exists y. split; [|done]. simpl.
    rewrite lookup_insert_ne; [done|]. destruct (He _ _ Hy). lia. }
  split; simpl; try done.
  - intros e y Hy. apply lookup_insert_Some in Hy as [[<- <-]|[_ Hy]]; [split; [lia|done]|].
    destruct (He _ _ Hy). split; [lia|done].
  - intros c o e Ho Hoe. by apply Hown, (Hp _ o).
  - intros t Hin. destruct (Ht t Hin). by split; [apply Hown|].
  - intros y Hin. by apply Hown, Hw.
Qed.

(** The goroutines of [Engine.start]. *)
Lemma wf_launched e c en o w :
  wf w -> cells w !! c = Some o -> cell_ok (ready_cell (now w) o) -> succ o (ready_cell (now w) o) ->
  owned w e c -> wf (launched e c en o w).
Proof.
  intros Hwf Ho Hok Hs Hown. unfold launched. case_decide.
  - eapply wf_put; eauto. unfold ready_cell. by repeat case_match.
  - destruct Hwf as [H1 H2 H3 H4 H5 H6]. split; try done. intros x Hin.
    unfold on_waiters in Hin. simpl in Hin.
    by apply elem_of_app in Hin as [Hin| ->%list_elem_of_singleton]; [apply H6|].
Qed.

(** ** Cells reached by the manager's updates *)

Lemma fresh_cell_ok k d : cell_ok (fresh_cell k d).
Proof. split; simpl; done. Qed.

Lemma promoted_ok o : cell_ok o -> c_state o <> StateDraining -> cell_ok (promoted o).
Proof.
  intros [H1 H2 H3 H4] Hs. split; try done; simpl.
  - intros _. destruct (c_state o); case_decide; intuition congruence.
  - intros Hon. specialize (H4 Hon). case_decide; [done|]. naive_solver.
Qed.

Lemma demoted_ok o : cell_ok o -> c_state o <> StateDraining -> cell_ok (demoted o).
Proof.
  intros [H1 H2 H3 H4] Hs. split; try done; simpl.
  - intros _. destruct (c_state o); case_decide; intuition congruence.
  - intros Hon. specialize (H4 Hon). by case_decide.
Qed.

Lemma dropped_ok o : cell_ok o -> cell_ok (dropped o).
Proof. intros [H1 H2 H3 H4]. by split. Qed.

Lemma standby_ok o : cell_ok o -> c_role o = RoleNone -> cell_ok (set_role RoleStandby o).
Proof.
  intros [H1 H2 H3 H4] Hr. split; try done; simpl. intros Hd. specialize (H3 Hd). rewrite Hr in H3.
  split; [done|]. by intros Hs%H3.
Qed.

Lemma ready_ok t o : cell_ok o -> cell_ok (ready_cell t o).
Proof.
  intros [H1 H2 H3 H4]. unfold ready_cell. destruct (c_once o) eqn:Hon; [by split; rewrite ?Hon|].
  case_decide as Hs.
  - split; simpl; rewrite ?H2; try done. intros _. specialize (H3 ltac:(congruence)).
    rewrite Hs in H3. split; [|done]. by intros ?%H3.
  - split; simpl; rewrite ?H2; done.
Qed.

Lemma succ_promoted o : c_state o <> StateDraining -> succ o (promoted o).
Proof. by split. Qed.
Lemma succ_demoted o : c_state o <> StateDraining -> succ o (demoted o).
Proof. by split. Qed.
Lemma succ_dropped o : succ o (dropped o).
Proof. by split. Qed.
Lemma succ_role r o : succ o (set_role r o).
Proof. by split. Qed.
Lemma succ_ready t o : succ o (ready_cell t o).
Proof.
  unfold ready_cell. destruct (c_once o); [apply succ_refl|].
  case_decide as Hs; split; simpl; congruence.
Qed.

Lemma closed_ready t o : c_closed (ready_cell t o) = c_closed o.
Proof. unfold ready_cell. by repeat case_match. Qed.
End Invariant.

#[export] Hint Resolve wf_note wf_put wf_set_scopes wf_cancel wf_torn wf_drained wf_drain_engine wf_new_cell
  fresh_cell_ok promoted_ok demoted_ok dropped_ok standby_ok ready_ok
  succ_promoted succ_demoted succ_dropped succ_role succ_ready succ_refl closed_ready cells_put : epp.
