(* ===== verification/ManagerSpec.v ===== *)
(** * What the manager promises: an abstract table of roles, and its refinement

    Seen from outside, the registry is a table from cluster names to
    [Absent], [Draining] or [Live] entries.  Each manager method changes the
    entry of one key by a function written without heaps, queues or pointers,
    and leaves every other entry alone. *)

From S2P Require Import Prelude.
From S2P Require Import GoStd.
From S2P Require Import Sha256.
From S2P Require Import Role.
From S2P Require Import Llmd.
From S2P Require Import Cell.
From S2P Require Import Compile.
From S2P Require Import Manager.
From S2P Require Import ManagerFacts.
From S2P Require Import WellFormed.
Local Open Scope Z_scope.

Section Spec.
Context {L : LlmdRouter}.

(** ** The abstract table *)

Record live := mkLive {
  l_role : Role; l_state : State; l_hash : option string; l_once : bool; l_data : DataPlane }.
Inductive view := Absent | Draining | Live (l : live).

Definition live_of (o : Cell) : live :=
  mkLive (c_role o) (c_state o) (c_hash o) (c_once o) (c_data o).
Definition view_of (o : Cell) : view :=
  if decide (c_state o = StateDraining) then Draining else Live (live_of o).
Definition view_at (w : World) (k : Key) : view :=
  match registry w !! k with
  | Some c => match cells w !! c with Some o => view_of o | None => Absent end
  | None => Absent
  end.

(** ** The abstract operations *)

(** The role matrix of the design documents. *)
Definition role_spec (r : Role) (l : live) : live :=
  match r with
  | RoleNone => l
  | RolePrimary => mkLive RolePrimary StatePrimary (l_hash l) (l_once l) (l_data l)
  | RoleStandby =>
      mkLive RoleStandby (if decide (l_role l = RolePrimary) then StateStandby else l_state l)
        (l_hash l) (l_once l) (l_data l)
  end.

Definition ensure_spec (d : DataPlane) (r : Role) (v : view) : view :=
  match v with
  | Absent => Live (role_spec r (mkLive RoleNone StateCreating None false d))
  | Draining => Draining
  | Live l => Live (role_spec r l)
  end.

Definition drop_spec (v v' : view) : Prop :=
  match v with Absent => v' = Absent | _ => v' = Draining \/ v' = Absent end.

(** The entry after a successful compilation. *)
Definition swap_spec (h : string) (en : Engine) (d : DataPlane) (l : live) : live :=
  let ready := bool_decide (length (discovery en) = 0%nat) in
  mkLive (l_role l)
    (if decide (ready = true /\ l_state l = StateCreating) then StateStandby else l_state l)
    (Some h) (ready || l_once l) d.

(** [compile] is the manager's compile function at some scope registry. *)
Definition apply_spec (compile : DataPlane -> result error Engine * DataPlane) (raw : string)
    (v : view) : view * (bool * option error) :=
  match v with
  | Live l =>
      if decide (l_hash l = Some (HashConfig raw)) then (v, (false, None)) else
      match compile (l_data l) with
      | (Err e, d) => (Live (mkLive (l_role l) (l_state l) (l_hash l) (l_once l) d), (false, Some e))
      | (Ok en, d) => (Live (swap_spec (HashConfig raw) en d l), (true, None))
      end
  | _ => (v, (false, Some ErrNotAssigned))
  end.

Lemma apply_spec_ext f g raw v : (forall d, f d = g d) -> apply_spec f raw v = apply_spec g raw v.
Proof. intros Hfg. destruct v; simpl; [done|done|]. by rewrite Hfg. Qed.

(** ** Views of the building blocks *)

Definition others (k : Key) (w w' : World) : Prop :=
  forall k', k' <> k -> view_at w' k' = view_at w k'.

Lemma reg_inj w k k' c :
  wf w -> registry w !! k = Some c -> registry w !! k' = Some c -> k = k'.
Proof.
  intros Hwf H1 H2. destruct (wf_reg w Hwf _ _ H1) as (o1 & ? & ? & _).
  destruct (wf_reg w Hwf _ _ H2) as (o2 & ? & ? & _). by simplify_eq.
Qed.

Lemma view_put w k c o' :
  wf w -> registry w !! k = Some c ->
  view_at (put c o' w) k = view_of o' /\ others k w (put c o' w).
Proof.
  intros Hwf Hr. unfold others, view_at. split.
  - change (registry (put c o' w)) with (registry w). by rewrite Hr, cells_put.
  - intros k' Hk. change (registry (put c o' w)) with (registry w).
    destruct (registry w !! k') as [c'|] eqn:Hr'; [|done].
    rewrite cells_put_ne; [done|]. intros <-. by destruct Hk; eapply reg_inj.
Qed.

Lemma view_torn w k c o :
  wf w -> registry w !! k = Some c -> c_key o = k ->
  view_at (torn c o w) k = Absent /\ others k w (torn c o w).
Proof.
  intros Hwf Hr Hk. unfold others, view_at, torn, unregister, on_registry. simpl.
  rewrite Hk, decide_True by done. split; [by rewrite lookup_delete_eq|].
  intros k' Hk'. rewrite lookup_delete_ne by done.
  destruct (registry w !! k') as [c'|] eqn:Hr'; [|done].
  rewrite lookup_insert_ne; [done|]. intros <-. by destruct Hk'; eapply reg_inj.
Qed.

(** Retiring an engine without teardown is invisible; with teardown the entry
    may disappear. *)
Lemma view_scheduled_keep c e o w k : view_at (scheduled false c e o w) k = view_at w k.
Proof. unfold scheduled. by case_decide. Qed.

Lemma view_drain_keep c o w k : view_at (drain_engine false c o w) k = view_at w k.
Proof. unfold drain_engine. destruct (c_engine o); [apply view_scheduled_keep|done]. Qed.

Lemma view_drain_teardown w k c o :
  wf w -> registry w !! k = Some c -> c_key o = k ->
  (view_at (drain_engine true c o w) k = view_at w k \/ view_at (drain_engine true c o w) k = Absent)
  /\ others k w (drain_engine true c o w).
Proof.
  intros Hwf Hr Hk. unfold drain_engine. destruct (c_engine o) as [e|].
  - unfold scheduled. case_decide; [split; [by left|done]|]. unfold drained.
    destruct (view_torn (cancel_eng e w) k c o) as [H1 H2]; [by apply wf_cancel|done..|].
    split; [by right|exact H2].
  - destruct (view_torn w k c o) as [H1 H2]; [done..|]. split; [by right|done].
Qed.

Lemma view_new_cell w k o :
  wf w -> view_at (with_new_cell k o w) k = view_of o /\ others k w (with_new_cell k o w).
Proof.
  intros Hwf. unfold others, view_at, with_new_cell, on_registry. simpl. split.
  - by rewrite lookup_insert_eq, lookup_insert_eq.
  - intros k' Hk. rewrite lookup_insert_ne by done.
    destruct (registry w !! k') as [c'|] eqn:Hr'; [|done].
    destruct (wf_reg w Hwf _ _ Hr') as (o' & Ho' & _). destruct (wf_cells w Hwf _ _ Ho').
    rewrite lookup_insert_ne; [done|]. lia.
Qed.

Lemma others_refl k w : others k w w.
Proof. done. Qed.

Lemma others_trans k w1 w2 w3 : others k w1 w2 -> others k w2 w3 -> others k w1 w3.
Proof. intros H1 H2 k' Hk. by rewrite H2, H1. Qed.

(** The two ways a registered key can be seen. *)
Lemma view_registered w k c o :
  registry w !! k = Some c -> cells w !! c = Some o -> view_at w k = view_of o.
Proof. intros Hr Hc. unfold view_at. by rewrite Hr, Hc. Qed.

Lemma lookup_cases w k : wf w ->
  (registry w !! k = None /\ view_at w k = Absent) \/
  (exists c o, registry w !! k = Some c /\ cells w !! c = Some o /\ c_key o = k /\ cell_ok o /\
     view_at w k = view_of o).
Proof.
  intros Hwf. destruct (registry w !! k) as [c|] eqn:Hr.
  - right. destruct (wf_reg w Hwf _ _ Hr) as (o & Ho & Hk & _).
    destruct (wf_cells w Hwf _ _ Ho) as [_ Hok]. exists c, o. by erewrite view_registered.
  - left. split; [done|]. unfold view_at. by rewrite Hr.
Qed.

(** ** Every method keeps [wf] and refines its abstract operation *)

Lemma view_promoted o : cell_ok o -> c_state o <> StateDraining ->
  view_of (promoted o) = Live (role_spec RolePrimary (live_of o)).
Proof.
  intros _ Hs. unfold view_of, promoted, live_of, role_spec. simpl.
  by destruct (c_state o).
Qed.

Lemma view_demoted o : cell_ok o -> c_state o <> StateDraining ->
  view_of (demoted o) = Live (role_spec RoleStandby (live_of o)).
Proof.
  intros [_ _ H3 _] Hs. unfold view_of, demoted, live_of, role_spec. simpl. specialize (H3 Hs).
  destruct (decide (c_state o = StatePrimary)) as [Hp|Hp].
  - rewrite (decide_True (P := c_role o = RolePrimary)) by (by apply H3). done.
  - rewrite (decide_False (P := c_role o = RolePrimary)) by tauto. by rewrite decide_False.
Qed.

Lemma role_applied_spec w k c o r :
  wf w -> registry w !! k = Some c -> cells w !! c = Some o ->
  let w' := role_applied c o r w in
  wf w' /\ others k w w' /\
  view_at w' k = match view_of o with Live l => Live (role_spec r l) | v => v end.
Proof.
  intros Hwf Hr Hc w'. destruct (wf_cells w Hwf _ _ Hc) as [_ Hok].
  pose proof (view_registered w k c o Hr Hc) as Hv.
  assert (Hput : forall o', cell_ok o' -> succ o o' -> c_closed o' = c_closed o ->
    wf (put c o' w) /\ others k w (put c o' w) /\ view_at (put c o' w) k = view_of o').
  { intros o' Hok' Hs Hcl. destruct (view_put w k c o' Hwf Hr). eauto with epp. }
  unfold w', role_applied. destruct (decide (c_role o = r)) as [Heq|Hne].
  { split; [done|]. split; [done|]. rewrite Hv. unfold view_of. case_decide as Hs; [done|].
    destruct Hok as [_ _ H3 _]. specialize (H3 Hs). unfold live_of, role_spec. f_equal. subst r.
    destruct (c_role o) eqn:E; [done|done|]. by rewrite (proj1 H3 eq_refl). }
  destruct r.
  - split; [done|]. split; [done|]. rewrite Hv. by destruct (view_of o).
  - destruct (decide (c_role o = RoleNone)) as [Hn|Hn].
    + destruct (Hput (set_role RoleStandby o)) as (H1 & H2 & H3); eauto with epp.
      split; [done|]. split; [done|]. rewrite H3. unfold view_of, live_of, role_spec. simpl.
      repeat case_decide; simpl in *; congruence.
    + destruct (decide (c_state o = StateDraining)) as [Hs|Hs].
      * split; [done|]. split; [done|]. rewrite Hv. unfold view_of. by rewrite decide_True.
      * destruct (Hput (demoted o)) as (H1 & H2 & H3); eauto with epp. split; [|split].
        -- eapply wf_drain_engine; eauto using cells_put. done.
        -- intros k' Hk'. rewrite view_drain_keep. by apply H2.
        -- rewrite view_drain_keep, H3, view_demoted by done. unfold view_of. by rewrite decide_False.
  - destruct (decide (c_state o = StateDraining)) as [Hs|Hs].
    + split; [done|]. split; [done|]. rewrite Hv. unfold view_of. by rewrite decide_True.
    + destruct (Hput (promoted o)) as (H1 & H2 & H3); eauto with epp.
      split; [done|]. split; [done|]. rewrite H3, view_promoted by done.
      unfold view_of. by rewrite decide_False.
Qed.

Lemma Ensure_spec m k d r w :
  wf w -> m_newCell m k = Ok d ->
  let '(res, w') := Ensure m k r w in
  wf w' /\ is_ok res = true /\ others k w w' /\ view_at w' k = ensure_spec d r (view_at w k).
Proof.
  intros Hwf Hn. destruct (lookup_cases w k Hwf) as [[Hr Hv]|(c & o & Hr & Hc & Hk & Hok & Hv)].
  - destruct (Ensure_new m k d r w Hr Hn) as [ms ->]. set (c := next_cell w). set (o := fresh_cell k d).
    destruct (view_new_cell w k o Hwf) as [Hv1 Ho1].
    destruct (role_applied_spec (with_new_cell k o w) k c o r) as (H1 & H2 & H3).
    { apply wf_new_cell; [done|apply fresh_cell_ok|done..]. }
    { apply lookup_insert_eq. } { apply lookup_insert_eq. }
    split; [by apply wf_note|]. split; [done|].
    split; [eapply others_trans; [exact Ho1|exact H2]|].
    change (view_at (note ms _) k) with (view_at (role_applied c o r (with_new_cell k o w)) k).
    by rewrite H3, Hv.
  - destruct (Ensure_known m k c r o w Hr Hc) as [ms ->].
    destruct (role_applied_spec w k c o r Hwf Hr Hc) as (H1 & H2 & H3).
    split; [by apply wf_note|]. split; [done|]. split; [exact H2|].
    change (view_at (note ms _) k) with (view_at (role_applied c o r w) k).
    rewrite H3, Hv. by destruct (view_of o) eqn:E; [unfold view_of in E; case_decide|..].
Qed.

Lemma Drop_spec k w :
  wf w -> let w' := exec (Drop k) w in
  wf w' /\ others k w w' /\ drop_spec (view_at w k) (view_at w' k).
Proof.
  intros Hwf. destruct (lookup_cases w k Hwf) as [[Hr Hv]|(c & o & Hr & Hc & Hk & Hok & Hv)].
  - rewrite Drop_absent by done. split; [done|]. split; [done|]. by rewrite Hv.
  - destruct (Drop_run k c o w Hr Hc Hk) as [ms ->]. cbn [snd].
    assert (Hwf1 : wf (put c (dropped o) w)) by eauto with epp.
    destruct (view_put w k c (dropped o) Hwf Hr) as [Hv1 Ho1].
    destruct (view_drain_teardown (put c (dropped o) w) k c (dropped o)) as [Hv2 Ho2]; [done..|].
    split; [apply wf_note, wf_drain_engine; auto using cells_put|].
    split; [eapply others_trans; [exact Ho1|exact Ho2]|].
    change (view_at (note ms ?x) k) with (view_at x k).
    assert (Hd : drop_spec (Live (live_of o)) (view_at (drain_engine true c (dropped o) (put c (dropped o) w)) k)).
    { destruct Hv2 as [->| ->]; [left; by rewrite Hv1|by right]. }
    rewrite Hv. unfold view_of. by case_decide.
Qed.

(** The compile function seen as a function of the data plane alone. *)
Definition compile_at (f : CompileFunc) (k : Key) (raw : string) (sc : Scopes) (d : DataPlane) :
    result error Engine * DataPlane :=
  let '(r, s) := f k raw (mkCompile d sc None) in (r, cs_data s).

Lemma swapped_ok h e d o : cell_ok o -> cell_ok (swapped h e d o).
Proof. intros [H1 H2 H3 H4]. split; simpl; done. Qed.

Lemma view_swapped w k c o h en s :
  wf w -> registry w !! k = Some c -> cells w !! c = Some o -> c_state o <> StateDraining ->
  let w' := swapped_world c o h en s w in
  wf w' /\ others k w w' /\ view_at w' k = Live (swap_spec h en (cs_data s) (live_of o)).
Proof.
  intros Hwf Hr Hc Hs w'. destruct (wf_cells w Hwf _ _ Hc) as [Hlt Hok].
  set (e := next_eng w). set (o1 := set_data (cs_data s) o). set (o2 := swapped h e (cs_data s) o).
  set (w1 := compiled_world c o s w). set (w2 := (new_engine (mkEngineObj en c false 0) w1).2).
  assert (Hok1 : cell_ok o1) by (destruct Hok; by split).
  assert (Hok2 : cell_ok o2) by by apply swapped_ok.
  assert (Hwf1 : wf w1) by (apply wf_set_scopes; eapply wf_put; eauto; by split).
  assert (Hwf2 : wf w2).
  { apply wf_new_engine; [done|]. simpl. rewrite lookup_insert_eq. by eexists. }
  assert (Hown : owned w2 e c).
  { exists (mkEngineObj en c false 0). split; [apply lookup_insert_eq|done]. }
  assert (Hwf3 : wf (put c o2 w2)).
  { eapply (wf_repoint c o1); eauto; [apply lookup_insert_eq|]. intros e' [= <-]. exact Hown. }
  assert (Hv3 : view_at (put c o2 w2) k = view_of o2 /\ others k w (put c o2 w2)).
  { destruct (view_put w2 k c o2 Hwf2 Hr) as [H1 H2]. split; [done|].
    eapply others_trans; [|exact H2]. apply (view_put w k c o1 Hwf Hr). }
  destruct Hv3 as [Hv3 Ho3].
  assert (Hwf4 : wf w').
  { eapply (wf_launched e c en o2); eauto with epp. }
  split; [done|]. unfold w', swapped_world, swap_spec, launched. fold e o2. fold w1 w2.
  case_decide as Hd.
  - rewrite (bool_decide_eq_true_2 _ Hd).
    destruct (view_put (put c o2 w2) k c (ready_cell (now (put c o2 w2)) o2) Hwf3 Hr) as [H1 H2].
    split; [eapply others_trans; eauto|]. rewrite H1. unfold ready_cell.
    change (c_once o2) with (c_once o). change (c_state o2) with (c_state o).
    destruct (c_once o) eqn:Hon.
    + unfold view_of. change (c_state o2) with (c_state o). rewrite decide_False by done.
      rewrite decide_False; [unfold live_of; simpl; by rewrite Hon|].
      intros [_ Hcr]. by apply (ok_left o Hok Hon).
    + unfold live_of. simpl. case_decide as Hcr.
      * rewrite decide_True by done. unfold view_of. simpl. done.
      * rewrite decide_False by (intros [_ ?]; done). unfold view_of. simpl. by rewrite decide_False.
  - rewrite (bool_decide_eq_false_2 _ Hd). split; [exact Ho3|].
    change (view_at (on_waiters _ _) k) with (view_at (put c o2 w2) k). rewrite Hv3.
    rewrite decide_False by (intros [? _]; done).
    unfold view_of. change (c_state o2) with (c_state o). by rewrite decide_False.
Qed.

Lemma ApplyConfig_spec m k raw w :
  wf w ->
  let '(res, w') := ApplyConfig m k raw w in
  wf w' /\ others k w w' /\
  apply_spec (compile_at (m_compile m) k raw (scopes w)) raw (view_at w k) = (view_at w' k, res).
Proof.
  intros Hwf. destruct (lookup_cases w k Hwf) as [[Hr Hv]|(c & o & Hr & Hc & Hk & Hok & Hv)].
  { rewrite ApplyConfig_unassigned by by left. by rewrite Hv. }
  destruct (decide (c_state o = StateDraining)) as [Hs|Hs].
  { rewrite ApplyConfig_unassigned by (right; eauto). rewrite Hv. unfold view_of.
    by rewrite decide_True. }
  assert (Hv' : view_at w k = Live (live_of o)) by (rewrite Hv; unfold view_of; by rewrite decide_False).
  destruct (decide (c_hash o = Some (HashConfig raw))) as [Hh|Hh].
  { erewrite ApplyConfig_unchanged by eauto. rewrite Hv'. simpl. by rewrite decide_True. }
  destruct (m_compile m k raw (mkCompile (c_data o) (scopes w) None)) as [[en|e] s] eqn:Hm.
  - destruct (ApplyConfig_success m k raw c o en s w Hr Hc Hs Hh Hm) as (ms & o' & Ho' & ->).
    destruct (view_swapped w k c o (HashConfig raw) en s Hwf Hr Hc Hs) as (H1 & H2 & H3).
    set (w' := swapped_world _ _ _ _ _ _) in *.
    assert (Hold : wf (retired (c_engine o) c o' w')).
    { unfold retired. destruct (c_engine o) as [x|] eqn:Hx; [|done].
      apply wf_scheduled; [done|done| |done].
      destruct (wf_ptr w Hwf c o x Hc Hx) as (y & Hy & Hp).
      assert (Hne : x <> next_eng w) by (destruct (wf_engines w Hwf _ _ Hy); lia).
      exists y. split; [|done]. unfold w', swapped_world, launched.
      case_decide; simpl; by rewrite lookup_insert_ne. }
    assert (Hview : forall k', view_at (note ms (retired (c_engine o) c o' w')) k' = view_at w' k').
    { intros k'. change (view_at (note ms ?x) k') with (view_at x k'). unfold retired.
      destruct (c_engine o); [apply view_scheduled_keep|done]. }
    split; [by apply wf_note|]. split; [intros k' Hk'; rewrite Hview; by apply H2|].
    rewrite Hview, H3, Hv'. simpl. rewrite decide_False by done. unfold compile_at. by rewrite Hm.
  - rewrite (ApplyConfig_invalid m k raw c o e s w Hr Hc Hs Hh Hm).
    assert (Hok1 : cell_ok (set_data (cs_data s) o)) by (destruct Hok; by split).
    destruct (view_put w k c (set_data (cs_data s) o) Hwf Hr) as [H1 H2].
    split; [apply wf_note, wf_set_scopes; eapply wf_put; eauto; by split|].
    split; [exact H2|]. change (view_at (note _ _) k) with (view_at (put c (set_data (cs_data s) o) w) k).
    rewrite H1, Hv'. simpl. rewrite decide_False by done. unfold compile_at. rewrite Hm.
    unfold view_of. simpl. by rewrite decide_False.
Qed.

(** ** Loops over distinct keys *)

(** If every iteration keeps [I], touches only its own key and relates the entry
    of that key by [Rl], the whole loop relates every entry by [Rl] and leaves
    the keys it does not visit alone. *)
Lemma for_each_pointwise {X} (key : X -> Key) (f : X -> St World unit) (Rl : X -> view -> view -> Prop)
    (I : World -> Prop) xs w :
  (forall x w, x ∈ xs -> I w -> let w' := exec (f x) w in
     I w' /\ others (key x) w w' /\ Rl x (view_at w (key x)) (view_at w' (key x))) ->
  NoDup (key <$> xs) -> I w ->
  let w' := exec (for_each xs f) w in
  I w' /\
  (forall x, x ∈ xs -> Rl x (view_at w (key x)) (view_at w' (key x))) /\
  (forall k, k ∉ key <$> xs -> view_at w' k = view_at w k).
Proof.
  revert w. induction xs as [|x xs IH]; intros w Hf Hnd Hw w'.
  - split; [done|]. split; [|done]. intros y Hy. by apply not_elem_of_nil in Hy.
  - inversion Hnd as [|? ? Hx Hnd']; subst.
    destruct (Hf x w) as (Hw1 & Ho1 & Hr1); [left|done|].
    destruct (IH (exec (f x) w)) as (Hw2 & Hr2 & Ho2); [|done|done|].
    { intros y v Hy. apply Hf. by right. }
    unfold w'. rewrite exec_for_each_cons. split; [done|]. split.
    + intros y [->|Hy]%elem_of_cons; [by rewrite Ho2|].
      rewrite <- Ho1; [by apply Hr2|]. intros Heq. apply Hx. rewrite <- Heq.
      apply list_elem_of_fmap. by exists y.
    + intros k [Hk1 Hk2]%not_elem_of_cons. rewrite Ho2 by done. by apply Ho1.
Qed.

(** Cell objects are never forgotten, never change keys and never leave
    [DRAINING]. *)
Definition ages (w w' : World) : Prop :=
  forall c o, cells w !! c = Some o -> exists o', cells w' !! c = Some o' /\
    c_key o' = c_key o /\ (c_state o = StateDraining -> c_state o' = StateDraining).

Lemma ages_same w w' : cells w' = cells w -> ages w w'.
Proof. intros Hw c o Ho. exists o. by rewrite Hw. Qed.

Lemma ages_refl w : ages w w.
Proof. by apply ages_same. Qed.

Lemma ages_trans w1 w2 w3 : ages w1 w2 -> ages w2 w3 -> ages w1 w3.
Proof.
  intros H1 H2 c o Ho. destruct (H1 c o Ho) as (o1 & Ho1 & <- & Hd1).
  destruct (H2 c o1 Ho1) as (o2 & Ho2 & <- & Hd2). exists o2. auto.
Qed.

Lemma ages_put w c o o' :
  cells w !! c = Some o -> c_key o' = c_key o ->
  (c_state o = StateDraining -> c_state o' = StateDraining) -> ages w (put c o' w).
Proof.
  intros Ho Hk Hd c' o1 Ho1. destruct (decide (c' = c)) as [->|].
  - exists o'. rewrite cells_put. by simplify_eq.
  - exists o1. by rewrite cells_put_ne.
Qed.

Lemma ages_torn w c o : cells w !! c = Some o -> ages w (torn c o w).
Proof. intros Ho. exact (ages_put w c o (set_closed o) Ho eq_refl id). Qed.

Lemma ages_scheduled td w c e o : cells w !! c = Some o -> ages w (scheduled td c e o w).
Proof.
  intros Ho. unfold scheduled. case_decide; [by apply ages_same|].
  unfold drained. destruct td; [|by apply ages_same].
  eapply ages_trans; [by apply (ages_same w (cancel_eng e w))|]. by apply ages_torn.
Qed.

Lemma ages_drain td w c o : cells w !! c = Some o -> ages w (drain_engine td c o w).
Proof.
  intros Ho. unfold drain_engine. destruct (c_engine o); [by apply ages_scheduled|].
  destruct td; [by apply ages_torn|apply ages_refl].
Qed.

Lemma ages_Drop k w : wf w -> ages w (exec (Drop k) w).
Proof.
  intros Hwf. destruct (lookup_cases w k Hwf) as [[Hr Hv]|(c & o & Hr & Hc & Hk & Hok & Hv)].
  - rewrite Drop_absent by done. apply ages_refl.
  - destruct (Drop_run k c o w Hr Hc Hk) as [ms ->].
    eapply ages_trans; [by apply (ages_put w c o (dropped o))|].
    exact (ages_drain true _ c (dropped o) (cells_put _ _ _)).
Qed.

Lemma ages_role_applied w c o r : cells w !! c = Some o -> ages w (role_applied c o r w).
Proof.
  intros Hc. unfold role_applied.
  assert (Hput : forall o', c_key o' = c_key o -> c_state o <> StateDraining -> ages w (put c o' w)).
  { intros o' Hk Hs. by eapply ages_put. }
  repeat case_match; try apply ages_refl.
  - by eapply ages_put.
  - eapply ages_trans; [by apply (Hput (demoted o))|].
    exact (ages_drain false _ c (demoted o) (cells_put _ _ _)).
  - by apply Hput.
Qed.

Lemma ages_new_cell k o w : wf w -> ages w (with_new_cell k o w).
Proof.
  intros Hwf c o1 Ho1. exists o1. split; [|done]. simpl. rewrite lookup_insert_ne; [done|].
  destruct (wf_cells w Hwf c o1 Ho1). lia.
Qed.

Lemma ages_Ensure m k r w : wf w -> ages w (exec (Ensure m k r) w).
Proof.
  intros Hwf. destruct (lookup_cases w k Hwf) as [[Hr _]|(c & o & Hr & Hc & _)].
  - destruct (m_newCell m k) as [d|e] eqn:Hn.
    + destruct (Ensure_new m k d r w Hr Hn) as [ms ->].
      eapply ages_trans; [by apply (ages_new_cell k (fresh_cell k d))|].
      apply ages_role_applied, lookup_insert_eq.
    + unfold Ensure, Get. step gets_run. rewrite Hr, Hn. apply ages_refl.
  - destruct (Ensure_known m k c r o w Hr Hc) as [ms ->]. by apply ages_role_applied.
Qed.

Lemma ages_ready t c o w : cells w !! c = Some o -> ages w (put c (ready_cell t o) w).
Proof.
  intros Ho. apply (ages_put w c o); [done|..]; unfold ready_cell;
    destruct (c_once o), (decide (c_state o = StateCreating)); try done. simpl. congruence.
Qed.

Lemma ages_launched e c en o w : cells w !! c = Some o -> ages w (launched e c en o w).
Proof. intros Ho. unfold launched. case_decide; [by apply ages_ready|by apply ages_same]. Qed.

Lemma ages_ApplyConfig m k raw w : wf w -> ages w (exec (ApplyConfig m k raw) w).
Proof.
  intros Hwf. destruct (lookup_cases w k Hwf) as [[Hr _]|(c & o & Hr & Hc & _)].
  { rewrite ApplyConfig_unassigned by by left. apply ages_refl. }
  destruct (decide (c_state o = StateDraining)) as [Hs|Hs].
  { rewrite ApplyConfig_unassigned by (right; eauto). apply ages_refl. }
  destruct (decide (c_hash o = Some (HashConfig raw))) as [Hh|Hh].
  { erewrite ApplyConfig_unchanged by eauto. apply ages_refl. }
  destruct (m_compile m k raw (mkCompile (c_data o) (scopes w) None)) as [[en|er] s] eqn:Hm.
  - destruct (ApplyConfig_success m k raw c o en s w Hr Hc Hs Hh Hm) as (ms & o' & Ho' & ->).
    set (o2 := swapped (HashConfig raw) (next_eng w) (cs_data s) o).
    assert (Hput : ages w (put c o2 (new_engine (mkEngineObj en c false 0) (compiled_world c o s w)).2)).
    { assert (H : ages w (put c o2 (put c (set_data (cs_data s) o) w))); [|exact H].
      eapply ages_trans; [by apply (ages_put w c o (set_data (cs_data s) o))|].
      by apply (ages_put _ c (set_data (cs_data s) o)); [apply cells_put|..]. }
    assert (Hsw : ages w (swapped_world c o (HashConfig raw) en s w)).
    { eapply ages_trans; [exact Hput|]. apply ages_launched, cells_put. }
    eapply ages_trans; [exact Hsw|]. cbn [snd]. unfold retired.
    destruct (c_engine o) as [x|]; [exact (ages_scheduled false _ c x o' Ho')|by apply ages_same].
  - rewrite (ApplyConfig_invalid m k raw c o er s w Hr Hc Hs Hh Hm).
    by apply (ages_put w c o (set_data (cs_data s) o)).
Qed.

End Spec.
