(* ===== verification/Json.v ===== *)
(** * Reading JSON as encoding/json does

    The decoder of Go's standard library, as far as the program relies on it:
    the scanner is the same character automaton (a step function and a stack of
    open containers), values keep their source text because [json.RawMessage]
    hands it on, and [Unmarshal] stores into Go values with the library's rules
    for [null], unknown and repeated fields, case folding and type mismatches.
    [compact] texts, which a server writes, are read back exactly. *)

From S2P Require Import Prelude.
From S2P Require Import GoStd.
From Stdlib Require Import Ascii String.
Local Open Scope string_scope.
Local Open Scope Z_scope.
#[local] Arguments String.append !_ _ /.

(** ** UTF-8 *)

Definition cont (c : ascii) : bool := between 128 c 191.
(** The well-formed sequences of two, three and four bytes. *)
Definition utf8_2 (a b : ascii) : bool := between 194 a 223 && cont b.
Definition utf8_3 (a b c : ascii) : bool :=
  (between 224 a 224 && between 160 b 191 || between 225 a 236 && cont b ||
   between 237 a 237 && between 128 b 159 || between 238 a 239 && cont b) && cont c.
Definition utf8_4 (a b c d : ascii) : bool :=
  (between 240 a 240 && between 144 b 191 || between 241 a 243 && cont b ||
   between 244 a 244 && between 128 b 143) && cont c && cont d.

(** [utf8.AppendRune] *)
Definition encode_rune (r : Z) : string :=
  if r <? 128 then single (byte r)
  else if r <? 2048 then String (byte (192 + r / 64)) (single (byte (128 + r mod 64)))
  else if r <? 65536 then
    String (byte (224 + r / 4096)) (String (byte (128 + r / 64 mod 64)) (single (byte (128 + r mod 64))))
  else String (byte (240 + r / 262144)) (String (byte (128 + r / 4096 mod 64))
         (String (byte (128 + r / 64 mod 64)) (single (byte (128 + r mod 64))))).

(** [unicode.ReplacementChar] *)
Definition replacement : string := encode_rune 65533.

(** [utf8.Valid] *)
Fixpoint Valid (s : string) : bool :=
  match s with
  | "" => true
  | String a s1 =>
      if code a <? 128 then Valid s1
      else match s1 with
      | String b s2 =>
          if utf8_2 a b then Valid s2
          else match s2 with
          | String c s3 =>
              if utf8_3 a b c then Valid s3
              else match s3 with
              | String d s4 => utf8_4 a b c d && Valid s4
              | "" => false
              end
          | "" => false
          end
      | "" => false
      end
  end.

(** ** String literals *)

Definition hex4 (a b c d : ascii) : option Z :=
  a ← unhex a; b ← unhex b; c ← unhex c; d ← unhex d; Some (a * 4096 + b * 256 + c * 16 + d).
Definition is_high (r : Z) : bool := (55296 <=? r) && (r <? 56320).
Definition is_low (r : Z) : bool := (56320 <=? r) && (r <? 57344).
Definition is_surrogate (r : Z) : bool := (55296 <=? r) && (r <? 57344).

(** What the one-letter escapes stand for. *)
Definition escape_of (c : ascii) : option ascii :=
  if Ascii.eqb c dquote || Ascii.eqb c "\" || Ascii.eqb c "/" then Some c
  else if Ascii.eqb c "b" then Some (byte 8)
  else if Ascii.eqb c "f" then Some (byte 12)
  else if Ascii.eqb c "n" then Some (byte 10)
  else if Ascii.eqb c "r" then Some (byte 13)
  else if Ascii.eqb c "t" then Some (byte 9)
  else None.

(** [unquote] on the text between the quotes, which the scanner has accepted:
    escapes are resolved, surrogate pairs joined, and what is not UTF-8 becomes
    the replacement character. *)
Fixpoint unquote (s : string) : string :=
  match s with
  | "" => ""
  | String a s1 =>
      if Ascii.eqb a "\" then
        match s1 with
        | String "u" (String h1 (String h2 (String h3 (String h4 s2)))) =>
            match hex4 h1 h2 h3 h4 with
            | None => ""
            | Some r =>
                if is_surrogate r then
                  match s2 with
                  | String "\" (String "u" (String l1 (String l2 (String l3 (String l4 s3))))) =>
                      match hex4 l1 l2 l3 l4 with
                      | Some r2 =>
                          if is_high r && is_low r2
                          then encode_rune ((r - 55296) * 1024 + (r2 - 56320) + 65536) ++ unquote s3
                          else replacement ++ unquote s2
                      | None => replacement ++ unquote s2
                      end
                  | _ => replacement ++ unquote s2
                  end
                else encode_rune r ++ unquote s2
            end
        | String e s2 => match escape_of e with Some b => String b (unquote s2) | None => "" end
        | "" => ""
        end
      else if code a <? 128 then String a (unquote s1)
      else match s1 with
      | String b s2 =>
          if utf8_2 a b then String a (String b (unquote s2))
          else match s2 with
          | String c s3 =>
              if utf8_3 a b c then String a (String b (String c (unquote s3)))
              else match s3 with
              | String d s4 =>
                  if utf8_4 a b c d then String a (String b (String c (String d (unquote s4))))
                  else replacement ++ unquote s1
              | "" => replacement ++ unquote s1
              end
          | "" => replacement ++ unquote s1
          end
      | "" => replacement
      end
  end.

(** ** Values *)

(** A JSON value; strings and containers carry their source text. *)
Inductive json :=
| JNull
| JBool (b : bool)
| JNumber (literal : string)
| JString (text s : string)
| JArray (text : string) (vs : list json)
| JObject (text : string) (ms : list (string * json)).

(** The source text of a value: what a [json.RawMessage] receives. *)
Definition raw (j : json) : string :=
  match j with
  | JNull => "null"
  | JBool b => if b then "true" else "false"
  | JNumber l => l
  | JString t _ | JArray t _ | JObject t _ => t
  end.

(** ** The scanner (scanner.go) *)

(** [isSpace] of the scanner. *)
Definition isSpace (c : ascii) : bool := existsb (Z.eqb (code c)) [32; 9; 13; 10].

(** Where a number stands: [stateNeg], [state0], [state1], [stateDot],
    [stateDot0], [stateE], [stateESign], [stateE0]. *)
Inductive num := Neg | Zero | Int | Dot | Dot0 | Exp | ExpSign | Exp0.
#[export] Instance num_eq_dec : EqDecision num.
Proof. solve_decision. Defined.

Definition num_start (c : ascii) : option num :=
  if Ascii.eqb c "-" then Some Neg
  else if Ascii.eqb c "0" then Some Zero
  else if between 49 c 57 then Some Int
  else None.
Definition is_e (c : ascii) : bool := Ascii.eqb c "e" || Ascii.eqb c "E".
(** The next state of a number, or [None] when [c] does not continue it. *)
Definition num_step (n : num) (c : ascii) : option num :=
  match n with
  | Neg => if Ascii.eqb c "0" then Some Zero else if between 49 c 57 then Some Int else None
  | Int => if is_digit c then Some Int
           else if Ascii.eqb c "." then Some Dot else if is_e c then Some Exp else None
  | Zero => if Ascii.eqb c "." then Some Dot else if is_e c then Some Exp else None
  | Dot => if is_digit c then Some Dot0 else None
  | Dot0 => if is_digit c then Some Dot0 else if is_e c then Some Exp else None
  | Exp => if Ascii.eqb c "+" || Ascii.eqb c "-" then Some ExpSign
           else if is_digit c then Some Exp0 else None
  | ExpSign | Exp0 => if is_digit c then Some Exp0 else None
  end.
Definition num_final (n : num) : bool :=
  match n with Zero | Int | Dot0 | Exp0 => true | _ => false end.

(** An open container: its text so far, its elements so far, and in an object
    the key whose value is awaited. *)
Inductive frame :=
| InArray (text : string) (vs : list json)
| InObject (text : string) (ms : list (string * json)) (key : string).

(** The scanner's step functions. A string literal is a key or a value. *)
Inductive mode :=
| BeginValue
| BeginValueOrEmpty
| BeginStringOrEmpty
| BeginString
| InString (key : bool) (content : string)
| InStringEsc (key : bool) (content : string)
| InStringEscU (key : bool) (content : string) (more : nat)
| InNumber (n : num) (text : string)
| InLiteral (todo : string) (j : json)
| EndKey
| EndValue
| EndTop (j : json).

Record state := mkState { stack : list frame; at_mode : mode }.

(** Text that belongs to the innermost open container. *)
Definition write (t : string) (stk : list frame) : list frame :=
  match stk with
  | [] => []
  | InArray x vs :: s => InArray (x ++ t) vs :: s
  | InObject x ms k :: s => InObject (x ++ t) ms k :: s
  end.

(** [const maxNestingDepth = 10000] *)
Definition maxNestingDepth : Z := 10000.
Definition push (f : frame) (m : mode) (stk : list frame) : option state :=
  if Z.of_nat (S (List.length stk)) <=? maxNestingDepth then Some (mkState (f :: stk) m) else None.

(** A complete value goes to the innermost open container. *)
Definition deliver (j : json) (stk : list frame) : state :=
  match stk with
  | [] => mkState [] (EndTop j)
  | InArray x vs :: s => mkState (InArray (x ++ raw j) (app vs [j]) :: s) EndValue
  | InObject x ms k :: s => mkState (InObject (x ++ raw j) (app ms [(k, j)]) k :: s) EndValue
  end.

(** [stateBeginValue] *)
Definition begin_value (c : ascii) (stk : list frame) : option state :=
  if isSpace c then Some (mkState (write (single c) stk) BeginValue)
  else if Ascii.eqb c "{" then push (InObject (single c) [] "") BeginStringOrEmpty stk
  else if Ascii.eqb c "[" then push (InArray (single c) []) BeginValueOrEmpty stk
  else if Ascii.eqb c dquote then Some (mkState stk (InString false ""))
  else if Ascii.eqb c "t" then Some (mkState stk (InLiteral "rue" (JBool true)))
  else if Ascii.eqb c "f" then Some (mkState stk (InLiteral "alse" (JBool false)))
  else if Ascii.eqb c "n" then Some (mkState stk (InLiteral "ull" JNull))
  else match num_start c with
  | Some n => Some (mkState stk (InNumber n (single c)))
  | None => None
  end.

(** [stateBeginString] *)
Definition begin_string (c : ascii) (stk : list frame) : option state :=
  if isSpace c then Some (mkState (write (single c) stk) BeginString)
  else if Ascii.eqb c dquote then Some (mkState stk (InString true ""))
  else None.

(** [stateEndValue] and [stateEndTop]: [s] has just received a value. *)
Definition end_value (c : ascii) (s : state) : option state :=
  match stack s with
  | [] => if isSpace c then Some s else None
  | InArray x vs :: stk =>
      if isSpace c then Some (mkState (InArray (x ++ single c) vs :: stk) EndValue)
      else if Ascii.eqb c "," then Some (mkState (InArray (x ++ single c) vs :: stk) BeginValue)
      else if Ascii.eqb c "]" then Some (deliver (JArray (x ++ single c) vs) stk)
      else None
  | InObject x ms k :: stk =>
      if isSpace c then Some (mkState (InObject (x ++ single c) ms k :: stk) EndValue)
      else if Ascii.eqb c "," then Some (mkState (InObject (x ++ single c) ms k :: stk) BeginString)
      else if Ascii.eqb c "}" then Some (deliver (JObject (x ++ single c) ms) stk)
      else None
  end.

Definition quoted (content : string) : string := String dquote (content ++ single dquote).

(** The closing quote. *)
Definition end_string (key : bool) (content : string) (stk : list frame) : option state :=
  if key then
    match stk with
    | InObject x ms _ :: s =>
        Some (mkState (InObject (x ++ quoted content) ms (unquote content) :: s) EndKey)
    | _ => None
    end
  else Some (deliver (JString (quoted content) (unquote content)) stk).

(** One byte. [None] is a syntax error. *)
Definition step (c : ascii) (s : state) : option state :=
  let stk := stack s in
  match at_mode s with
  | BeginValue => begin_value c stk
  | BeginValueOrEmpty =>
      if isSpace c then Some (mkState (write (single c) stk) BeginValueOrEmpty)
      else if Ascii.eqb c "]" then end_value c s
      else begin_value c stk
  | BeginStringOrEmpty =>
      if isSpace c then Some (mkState (write (single c) stk) BeginStringOrEmpty)
      else if Ascii.eqb c "}" then end_value c s
      else begin_string c stk
  | BeginString => begin_string c stk
  | InString key t =>
      if Ascii.eqb c dquote then end_string key t stk
      else if Ascii.eqb c "\" then Some (mkState stk (InStringEsc key (t ++ single c)))
      else if code c <? 32 then None
      else Some (mkState stk (InString key (t ++ single c)))
  | InStringEsc key t =>
      if Ascii.eqb c "u" then Some (mkState stk (InStringEscU key (t ++ single c) 3))
      else match escape_of c with
      | Some _ => Some (mkState stk (InString key (t ++ single c)))
      | None => None
      end
  | InStringEscU key t n =>
      match unhex c, n with
      | None, _ => None
      | Some _, O => Some (mkState stk (InString key (t ++ single c)))
      | Some _, S n' => Some (mkState stk (InStringEscU key (t ++ single c) n'))
      end
  | InNumber n t =>
      match num_step n c with
      | Some n' => Some (mkState stk (InNumber n' (t ++ single c)))
      | None => if num_final n then end_value c (deliver (JNumber t) stk) else None
      end
  | InLiteral todo j =>
      match todo with
      | String d rest =>
          if Ascii.eqb c d then
            Some (if decide (rest = "") then deliver j stk else mkState stk (InLiteral rest j))
          else None
      | "" => None
      end
  | EndKey =>
      if isSpace c then Some (mkState (write (single c) stk) EndKey)
      else if Ascii.eqb c ":" then Some (mkState (write (single c) stk) BeginValue)
      else None
  | EndValue | EndTop _ => end_value c s
  end.

Fixpoint run (text : string) (s : state) : option state :=
  match text with
  | "" => Some s
  | String c rest => s' ← step c s; run rest s'
  end.

(** The whole text is one value; its end is read as a space ([scanner.eof]). *)
Definition parse (text : string) : option json :=
  s ← run (text ++ " ") (mkState [] BeginValue);
  match at_mode s with EndTop j => Some j | _ => None end.

(** ** Storing into Go values (decode.go) *)

(** [d.value(v)]: the value [v] holds afterwards, and whether no
    [UnmarshalTypeError] was saved. A mismatch does not stop the decoding. *)
Definition decoder (T : Type) : Type := T -> json -> T * bool.

Definition dec_string : decoder string := fun cur j =>
  match j with JNull => (cur, true) | JString _ s => (s, true) | _ => (cur, false) end.

(** [strconv.ParseInt(s, 10, 64)] *)
Fixpoint digits_value (acc : Z) (s : string) : option Z :=
  match s with
  | "" => Some acc
  | String c s' => if is_digit c then digits_value (acc * 10 + (code c - 48)) s' else None
  end.
Definition ParseInt (s : string) : option Z :=
  let '(sign, ds) := match s with
    | String c s' => if Ascii.eqb c "-" then (-1, s') else if Ascii.eqb c "+" then (1, s') else (1, s)
    | "" => (1, "")
    end in
  if decide (ds = "") then None
  else match digits_value 0 ds with
  | Some n => let z := sign * n in if (- 2 ^ 63 <=? z) && (z <? 2 ^ 63) then Some z else None
  | None => None
  end.
Definition dec_int : decoder Z := fun cur j =>
  match j with
  | JNull => (cur, true)
  | JNumber l => match ParseInt l with Some z => (z, true) | None => (cur, false) end
  | _ => (cur, false)
  end.

(** A [json.RawMessage] takes the text of any value, [null] included. *)
Definition dec_raw : decoder string := fun _ j => (raw j, true).

(** A pointer: [null] resets it, anything else is stored behind it. *)
Definition dec_pointer {T} (zero : T) (dec : decoder T) : decoder (option T) := fun cur j =>
  match j with
  | JNull => (None, true)
  | _ => let '(v, ok) := dec (default zero cur) j in (Some v, ok)
  end.

(** A map with string keys: entries are stored one by one, each decoded from
    the zero value, into the map that is there. *)
Definition dec_map {T} (zero : T) (dec : decoder T) : decoder (gmap string T) := fun cur j =>
  match j with
  | JNull => (∅, true)
  | JObject _ ms =>
      fold_left (fun s kv => let '(v, ok) := dec zero kv.2 in (<[kv.1 := v]> s.1, s.2 && ok)) ms (cur, true)
  | _ => (cur, false)
  end.

(** A slice: the elements that are there are decoded into, new ones start from
    the zero value. *)
Fixpoint dec_elements {T} (zero : T) (dec : decoder T) (cur : list T) (vs : list json) : list T * bool :=
  match vs with
  | [] => ([], true)
  | j :: vs' =>
      let '(v, ok) := dec (default zero (head cur)) j in
      let '(l, ok') := dec_elements zero dec (tail cur) vs' in
      (v :: l, ok && ok')
  end.
Definition dec_slice {T} (zero : T) (dec : decoder T) : decoder (list T) := fun cur j =>
  match j with
  | JNull => ([], true)
  | JArray _ vs => dec_elements zero dec cur vs
  | _ => (cur, false)
  end.

(** [foldName]: upper case, with the two non-ASCII letters whose case folding
    is an ASCII letter (the long s and the Kelvin sign). *)
Fixpoint foldName (s : string) : string :=
  match s with
  | "" => ""
  | String a s1 =>
      if between 97 a 122 then String (byte (code a - 32)) (foldName s1)
      else match s1 with
      | String b s2 =>
          if (code a =? 197) && (code b =? 191) then String "S" (foldName s2)
          else match s2 with
          | String c s3 =>
              if (code a =? 226) && (code b =? 132) && (code c =? 170) then String "K" (foldName s3)
              else String a (foldName s1)
          | "" => String a (foldName s1)
          end
      | "" => single a
      end
  end.

(** A struct: its fields by JSON name, each with how to store into it. A key
    selects the field with that name, or else the first whose name folds to
    the same; other keys are skipped. *)
Fixpoint find_field {A} (p : string -> bool) (fields : list (string * A)) : option A :=
  match fields with
  | [] => None
  | (n, a) :: fs => if p n then Some a else find_field p fs
  end.
Definition field_of {A} (fields : list (string * A)) (key : string) : option A :=
  match find_field (String.eqb key) fields with
  | Some a => Some a
  | None => find_field (fun n => String.eqb (foldName key) (foldName n)) fields
  end.
Definition dec_struct {T} (fields : list (string * decoder T)) : decoder T := fun cur j =>
  match j with
  | JNull => (cur, true)
  | JObject _ ms =>
      fold_left (fun s kv =>
        match field_of fields kv.1 with
        | Some dec => let '(v, ok) := dec s.1 kv.2 in (v, s.2 && ok)
        | None => s
        end) ms (cur, true)
  | _ => (cur, false)
  end.

(** The texts of decoding errors are not modelled. *)
Definition syntax_error : error := NewError "invalid JSON".
Definition type_error : error := NewError "cannot unmarshal into Go value".

(** [json.Unmarshal(data, out)] with [*out] initially [cur]. *)
Definition Unmarshal {T} (dec : decoder T) (cur : T) (data : string) : T * option error :=
  match parse data with
  | None => (cur, Some syntax_error)
  | Some j => let '(v, ok) := dec cur j in (v, if ok : bool then None else Some type_error)
  end.

(** [(dec *Decoder) readValue()]: the next value of a stream and what is left of
    it. The value ends where the scanner says so, whatever follows; a number ends
    in front of the first byte that does not continue it; the end of the stream is
    read as a space. *)
Fixpoint next_value (text : string) (s : state) : option (json * string) :=
  match text with
  | "" =>
      match at_mode s with
      | EndTop j => Some (j, "")
      | _ => s' ← step " " s; match at_mode s' with EndTop j => Some (j, "") | _ => None end
      end
  | String c rest =>
      match at_mode s, stack s with
      | EndTop j, _ => Some (j, text)
      | InNumber n t, [] =>
          match num_step n c with
          | Some n' => next_value rest (mkState [] (InNumber n' (t ++ single c)))
          | None => if num_final n then Some (JNumber t, text) else None
          end
      | _, _ => s' ← step c s; next_value rest s'
      end
  end.

(** [(dec *Decoder) Decode(out)], the first call, on the stream [data]. *)
Definition Decode {T} (dec : decoder T) (cur : T) (data : string) : T * option error :=
  match next_value data (mkState [] BeginValue) with
  | None => (cur, Some syntax_error)
  | Some (j, _) => let '(v, ok) := dec cur j in (v, if ok : bool then None else Some type_error)
  end.

(** ** Compact texts: what a server writes *)

(** A control byte, quote or backslash is escaped. *)
Definition hex_digit (z : Z) : ascii := byte (if z <? 10 then 48 + z else 87 + z).
Definition escape (c : ascii) : string :=
  if Ascii.eqb c dquote || Ascii.eqb c "\" then String "\" (single c)
  else if code c <? 32 then "\u00" ++ String (hex_digit (code c / 16)) (single (hex_digit (code c mod 16)))
  else single c.
Fixpoint escaped (s : string) : string :=
  match s with "" => "" | String c s' => escape c ++ escaped s' end.

Definition text_of_string (s : string) : string := quoted (escaped s).
Definition mkString (s : string) : json := JString (text_of_string s) s.
Definition mkInt (z : Z) : json := JNumber (Itoa z).
Definition mkArray (vs : list json) : json := JArray ("[" ++ join "," (raw <$> vs) ++ "]") vs.
Definition member (kv : string * json) : string := text_of_string kv.1 ++ ":" ++ raw kv.2.
Definition mkObject (ms : list (string * json)) : json :=
  JObject ("{" ++ join "," (member <$> ms) ++ "}") ms.

Fixpoint num_run (s : string) (n : num) : option num :=
  match s with "" => Some n | String c s' => n' ← num_step n c; num_run s' n' end.
Definition number_literal (l : string) : bool :=
  match l with
  | "" => false
  | String c s =>
      match num_start c ≫= num_run s with Some n => num_final n | None => false end
  end.

(** [compact d j]: the texts of [j] and of all it contains are the ones above,
    and containers nest at most [d] deep. *)
Fixpoint compact (d : nat) (j : json) : Prop :=
  match j with
  | JNull | JBool _ => True
  | JNumber l => number_literal l
  | JString t s => Valid s /\ t = text_of_string s
  | JArray t vs =>
      t = raw (mkArray vs) /\ match d with O => False | S d' => Forall (compact d') vs end
  | JObject t ms =>
      t = raw (mkObject ms) /\
      match d with O => False | S d' => Forall (fun kv => Valid kv.1 /\ compact d' kv.2) ms end
  end.

(** ** Compact texts are read back *)

Lemma run_app s t st : run (s ++ t) st = run s st ≫= run t.
Proof.
  revert st. induction s as [|c s IH]; intros st; [done|]. simpl.
  destruct (step c st) as [st'|]; simpl; [apply IH|done].
Qed.

Lemma run_cons c t st st' : step c st = Some st' -> run (String c t) st = run t st'.
Proof. intros H. simpl. by rewrite H. Qed.

Lemma escape_cases c :
  (escape c = single c /\ Ascii.eqb c dquote = false /\ Ascii.eqb c "\" = false /\ (code c <? 32) = false) \/
  (escape c = String "\" (single c) /\ escape_of c = Some c /\ Ascii.eqb c "u" = false) \/
  exists h1 h2 z1 z2, escape c = "\u00" ++ String h1 (single h2) /\
    unhex h1 = Some z1 /\ unhex h2 = Some z2 /\ z1 * 16 + z2 = code c /\ code c < 32.
Proof.
  every_byte c; first
    [ left; vm_compute; by repeat split
    | right; left; vm_compute; by repeat split
    | right; right; do 4 eexists; split; [vm_compute; reflexivity|];
      split; [vm_compute; reflexivity|]; split; [vm_compute; reflexivity|]; by vm_compute ].
Qed.

Lemma run_escape c stk key t :
  run (escape c) (mkState stk (InString key t)) = Some (mkState stk (InString key (t ++ escape c))).
Proof.
  destruct (escape_cases c) as [(-> & H1 & H2 & H3)|[(-> & H1 & H2)|(h1 & h2 & z1 & z2 & -> & H1 & H2 & _)]].
  - cbn [run step at_mode stack single]. by rewrite H1, H2, H3.
  - unfold single. erewrite run_cons by done. erewrite run_cons by (cbn [step at_mode stack]; rewrite H2, H1; done).
    cbn. by rewrite string_app_assoc.
  - unfold single. cbn [String.append]. do 4 (erewrite run_cons by done).
    erewrite run_cons by (cbn [step at_mode stack]; rewrite H1; done).
    erewrite run_cons by (cbn [step at_mode stack]; rewrite H2; done).
    cbn [run]. by rewrite !string_app_assoc.
Qed.

Lemma run_escaped s stk key t :
  run (escaped s) (mkState stk (InString key t)) = Some (mkState stk (InString key (t ++ escaped s))).
Proof.
  revert t. induction s as [|c s IH]; intros t; simpl; [by rewrite string_app_nil_r|].
  rewrite run_app, run_escape. simpl. by rewrite IH, string_app_assoc.
Qed.

Lemma escape_high c : (code c <? 128) = false -> escape c = single c.
Proof.
  intros H. destruct (escape_cases c) as [(? & _)|[(_ & H1 & _)|(? & ? & ? & ? & _ & _ & _ & _ & ?)]]; [done| |lia].
  exfalso. revert H1 H. every_byte c; by vm_compute.
Qed.

Lemma unquote_escape c s : (code c <? 128) = true -> unquote (escape c ++ s) = String c (unquote s).
Proof.
  intros H. destruct (escape_cases c) as [(-> & H1 & H2 & H3)|[(-> & H1 & H2)|(h1 & h2 & z1 & z2 & -> & H1 & H2 & H3 & H4)]].
  - change (single c ++ s) with (String c s). cbn [unquote]. by rewrite H2, H.
  - revert H1 H2. every_byte c; try done; intros _ _; reflexivity.
  - change (unquote (("\u00" ++ String h1 (single h2)) ++ s)) with
      (match hex4 "0" "0" h1 h2 with
       | None => ""
       | Some r => if is_surrogate r then match s with
             | String "\" (String "u" (String l1 (String l2 (String l3 (String l4 s3))))) =>
                 match hex4 l1 l2 l3 l4 with
                 | Some r2 => if is_high r && is_low r2
                     then encode_rune ((r - 55296) * 1024 + (r2 - 56320) + 65536) ++ unquote s3
                     else replacement ++ unquote s
                 | None => replacement ++ unquote s
                 end
             | _ => replacement ++ unquote s
             end
           else encode_rune r ++ unquote s
       end).
    unfold hex4. rewrite H1, H2. change (unhex "0") with (Some 0). cbn [mbind option_bind].
    replace (0 * 4096 + 0 * 256 + z1 * 16 + z2) with (code c) by lia.
    replace (is_surrogate (code c)) with false by (unfold is_surrogate; lia).
    unfold encode_rune. rewrite H. cbn. f_equal. unfold byte, code.
    by rewrite N2Z.id, ascii_N_embedding.
Qed.

Lemma between_high lo c hi : 128 <= lo -> between lo c hi = true -> (code c <? 128) = false.
Proof. unfold between. intros Hlo [H1 H2]%andb_true_iff. lia. Qed.

Lemma high_not_backslash c : (code c <? 128) = false -> Ascii.eqb c "\" = false.
Proof. intros H. destruct (Ascii.eqb_spec c "\"); [by subst|done]. Qed.

Lemma cont_high c : cont c = true -> (code c <? 128) = false.
Proof. by apply between_high. Qed.

Lemma utf8_2_high a b : utf8_2 a b = true -> (code b <? 128) = false.
Proof. unfold utf8_2. intros [_ ?]%andb_true_iff. by apply cont_high. Qed.

Lemma utf8_3_high a b c :
  utf8_3 a b c = true -> (code b <? 128) = false /\ (code c <? 128) = false.
Proof.
  unfold utf8_3, cont, between. intros [H Hc]%andb_true_iff. apply andb_true_iff in Hc as [? ?].
  rewrite !orb_true_iff, !andb_true_iff in H. lia.
Qed.

Lemma utf8_4_high a b c d : utf8_4 a b c d = true ->
  (code b <? 128) = false /\ (code c <? 128) = false /\ (code d <? 128) = false.
Proof.
  unfold utf8_4, cont, between. rewrite !andb_true_iff, !orb_true_iff, !andb_true_iff. lia.
Qed.

Lemma unquote_escaped s : Valid s -> unquote (escaped s) = s.
Proof.
  remember (String.length s) as n eqn:Hn. revert s Hn.
  induction (lt_wf n) as [n _ IH]. intros s -> Hv.
  assert (IH' : forall t, (String.length t < String.length s)%nat -> Valid t -> unquote (escaped t) = t).
  { intros t Ht. by apply (IH _ Ht). }
  clear IH. destruct s as [|a s1]; [done|]. cbn [Valid escaped] in *.
  destruct (code a <? 128) eqn:Ha.
  { rewrite unquote_escape by done. f_equal. apply IH'; [simpl; lia|done]. }
  rewrite (escape_high a Ha). pose proof (high_not_backslash a Ha) as Hb.
  destruct s1 as [|b s2]; [done|]. destruct (utf8_2 a b) eqn:H2.
  { cbn [escaped]. rewrite (escape_high b) by (by eapply utf8_2_high).
    cbn [single String.append unquote]. rewrite Hb, Ha, H2. do 2 f_equal. apply IH'; [simpl; lia|done]. }
  destruct s2 as [|c s3]; [done|]. destruct (utf8_3 a b c) eqn:H3.
  { destruct (utf8_3_high _ _ _ H3). cbn [escaped]. rewrite !escape_high by done.
    cbn [single String.append unquote]. rewrite Hb, Ha, H2, H3. do 3 f_equal. apply IH'; [simpl; lia|done]. }
  destruct s3 as [|d s4]; [done|]. apply andb_prop_elim in Hv as [H4%Is_true_true Hv].
  destruct (utf8_4_high _ _ _ _ H4) as (? & ? & ?). cbn [escaped]. rewrite !escape_high by done.
  cbn [single String.append unquote]. rewrite Hb, Ha, H2, H3, H4. do 4 f_equal. apply IH'; [simpl; lia|done].
Qed.

(** Numbers. *)
Lemma run_number s n n' stk t :
  num_run s n = Some n' -> run s (mkState stk (InNumber n t)) = Some (mkState stk (InNumber n' (t ++ s))).
Proof.
  revert n t. induction s as [|c s IH]; intros n t H; cbn [num_run] in H.
  - simplify_eq. cbn. by rewrite string_app_nil_r.
  - destruct (num_step n c) as [n1|] eqn:Hs; [|done]. cbn in H.
    erewrite run_cons by (cbn [step at_mode stack]; by rewrite Hs). by rewrite (IH _ _ H), string_app_assoc.
Qed.

(** What may follow a value inside a text. *)
Definition delimiter (c : ascii) : bool :=
  Ascii.eqb c "," || Ascii.eqb c "]" || Ascii.eqb c "}" || Ascii.eqb c " ".

Lemma delimiter_ends n c : delimiter c = true -> num_step n c = None.
Proof.
  unfold delimiter. rewrite !orb_true_iff, !Ascii.eqb_eq.
  intros [[[-> | ->] | ->] | ->]; by destruct n.
Qed.

Lemma step_deliver c j stk : step c (deliver j stk) = end_value c (deliver j stk).
Proof. by destruct stk as [|[] stk]. Qed.

Lemma start_number c n stk :
  num_start c = Some n -> begin_value c stk = Some (mkState stk (InNumber n (single c))).
Proof. every_byte c; intros H; vm_compute in H; simplify_eq; reflexivity. Qed.

(** [reads j stk]: the text of [j] is read off and delivered, whatever follows. *)
Definition reads (j : json) (stk : list frame) : Prop :=
  forall c rest, delimiter c = true ->
    run (raw j ++ String c rest) (mkState stk BeginValue) = run (String c rest) (deliver j stk).

Lemma reads_number l stk : number_literal l -> reads (JNumber l) stk.
Proof.
  intros Hl c rest Hc. destruct l as [|c0 l]; [done|]. simpl in Hl.
  destruct (num_start c0) as [n|] eqn:Hs; [|done]. simpl in Hl.
  destruct (num_run l n) as [n'|] eqn:Hr; [|done].
  cbn [raw String.append]. erewrite run_cons by (by apply start_number).
  rewrite run_app, (run_number _ _ _ _ _ Hr). cbn [mbind option_bind run step at_mode stack].
  rewrite (delimiter_ends _ _ Hc). change (single c0 ++ l) with (String c0 l).
  destruct (num_final n'); [|done]. by rewrite step_deliver.
Qed.

Lemma reads_string s stk : Valid s -> reads (mkString s) stk.
Proof.
  intros Hv c rest Hc. unfold mkString, text_of_string, quoted. cbn [raw String.append].
  erewrite run_cons by done. rewrite string_app_assoc, run_app, run_escaped.
  cbn [mbind option_bind single String.append]. erewrite run_cons by done.
  by rewrite unquote_escaped.
Qed.

Lemma join_cons2 sep t u ts : join sep (t :: u :: ts) = t ++ sep ++ join sep (u :: ts).
Proof. done. Qed.

Lemma raw_first d j : compact d j ->
  exists c t, raw j = String c t /\ isSpace c = false /\ Ascii.eqb c "]" = false.
Proof.
  intros H. destruct d, j as [| [] | l | t s | t vs | t ms]; cbn [compact] in H.
  all: try (eexists _, _; split; [reflexivity|by split]).
  all: try (destruct H as [_ ->]; eexists _, _; split; [reflexivity|by split]).
  all: try (destruct H as [-> _]; eexists _, _; split; [reflexivity|by split]).
  all: destruct l as [|c l]; [done|]; exists c, l; split; [done|]; simpl in H.
  all: destruct (num_start c) as [n|] eqn:Hs; [|done]; clear H; revert Hs.
  all: every_byte c; intros Hs; vm_compute in Hs; by simplify_eq.
Qed.

Lemma reads_elements vs v us x stk rest :
  (forall w y ws, w ∈ v :: vs -> reads w (InArray y ws :: stk)) ->
  run (join "," (raw <$> v :: vs) ++ String "]" rest) (mkState (InArray x us :: stk) BeginValue) =
  run rest (deliver (JArray (x ++ join "," (raw <$> v :: vs) ++ "]") (app us (v :: vs))) stk).
Proof.
  revert v us x. induction vs as [|w vs IH]; intros v us x Hr.
  - cbn [fmap list_fmap join]. rewrite (Hr v x us) by set_solver || done.
    cbn [deliver]. erewrite run_cons by reflexivity. by rewrite string_app_assoc.
  - rewrite !fmap_cons, join_cons2. cbn [String.append]. rewrite !string_app_assoc. cbn [String.append].
    rewrite (Hr v x us) by set_solver || done.
    cbn [deliver]. erewrite run_cons by reflexivity.
    rewrite <- fmap_cons. rewrite IH by (intros; apply Hr; set_solver).
    rewrite !string_app_assoc. cbn [single String.append]. by rewrite <- !app_assoc.
Qed.

Lemma reads_key k x ms k0 stk t : Valid k ->
  run (text_of_string k ++ ":" ++ t) (mkState (InObject x ms k0 :: stk) BeginString) =
  run t (mkState (InObject (x ++ text_of_string k ++ ":") ms k :: stk) BeginValue).
Proof.
  intros Hv. unfold text_of_string, quoted. cbn [String.append]. erewrite run_cons by reflexivity.
  rewrite string_app_assoc, run_app, run_escaped. cbn [mbind option_bind single String.append].
  erewrite run_cons by (cbn [step end_string at_mode stack]; by rewrite Ascii.eqb_refl).
  erewrite run_cons by reflexivity. rewrite unquote_escaped by done.
  cbn [stack write single]. by rewrite (string_app_assoc x).
Qed.

#[local] Opaque text_of_string.

Lemma reads_members ms kv us x k0 stk rest :
  (forall kw y ws, kw ∈ kv :: ms -> Valid kw.1 /\ reads kw.2 (InObject y ws kw.1 :: stk)) ->
  run (join "," (member <$> kv :: ms) ++ String "}" rest) (mkState (InObject x us k0 :: stk) BeginString) =
  run rest (deliver (JObject (x ++ join "," (member <$> kv :: ms) ++ "}") (app us (kv :: ms))) stk).
Proof.
  revert kv us x k0. induction ms as [|kw ms IH]; intros [k v] us x k0 Hr;
    (destruct (Hr (k, v) (x ++ text_of_string k ++ ":") us) as [Hk Hv]; [set_solver|]); cbn [fst snd] in Hk, Hv.
  - cbn [fmap list_fmap join]. unfold member. cbn [fst snd]. rewrite !string_app_assoc.
    rewrite reads_key, Hv by done. cbn [deliver]. erewrite run_cons by reflexivity.
    by rewrite !string_app_assoc.
  - rewrite !fmap_cons, join_cons2. change (member (k, v)) with (text_of_string k ++ ":" ++ raw v). rewrite !string_app_assoc.
    rewrite reads_key by done. cbn [String.append]. rewrite Hv by done.
    cbn [deliver]. erewrite run_cons by reflexivity.
    rewrite <- fmap_cons, IH by (intros; apply Hr; set_solver).
    rewrite !string_app_assoc. cbn [single String.append]. by rewrite <- !app_assoc.
Qed.

Lemma push_ok f m stk d : Z.of_nat (List.length stk) + Z.of_nat (S d) <= maxNestingDepth ->
  push f m stk = Some (mkState (f :: stk) m) /\
  Z.of_nat (List.length (f :: stk)) + Z.of_nat d <= maxNestingDepth.
Proof.
  intros H. unfold push. cbn [List.length]. split; [|lia].
  destruct (Z.leb_spec (Z.of_nat (S (List.length stk))) maxNestingDepth); [done|lia].
Qed.

Lemma reads_compact d j stk :
  compact d j -> Z.of_nat (List.length stk) + Z.of_nat d <= maxNestingDepth -> reads j stk.
Proof.
  revert j stk. induction d as [|d IH]; intros j stk Hc Hd.
  all: destruct j as [| b | l | t s | t vs | t ms]; cbn [compact] in Hc.
  all: try by (intros c rest Hdel; destruct stk as [|[] ?]).
  all: try by (destruct b; intros c rest Hdel; destruct stk as [|[] ?]).
  all: try by apply reads_number.
  all: try by (destruct Hc as [Hv ->]; apply reads_string).
  all: destruct Hc as [-> Hc]; try done; intros c rest Hdel; cbn [raw mkArray mkObject String.append].
  - destruct (push_ok (InArray "[" []) BeginValueOrEmpty stk d Hd) as [Hp Hd'].
    erewrite run_cons by exact Hp. rewrite string_app_assoc. cbn [String.append].
    destruct vs as [|v vs]; [reflexivity|].
    rewrite Forall_forall in Hc. destruct (raw_first d v) as (c0 & t & Ht & Hsp & Hbr); [apply Hc; set_solver|].
    transitivity (run (join "," (raw <$> v :: vs) ++ String "]" (String c rest))
      (mkState (InArray "[" [] :: stk) BeginValue)).
    { destruct vs; cbn [fmap list_fmap join]; rewrite Ht; cbn [String.append run step at_mode stack];
        by rewrite Hsp, Hbr. }
    rewrite reads_elements; [done|]. intros w y ws Hw. apply IH; [by apply Hc|done].
  - destruct (push_ok (InObject "{" [] "") BeginStringOrEmpty stk d Hd) as [Hp Hd'].
    erewrite run_cons by exact Hp. rewrite string_app_assoc. cbn [String.append].
    destruct ms as [|kv ms]; [reflexivity|].
    rewrite Forall_forall in Hc.
    transitivity (run (join "," (member <$> kv :: ms) ++ String "}" (String c rest))
      (mkState (InObject "{" [] "" :: stk) BeginString)).
    { by destruct ms. }
    rewrite reads_members; [done|]. intros kw y ws Hw. destruct (Hc kw Hw) as [Hk Hv].
    split; [done|]. by apply IH.
Qed.

Definition depth_ok (d : nat) : Prop := Z.of_nat d <= maxNestingDepth.

Lemma parse_compact d j : compact d j -> depth_ok d -> parse (raw j) = Some j.
Proof.
  intros Hc Hd. unfold parse. rewrite (reads_compact d j [] Hc) by done. by destruct j.
Qed.

(** *** [Decode] agrees with [Unmarshal] on whole texts *)

(** Only a complete value outside every container ends the text. *)
Definition top_ok (s : state) : Prop := forall j, at_mode s = EndTop j -> stack s = [].

Lemma top_ok_deliver j stk : top_ok (deliver j stk).
Proof. by intros j'; destruct stk as [|[]]. Qed.
Lemma top_ok_end_value c s s' : top_ok s -> end_value c s = Some s' -> top_ok s'.
Proof.
  intros Hs. unfold end_value. repeat case_match; intros [= <-]; try done; apply top_ok_deliver.
Qed.
Lemma top_ok_begin_value c stk s : begin_value c stk = Some s -> top_ok s.
Proof. unfold begin_value, push. intros H. break; done. Qed.
Lemma top_ok_step c s s' : top_ok s -> step c s = Some s' -> top_ok s'.
Proof.
  intros Hs. unfold step. destruct (at_mode s) eqn:Hm; intros H.
  all: try (by eapply top_ok_begin_value); try (by eapply top_ok_end_value).
  all: unfold begin_string, end_string in H.
  all: repeat (case_match; simplify_eq; try done; try (by eapply top_ok_begin_value); try (by eapply top_ok_end_value);
    try apply top_ok_deliver).
  all: try (eapply top_ok_end_value; [apply top_ok_deliver|done]).
Qed.

Definition spaces (s : string) : Prop := string_existsb (fun c => negb (isSpace c)) s = false.

Lemma run_at_top text s s' j : top_ok s -> at_mode s = EndTop j -> run text s = Some s' -> s' = s /\ spaces text.
Proof.
  intros Hs Hm. revert s'. unfold spaces. induction text as [|c text IH]; intros s'; [by intros [= <-]|].
  cbn [run string_existsb]. unfold step at 1. rewrite Hm. unfold end_value. rewrite (Hs j Hm).
  destruct (isSpace c); [|done]. intros Hr. by destruct (IH s' Hr).
Qed.

Lemma spaces_app s t : spaces (s ++ t) -> spaces s.
Proof. unfold spaces. rewrite string_existsb_app. by intros [? ?]%orb_false_iff. Qed.

Lemma next_value_run text s s' j : top_ok s -> run (text ++ " ") s = Some s' -> at_mode s' = EndTop j ->
  exists rest, next_value text s = Some (j, rest) /\ spaces rest.
Proof.
  revert s. induction text as [|c text IH]; intros s Hs Hr Hj.
  - cbn [run String.append] in Hr. destruct (step " " s) as [s1|] eqn:Hst; [|done]. injection Hr as ->.
    cbn [next_value]. destruct (at_mode s) eqn:Hm; try (rewrite Hst; cbn; rewrite Hj; by exists "").
    exists "". split; [|done]. f_equal. f_equal.
    assert (Hr : run " " s = Some s') by (cbn; by rewrite Hst).
    destruct (run_at_top " " s s' _ Hs Hm Hr) as [-> _]. congruence.
  - change (String c text ++ " ") with (String c (text ++ " ")) in Hr. pose proof Hr as Hr'. cbn [run] in Hr'.
    destruct (step c s) as [s1|] eqn:Hst; [|done]. cbn [mbind option_bind] in Hr'.
    assert (Hgo : exists rest, next_value text s1 = Some (j, rest) /\ spaces rest)
      by (apply IH; [by eapply top_ok_step|done|done]).
    cbn [next_value]. destruct (at_mode s) as [| | | |k t|k t|k t n|n t|t v| | |j0] eqn:Hm; try (by rewrite Hst).
    + destruct (stack s) as [|f stk] eqn:Hk; [|by rewrite Hst]. unfold step in Hst. rewrite Hm, Hk in Hst.
      destruct (num_step n c) as [n'|]; [by simplify_eq|]. destruct (num_final n); [|done].
      unfold end_value in Hst. cbn [stack deliver] in Hst. destruct (isSpace c) eqn:Hc; [|done]. injection Hst as <-.
      destruct (run_at_top (text ++ " ") (deliver (JNumber t) []) s' (JNumber t)) as [-> Hsp]; [apply top_ok_deliver|done..|].
      simpl in Hj. injection Hj as <-. exists (String c text). split; [done|]. unfold spaces. cbn [string_existsb].
      rewrite Hc. by apply spaces_app in Hsp.
    + destruct (run_at_top (String c (text ++ " ")) s s' j0 Hs Hm Hr) as [-> Hsp].
      assert (j0 = j) as -> by congruence. exists (String c text). split; [done|]. by apply (spaces_app _ " ").
Qed.

(** The first value of a stream that is one value. *)
Lemma Decode_whole {T} (dec : decoder T) cur text j : parse text = Some j ->
  Decode dec cur text = Unmarshal dec cur text.
Proof.
  intros Hp. unfold Decode, Unmarshal. rewrite Hp. unfold parse in Hp.
  destruct (run (text ++ " ") (mkState [] BeginValue)) as [s'|] eqn:Hr; [|done]. cbn in Hp.
  destruct (at_mode s') eqn:Hm; simplify_eq.
  assert (Ht : top_ok (mkState [] BeginValue)) by by intros ?.
  destruct (next_value_run text _ s' j Ht Hr Hm) as (rest & Hn & _). by rewrite Hn.
Qed.

(** Integers. *)

Lemma digit_char (x : N) : (x < 10)%N ->
  is_digit (pretty_N_char x) = true /\ code (pretty_N_char x) - 48 = Z.of_N x /\
  (x <> 0%N -> between 49 (pretty_N_char x) 57 = true).
Proof.
  intros H. destruct x as [|p]; [by vm_compute|].
  do 4 try destruct p as [p|p|]; try (exfalso; lia); by vm_compute.
Qed.

Definition all_digits (s : string) : bool := negb (string_existsb (fun c => negb (is_digit c)) s).

Lemma all_digits_snoc s c : all_digits (s ++ single c) = all_digits s && is_digit c.
Proof.
  unfold all_digits. rewrite string_existsb_app, negb_orb. simpl. by rewrite orb_false_r, negb_involutive.
Qed.

(** A positive numeral is a digit other than 0 followed by digits, and denotes
    its number. *)
Lemma numeral (x : N) : (0 < x)%N -> exists c t, forall s, pretty_N_go x s = String c (t ++ s) /\
  between 49 c 57 = true /\ all_digits t = true.
Proof.
  induction (N.lt_wf_0 x) as [x _ IH]. intros Hx.
  assert (Hm : (x mod 10 < 10)%N) by (by apply N.mod_lt).
  destruct (digit_char (x mod 10) Hm) as (Hd & _ & Hnz).
  destruct (decide (x < 10)%N) as [Hs|Hs].
  - exists (pretty_N_char (x mod 10)), "". intros s. rewrite pretty_N_go_step by lia.
    rewrite (N.div_small x 10), pretty_N_go_0 by done. split; [done|]. split; [|done].
    apply Hnz. rewrite N.mod_small; lia.
  - destruct (IH (x / 10)%N) as (c & t & Hgo); [apply N.div_lt; lia|apply N.div_str_pos; lia|].
    exists c, (t ++ single (pretty_N_char (x mod 10))). intros s. rewrite pretty_N_go_step by lia.
    destruct (Hgo (String (pretty_N_char (x mod 10)) s)) as (-> & Hc & Ht).
    rewrite string_app_assoc, all_digits_snoc, Ht. done.
Qed.

Lemma numeral_value (x : N) s : digits_value 0 (pretty_N_go x s) = digits_value (Z.of_N x) s.
Proof.
  revert s. induction (N.lt_wf_0 x) as [x _ IH]. intros s.
  destruct (decide (x = 0)%N) as [->|Hx]; [by rewrite pretty_N_go_0|].
  rewrite pretty_N_go_step by lia. rewrite IH by (apply N.div_lt; lia). cbn [digits_value].
  assert (Hm : (x mod 10 < 10)%N) by (by apply N.mod_lt).
  destruct (digit_char _ Hm) as (-> & -> & _). f_equal.
  rewrite (N.div_mod x 10) at 3 by done. lia.
Qed.

Lemma num_run_digits t : all_digits t = true -> num_run t Int = Some Int.
Proof.
  induction t as [|c t IH]; [done|]. unfold all_digits. simpl. rewrite negb_orb, negb_involutive.
  intros [Hc Ht]%andb_true_iff. cbn [num_run num_step]. rewrite Hc. cbn. by apply IH.
Qed.

Lemma nonzero_digit c : between 49 c 57 = true ->
  num_start c = Some Int /\ num_step Neg c = Some Int /\ is_digit c = true /\
  Ascii.eqb c "-" = false /\ Ascii.eqb c "+" = false.
Proof. every_byte c; intros H; vm_compute in H; try done; by vm_compute. Qed.

Lemma pretty_pos p : exists c t, pretty (N.pos p) = String c t /\
  between 49 c 57 = true /\ all_digits t = true /\ digits_value 0 (String c t) = Some (Z.pos p).
Proof.
  destruct (numeral (N.pos p)) as (c & t & H); [lia|]. destruct (H "") as (He & Hc & Ht).
  pose proof (numeral_value (N.pos p) "") as Hv. rewrite string_app_nil_r in He.
  exists c, t. rewrite He in Hv. split; [|done]. unfold pretty, pretty_N. by rewrite decide_False.
Qed.

Lemma Itoa_literal z : number_literal (Itoa z).
Proof.
  destruct z as [|p|p]; [done| |].
  - destruct (pretty_pos p) as (c & t & He & Hc & Ht & _). change (Itoa (Z.pos p)) with (pretty (N.pos p)).
    rewrite He. cbn [number_literal]. destruct (nonzero_digit c Hc) as (-> & _). cbn. by rewrite num_run_digits.
  - destruct (pretty_pos p) as (c & t & He & Hc & Ht & _).
    change (Itoa (Z.neg p)) with (String "-" (pretty (N.pos p))). rewrite He. cbn [number_literal].
    change (num_start "-") with (Some Neg). cbn [mbind option_bind num_run].
    destruct (nonzero_digit c Hc) as (_ & -> & _). cbn. by rewrite num_run_digits.
Qed.

Lemma ParseInt_Itoa z : - 2 ^ 63 <= z < 2 ^ 63 -> ParseInt (Itoa z) = Some z.
Proof.
  intros Hz. unfold ParseInt. destruct z as [|p|p]; [done| |].
  - destruct (pretty_pos p) as (c & t & He & Hc & _ & Hv). change (Itoa (Z.pos p)) with (pretty (N.pos p)).
    rewrite He. destruct (nonzero_digit c Hc) as (_ & _ & _ & -> & ->).
    rewrite decide_False, Hv by done. rewrite Z.mul_1_l.
    by rewrite (proj2 (Z.leb_le _ _)), (proj2 (Z.ltb_lt _ _)) by lia.
  - destruct (pretty_pos p) as (c & t & He & Hc & _ & Hv).
    change (Itoa (Z.neg p)) with (String "-" (pretty (N.pos p))). cbn [Ascii.eqb Bool.eqb]. rewrite He.
    rewrite decide_False, Hv by done. change (-1 * Z.pos p) with (Z.neg p).
    by rewrite (proj2 (Z.leb_le _ _)), (proj2 (Z.ltb_lt _ _)) by lia.
Qed.

(** ** Encoding maps, and reading them back *)

(** A map is written as an object, in any order of its keys. *)
Definition encode_map `{MapRange} {A} (f : A -> json) (m : gmap string A) : json :=
  mkObject ((fun ka => (ka.1, f ka.2)) <$> range m).

Definition valid_keys {A} (m : gmap string A) : Prop := map_Forall (fun k _ => Valid k) m.

Lemma compact_encode_map `{MapRange} {A} d (f : A -> json) m :
  valid_keys m -> map_Forall (fun _ a => compact d (f a)) m -> compact (S d) (encode_map f m).
Proof.
  intros Hk Hc. split; [done|]. apply Forall_fmap, Forall_forall. intros [k a] Hin%elem_of_range.
  split; [by apply (Hk k a)|by apply (Hc k a)].
Qed.

Lemma compact_object d ms :
  Forall (fun kv => Valid kv.1 /\ compact d kv.2) ms -> compact (S d) (mkObject ms).
Proof. by split. Qed.

Lemma compact_array d vs : Forall (compact d) vs -> compact (S d) (mkArray vs).
Proof. by split. Qed.

Lemma compact_string d s : Valid s -> compact d (mkString s).
Proof. by destruct d. Qed.

Lemma compact_int d z : compact d (mkInt z).
Proof. pose proof (Itoa_literal z). by destruct d. Qed.

Lemma dec_map_fold {A T} zero (dec : decoder T) (f : A -> json) (g : A -> T) l (m : gmap string T) :
  (forall k a, (k, a) ∈ l -> dec zero (f a) = (g a, true)) -> NoDup l.*1 ->
  fold_left (fun s kv => let '(v, ok) := dec zero kv.2 in (<[kv.1 := v]> s.1, s.2 && ok))
    ((fun ka => (ka.1, f ka.2)) <$> l) (m, true) = (list_to_map (prod_map id g <$> l) ∪ m, true).
Proof.
  revert m. induction l as [|[k a] l IH]; intros m Hd Hn; [by rewrite !fmap_nil, list_to_map_nil, map_empty_union|].
  apply NoDup_cons in Hn as [Hk Hn]. rewrite !fmap_cons. cbn [fold_left fst snd].
  rewrite (Hd k a) by (left; done). cbn [fst snd andb]. rewrite IH by (done || (intros; apply (Hd k0); by right)).
  f_equal. cbn [list_to_map foldr prod_map fst snd id]. rewrite <- insert_union_l, insert_union_r; [done|].
  apply not_elem_of_list_to_map_1. by rewrite <- list_fmap_compose.
Qed.

Lemma dec_map_encode `{MapRange} {A T} zero (dec : decoder T) (f : A -> json) (g : A -> T) (m : gmap string A) :
  map_Forall (fun _ a => dec zero (f a) = (g a, true)) m ->
  dec_map zero dec ∅ (encode_map f m) = (g <$> m, true).
Proof.
  intros Hd. unfold encode_map, mkObject. cbn [dec_map]. rewrite (dec_map_fold zero dec f g).
  - f_equal. rewrite map_union_empty. apply map_eq. intros k.
    rewrite lookup_fmap. destruct (m !! k) as [a|] eqn:Hm; simpl.
    + apply elem_of_list_to_map.
      * rewrite <- list_fmap_compose. apply (NoDup_range m).
      * apply list_elem_of_fmap. exists (k, a). by rewrite elem_of_range.
    + apply not_elem_of_list_to_map. rewrite <- list_fmap_compose.
      intros [a Ha]%elem_of_range_keys. congruence.
  - intros k a Hin%elem_of_range. by apply (Hd k a).
  - apply NoDup_range.
Qed.

Lemma dec_elements_encode {A T} zero (dec : decoder T) (f : A -> json) (g : A -> T) l :
  Forall (fun a => dec zero (f a) = (g a, true)) l ->
  dec_elements zero dec [] (f <$> l) = (g <$> l, true).
Proof.
  induction 1 as [|a l Ha _ IH]; [done|]. rewrite fmap_cons. cbn [dec_elements head tail default].
  unfold from_option, id. simpl. by rewrite Ha, IH.
Qed.

(** The common case: a map, or a slice, of values written as they are. *)
Lemma dec_map_same `{MapRange} {T} zero (dec : decoder T) (f : T -> json) (m : gmap string T) :
  map_Forall (fun _ a => dec zero (f a) = (a, true)) m ->
  dec_map zero dec ∅ (encode_map f m) = (m, true).
Proof. intros Hd. rewrite (dec_map_encode zero dec f id m Hd). by rewrite map_fmap_id. Qed.

Lemma dec_slice_same {T} zero (dec : decoder T) (f : T -> json) (l : list T) :
  Forall (fun a => dec zero (f a) = (a, true)) l ->
  dec_slice zero dec [] (mkArray (f <$> l)) = (l, true).
Proof.
  intros Hd. unfold mkArray. cbn [dec_slice]. rewrite (dec_elements_encode zero dec f id l Hd).
  by rewrite list_fmap_id.
Qed.
