(* ===== verification/InnerApi.v ===== *)
(** * The InnerAPI client (pkg/innerapi/client.go)

    Requests, the response envelope and the version protocol.  The transport
    (net/http and the checks of url.Parse) is an interface, [HTTP]; everything
    between the transport and the caller is modelled, the decoding of the JSON
    body included (Json.v). *)

From S2P Require Import Prelude.
From S2P Require Import GoStd.
From S2P Require Import Json.
From Stdlib Require Import Ascii String.
Local Open Scope string_scope.
Local Open Scope Z_scope.
#[local] Arguments String.append !_ _ /.

(** ** Payloads *)

(** [type AssignmentEntry struct]: ids of the instances of a cluster's group. *)
Record AssignmentEntry := mkEntry { Primary : option string; Standby : option string }.

(** [type EppDataConfig struct]: the two sections of one snapshot. *)
Record EppDataConfig := mkEppData {
  EppConfig : gmap string string; Assignment : gmap string AssignmentEntry }.

(** Decoding into one field of a struct. *)
Definition field {T F} (get : T -> F) (set : F -> T -> T) (dec : decoder F) : decoder T :=
  fun cur j => let '(v, ok) := dec (get cur) j in (set v cur, ok).

Definition dec_AssignmentEntry : decoder AssignmentEntry := dec_struct [
  ("primary", field Primary (fun v e => mkEntry v (Standby e)) (dec_pointer "" dec_string));
  ("standby", field Standby (fun v e => mkEntry (Primary e) v) (dec_pointer "" dec_string)) ].

Definition dec_EppDataConfig : decoder EppDataConfig := dec_struct [
  ("epp_config", field EppConfig (fun v e => mkEppData v (Assignment e)) (dec_map "" dec_raw));
  ("assignment", field Assignment (fun v e => mkEppData (EppConfig e) v)
     (dec_map (mkEntry None None) dec_AssignmentEntry)) ].

Module Api.
(** [type envelope struct] *)
Record envelope := mkEnvelope { ErrNum : Z; ErrMsg : string; Data : string; WorkMode : string }.
Definition dec_envelope : decoder envelope := dec_struct [
  ("ErrNum", field ErrNum (fun v e => mkEnvelope v (ErrMsg e) (Data e) (WorkMode e)) dec_int);
  ("ErrMsg", field ErrMsg (fun v e => mkEnvelope (ErrNum e) v (Data e) (WorkMode e)) dec_string);
  ("Data", field Data (fun v e => mkEnvelope (ErrNum e) (ErrMsg e) v (WorkMode e)) dec_raw);
  ("WorkMode", field WorkMode (fun v e => mkEnvelope (ErrNum e) (ErrMsg e) (Data e) v) dec_string) ].

(** The [payload] of [Get]: a version and a raw configuration. *)
Record payload := mkPayload { Version : string; Config : string }.
Definition dec_payload : decoder payload := dec_struct [
  ("Version", field Version (fun v p => mkPayload v (Config p)) dec_string);
  ("Config", field Config (fun v p => mkPayload (Version p) v) dec_raw) ].

(** ** The transport *)

(** [http.Request], as far as the client sets it, and [http.Response]: the
    bytes of the body, and the error reading it ends in, if any. *)
Record Request := mkRequest { url : string; header : gmap string string }.
Record Response := mkResponse { StatusCode : Z; body : string; body_err : option error }.

(** [url.Parse] refuses some texts; [Do] performs a request within a timeout. *)
Class HTTP (Net : Type) := {
  parse_url : string -> option error;
  Do : Z -> Request -> St Net (result error Response) }.

(** [io.ReadAll(io.LimitReader(resp.Body, n))]: at most [n] bytes; past them the
    body is not read, so an error there goes unseen. *)
Fixpoint take_bytes (n : Z) (s : string) : string :=
  match s with
  | "" => ""
  | String c s' => if n <=? 0 then "" else String c (take_bytes (n - 1) s')
  end.
Definition ReadAll (n : Z) (r : Response) : string * option error :=
  (take_bytes n (body r), if Z.of_nat (String.length (body r)) <? n then body_err r else None).

(** ** The client *)

Definition errNumOK : Z := 200.
Definition StatusOK : Z := 200.
(** [32<<20] *)
Definition max_body : Z := Z.shiftl 32 20.

(** [type Client struct] *)
Record Client := mkClient { baseURL : string; token : string; hc_Timeout : Z }.

(** [NewClient(baseURL, token, timeout)] *)
Definition NewClient (baseURL token : string) (timeout : Z) : Client :=
  mkClient (TrimRight "/" baseURL) token (if timeout <=? 0 then 3 * Second else timeout).

(** [truncate(s, n)] *)
Definition truncate (s : string) (n : nat) : string :=
  if (String.length s <=? n)%nat then s else slice 0 n s ++ "...".

(** [c.setAuth(req)] *)
Definition setAuth (c : Client) (r : Request) : Request :=
  if decide (token c <> "") then
    mkRequest (url r) (<["Authorization" := "Token " ++ token c]> (header r))
  else r.

(** The URL of a request. *)
Definition request_url (c : Client) (path version : string) : string :=
  let u := baseURL c ++ path in
  if decide (version <> "") then
    u ++ (if has_byte "?" u then "&" else "?") ++ "version=" ++ QueryEscape version
  else u.

(** What [Get] returns, and the value [out] points to afterwards. *)
Record Got (T : Type) := mkGot {
  changed : bool; newVersion : string; err : option error; out : T }.
Arguments mkGot {T}. Arguments changed {T}. Arguments newVersion {T}. Arguments err {T}. Arguments out {T}.

Section Get.
Context {T : Type}.

Definition failed (e : error) (v : T) : Got T := mkGot false "" (Some e) v.

(** From the payload on: decode it, then its configuration into [out]. [dec] is
    the type of [out]; [None] stands for a nil [out]. *)
Definition get_payload (path : string) (dec : option (decoder T)) (cur : T) (data : string) : Got T :=
  match Unmarshal dec_payload (mkPayload "" "") data with
  | (_, Some e) => failed (Errorf ("innerapi decode data " ++ path) e) cur
  | (p, None) =>
      match dec with
      | None => mkGot true (Version p) None cur
      | Some dec =>
          match Unmarshal dec cur (Config p) with
          | (v, Some e) => failed (Errorf ("innerapi decode config " ++ path) e) v
          | (v, None) => mkGot true (Version p) None v
          end
      end
  end.

(** From the response on. *)
Definition get_response (path version : string) (dec : option (decoder T)) (cur : T) (r : Response) : Got T :=
  match ReadAll max_body r with
  | (_, Some e) => failed (Errorf ("innerapi read " ++ path) e) cur
  | (b, None) =>
      if negb (StatusCode r =? StatusOK) then
        failed (NewError ("innerapi get " ++ path ++ ": status " ++ Itoa (StatusCode r) ++ ": " ++
                          truncate b 200)) cur
      else match Unmarshal dec_envelope (mkEnvelope 0 "" "" "") b with
      | (_, Some e) => failed (Errorf ("innerapi decode " ++ path) e) cur
      | (env, None) =>
          if negb (ErrNum env =? errNumOK) then
            failed (NewError ("innerapi get " ++ path ++ ": errnum " ++ Itoa (ErrNum env) ++ ": " ++
                              ErrMsg env)) cur
          else if (String.length (Data env) =? 0)%nat || bool_decide (TrimSpace (Data env) = "null") then
            mkGot false version None cur
          else get_payload path dec cur (Data env)
      end
  end.

(** [(c *Client) Get(ctx, path, version, out)] with [*out] initially [cur]. *)
Definition Get {Net} `{HTTP Net} (c : Client) (path version : string) (dec : option (decoder T)) (cur : T) :
    St Net (Got T) :=
  let u := request_url c path version in
  match parse_url u with
  | Some e => mret (failed e cur)
  | None =>
      resp ← Do (hc_Timeout c) (setAuth c (mkRequest u ∅));
      mret match resp with
      | Err e => failed (Errorf ("innerapi get " ++ path) e) cur
      | Ok r => get_response path version dec cur r
      end
  end.
End Get.

End Api.

Import Api.

(** ** What a server answers *)

(** The documents of the API: an envelope, and in it a versioned payload. *)
Definition envelope_doc (num : Z) (msg : string) (data : json) (work_mode : string) : json :=
  mkObject [("ErrNum", mkInt num); ("ErrMsg", mkString msg); ("Data", data); ("WorkMode", mkString work_mode)].
Definition versioned_doc (version : string) (config : json) : json :=
  mkObject [("Version", mkString version); ("Config", config)].

Ltac members := repeat first
  [ apply Forall_nil_2
  | apply Forall_cons_2;
      [split; [exact I|cbn [snd]; first [assumption | apply compact_int | by apply compact_string]]|] ].

Lemma compact_envelope d num msg data wm :
  Valid msg -> Valid wm -> compact d data -> compact (S d) (envelope_doc num msg data wm).
Proof.
  intros. apply compact_object. members.
Qed.

Lemma compact_versioned d version config :
  Valid version -> compact d config -> compact (S d) (versioned_doc version config).
Proof.
  intros. apply compact_object. members.
Qed.

Lemma Unmarshal_compact {T} (dec : decoder T) cur d j :
  compact d j -> depth_ok d ->
  Unmarshal dec cur (raw j) = ((dec cur j).1, if (dec cur j).2 then None else Some type_error).
Proof. intros Hc Hd. unfold Unmarshal. rewrite (parse_compact d j Hc Hd). by destruct (dec cur j). Qed.

Lemma take_bytes_all n s : Z.of_nat (String.length s) <= n -> take_bytes n s = s.
Proof.
  revert n. induction s as [|c s IH]; intros n H; [done|]. simpl in *.
  destruct (Z.leb_spec n 0); [lia|]. rewrite IH; [done|lia].
Qed.

(** A body that arrives whole. *)
Definition arrives (r : Response) (text : string) : Prop :=
  body r = text /\ Z.of_nat (String.length text) <= max_body /\ body_err r = None.

Lemma ReadAll_arrives r text : arrives r text -> ReadAll max_body r = (text, None).
Proof.
  intros (Hb & Hn & He). unfold ReadAll. rewrite Hb, He, take_bytes_all by done. by case_match.
Qed.

Lemma dec_envelope_doc num msg data wm : - 2 ^ 63 <= num < 2 ^ 63 ->
  dec_envelope (mkEnvelope 0 "" "" "") (envelope_doc num msg data wm) =
  (mkEnvelope num msg (raw data) wm, true).
Proof.
  intros Hn. unfold dec_envelope, envelope_doc, mkObject, dec_struct, mkInt, field, dec_int.
  cbn -[ParseInt Itoa].
  by rewrite ParseInt_Itoa.
Qed.

Lemma dec_versioned_doc version config :
  dec_payload (mkPayload "" "") (versioned_doc version config) = (mkPayload version (raw config), true).
Proof. done. Qed.

(** A JSON object is not blank and not null. *)
Lemma object_text_not_null ms : (String.length (raw (mkObject ms)) =? 0)%nat = false /\
  bool_decide (TrimSpace (raw (mkObject ms)) = "null") = false.
Proof.
  split; [done|]. apply bool_decide_eq_false. unfold TrimSpace. cbn [raw mkObject String.append].
  change (trim_left (String "{" (join "," (member <$> ms) ++ "}"))) with
    (String "{" (join "," (member <$> ms) ++ "}")).
  cbn [trim_right]. by destruct (trim_right _).
Qed.

(** What the API has to say: nothing newer than the client's version, or a
    version with its configuration. *)
Inductive answer := NoNews | News (version : string) (config : json).
Definition answer_doc (a : answer) : json :=
  match a with NoNews => JNull | News version config => versioned_doc version config end.
Definition answer_ok (d : nat) (a : answer) : Prop :=
  match a with NoNews => True | News version config => Valid version /\ compact d config end.

Lemma answer_compact d a : answer_ok d a -> compact (S d) (answer_doc a).
Proof. destruct a as [|v c]; [done|]. intros [? ?]. by apply compact_versioned. Qed.

(** A whole response, in every case. *)
Lemma get_response_answer {T} path version (dec : decoder T) cur r num msg a wm d :
  arrives r (raw (envelope_doc num msg (answer_doc a) wm)) -> - 2 ^ 63 <= num < 2 ^ 63 ->
  Valid msg -> Valid wm -> answer_ok d a -> depth_ok (S (S d)) ->
  let g := get_response path version (Some dec) cur r in
  if decide (StatusCode r <> 200 \/ num <> 200) then
    changed g = false /\ newVersion g = "" /\ is_Some (err g) /\ out g = cur
  else match a with
  | NoNews => g = mkGot false version None cur
  | News v config =>
      if (dec cur config).2 then g = mkGot true v None (dec cur config).1
      else changed g = false /\ newVersion g = "" /\
           err g = Some (Errorf ("innerapi decode config " ++ path) type_error)
  end.
Proof.
  intros Hr Hn Hm Hw Ha Hd. unfold get_response. rewrite (ReadAll_arrives r _ Hr).
  destruct (Z.eqb_spec (StatusCode r) StatusOK) as [Hs|Hs]; cbn [negb].
  2: { rewrite decide_True by auto. cbn. eauto. }
  rewrite (Unmarshal_compact _ _ (S (S d))), dec_envelope_doc
    by (done || by apply compact_envelope, answer_compact).
  cbn [fst snd ErrNum Data]. destruct (Z.eqb_spec num errNumOK) as [He|He]; cbn [negb].
  2: { rewrite decide_True by auto. cbn. eauto. }
  rewrite decide_False by (unfold StatusOK, errNumOK in *; lia).
  destruct a as [|v config]; [done|]. destruct Ha as [Hv Hc]. cbn [answer_doc].
  destruct (object_text_not_null [("Version", mkString v); ("Config", config)]) as [Hl Ht].
  unfold versioned_doc. rewrite Hl, Ht. cbn [orb]. fold (versioned_doc v config). unfold get_payload.
  rewrite (Unmarshal_compact _ _ (S d)), dec_versioned_doc
    by (by apply compact_versioned || (unfold depth_ok in *; lia)).
  cbn [fst snd Config]. rewrite (Unmarshal_compact _ _ d) by (done || (unfold depth_ok in *; lia)).
  by destruct (dec cur config) as [x []].
Qed.

(** C25. What [Get] makes of a whole response. A status or an ErrNum other than
    200 is an error, and leaves [out] alone; a null [Data] means that nothing
    newer exists, keeps the client's version and leaves [out] alone; otherwise
    the version of the payload is returned together with the decoded
    configuration, unless that does not fit the Go type, which is an error. *)
Theorem Get_reads_response {T} path version (dec : decoder T) cur r num msg a wm d :
  arrives r (raw (envelope_doc num msg (answer_doc a) wm)) -> - 2 ^ 63 <= num < 2 ^ 63 ->
  Valid msg -> Valid wm -> answer_ok d a -> depth_ok (S (S d)) ->
  let g := get_response path version (Some dec) cur r in
  if decide (StatusCode r <> 200 \/ num <> 200) then
    changed g = false /\ newVersion g = "" /\ is_Some (err g) /\ out g = cur
  else match a with
  | NoNews => g = mkGot false version None cur
  | News v config =>
      if (dec cur config).2 then g = mkGot true v None (dec cur config).1
      else changed g = false /\ newVersion g = "" /\
           err g = Some (Errorf ("innerapi decode config " ++ path) type_error)
  end.
Proof. apply get_response_answer. Qed.

(** ** Truncated documents *)

(** Inside a document that starts as an object, only a complete one is at an
    end. *)
Definition enclosed (s : state) : Prop := stack s <> [] \/ exists j, s = mkState [] (EndTop j).

Lemma enclosed_deliver j stk : enclosed (deliver j stk).
Proof. destruct stk as [|[] stk]; [right; by eexists|by left|by left]. Qed.

Lemma enclosed_end_value c s s' : enclosed s -> end_value c s = Some s' -> enclosed s'.
Proof.
  unfold end_value. intros Hs H.
  destruct (stack s) as [|[] stk]; repeat case_match; simplify_eq; eauto using enclosed_deliver; by left.
Qed.

Lemma enclosed_step c s s' : enclosed s -> step c s = Some s' -> enclosed s'.
Proof.
  intros [Hs|[j ->]] H; [|eapply enclosed_end_value; [right; eauto|exact H]].
  destruct s as [[|f stk] m]; [done|].
  assert (Hw : forall t, write t (f :: stk) <> []) by (by destruct f).
  unfold step, begin_value, begin_string, end_string, push in H. cbn [stack at_mode] in H.
  destruct m; repeat case_match; simplify_eq; eauto using enclosed_deliver, enclosed_end_value;
    try (by left); try (left; by apply Hw); (eapply enclosed_end_value; [by left|done]).
Qed.

Lemma enclosed_run t s s' : enclosed s -> run t s = Some s' -> enclosed s'.
Proof.
  revert s. induction t as [|c t IH]; intros s Hs H; [by simplify_eq/=|]. cbn [run] in H.
  apply bind_Some in H as (s1 & H1 & H). eapply IH; [|exact H]. by eapply enclosed_step.
Qed.

(** A space completes nothing inside a container. *)
Lemma end_value_space s s' j : stack s <> [] -> end_value " " s = Some s' -> at_mode s' <> EndTop j.
Proof.
  unfold end_value. change (isSpace " ") with true. cbn [negb].
  intros Hs H. destruct (stack s) as [|[] stk]; by simplify_eq.
Qed.

Lemma deliver_inside j f stk : stack (deliver j (f :: stk)) <> [] /\ forall j', at_mode (deliver j (f :: stk)) <> EndTop j'.
Proof. by destruct f. Qed.

Lemma space_inside s s' j : stack s <> [] -> step " " s = Some s' -> at_mode s' <> EndTop j.
Proof.
  intros Hs H. destruct s as [[|f stk] m]; [done|]. clear Hs.
  destruct m; cbn [step at_mode stack] in H; try (vm_compute in H; by simplify_eq).
  - destruct (num_step n " "); simplify_eq; [done|]. destruct (num_final n); [|done].
    by eapply end_value_space; [|exact H]; apply deliver_inside.
  - destruct todo as [|d rest]; [done|]. destruct (Ascii.eqb " " d); simplify_eq.
    case_decide; [apply deliver_inside|done].
  - by eapply end_value_space; [|exact H].
  - by eapply end_value_space; [|exact H].
Qed.

Lemma after_top q j s : run q (mkState [] (EndTop j)) = Some s -> has_byte "}" q = false.
Proof.
  induction q as [|c q IH]; [done|]. cbn [run]. intros H. apply bind_Some in H as (s1 & H1 & H).
  unfold step, end_value in H1. cbn [stack at_mode] in H1. destruct (isSpace c) eqn:Hc; simplify_eq.
  unfold has_byte in *. cbn [string_existsb]. rewrite IH by done.
  destruct (Ascii.eqb_spec "}" c) as [<-|]; [by vm_compute in Hc|done].
Qed.

Lemma last_byte p q t c : p ++ q = t ++ single c -> q <> "" -> has_byte c q = true.
Proof.
  revert t. induction p as [|a p IH]; intros t H Hq.
  - simpl in H. subst q. unfold has_byte. rewrite string_existsb_app. cbn. by rewrite Ascii.eqb_refl, orb_true_r.
  - destruct t as [|b t]; simpl in H; simplify_eq; [|by eapply IH].
    injection H as _ H. by destruct p, q.
Qed.

Lemma object_prefix d ms p q :
  compact d (mkObject ms) -> depth_ok d -> p ++ q = raw (mkObject ms) -> q <> "" -> parse p = None.
Proof.
  intros Hc Hd Hpq Hq. pose proof (parse_compact d _ Hc Hd) as Hp. rewrite <- Hpq in Hp.
  unfold parse in *. rewrite string_app_assoc, run_app in Hp. rewrite run_app.
  destruct (run p (mkState [] BeginValue)) as [s|] eqn:Hs; [|done]. cbn [mbind option_bind] in *.
  destruct (run " " s) as [s'|] eqn:Hsp; [|done]. cbn [mbind option_bind].
  cbn [run] in Hsp. apply bind_Some in Hsp as (s1 & Hsp & [= ->]).
  destruct (at_mode s') eqn:Hm; try done. exfalso.
  destruct p as [|a p]; [cbn in Hs; simplify_eq; vm_compute in Hsp; by simplify_eq|].
  assert (He : enclosed s).
  { cbn [raw mkObject String.append] in Hpq. injection Hpq as -> _. cbn [run] in Hs.
    apply bind_Some in Hs as (s2 & Hs2 & Hs). eapply enclosed_run; [|exact Hs].
    vm_compute in Hs2. simplify_eq. by left. }
  destruct He as [He|[j' ->]]; [by eapply space_inside|].
  destruct (run (q ++ " ") _) as [s2|] eqn:Hr in Hp; [|done].
  rewrite run_app in Hr. apply bind_Some in Hr as (s3 & Hr & _).
  apply after_top in Hr. 
  by rewrite (last_byte (String a p) q ("{" ++ join "," (member <$> ms)) "}" Hpq Hq) in Hr.
Qed.

(** C27. A truncated answer is never taken for a whole one: when the part of the
    body that is read, because the connection ended early or because of the
    limit of 32 MiB, is a proper prefix of an object, [Get] fails and touches
    neither the version nor [out]. *)
Theorem Get_rejects_truncated {T} path version (dec : decoder T) cur r d ms q :
  compact d (mkObject ms) -> depth_ok d ->
  (ReadAll max_body r).1 ++ q = raw (mkObject ms) -> q <> "" ->
  exists e, get_response path version (Some dec) cur r = mkGot false "" (Some e) cur.
Proof.
  intros Hc Hd Hpq Hq. unfold get_response.
  destruct (ReadAll max_body r) as [b [e|]]; [by eexists|]. cbn [fst] in Hpq.
  case_match; [by eexists|]. unfold Unmarshal. rewrite (object_prefix d ms b q) by done. by eexists.
Qed.

(** ** The request *)

(** The value of a query parameter, as a server reads it: what follows the first
    question mark, split at the ampersands. *)
Fixpoint after_first (c : ascii) (s : string) : option string :=
  match s with
  | "" => None
  | String a s' => if Ascii.eqb a c then Some s' else after_first c s'
  end.
Fixpoint strip_prefix (p s : string) : option string :=
  match p, s with
  | "", _ => Some s
  | String a p', String b s' => if Ascii.eqb a b then strip_prefix p' s' else None
  | _, _ => None
  end.
Fixpoint first_param (name : string) (ps : list string) : option string :=
  match ps with
  | [] => None
  | p :: ps' => match strip_prefix (name ++ "=") p with Some v => QueryUnescape v | None => first_param name ps' end
  end.
Definition query_param (name u : string) : option string :=
  q ← after_first "?" u; first_param name (split_on "&" q).

Lemma after_first_app c s t : has_byte c s = false -> after_first c (s ++ String c t) = Some t.
Proof.
  induction s as [|a s IH]; intros H; [simpl; by rewrite Ascii.eqb_refl|].
  unfold has_byte in H. cbn [string_existsb] in H. apply orb_false_iff in H as [Ha H].
  cbn [String.append after_first]. rewrite Ascii.eqb_sym, Ha. by apply IH.
Qed.

Lemma after_first_found c s t q : after_first c s = Some q -> after_first c (s ++ t) = Some (q ++ t).
Proof.
  induction s as [|a s IH]; [done|]. cbn [String.append after_first].
  destruct (Ascii.eqb a c); [by intros [= ->]|apply IH].
Qed.

Lemma has_byte_after_first c s : has_byte c s = true -> is_Some (after_first c s).
Proof.
  induction s as [|a s IH]; [done|]. unfold has_byte. cbn [string_existsb after_first].
  rewrite Ascii.eqb_sym. destruct (Ascii.eqb a c); [by eexists|apply IH].
Qed.

Lemma split_on_none c s : has_byte c s = false -> split_on c s = [s].
Proof.
  induction s as [|a s IH]; [done|]. unfold has_byte. cbn [string_existsb split_on].
  rewrite Ascii.eqb_sym. intros [-> H]%orb_false_iff. by rewrite IH.
Qed.

Lemma split_on_cons c s : exists t ts, split_on c s = t :: ts.
Proof.
  destruct s as [|a s]; [by do 2 eexists|]. cbn [split_on].
  destruct (Ascii.eqb a c); [by do 2 eexists|]. destruct (split_on c s); by do 2 eexists.
Qed.

Lemma split_on_app c s t : split_on c (s ++ String c t) = app (split_on c s) (split_on c t).
Proof.
  induction s as [|a s IH]; cbn [String.append split_on]; [by rewrite Ascii.eqb_refl|].
  destruct (Ascii.eqb a c); [by rewrite IH|]. rewrite IH. by destruct (split_on_cons c s) as (? & ? & ->).
Qed.

Lemma first_param_app name ps qs : Forall (fun p => strip_prefix (name ++ "=") p = None) ps ->
  first_param name (app ps qs) = first_param name qs.
Proof. induction 1 as [|p ps Hp _ IH]; [done|]. cbn [app first_param]. by rewrite Hp. Qed.

Lemma strip_prefix_app p s : strip_prefix p (p ++ s) = Some s.
Proof. induction p as [|a p IH]; [by destruct s|]. cbn [String.append strip_prefix]. by rewrite Ascii.eqb_refl. Qed.

Lemma escaped_no_byte c s : query_safe c = false -> has_byte c (QueryEscape s) = false.
Proof.
  intros Hc. pose proof (QueryEscape_safe s) as H. revert H. generalize (QueryEscape s). intros t.
  induction t as [|a t IH]; [done|]. unfold has_byte in *. cbn [string_existsb]. intros [Ha Ht]%orb_false_iff.
  rewrite IH by done. destruct (Ascii.eqb_spec c a) as [->|]; [by rewrite Hc in Ha|done].
Qed.

Lemma version_param v : first_param "version" (split_on "&" ("version=" ++ QueryEscape v)) = Some v.
Proof.
  rewrite split_on_none.
  - cbn [first_param]. change ("version" ++ "=") with "version=". rewrite strip_prefix_app.
    apply QueryUnescape_QueryEscape.
  - unfold has_byte. rewrite string_existsb_app. fold (has_byte "&" (QueryEscape v)).
    by rewrite escaped_no_byte.
Qed.

(** The address of the request, without a [version] parameter of its own. *)
Definition no_version_param (u : string) : Prop :=
  forall q, after_first "?" u = Some q ->
    Forall (fun p => strip_prefix "version=" p = None) (split_on "&" q).

(** The server reads the client's version, whatever bytes it has. *)
Lemma request_url_version c path version : no_version_param (baseURL c ++ path) ->
  query_param "version" (request_url c path version) = if decide (version = "") then None else Some version.
Proof.
  intros Hnv. unfold request_url, query_param. set (u := baseURL c ++ path) in *.
  destruct (decide (version = "")) as [->|Hv].
  - rewrite decide_False by auto. destruct (after_first "?" u) as [q|] eqn:Hq; [|done]. cbn.
    rewrite <- (app_nil_r (split_on "&" q)). by rewrite first_param_app by (by apply Hnv).
  - rewrite decide_True by done. destruct (has_byte "?" u) eqn:Hb.
    + destruct (has_byte_after_first _ _ Hb) as [q Hq].
      rewrite (after_first_found _ _ _ _ Hq). cbn [mbind option_bind String.append].
      rewrite split_on_app, first_param_app by (by apply Hnv). apply version_param.
    + cbn [String.append]. rewrite after_first_app by done. apply version_param.
Qed.

Lemma request_url_extends c path version : exists t, request_url c path version = (baseURL c ++ path) ++ t.
Proof.
  unfold request_url. case_decide; [by eexists|]. exists "". by rewrite string_app_nil_r.
Qed.

Lemma url_setAuth c r : url (setAuth c r) = url r.
Proof. unfold setAuth. by case_decide. Qed.

(** C26. The request [Get] makes: one call of the transport, within the client's
    timeout, whose URL extends the configured address, in which the server reads
    exactly the client's version, whatever bytes it has, and no version when the
    client has none; a configured token, and only that, is in the header. *)
Theorem Get_request {Net T} `{HTTP Net} (c : Client) path version (dec : option (decoder T)) cur n :
  no_version_param (baseURL c ++ path) ->
  parse_url (request_url c path version) = None ->
  exists req, (Get c path version dec cur n).2 = (Do (hc_Timeout c) req n).2 /\
    query_param "version" (url req) = (if decide (version = "") then None else Some version) /\
    (exists t, url req = (baseURL c ++ path) ++ t) /\
    header req = (if decide (token c = "") then ∅ else {["Authorization" := "Token " ++ token c]}).
Proof.
  intros Hnv Hp. exists (setAuth c (mkRequest (request_url c path version) ∅)). rewrite url_setAuth.
  split; [|split; [by apply request_url_version|split; [apply request_url_extends|]]].
  - unfold Get. rewrite Hp, St_bind_run. by destruct (Do _ _ _).
  - unfold setAuth. repeat case_decide; done.
Qed.

(** ** Witnesses *)

Module ToyApi.
(** An API at version ["v2"] of a configuration that is an empty object. *)
Definition client : Client := NewClient "http://api:8181/inner-api/v1/" "s3cret" 0.
Definition toy_answer (version : option string) : answer :=
  if decide (version = Some "v2") then NoNews else News "v2" (mkObject []).
Definition respond (version : option string) : Response :=
  mkResponse 200 (raw (envelope_doc 200 "ok" (answer_doc (toy_answer version)) "")) None.
#[export] Instance net : HTTP unit :=
  {| parse_url _ := None; Do _ req n := (Ok (respond (query_param "version" (url req))), n) |}.
End ToyApi.
#[local] Existing Instance ToyApi.net.

Lemma Get_reads_response_witness :
  get_response "/p" "v1" (Some (dec_map "" dec_raw)) ∅ (ToyApi.respond (Some "v1")) =
    mkGot true "v2" None ∅ /\
  get_response "/p" "v2" (Some (dec_map "" dec_raw)) ∅ (ToyApi.respond (Some "v2")) =
    mkGot false "v2" None ∅.
Proof.
  split.
  - refine (Get_reads_response "/p" "v1" (dec_map "" dec_raw) ∅ (ToyApi.respond (Some "v1")) 200 "ok"
      (News "v2" (mkObject [])) "" 1 _ _ I I _ _).
    + split; [reflexivity|]. split; [vm_compute; discriminate|reflexivity].
    + split; [vm_compute; discriminate|reflexivity].
    + split; [exact I|]. split; [reflexivity|constructor].
    + vm_compute. discriminate.
  - refine (Get_reads_response "/p" "v2" (dec_map "" dec_raw) ∅ (ToyApi.respond (Some "v2")) 200 "ok"
      NoNews "" 1 _ _ I I I _).
    + split; [reflexivity|]. split; [vm_compute; discriminate|reflexivity].
    + split; [vm_compute; discriminate|reflexivity].
    + vm_compute. discriminate.
Defined.

(** The connection is cut one byte before the end. *)
Lemma Get_rejects_truncated_witness :
  exists e, get_response "/p" "v1" (Some (dec_map "" dec_raw)) ∅
    (mkResponse 200 (String "{" (member ("ErrNum", mkInt 200))) None) = mkGot false "" (Some e) ∅.
Proof.
  refine (Get_rejects_truncated "/p" "v1" (dec_map "" dec_raw) ∅ _ 1 [("ErrNum", mkInt 200)] "}" _ _ _ _).
  - split; [reflexivity|]. constructor; [split; [exact I|reflexivity]|constructor].
  - vm_compute. discriminate.
  - reflexivity.
  - discriminate.
Defined.

(** A version with bytes that mean something in a URL. *)
Lemma Get_request_witness :
  exists req, (Get (T := Z) ToyApi.client "/p" "1&2=3 4" None 0 tt).2 = (Do (hc_Timeout ToyApi.client) req tt).2 /\
    query_param "version" (url req) = Some "1&2=3 4" /\
    header req = {["Authorization" := "Token s3cret"]}.
Proof.
  destruct (Get_request (T := Z) ToyApi.client "/p" "1&2=3 4" None 0 tt) as (req & H1 & H2 & _ & H4).
  - intros q Hq. vm_compute in Hq. discriminate.
  - reflexivity.
  - exists req. split; [exact H1|]. split; [exact H2|exact H4].
Defined.
