(* ===== verification/EppData.v ===== *)
(** * The epp_data watcher (pkg/poller/epp_data.go)

    [resolveRole] matches this instance against the full assignment view;
    [Handle] drives the cell lifecycle from one snapshot.  The theorems say
    what a snapshot does to every cluster, whatever order Go's map iteration
    takes. *)

From S2P Require Import Prelude.
From S2P Require Import GoStd.
From S2P Require Import Sha256.
From S2P Require Import Role.
From S2P Require Import Llmd.
From S2P Require Import Cell.
From S2P Require Import Compile.
From S2P Require Import Manager.
From S2P Require Import ManagerFacts.
From S2P Require Import WellFormed.
From S2P Require Import ManagerSpec.
From S2P Require Import InnerApi.
Local Open Scope string_scope.

(** [resolveRole(self, e)] *)
Definition resolveRole (self : string) (e : AssignmentEntry) : Role * bool :=
  if decide (Primary e = Some self) then (RolePrimary, true)
  else if decide (Standby e = Some self) then (RoleStandby, true)
  else (RoleNone, false).

(** [peerID(self, e)] *)
Definition peerID (self : string) (e : AssignmentEntry) : string :=
  if decide (Primary e = Some self) then default "" (Standby e)
  else if decide (Standby e = Some self) then default "" (Primary e)
  else "".

Section Watcher.
Context {L : LlmdRouter} `{MapRange}.
Abbreviation M := (St World).

(** [type EppDataWatcher struct], the fields [Handle] reads. *)
Record EppDataWatcher := mkWatcher { instance : string; manager : Manager }.

(** [NewEppDataWatcher(client, instance, manager, logger)]; the client belongs to
    the source. *)
Definition NewEppDataWatcher (instance : string) (manager : Manager) : EppDataWatcher := mkWatcher instance manager.

(** The [mine] map of [Handle]. *)
Definition resolve_mine (self : string) (cfg : EppDataConfig) : gmap string Role :=
  fold_left (fun mine ce =>
    match resolveRole self ce.2 with
    | (role, true) => <[ce.1 := role]> mine
    | (_, false) => mine
    end) (range (Assignment cfg)) ∅.

(** [for cluster, role := range mine { Ensure ... return err }] *)
Fixpoint ensure_all (m : Manager) (l : list (string * Role)) : M (option error) :=
  match l with
  | [] => mret None
  | (cluster, role) :: l' =>
      r ← Ensure m cluster role;
      match r with
      | Err e => mret (Some (Errorf ("ensure cell " +:+ cluster) e))
      | Ok _ => ensure_all m l'
      end
  end.

(** The body of the loop that drops cells no longer assigned. *)
Definition drop_unassigned (mine : gmap string Role) (c : nat) : M unit :=
  k ← Cell_Key c;
  match mine !! k with None => Drop k | Some _ => mret tt end.

(** The body of the loop over the epp_config section; errors are only logged. *)
Definition apply_assigned (m : Manager) (mine : gmap string Role) (ce : string * string) : M unit :=
  match mine !! ce.1 with
  | None => mret tt
  | Some _ => _ ← ApplyConfig m ce.1 ce.2; mret tt
  end.

(** [(w *EppDataWatcher) Handle(ctx, cfg)] *)
Definition Handle (w : EppDataWatcher) (cfg : EppDataConfig) : M (option error) :=
  let mine := resolve_mine (instance w) cfg in
  metric (AssignmentNoMatch_Set (if decide (mine = ∅) then 1 else 0)%Z) ;;
  err ← ensure_all (manager w) (range mine);
  match err with
  | Some e => mret (Some e)
  | None =>
      live ← List_cells;
      for_each live (drop_unassigned mine) ;;
      for_each (range (EppConfig cfg)) (apply_assigned (manager w) mine) ;;
      mret None
  end.
End Watcher.

(** ** What one snapshot does *)

Section Spec.
Context {L : LlmdRouter} `{MapRange}.

(** The role this instance holds for a cluster, from the snapshot alone. *)
Definition my_role (self : string) (cfg : EppDataConfig) (k : Key) : option Role :=
  e ← Assignment cfg !! k;
  match resolveRole self e with (r, true) => Some r | _ => None end.

Lemma resolve_mine_lookup self cfg k : resolve_mine self cfg !! k = my_role self cfg k.
Proof.
  unfold resolve_mine, my_role.
  assert (Hgen : forall (l : list (Key * AssignmentEntry)) (m : gmap Key Role), NoDup l.*1 -> (forall ce, ce ∈ l -> m !! ce.1 = None) ->
    fold_left (fun mine ce => match resolveRole self ce.2 with
      | (role, true) => <[ce.1 := role]> mine | (_, false) => mine end) l m !! k =
    match list_to_map (M := gmap string AssignmentEntry) l !! k with
    | Some e => match resolveRole self e with (r, true) => Some r | _ => None end
    | None => m !! k
    end).
  { induction l as [|[c e] l IH]; intros m Hnd Hm; [done|].
    rewrite fmap_cons in Hnd. apply NoDup_cons in Hnd as [Hc Hnd].
    assert (Hlc : list_to_map (M := gmap string AssignmentEntry) l !! c = None)
      by by apply not_elem_of_list_to_map.
    assert (Hmc : m !! c = None) by exact (Hm (c, e) (list_elem_of_here _ _)).
    assert (Hl : forall ce, ce ∈ l -> ce.1 <> c).
    { intros ce Hce <-. apply Hc, list_elem_of_fmap. by exists ce. }
    cbn [fold_left list_to_map foldr fst snd curry uncurry]. destruct (resolveRole self e) as [r b] eqn:Hr.
    rewrite IH; [|done|]; last first.
    { intros ce Hce. destruct b; [rewrite lookup_insert_ne by (intros ?; by eapply Hl)|];
        apply Hm; by right. }
    change (list_to_map ((c, e) :: l)) with (<[c:=e]> (list_to_map (M := gmap string AssignmentEntry) l)).
    destruct (decide (c = k)) as [->|Hne].
    - rewrite Hlc, lookup_insert_eq, Hr. destruct b; [apply lookup_insert_eq|done].
    - rewrite lookup_insert_ne by done. destruct b; [by rewrite lookup_insert_ne|done]. }
  rewrite Hgen.
  - assert (Hl : list_to_map (range (Assignment cfg)) = Assignment cfg).
    { rewrite <- (list_to_map_to_list (Assignment cfg)).
      apply list_to_map_proper; [apply NoDup_range|]. rewrite list_to_map_to_list. apply range_perm. }
    rewrite Hl. by destruct (Assignment cfg !! k).
  - apply NoDup_range.
  - intros. apply lookup_empty.
Qed.

(** The compile function reads nothing but the data plane of the cell. *)
Definition scope_free (f : CompileFunc) : Prop :=
  forall k raw sc sc' d, compile_at f k raw sc d = compile_at f k raw sc' d.

(** What a snapshot does to the entry of a cluster, given this instance's role
    for it and the configuration the snapshot carries. *)
Definition handle_spec (m : Manager) (d : DataPlane) (k : Key) (role : option Role)
    (raw : option string) (v v' : view) : Prop :=
  match role with
  | None => drop_spec v v'
  | Some r =>
      let v1 := ensure_spec d r v in
      match raw with
      | None => v' = v1
      | Some raw => forall sc, v' = (apply_spec (compile_at (m_compile m) k raw sc) raw v1).1
      end
  end.

(** Phase 1: [ensure_all] succeeds and refines [ensure_spec] on every key. *)
Lemma ensure_all_spec m (d : Key -> DataPlane) l w :
  (forall k, m_newCell m k = Ok (d k)) -> NoDup l.*1 -> wf w ->
  let '(err, w') := ensure_all m l w in
  err = None /\ wf w' /\
  (forall k r, (k, r) ∈ l -> view_at w' k = ensure_spec (d k) r (view_at w k)) /\
  (forall k, k ∉ l.*1 -> view_at w' k = view_at w k).
Proof.
  intros Hn. revert w. induction l as [|[k r] l IH]; intros w Hnd Hwf; simpl.
  - split; [done|]. split; [done|]. split; [|done]. intros k r Hin. by apply not_elem_of_nil in Hin.
  - rewrite fmap_cons in Hnd. apply NoDup_cons in Hnd as [Hk Hnd].
    pose proof (Ensure_spec m k (d k) r w Hwf (Hn k)) as He.
    destruct (Ensure m k r w) as [res w1] eqn:Hres. destruct He as (Hwf1 & Hok & Ho1 & Hv1).
    erewrite bind_step by exact Hres. cbn beta. destruct res as [c|e]; [|done].
    specialize (IH w1 Hnd Hwf1). destruct (ensure_all m l w1) as [err w2].
    destruct IH as (-> & Hwf2 & Hin2 & Hout2). split; [done|]. split; [done|]. split.
    + intros k' r' [Heq|Hin]%elem_of_cons; [simplify_eq; by rewrite Hout2|].
      rewrite (Hin2 _ _ Hin), Ho1; [done|]. intros ->. apply Hk, list_elem_of_fmap.
      by exists (k, r').
    + intros k' [Hne Hnin]%not_elem_of_cons. by rewrite Hout2, Ho1.
Qed.

(** Phase 2: dropping the cells whose key is not in [mine]. *)
Lemma drop_phase_spec mine w :
  wf w ->
  let w' := exec (for_each (range (registry w)).*2 (drop_unassigned mine)) w in
  wf w' /\
  forall k, match mine !! k with
            | Some _ => view_at w' k = view_at w k
            | None => drop_spec (view_at w k) (view_at w' k)
            end.
Proof.
  intros Hwf.
  set (I := fun v => wf v /\ ages w v).
  destruct (for_each_pointwise (fun kc : Key * nat => kc.1) (fun kc => drop_unassigned mine kc.2)
    (fun kc v v' => match mine !! kc.1 with Some _ => v' = v | None => drop_spec v v' end)
    I (range (registry w)) w) as ([Hwf' _] & Hin & Hout).
  - intros [k c] v Hkc [Hv Hkeep]. simpl. apply elem_of_range in Hkc.
    destruct (wf_reg w Hwf _ _ Hkc) as (o & Ho & Hk & _).
    destruct (Hkeep c o Ho) as (o' & Ho' & Hk' & _). rewrite Hk in Hk'.
    unfold drop_unassigned, Cell_Key. erewrite bind_step; [|by apply (load_run _ _ _ o')].
    cbn beta. rewrite Hk'. destruct (mine !! k) eqn:Hm; [done|].
    destruct (Drop_spec k v Hv) as (H1 & H2 & H3). split; [|done].
    split; [done|]. eapply ages_trans; [done|]. by apply ages_Drop.
  - apply NoDup_range.
  - split; [done|]. apply ages_refl.
  - rewrite for_each_map. split; [done|]. intros k.
    destruct (registry w !! k) as [c|] eqn:Hr.
    + specialize (Hin (k, c)). apply Hin. by apply elem_of_range.
    + assert (Hk : k ∉ (range (registry w)).*1).
      { rewrite elem_of_range_keys, Hr. by intros []. }
      rewrite Hout by done. destruct (mine !! k); [done|].
      unfold view_at. by rewrite Hr.
Qed.

(** Phase 3: applying the epp_config section. *)
Lemma apply_phase_spec m mine (conf : gmap string string) w :
  scope_free (m_compile m) -> wf w ->
  let w' := exec (for_each (range conf) (apply_assigned m mine)) w in
  wf w' /\
  forall k, match mine !! k, conf !! k with
            | Some _, Some raw => forall sc, view_at w' k =
                (apply_spec (compile_at (m_compile m) k raw sc) raw (view_at w k)).1
            | _, _ => view_at w' k = view_at w k
            end.
Proof.
  intros Hsf Hwf.
  destruct (for_each_pointwise (fun kr : Key * string => kr.1) (apply_assigned m mine)
    (fun kr v v' => match mine !! kr.1 with
       | Some _ => forall sc, v' = (apply_spec (compile_at (m_compile m) kr.1 kr.2 sc) kr.2 v).1
       | None => v' = v end) wf (range conf) w) as (Hwf' & Hin & Hout).
  - intros [k raw] v Hkc Hv. simpl. unfold apply_assigned. simpl.
    destruct (mine !! k); [|done].
    pose proof (ApplyConfig_spec m k raw v Hv) as Ha.
    destruct (ApplyConfig m k raw v) as [res v1] eqn:Hr. destruct Ha as (H1 & H2 & H3).
    erewrite bind_step by exact Hr. cbn. split; [done|]. split; [done|]. intros sc.
    erewrite apply_spec_ext; [by rewrite H3|]. intros d. apply Hsf.
  - apply NoDup_range.
  - done.
  - split; [done|]. intros k. destruct (conf !! k) as [raw|] eqn:Hc.
    + specialize (Hin (k, raw)). apply Hin. by apply elem_of_range.
    + assert (Hk : k ∉ (range conf).*1) by (rewrite elem_of_range_keys, Hc; by intros []).
      rewrite Hout by done. by destruct (mine !! k).
Qed.

(** What [Handle] does to one key, in every outcome. *)
Lemma Handle_spec wt cfg (d : Key -> DataPlane) W :
  (forall k, m_newCell (manager wt) k = Ok (d k)) -> scope_free (m_compile (manager wt)) ->
  wf W ->
  let '(err, W') := Handle wt cfg W in
  err = None /\ wf W' /\
  forall k, handle_spec (manager wt) (d k) k (my_role (instance wt) cfg k) (EppConfig cfg !! k)
    (view_at W k) (view_at W' k).
Proof.
  intros Hn Hsf Hwf. unfold Handle. set (mine := resolve_mine (instance wt) cfg).
  step metric_run. set (W0 := note _ W).
  assert (Hwf0 : wf W0) by by apply wf_note.
  pose proof (ensure_all_spec (manager wt) d (range mine) W0 Hn (NoDup_range mine) Hwf0) as H1.
  destruct (ensure_all (manager wt) (range mine) W0) as [err W1] eqn:He1.
  destruct H1 as (-> & Hwf1 & Hin1 & Hout1). erewrite bind_step by exact He1. cbn beta iota.
  step gets_run. cbn beta.
  destruct (drop_phase_spec mine W1 Hwf1) as [Hwf2 H2].
  destruct (for_each (range (registry W1)).*2 (drop_unassigned mine) W1) as [[] W2] eqn:He2.
  erewrite bind_step by exact He2. cbn beta. cbn [snd] in Hwf2, H2.
  destruct (apply_phase_spec (manager wt) mine (EppConfig cfg) W2 Hsf Hwf2) as [Hwf3 H3].
  destruct (for_each (range (EppConfig cfg)) (apply_assigned (manager wt) mine) W2) as [[] W3] eqn:He3.
  erewrite bind_step by exact He3. cbn [snd] in Hwf3, H3. split; [done|]. split; [done|].
  intros k. specialize (H2 k). specialize (H3 k). rewrite <- resolve_mine_lookup. fold mine.
  unfold handle_spec. change (view_at W k) with (view_at W0 k).
  destruct (mine !! k) as [r|] eqn:Hm.
  - rewrite <- (Hin1 k r) by by apply elem_of_range. rewrite <- H2. by destruct (EppConfig cfg !! k).
  - rewrite <- (Hout1 k) by (rewrite elem_of_range_keys, Hm; by intros []). by rewrite H3.
Qed.

(** C1. One epp_data snapshot, whatever order Go iterates its maps in, does to
    every cluster exactly what the abstract table prescribes: a cluster this
    instance holds is created or switched by the role matrix and then gets its
    configuration applied, a cluster it does not hold is dropped, and [Handle]
    reports success.  Cell creation must not fail (the default one never does),
    and the compile function must not read the process-wide scope registry
    ([Compile] does not). *)
Theorem Handle_refines wt cfg (d : Key -> DataPlane) W :
  (forall k, m_newCell (manager wt) k = Ok (d k)) -> scope_free (m_compile (manager wt)) ->
  wf W ->
  let '(err, W') := Handle wt cfg W in
  err = None /\ wf W' /\
  forall k, handle_spec (manager wt) (d k) k (my_role (instance wt) cfg k) (EppConfig cfg !! k)
    (view_at W k) (view_at W' k).
Proof. apply Handle_spec. Qed.

(** Outside [DRAINING], what [wf] says of an entry. *)
Lemma view_live_coherent W k l :
  wf W -> view_at W k = Live l -> l_role l = RolePrimary <-> l_state l = StatePrimary.
Proof.
  intros Hwf Hv. destruct (lookup_cases W k Hwf) as [[_ Hv']|(c & o & _ & _ & _ & Hok & Hv')];
    rewrite Hv' in Hv; [done|].
  unfold view_of in Hv. case_decide as Hs; [done|]. simplify_eq/=. by apply ok_role.
Qed.

Lemma role_spec_id l : (l_role l = RolePrimary <-> l_state l = StatePrimary) ->
  role_spec (l_role l) l = l.
Proof.
  destruct l as [r s h on d]; simpl. intros Hco. destruct r; simpl; [done|done|].
  by rewrite (proj1 Hco eq_refl).
Qed.

(** Fault and change isolation: a snapshot that keeps the role and the
    configuration of a live cluster leaves its entry exactly as it was, whatever
    it does to the other clusters (drops, failing compilations, role changes). *)
Theorem Handle_leaves_unchanged_clusters_alone wt cfg (d : Key -> DataPlane) W k l :
  (forall k, m_newCell (manager wt) k = Ok (d k)) -> scope_free (m_compile (manager wt)) ->
  wf W -> view_at W k = Live l -> my_role (instance wt) cfg k = Some (l_role l) ->
  (forall raw, EppConfig cfg !! k = Some raw -> l_hash l = Some (HashConfig raw)) ->
  view_at (exec (Handle wt cfg) W) k = Live l.
Proof.
  intros Hn Hsf Hwf Hv Hr Hc. pose proof (view_live_coherent W k l Hwf Hv) as Hco.
  pose proof (Handle_spec wt cfg d W Hn Hsf Hwf) as Hh.
  destruct (Handle wt cfg W) as [err W']. destruct Hh as (_ & _ & Hk). specialize (Hk k). cbn [snd].
  rewrite Hr, Hv in Hk. simpl in Hk. rewrite role_spec_id in Hk by done.
  destruct (EppConfig cfg !! k) as [raw|]; [|done].
  specialize (Hk (scopes W)). simpl in Hk. by rewrite decide_True in Hk by by apply Hc.
Qed.

End Spec.

(** The default compile function qualifies. *)
Lemma default_scope_free {L : LlmdRouter} o : opt_Compile o = None -> scope_free (m_compile (NewManager o)).
Proof.
  intros Ho k raw sc sc' d. unfold NewManager. cbn [m_compile opt_Compile]. rewrite Ho. simpl. unfold compile_at.
  destruct (Compile_scope_blind k raw (mkDeps (PoolNamespace o) (RefreshMetricsInterval o) (MaxPoolBufferSize o) (AllowExperimentalPlugins o))
    (mkCompile d sc None) (mkCompile d sc' None)) as [Hr [Hd _]]; [by split|].
  destruct (Compile k raw _ (mkCompile d sc None)) as [r s],
    (Compile k raw _ (mkCompile d sc' None)) as [r' s']. simpl in *. by rewrite Hr, Hd.
Qed.

(** ** Witnesses

    An instance ["epp-1"] with default options: it is the primary of cluster
    ["a"], the standby of ["b"], and has nothing to do with ["c"]. *)
Module Toy.
#[local] Existing Instance ToyLlmd.toy.
#[local] Existing Instance list_range.

Definition options : Options := mkOptions "ai-gateway" (50 * Millisecond) 0 false 0 0 None None.
Definition mgr : Manager := NewManager options.
Definition watcher : EppDataWatcher := mkWatcher "epp-1" mgr.
Definition data0 (k : Key) : DataPlane := mkData [k] [] false.
Definition snapshot : EppDataConfig := mkEppData
  (<["a" := "plain"]> (<["b" := "disc"]> ∅))
  (<["a" := mkEntry (Some "epp-1") (Some "epp-2")]>
    (<["b" := mkEntry (Some "epp-2") (Some "epp-1")]>
      (<["c" := mkEntry (Some "epp-2") None]> ∅))).
Definition world0 : World := empty_world 0%nat.
Definition world1 : World := exec (Handle watcher snapshot) world0.

Lemma newCell_ok k : m_newCell (manager watcher) k = Ok (data0 k).
Proof. reflexivity. Qed.

Lemma mgr_scope_free : scope_free (m_compile mgr).
Proof. by apply default_scope_free. Qed.

Lemma world1_wf : wf world1.
Proof.
  pose proof (Handle_spec watcher snapshot data0 world0 newCell_ok mgr_scope_free (wf_empty _)) as Hw.
  unfold world1. by destruct (Handle watcher snapshot world0) as [e W], Hw as (_ & ? & _).
Qed.
End Toy.

Lemma Handle_refines_witness :
  wf (L := ToyLlmd.toy) Toy.world1 /\
  (exists l, view_at (L := ToyLlmd.toy) Toy.world1 "a" = Live l /\ l_role l = RolePrimary) /\
  view_at (L := ToyLlmd.toy) Toy.world1 "c" = Absent.
Proof.
  pose proof (@Handle_refines ToyLlmd.toy list_range Toy.watcher Toy.snapshot Toy.data0 Toy.world0
    Toy.newCell_ok Toy.mgr_scope_free
    (@wf_empty ToyLlmd.toy 0%nat)) as Hw.
  unfold Toy.world1.
  destruct (@Handle ToyLlmd.toy list_range Toy.watcher Toy.snapshot Toy.world0) as [e W].
  destruct Hw as (_ & Hwf & Hk). split; [exact Hwf|]. split.
  - pose proof (Hk "a" 0%nat) as Ha. cbn [snd]. rewrite Ha. vm_compute. eexists. split; reflexivity.
  - pose proof (Hk "c") as Hc. exact Hc.
Defined.

Lemma Handle_leaves_unchanged_clusters_alone_witness :
  exists l, view_at (L := ToyLlmd.toy) Toy.world1 "b" = Live l /\
  view_at (L := ToyLlmd.toy)
    (exec (@Handle ToyLlmd.toy list_range Toy.watcher
       (mkEppData (<["b" := "disc"]> (<["a" := "bad"]> ∅)) (Assignment Toy.snapshot))) Toy.world1) "b" = Live l.
Proof.
  eexists. split; [vm_compute; reflexivity|].
  refine (@Handle_leaves_unchanged_clusters_alone ToyLlmd.toy list_range Toy.watcher _ Toy.data0
    Toy.world1 "b" _ Toy.newCell_ok Toy.mgr_scope_free _ _ _ _).
  - exact Toy.world1_wf.
  - vm_compute. reflexivity.
  - reflexivity.
  - intros raw [= <-]. vm_compute. reflexivity.
Defined.
