(* ===== verification/Hub.v ===== *)
(** * The endpoint hub (pkg/eppplugin/clustertable/hub.go)

    The hub is one table with a version and a channel that is closed at every
    replacement.  [WaitChange] is a state machine: its loop releases the lock
    between the check and the [select], and the writer may run in between. *)

From S2P Require Import Prelude.
From S2P Require Import GoStd.
From S2P Require Import Llmd.
Local Open Scope Z_scope.

(** [type Hub struct]: channels are numbered in the order they are made, and
    [closed] lists those that were closed. *)
Record Hub := mkHub {
  data : gmap string (list EndpointMetadata);
  version : Z;
  ch : nat;
  closed : gset nat }.

(** [NewHub()] *)
Definition NewHub : Hub := mkHub ∅ 0 0 ∅.

(** [(h *Hub) ReplaceAll(data)]: the critical section. *)
Definition ReplaceAll (d : gmap string (list EndpointMetadata)) (h : Hub) : Hub :=
  mkHub d (uint64 (version h + 1)) (S (ch h)) ({[ch h]} ∪ closed h).

(** [(h *Hub) Snapshot(cluster)]: a missing cluster reads as a nil slice. *)
Definition Snapshot (cluster : string) (h : Hub) : list EndpointMetadata * Z :=
  (default [] (data h !! cluster), version h).

(** Where a call of [WaitChange(ctx, since)] stands: about to take the lock,
    in the [select] on channel [c], or returned. *)
Inductive wait :=
| Checking
| Selecting (c : nat)
| Changed (v : Z)
| Interrupted.

(** One turn of the call; a blocked [select] stays where it is. When both cases
    are ready the [select] may take either, hence [prefer_ctx]. *)
Definition WaitChange_turn (ctx_done prefer_ctx : bool) (since : Z) (h : Hub) (p : wait) : wait :=
  match p with
  | Checking => if decide (version h <> since) then Changed (version h) else Selecting (ch h)
  | Selecting c =>
      let woken := bool_decide (c ∈ closed h) in
      if woken && negb (ctx_done && prefer_ctx) then Checking
      else if ctx_done then Interrupted else p
  | _ => p
  end.

(** The call interleaved with a writer. *)
Inductive hub_step (since : Z) : Hub * wait -> Hub * wait -> Prop :=
| step_replace d h p : hub_step since (h, p) (ReplaceAll d h, p)
| step_turn prefer h p :
    hub_step since (h, p) (h, WaitChange_turn false prefer since h p).

(** Every channel before the current one was closed, and the current one is open. *)
Definition hub_ok (h : Hub) : Prop := forall c, c ∈ closed h <-> (c < ch h)%nat.

Lemma NewHub_ok : hub_ok NewHub.
Proof. intros c. simpl. split; [set_solver|lia]. Qed.

Lemma ReplaceAll_ok d h : hub_ok h -> hub_ok (ReplaceAll d h).
Proof. intros Hh c. simpl. rewrite elem_of_union, elem_of_singleton, (Hh c). lia. Qed.

(** What a waiter knows in the middle of the call: the channel it selects on is
    already closed, or it is the current one and nothing was replaced since the
    check. *)
Definition waiting_ok (since : Z) (h : Hub) (p : wait) : Prop :=
  match p with
  | Selecting c => (c <= ch h)%nat /\ (c = ch h -> version h = since)
  | _ => True
  end.

Lemma waiting_replace since d h p : waiting_ok since h p -> waiting_ok since (ReplaceAll d h) p.
Proof. destruct p; simpl; [done| |done..]. intros [Hle _]. split; lia. Qed.

Lemma waiting_turn since c b h p :
  waiting_ok since h p -> waiting_ok since h (WaitChange_turn c b since h p).
Proof.
  destruct p; simpl; [case_decide; simpl; [done|]| |done..].
  - intros _. split; [lia|]. intros _. by destruct (decide (version h = since)).
  - intros Hp. by destruct (bool_decide _ && negb (c && b)), c.
Qed.

(** No lost wake-up: however a waiter and the writer interleave, a waiter
    that is blocked (in the [select] on an open channel) has missed nothing: the
    table still has the version it waits to change from; and as soon as the
    version differs from that, at most two turns of the waiter return it, without
    any further write. *)
Theorem WaitChange_no_lost_wakeup since h0 h p :
  hub_ok h0 -> reach (hub_step since) (h0, Checking) (h, p) ->
  match p with
  | Selecting c => c ∉ closed h -> version h = since
  | Changed v => v <> since
  | _ => True
  end /\
  (version h <> since -> (forall v, p <> Changed v) ->
   exists n, (n <= 2)%nat /\
     Nat.iter n (WaitChange_turn false false since h) p = Changed (version h)).
Proof.
  intros H0 Hr.
  assert (Hinv : hub_ok h /\ waiting_ok since h p /\ p <> Interrupted /\ forall v, p = Changed v -> v <> since).
  { assert (Hi := reach_invariant (hub_step since)
      (fun x => hub_ok x.1 /\ waiting_ok since x.1 x.2 /\ x.2 <> Interrupted /\
                forall v, x.2 = Changed v -> v <> since)).
    apply (Hi (h0, Checking) (h, p)); [|split; [exact H0|done]|exact Hr].
    intros x y (Hh & Hw & Hi' & Hc) Hs. inversion Hs; subst; simpl in *.
    - auto using ReplaceAll_ok, waiting_replace.
    - split; [done|]. split; [by apply waiting_turn|]. split.
      + destruct p0; simpl; try done; [by case_decide|].
        by destruct (bool_decide _ && _).
      + intros v. destruct p0; simpl; try done; [case_decide; congruence| |apply Hc].
        by destruct (bool_decide _ && _). }
  destruct Hinv as (Hh & Hw & Hi & Hc). split.
  - destruct p as [|c|v|]; [done| |by apply Hc|done]. simpl in Hw. intros Hopen.
    apply Hw. rewrite (Hh c) in Hopen. destruct Hw. lia.
  - intros Hv Hp. destruct p as [|c|v|]; [| |by destruct (Hp v)|done].
    + exists 1%nat. split; [lia|]. simpl. by rewrite decide_True.
    + exists 2%nat. split; [lia|]. simpl. simpl in Hw.
      rewrite bool_decide_eq_true_2; [simpl; by rewrite decide_True|].
      apply Hh. destruct Hw as [Hle Heq]. destruct (decide (c = ch h)); [by destruct Hv, Heq|lia].
Qed.

(** A waiter that blocked on version 0, then one write. *)
Lemma WaitChange_no_lost_wakeup_witness :
  exists n, (n <= 2)%nat /\
    Nat.iter n (WaitChange_turn false false 0 (ReplaceAll ∅ NewHub)) (Selecting 0) = Changed 1.
Proof.
  refine (proj2 (WaitChange_no_lost_wakeup 0 NewHub (ReplaceAll ∅ NewHub) (Selecting 0) NewHub_ok _) _ _).
  - eapply reach_snoc; [|apply step_replace].
    apply reach_one. exact (step_turn 0 false NewHub Checking).
  - discriminate.
  - discriminate.
Defined.
