(* ===== verification/Discovery.v ===== *)
(** * The cluster-table discovery plugin (pkg/eppplugin/clustertable/discovery.go)

    Each engine generation has one instance; it diffs the hub's endpoint set
    against what it applied and feeds the difference to the datastore.  The
    comparison [EndpointMetadata.Equal] is a parameter.  The
    plugin's goroutine is in DiscoveryLoop.v. *)

From S2P Require Import Prelude.
From S2P Require Import GoStd.
From S2P Require Import Llmd.
From S2P Require Import Json.
From S2P Require Import Hub.
Local Open Scope Z_scope.

Abbreviation store := (gmap NamespacedName EndpointMetadata).

(** Calls on the [DiscoveryNotifier]. *)
Inductive notify := Delete (id : NamespacedName) | Upsert (meta : EndpointMetadata).

(** What a sequence of calls does to the endpoints of the datastore behind the
    notifier. *)
Definition replay (calls : list notify) (s : store) : store :=
  fold_left (fun s c => match c with
    | Delete id => delete id s
    | Upsert m => <[ID m := m]> s
    end) calls s.

(** [type discovery struct]; [ready] counts the calls of [close(d.ready)]. *)
Record discovery := mkDiscovery {
  clusterName : string; applied : store; ready : nat; once : bool }.

(** The [params] struct of [NewFactory]. *)
Definition dec_params : decoder string := dec_struct [("clusterName"%string, dec_string)].

(** What [NewFactory(hub)] returns. The parameters are the text behind the
    decoder, [None] a nil decoder. *)
Definition Factory (parameters : option string) : result error discovery :=
  match parameters with
  | None => Ok (mkDiscovery "" ∅ 0 false)
  | Some text =>
      match Decode dec_params "" text with
      | (_, Some e) => Err e
      | (name, None) => Ok (mkDiscovery name ∅ 0 false)
      end
  end.

Definition PluginType : string := "cluster-table-discovery".

(** [(d *discovery) TypedName()] *)
Definition TypedName (d : discovery) : string * string :=
  (PluginType, if decide (clusterName d = ""%string) then "default"%string else clusterName d).

(** A plugin starts with nothing applied and its channel open. *)
Lemma Factory_fresh parameters d : Factory parameters = Ok d -> d = mkDiscovery (clusterName d) ∅ 0 false.
Proof.
  destruct parameters as [text|]; simpl; [|by intros [= <-]].
  destruct (Decode dec_params "" text) as [n [e|]]; [done|]. by intros [= <-].
Qed.

(** A member names the cluster when its key is [clusterName] in any case. *)
Definition names_cluster (kv : string * json) : bool := String.eqb (foldName kv.1) "CLUSTERNAME".
Definition string_or_null (j : json) : bool := match j with JNull | JString _ _ => true | _ => false end.
(** The last string among the values. *)
Definition last_string (n : string) (vs : list json) : string :=
  fold_left (fun n j => match j with JString _ s => s | _ => n end) vs n.

Lemma params_field key : field_of [("clusterName"%string, dec_string)] key =
  if names_cluster (key, JNull) then Some dec_string else None.
Proof.
  unfold field_of, names_cluster. cbn [find_field fst]. destruct (String.eqb_spec key "clusterName") as [->|Hne]; [done|].
  change (foldName "clusterName") with "CLUSTERNAME"%string. by destruct (String.eqb _ _).
Qed.

Lemma dec_params_object t ms :
  dec_params "" (JObject t ms) =
  let vs := (filter (fun kv => names_cluster kv = true) ms).*2 in (last_string "" vs, forallb string_or_null vs).
Proof.
  unfold dec_params, dec_struct.
  assert (Hgen : forall n ok, fold_left (fun s kv => match field_of [("clusterName"%string, dec_string)] kv.1 with
      | Some dec => let '(v, ok) := dec s.1 kv.2 in (v, s.2 && ok) | None => s end) ms (n, ok) =
    let vs := (filter (fun kv => names_cluster kv = true) ms).*2 in (last_string n vs, ok && forallb string_or_null vs)).
  { induction ms as [|[k v] ms IH]; intros n ok; [simpl; by rewrite andb_true_r|]. cbn [fold_left fst snd].
    rewrite params_field. change (names_cluster (k, JNull)) with (names_cluster (k, v)). rewrite filter_cons.
    destruct (names_cluster (k, v)) eqn:Hk; [|by rewrite decide_False, IH by done]. rewrite decide_True by done.
    rewrite fmap_cons. cbn zeta. cbn [forallb last_string fold_left snd fst].
    by destruct v; cbn; rewrite IH, ?andb_assoc, ?andb_true_r, ?andb_false_r. }
  apply (Hgen ""%string true).
Qed.


(** [containsID(eps, id)] *)
Fixpoint containsID (eps : list EndpointMetadata) (id : NamespacedName) : bool :=
  match eps with
  | [] => false
  | e :: eps' => if decide (ID e = id) then true else containsID eps' id
  end.

(** The set [desired] stands for: of two endpoints with one ID the last counts. *)
Definition table (desired : list EndpointMetadata) : store :=
  fold_left (fun s m => <[ID m := m]> s) desired ∅.

Lemma containsID_spec eps id : containsID eps id = true <-> id ∈ ID <$> eps.
Proof.
  induction eps as [|e eps IH].
  - split; [done|]. by intros ?%not_elem_of_nil.
  - rewrite fmap_cons, elem_of_cons, <- IH. cbn [containsID]. case_decide; naive_solver.
Qed.

Lemma replay_app c1 c2 s : replay (c1 ++ c2) s = replay c2 (replay c1 s).
Proof. apply fold_left_app. Qed.

Lemma table_snoc desired m : table (desired ++ [m]) = <[ID m := m]> (table desired).
Proof. unfold table. by rewrite fold_left_app. Qed.

Lemma table_lookup_none desired id : table desired !! id = None <-> id ∉ ID <$> desired.
Proof.
  induction desired as [|m desired IH] using rev_ind; [by split; [intros _ ?%not_elem_of_nil|]|].
  rewrite table_snoc, fmap_app, lookup_insert_None, IH. set_solver.
Qed.

Lemma table_ID desired id m : table desired !! id = Some m -> ID m = id.
Proof.
  induction desired as [|x desired IH] using rev_ind; [done|].
  rewrite table_snoc, lookup_insert_Some. naive_solver.
Qed.

(** The upsert loop writes [desired] over whatever was there. *)
Definition overlay (desired : list EndpointMetadata) (s : store) : store :=
  fold_left (fun s m => <[ID m := m]> s) desired s.

Lemma overlay_table desired s : overlay desired s = table desired ∪ s.
Proof.
  induction desired as [|m desired IH] using rev_ind; [symmetry; apply (left_id_L ∅ (∪))|].
  unfold overlay in *. rewrite fold_left_app, IH, table_snoc. simpl. by rewrite insert_union_l.
Qed.

Lemma table_nodup desired m : NoDup (ID <$> desired) -> m ∈ desired -> table desired !! ID m = Some m.
Proof.
  induction desired as [|x desired IH] using rev_ind; [by intros _ ?%not_elem_of_nil|].
  rewrite fmap_app, table_snoc. intros (Hnd & Hx & _)%NoDup_app Hm.
  apply elem_of_app in Hm as [Hm| ->%list_elem_of_singleton]; [|apply lookup_insert_eq].
  rewrite lookup_insert_ne; [by apply IH|]. intros Heq. apply (Hx (ID m)).
  - apply list_elem_of_fmap. by exists m.
  - rewrite <- Heq. simpl. left.
Qed.

Section Discovery.
Context `{MapRange} (Equal : EndpointMetadata -> EndpointMetadata -> bool).

(** The two loops of [apply]. Both thread the applied set and the calls made so
    far, oldest first. *)
Definition delete_one (desired : list EndpointMetadata) (s : store * list notify)
    (e : NamespacedName * EndpointMetadata) : store * list notify :=
  if containsID desired e.1 then s else (delete e.1 s.1, s.2 ++ [Delete e.1]).
Definition upsert_one (s : store * list notify) (meta : EndpointMetadata) : store * list notify :=
  match s.1 !! ID meta with
  | Some old => if Equal old meta then s else (<[ID meta := meta]> s.1, s.2 ++ [Upsert meta])
  | None => (<[ID meta := meta]> s.1, s.2 ++ [Upsert meta])
  end.

(** [(d *discovery) apply(notifier, desired)]; deleting the current entry while
    ranging over a map is allowed in Go and does not disturb the others. *)
Definition apply (desired : list EndpointMetadata) (a : store) : store * list notify :=
  fold_left upsert_one desired (fold_left (delete_one desired) (range a) (a, [])).

(** ** Reasoning about the two loops *)

(** The deletion loop, over any list of entries. *)
Lemma delete_loop desired es a0 c0 :
  let '(a, c) := fold_left (delete_one desired) es (a0, c0) in
  exists ids, c = c0 ++ (Delete <$> ids) /\ ids `sublist_of` es.*1 /\
    (forall id, id ∈ ids -> id ∉ ID <$> desired) /\
    (forall id, a !! id = if decide (id ∈ es.*1 /\ id ∉ ID <$> desired) then None else a0 !! id) /\
    (forall s id, replay (Delete <$> ids) s !! id =
       if decide (id ∈ es.*1 /\ id ∉ ID <$> desired) then None else s !! id).
Proof.
  revert a0 c0. induction es as [|e es IH]; intros a0 c0.
  - exists []. rewrite app_nil_r. split; [done|]. split; [apply sublist_nil_l|].
    split; [by intros id ?%not_elem_of_nil|].
    split; intros; rewrite decide_False; try done; intros [?%not_elem_of_nil _]; done.
  - simpl. unfold delete_one at 2. destruct (containsID desired e.1) eqn:Hc.
    + apply containsID_spec in Hc. specialize (IH a0 c0). destruct (fold_left _ es _) as [a c].
      destruct IH as (ids & -> & Hs & Hd & Ha & Hr). exists ids. split; [done|].
      split; [by apply sublist_cons|]. split; [done|].
      assert (Heq : forall id, (id ∈ e.1 :: es.*1 /\ id ∉ ID <$> desired) <->
                               (id ∈ es.*1 /\ id ∉ ID <$> desired)) by (intros; set_solver).
      split; intros; rewrite ?Ha, ?Hr; apply decide_ext; naive_solver.
    + assert (Hn : e.1 ∉ ID <$> desired) by by rewrite <- containsID_spec, Hc.
      simpl. specialize (IH (delete e.1 a0) (c0 ++ [Delete e.1])). destruct (fold_left _ es _) as [a c].
      destruct IH as (ids & -> & Hs & Hd & Ha & Hr). exists (e.1 :: ids).
      split; [by rewrite <- app_assoc|]. split; [by apply sublist_skip|].
      split; [set_solver|].
      assert (Hdel : forall (x : store) id,
        (if decide (id ∈ es.*1 /\ id ∉ ID <$> desired) then None else delete e.1 x !! id) =
        (if decide (id ∈ e.1 :: es.*1 /\ id ∉ ID <$> desired) then None else x !! id)).
      { intros x id. destruct (decide (id = e.1)) as [->|Hne].
        - rewrite lookup_delete_eq. rewrite (decide_True (P := _ ∈ _ :: _ /\ _)) by set_solver.
          by case_decide.
        - rewrite lookup_delete_ne by done. apply decide_ext. set_solver. }
      split; intros; [by rewrite Ha, Hdel|]. simpl.
      change (replay (Delete e.1 :: (Delete <$> ids)) s) with (replay (Delete <$> ids) (delete e.1 s)).
      by rewrite Hr, Hdel.
Qed.

Lemma upsert_loop desired a0 c0 :
  (forall a b, Equal a b = true -> a = b) ->
  let '(a, c) := fold_left upsert_one desired (a0, c0) in
  a = overlay desired a0 /\
  exists ms, c = c0 ++ (Upsert <$> ms) /\ ms `sublist_of` desired /\
    forall s, a0 ⊆ s -> replay (Upsert <$> ms) s = overlay desired s.
Proof.
  intros Heq. revert a0 c0. induction desired as [|m desired IH]; intros a0 c0; simpl.
  - split; [done|]. exists []. rewrite app_nil_r. by split; [|split; [apply sublist_nil_l|]].
  - assert (Hup : upsert_one (a0, c0) m = (a0, c0) /\ a0 !! ID m = Some m \/
      upsert_one (a0, c0) m = (<[ID m := m]> a0, c0 ++ [Upsert m])).
    { unfold upsert_one. simpl. destruct (a0 !! ID m) as [old|] eqn:Ho; [|by right].
      destruct (Equal old m) eqn:He; [|by right]. apply Heq in He as ->. by left. }
    destruct Hup as [[-> Hm]| ->].
    + specialize (IH a0 c0). destruct (fold_left upsert_one desired _) as [a c].
      destruct IH as (-> & ms & -> & Hs & Hr).
      change (overlay (m :: desired) ?x) with (overlay desired (<[ID m := m]> x)).
      split; [by rewrite insert_id|]. exists ms. split; [done|]. split; [by apply sublist_cons|].
      intros s Hsub. change (overlay (m :: desired) s) with (overlay desired (<[ID m := m]> s)).
      rewrite insert_id by (by eapply lookup_weaken). by apply Hr.
    + specialize (IH (<[ID m := m]> a0) (c0 ++ [Upsert m])).
      destruct (fold_left upsert_one desired _) as [a c]. destruct IH as (-> & ms & -> & Hs & Hr).
      split; [done|]. exists (m :: ms). split; [by rewrite <- app_assoc|]. split; [by apply sublist_skip|].
      intros s Hsub. apply (Hr (<[ID m := m]> s)). by apply insert_mono.
Qed.

(** One run of the two loops, for every datastore that holds what was applied. *)
Lemma apply_run desired a :
  (forall x y, Equal x y = true -> x = y) ->
  let '(a', calls) := apply desired a in
  a' = table desired /\
  (forall D, a ⊆ D -> replay calls D = table desired ∪ filter (fun e => a !! e.1 = None) D) /\
  exists ids ms, calls = (Delete <$> ids) ++ (Upsert <$> ms) /\ NoDup ids /\
    (forall id, id ∈ ids -> is_Some (a !! id) /\ id ∉ ID <$> desired) /\
    ms `sublist_of` desired.
Proof.
  intros Heq. unfold apply. pose proof (delete_loop desired (range a) a []) as Hdel.
  destruct (fold_left (delete_one desired) (range a) (a, [])) as [a1 c1].
  destruct Hdel as (ids & -> & Hids & Hnd & Ha & Hr). simpl.
  pose proof (upsert_loop desired a1 (Delete <$> ids) Heq) as Hup.
  destruct (fold_left upsert_one desired _) as [a2 c2]. destruct Hup as (-> & ms & -> & Hms & Hov).
  assert (Hkey : forall id, id ∈ (range a).*1 <-> is_Some (a !! id)) by (intros; apply elem_of_range_keys).
  split; [|split].
  - rewrite overlay_table. apply map_eq. intros id. rewrite lookup_union.
    destruct (table desired !! id) eqn:Ht; [by destruct (a1 !! id)|].
    apply table_lookup_none in Ht. rewrite Ha. case_decide as Hd; [done|].
    rewrite Hkey in Hd.
    destruct (a !! id) eqn:Hai; [|done]. destruct Hd. split; [by eexists|done].
  - intros D Hsub. rewrite replay_app, Hov, overlay_table.
    + apply map_eq. intros id. rewrite !lookup_union.
      destruct (table desired !! id) eqn:Ht; [by destruct (replay _ _ !! id), (filter _ _ !! id)|].
      f_equal. apply table_lookup_none in Ht. rewrite Hr.
      destruct (a !! id) eqn:Hai.
      * rewrite decide_True by (rewrite Hkey; split; [by eexists|done]). symmetry. apply map_lookup_filter_None.
        right. intros x _. simpl. congruence.
      * rewrite decide_False by (rewrite Hkey; intros [[? ?] _]; congruence). destruct (D !! id) eqn:HD.
        -- symmetry. by apply map_lookup_filter_Some.
        -- symmetry. apply map_lookup_filter_None. by left.
    + apply map_subseteq_spec. intros id m. rewrite Ha, Hr. case_decide; [done|].
      intros Hx. by eapply lookup_weaken.
  - exists ids, ms. split; [done|]. split; [|split; [|done]].
    + exact (sublist_NoDup _ _ (NoDup_range a) Hids).
    + intros id Hid. split; [|by apply Hnd]. apply Hkey. by eapply elem_of_sublist.
Qed.


(** Endpoints outlive their engine generation: a new instance starts with
    nothing applied, so the first snapshot it applies deletes nothing, and an
    endpoint the previous generation left in the shared datastore that has since
    disappeared from the cluster table stays there. *)
Theorem new_generation_keeps_stale_endpoints desired D id m params d :
  (forall x y, Equal x y = true -> x = y) ->
  Factory params = Ok d -> D !! id = Some m -> id ∉ ID <$> desired ->
  let '(a', calls) := apply desired (applied d) in
  replay calls D !! id = Some m /\ a' !! id = None /\ forall id', Delete id' ∉ calls.
Proof.
  intros Heq Hd Hid Hn. assert (Ha : applied d = ∅).
  { by rewrite (Factory_fresh params d Hd). }
  rewrite Ha. pose proof (apply_run desired ∅ Heq) as He.
  destruct (apply desired ∅) as [a' calls]. destruct He as (-> & Hrun & ids & ms & -> & _ & Hids & _).
  apply table_lookup_none in Hn. split; [|split; [done|]].
  - rewrite (Hrun D (map_empty_subseteq _)), lookup_union, Hn, (left_id_L None (∪)). by apply map_lookup_filter_Some.
  - intros id'. rewrite elem_of_app, !list_elem_of_fmap.
    intros [(x & _ & Hx)|(x & Hx & _)]; [|done]. by destruct (Hids x Hx) as [[? ?%lookup_empty_Some] _].
Qed.

(** Applying a set without duplicate IDs twice: the second time is silent. *)
Lemma upsert_loop_silent desired a c :
  (forall x, Equal x x = true) -> (forall m, m ∈ desired -> a !! ID m = Some m) ->
  fold_left upsert_one desired (a, c) = (a, c).
Proof.
  intros Heq. induction desired as [|m desired IH]; intros Ha; [done|]. simpl.
  assert (Hm : upsert_one (a, c) m = (a, c)).
  { unfold upsert_one. simpl. rewrite (Ha m) by left. by rewrite Heq. }
  rewrite Hm. apply IH. intros x Hx. apply Ha. by right.
Qed.

(** Applying a snapshot is idempotent: when it lists no ID twice, applying
    it again (the hub's version moved, this cluster's endpoints did not) makes
    no call at all. *)
Theorem apply_idempotent desired a D :
  (forall x y, Equal x y = true <-> x = y) -> a ⊆ D -> NoDup (ID <$> desired) ->
  let '(a', _) := apply desired a in apply desired a' = (a', []).
Proof.
  intros Heq Hsub Hnd.
  pose proof (apply_run desired a (fun x y => proj1 (Heq x y))) as He.
  destruct (apply desired a) as [a' calls]. destruct He as (-> & _).
  unfold apply. pose proof (delete_loop desired (range (table desired)) (table desired) []) as Hdel.
  destruct (fold_left (delete_one desired) _ _) as [a1 c1]. destruct Hdel as (ids & -> & Hs & Hn & Ha & _).
  assert (Hids : ids = []).
  { destruct ids as [|i ids]; [done|]. exfalso. destruct (Hn i ltac:(left)).
    assert (Hi : i ∈ (range (table desired)).*1) by (eapply elem_of_sublist; [left|done]).
    apply elem_of_range_keys in Hi. destruct (decide (i ∈ ID <$> desired)) as [|Hno]; [done|].
    apply table_lookup_none in Hno. by rewrite Hno in Hi; destruct Hi. }
  assert (Ha1 : a1 = table desired).
  { apply map_eq. intros id. rewrite Ha. case_decide as Hd; [|done].
    symmetry. apply table_lookup_none, Hd. }
  subst. simpl. apply upsert_loop_silent; [intros; by apply Heq|]. intros m. by apply table_nodup.
Qed.

End Discovery.

(** ** Witnesses *)

Module ToyDiscovery.
Definition same (x y : EndpointMetadata) : bool := bool_decide (x = y).
Lemma same_spec x y : same x y = true <-> x = y.
Proof. apply bool_decide_eq_true. Qed.
Definition ep (name : string) : EndpointMetadata :=
  mkEndpoint (mkName "a" name) name "10.0.0.1" "80" "10.0.0.1:80".
End ToyDiscovery.



Lemma new_generation_keeps_stale_endpoints_witness :
  replay (@apply list_range ToyDiscovery.same [ToyDiscovery.ep "y"] ∅).2
    (table [ToyDiscovery.ep "x"; ToyDiscovery.ep "y"]) !! mkName "a" "x" = Some (ToyDiscovery.ep "x").
Proof.
  pose proof (@new_generation_keeps_stale_endpoints list_range ToyDiscovery.same [ToyDiscovery.ep "y"]
    (table [ToyDiscovery.ep "x"; ToyDiscovery.ep "y"]) (mkName "a" "x") (ToyDiscovery.ep "x") None
    (mkDiscovery "" ∅ 0 false) (fun x y => proj1 (ToyDiscovery.same_spec x y)) eq_refl) as Hw.
  change (applied _) with (∅ : store) in Hw. destruct (apply _ _ ∅) as [a' calls].
  apply Hw; [vm_compute; reflexivity|]. apply (proj1 (table_lookup_none _ _)). vm_compute. reflexivity.
Defined.

Lemma apply_idempotent_witness :
  (@apply list_range ToyDiscovery.same [ToyDiscovery.ep "y"]
    (@apply list_range ToyDiscovery.same [ToyDiscovery.ep "y"] ∅).1).2 = [].
Proof.
  pose proof (@apply_idempotent list_range ToyDiscovery.same [ToyDiscovery.ep "y"] ∅ ∅
    ToyDiscovery.same_spec (map_empty_subseteq _)) as Hw.
  destruct (apply _ _ ∅) as [a' calls]. simpl in *. rewrite Hw; [reflexivity|].
  apply NoDup_singleton.
Defined.
