(* ===== verification/DiscoveryLoop.v ===== *)
(** * The discovery goroutine (clustertable/discovery.go, Start) against the hub

    [Start] alternates snapshots, applications and [WaitChange]; the hub is
    written between any two of its actions.  The theorems say that a blocked
    goroutine is up to date, that a stale one catches up, and what the ready
    channel tells. *)

From S2P Require Import Prelude.
From S2P Require Import GoStd.
From S2P Require Import Llmd.
From S2P Require Import Json.
From S2P Require Import Hub.
From S2P Require Import Discovery.
Local Open Scope Z_scope.

(** Where [Start] stands. *)
Inductive pc :=
| Snapshotting
| Applying (desired : list EndpointMetadata) (v : Z)
| Waiting (v : Z) (p : wait)
| Stopped.

(** The goroutine, the hub, the datastore behind the notifier; [writes] counts
    the replacements in the hub's life and [seen] is what it was at the last
    snapshot (neither exists in the program). *)
Record sys := mkSys {
  hub : Hub; disc : discovery; endpoints : store; at_pc : pc; writes : nat; seen : nat }.

Section Loop.
Context `{MapRange} (Equal : EndpointMetadata -> EndpointMetadata -> bool).

(** [d.once.Do(func() { close(d.ready) })] *)
Definition close_ready (d : discovery) : discovery :=
  if once d then d else mkDiscovery (clusterName d) (applied d) (S (ready d)) true.

(** One action of the [for] loop of [(d *discovery) Start(ctx, notifier)]. *)
Definition turn (ctx_done prefer_ctx : bool) (s : sys) : sys :=
  let d := disc s in
  match at_pc s with
  | Snapshotting =>
      let '(desired, v) := Snapshot (clusterName d) (hub s) in
      mkSys (hub s) d (endpoints s) (Applying desired v) (writes s) (writes s)
  | Applying desired v =>
      let '(a, calls) := apply Equal desired (applied d) in
      mkSys (hub s) (close_ready (mkDiscovery (clusterName d) a (ready d) (once d)))
        (replay calls (endpoints s)) (Waiting v Checking) (writes s) (seen s)
  | Waiting _ (Changed _) => mkSys (hub s) d (endpoints s) Snapshotting (writes s) (seen s)
  | Waiting _ Interrupted => mkSys (hub s) d (endpoints s) Stopped (writes s) (seen s)
  | Waiting v p =>
      mkSys (hub s) d (endpoints s) (Waiting v (WaitChange_turn ctx_done prefer_ctx v (hub s) p))
        (writes s) (seen s)
  | Stopped => s
  end.

(** A write by the cluster-table poller. *)
Definition replaced (t : gmap string (list EndpointMetadata)) (s : sys) : sys :=
  mkSys (ReplaceAll t (hub s)) (disc s) (endpoints s) (at_pc s) (S (writes s)) (seen s).

Inductive step : sys -> sys -> Prop :=
| step_write t s : step s (replaced t s)
| step_turn c p s : step s (turn c p s).

(** A new instance, started on an empty datastore at any time of the hub's life. *)
Definition starts (s : sys) : Prop :=
  hub_ok (hub s) /\ version (hub s) = uint64 (Z.of_nat (writes s)) /\
  (exists params, Factory params = Ok (disc s)) /\ endpoints s = ∅ /\ at_pc s = Snapshotting.

(** The endpoints the cluster table currently lists for the plugin's cluster. *)
Definition wanted (s : sys) : store := table (default [] (data (hub s) !! clusterName (disc s))).

(** ** The invariant *)

Definition pc_ok (s : sys) : Prop :=
  match at_pc s with
  | Applying desired v =>
      v = uint64 (Z.of_nat (seen s)) /\ (seen s <= writes s)%nat /\
      (seen s = writes s -> table desired = wanted s)
  | Waiting v p =>
      v = uint64 (Z.of_nat (seen s)) /\ (seen s <= writes s)%nat /\
      (seen s = writes s -> applied (disc s) = wanted s) /\
      waiting_ok v (hub s) p /\ once (disc s) = true
  | _ => True
  end.

Record inv (s : sys) : Prop := mkInv {
  inv_hub : hub_ok (hub s);
  inv_version : version (hub s) = uint64 (Z.of_nat (writes s));
  inv_mirror : endpoints s = applied (disc s);
  inv_ready : ready (disc s) = if once (disc s) then 1%nat else 0%nat;
  inv_pc : pc_ok s }.

Lemma starts_inv s : starts s -> inv s.
Proof.
  intros (H1 & H2 & [params H3] & H4 & H5).
  assert (Hd : applied (disc s) = ∅ /\ ready (disc s) = 0%nat /\ once (disc s) = false).
  { by rewrite (Factory_fresh params _ H3). }
  destruct Hd as (Ha & Hr & Ho). split; [done|done|by rewrite H4, Ha|by rewrite Hr, Ho|].
  unfold pc_ok. by rewrite H5.
Qed.

Lemma uint64_succ n : uint64 (uint64 (Z.of_nat n) + 1) = uint64 (Z.of_nat (S n)).
Proof. unfold uint64. rewrite Nat2Z.inj_succ, Zplus_mod_idemp_l. f_equal. Qed.

Lemma inv_replaced t s : inv s -> inv (replaced t s).
Proof.
  intros [H1 H2 H3 H4 H5]. split; simpl; [by apply ReplaceAll_ok| |done|done|].
  - by rewrite H2, uint64_succ.
  - unfold pc_ok in *. simpl. destruct (at_pc s) as [|d v|v p|]; [done| | |done].
    + destruct H5 as (? & ? & _). split; [done|]. split; lia.
    + destruct H5 as (? & ? & _ & Hw & ?). split; [done|]. split; [lia|].
      split; [lia|]. split; [by apply waiting_replace|done].
Qed.

Context (Equal_sound : forall x y, Equal x y = true -> x = y).

Lemma filter_self (a : store) : filter (fun e => a !! e.1 = None) a = ∅.
Proof. apply map_empty_filter_2. intros i x Hx. simpl. congruence. Qed.

(** Applying on a mirrored store. *)
Lemma apply_mirror desired a :
  exists calls, apply Equal desired a = (table desired, calls) /\ replay calls a = table desired.
Proof.
  pose proof (apply_run Equal desired a Equal_sound) as He.
  destruct (apply Equal desired a) as [a' calls]. destruct He as (-> & Hr & _).
  exists calls. split; [done|]. by rewrite Hr, filter_self, (right_id_L ∅ (∪)).
Qed.

Lemma inv_turn c p s : inv s -> inv (turn c p s).
Proof.
  intros Hi. pose proof Hi as [H1 H2 H3 H4 H5]. unfold turn, pc_ok in *.
  destruct (at_pc s) as [|d v|v [|ch|w|]|] eqn:Hpc; try by split; rewrite ?Hpc.
  - destruct (apply_mirror d (applied (disc s))) as (calls & -> & Hr).
    destruct H5 as (Hv & Hle & Hw). rewrite H3, Hr. unfold close_ready, pc_ok, wanted. simpl.
    destruct (once (disc s)) eqn:Ho; split; simpl; rewrite ?Ho; try done; simpl; by rewrite ?H4.
  - destruct H5 as (Hv & Hle & Hw & Hok & Ho). split; try done. unfold pc_ok. cbn [at_pc seen writes hub disc].
    split; [done|]. split; [done|]. split; [done|]. split; [by apply (waiting_turn v c p _ Checking)|done].
  - destruct H5 as (Hv & Hle & Hw & Hok & Ho). split; try done. unfold pc_ok. cbn [at_pc seen writes hub disc].
    split; [done|]. split; [done|]. split; [done|]. split; [by apply (waiting_turn v c p _ (Selecting ch))|done].
  - exact Hi.
Qed.

Lemma loop_inv_reach s0 s : inv s0 -> reach step s0 s -> inv s.
Proof.
  apply reach_invariant. intros x y Hx Hs. inversion Hs; subst; [by apply inv_replaced|by apply inv_turn].
Qed.

(** The goroutine is blocked: in the [select], on a channel nobody closed. *)
Definition blocked (s : sys) : Prop :=
  exists v c, at_pc s = Waiting v (Selecting c) /\ c ∉ closed (hub s).

Lemma blocked_mirror s : inv s -> Z.of_nat (writes s) < 2 ^ 64 -> blocked s -> endpoints s = wanted s.
Proof.
  intros [H1 H2 H3 H4 H5] Hb (v & c & Hpc & Hc). unfold pc_ok in H5. rewrite Hpc in H5.
  destruct H5 as (-> & Hle & Hw & [Hch Hv] & _). rewrite (H1 c) in Hc.
  rewrite H3. apply Hw. specialize (Hv ltac:(lia)). rewrite H2 in Hv. unfold uint64 in Hv.
  rewrite !Z.mod_small in Hv by lia. lia.
Qed.

(** ** Catching up *)

(** The turn of a run in which nobody writes and the context is live. *)
Abbreviation go := (turn false false).

Lemma iter_shift n s : Nat.iter (S n) go s = Nat.iter n go (go s).
Proof. apply Nat.iter_succ_r. Qed.

Lemma blocked_go s : blocked s -> go s = s.
Proof.
  intros (v & c & Hpc & Hc). unfold turn. rewrite Hpc. simpl. rewrite bool_decide_eq_false_2 by done.
  simpl. rewrite <- Hpc. by destruct s.
Qed.

(** [s] is blocked within [n] turns; more turns do not matter. *)
Definition soon (n : nat) (s : sys) : Prop := blocked (Nat.iter n go s).

Lemma soon_go n s : soon n (go s) -> soon (S n) s.
Proof. unfold soon. by rewrite iter_shift. Qed.

Lemma soon_le n m s : (n <= m)%nat -> soon n s -> soon m s.
Proof.
  induction 1 as [|m _ IH]; [done|]. intros Hn. unfold soon in *. simpl. rewrite blocked_go; auto.
Qed.

(** A goroutine whose snapshot is the current one blocks after its checks. *)
Lemma soon_current n s v :
  hub_ok (hub s) -> at_pc s = Waiting v Checking -> version (hub s) = v -> soon (S n) s.
Proof.
  intros Hh Hpc Hv. apply (soon_le 1); [lia|]. unfold soon. simpl. unfold turn. rewrite Hpc. simpl.
  rewrite decide_False by (by intros []). eexists _, _. split; [done|]. simpl. rewrite (Hh _). lia.
Qed.

Lemma soon_applying s d v :
  hub_ok (hub s) -> at_pc s = Applying d v -> version (hub s) = v -> soon 2 s.
Proof.
  intros Hh Hpc Hv. apply soon_go. unfold turn. rewrite Hpc.
  destruct (apply Equal d (applied (disc s))) as [a calls]. by eapply (soon_current 0).
Qed.

Lemma soon_snapshotting s : hub_ok (hub s) -> at_pc s = Snapshotting -> soon 3 s.
Proof.
  intros Hh Hpc. apply soon_go. unfold turn. rewrite Hpc. simpl.
  by eapply soon_applying.
Qed.

Lemma soon_checking s v : hub_ok (hub s) -> at_pc s = Waiting v Checking -> soon 5 s.
Proof.
  intros Hh Hpc. destruct (decide (version (hub s) = v)) as [Hv|Hv]; [by eapply soon_current|].
  apply soon_go. unfold turn at 1. rewrite Hpc. simpl. rewrite decide_True by done.
  apply soon_go. by apply soon_snapshotting.
Qed.

(** A blocked plugin is up to date: in whatever way the goroutine and the
    writer interleave (with fewer than 2^64 writes in the hub's life), while the
    goroutine waits on an open channel the datastore holds exactly the endpoints
    the cluster table lists for its cluster, and the ready channel was closed,
    once. *)
Theorem discovery_blocked_is_current s0 s :
  starts s0 -> reach step s0 s -> Z.of_nat (writes s) < 2 ^ 64 -> blocked s ->
  endpoints s = wanted s /\ applied (disc s) = wanted s /\ ready (disc s) = 1%nat.
Proof.
  intros H0 Hr Hb Hbl. pose proof (loop_inv_reach _ _ (starts_inv _ H0) Hr) as Hi.
  pose proof (blocked_mirror s Hi Hb Hbl) as Hm. split; [done|]. rewrite <- (inv_mirror s Hi).
  split; [done|]. destruct Hi as [_ _ _ Hrd Hpc], Hbl as (v & c & Hat & _). unfold pc_ok in Hpc.
  rewrite Hat in Hpc. destruct Hpc as (_ & _ & _ & _ & Ho). by rewrite Hrd, Ho.
Qed.


(** Where the data of the goroutine comes from: what it holds, and what it is about
    to apply, is what the hub listed at some moment since its start. *)
Definition listed (s0 s : sys) (x : store) : Prop :=
  exists s1, reach step s0 s1 /\ reach step s1 s /\ x = wanted s1.
Definition provenance (s0 s : sys) : Prop :=
  (once (disc s) = false /\ endpoints s = ∅ \/ once (disc s) = true /\ listed s0 s (endpoints s)) /\
  forall d v, at_pc s = Applying d v -> listed s0 s (table d).

Lemma listed_later s0 s s' x : step s s' -> listed s0 s x -> listed s0 s' x.
Proof. intros Hs (s1 & H1 & H2 & Hx). exists s1. split; [done|]. split; [by econstructor|done]. Qed.

Lemma provenance_step s0 s s' : reach step s0 s -> inv s -> provenance s0 s -> step s s' -> provenance s0 s'.
Proof.
  intros Hr Hi [Hp Ha] Hst. pose proof (fun x => listed_later s0 s s' x Hst) as Hl.
  assert (Hp' : once (disc s) = false /\ endpoints s = ∅ \/ once (disc s) = true /\ listed s0 s' (endpoints s))
    by (destruct Hp as [?|[? ?]]; [by left|right; auto]).
  destruct Hst as [t s|c p s]; [split; [exact Hp'|]; simpl; intros; apply Hl; by eapply Ha|].
  unfold turn in *. destruct (at_pc s) as [|d v|v [|ch|w|]|] eqn:Hpc;
    try (split; [exact Hp'|]; simpl; intros ?? [=]; done).
  - split; [exact Hp'|]. simpl. intros d v [= <- <-]. apply Hl. exists s. split; [done|]. by split; [constructor|].
  - destruct (apply_mirror d (applied (disc s))) as (calls & Hap & Hre). rewrite Hap in *.
    rewrite <- (inv_mirror s Hi) in Hre. rewrite Hre in *.
    split; [|done]. right. cbn [disc endpoints]. split; [unfold close_ready; simpl; by destruct (once (disc s)) eqn:?|].
    apply Hl. by eapply Ha.
  - split; [exact Hp'|]. intros ?? Hat. simpl in Hat. congruence.
Qed.

(** What ready means for a plugin: until its channel is closed its datastore is
    empty; from then on, which happens once, the datastore holds what the cluster
    table listed at one moment since the plugin was started, never a mixture of
    two tables and never an endpoint that no table listed. *)
Theorem discovery_ready_is_a_snapshot s0 s :
  starts s0 -> reach step s0 s ->
  (ready (disc s) = 0%nat /\ endpoints s = ∅) \/
  (ready (disc s) = 1%nat /\ exists s1, reach step s0 s1 /\ reach step s1 s /\ endpoints s = wanted s1).
Proof.
  intros H0 Hr. pose proof (starts_inv s0 H0) as Hi0.
  assert (HP : inv s /\ provenance s0 s).
  { induction Hr as [|s1 s2 Hr IH Hst].
    - split; [done|]. destruct H0 as (_ & _ & [params Hf] & He & Hpc). split; [|by rewrite Hpc].
      left. split; [|done]. by rewrite (Factory_fresh params _ Hf).
    - destruct IH as [Hi Hp]. split; [|by eapply provenance_step].
      by eapply loop_inv_reach; [exact Hi|apply reach_one]. }
  destruct HP as [Hi [[[Ho He]|[Ho Hl]] _]]; pose proof (inv_ready s Hi) as Hrd; rewrite Ho in Hrd; [by left|by right].
Qed.

(** A plugin that starts before the first cluster table has arrived is ready at
    once: three actions later it is blocked on a hub that was never written, its
    channel closed and its datastore empty. *)
Theorem ready_before_any_table s0 :
  starts s0 -> hub s0 = NewHub -> writes s0 = 0%nat ->
  let s := Nat.iter 3 go s0 in
  ready (disc s) = 1%nat /\ endpoints s = ∅ /\ blocked s /\ writes s = 0%nat /\ hub s = NewHub.
Proof.
  intros (_ & _ & [params Hf] & He & Hpc) Hh Hw. destruct s0 as [h d e p w n]. simpl in *. subst.
  assert (Hd : applied d = ∅ /\ ready d = 0%nat /\ once d = false).
  { by rewrite (Factory_fresh params _ Hf). }
  destruct Hd as (Ha & Hr & Ho). destruct (apply_mirror [] ∅) as (calls & Hap & Hre).
  change (table []) with (∅ : store) in *.
  assert (H1 : go (mkSys NewHub d ∅ Snapshotting 0 n) = mkSys NewHub d ∅ (Applying [] 0) 0 0) by done.
  assert (H2 : go (mkSys NewHub d ∅ (Applying [] 0) 0 0) =
    mkSys NewHub (mkDiscovery (clusterName d) ∅ 1 true) ∅ (Waiting 0 Checking) 0 0).
  { unfold turn. cbn [at_pc disc hub endpoints writes seen]. rewrite Ha, Hap, Hre. unfold close_ready. simpl.
    by rewrite Ho, Hr. }
  cbn [Nat.iter]. rewrite H1, H2. split; [done|]. split; [done|]. split; [|done].
  eexists 0, _. split; [done|]. simpl. apply not_elem_of_empty.
Qed.

Lemma reach_go n s : reach step s (Nat.iter n go s).
Proof. induction n; [constructor|]. eapply reach_snoc; [done|]. apply step_turn. Qed.

End Loop.

(** ** Witnesses *)

Module ToyLoop.
Definition same (x y : EndpointMetadata) : bool := bool_decide (x = y).
Lemma same_sound x y : same x y = true -> x = y.
Proof. apply bool_decide_eq_true. Qed.

Definition ep (name : string) : EndpointMetadata :=
  mkEndpoint (mkName "a" name) name "10.0.0.1" "80" "10.0.0.1:80".
Definition table1 : gmap string (list EndpointMetadata) := <["a" := [ep "x"; ep "y"]]> ∅.
Definition table2 : gmap string (list EndpointMetadata) := <["a" := [ep "y"; ep "z"]]> ∅.
Definition s0 : sys := mkSys NewHub (mkDiscovery "a" ∅ 0 false) ∅ Snapshotting 0 0.
(** Up to date with the first table, when the second arrives. *)
Definition s1 : sys := Nat.iter 3 (@turn list_range same false false) (replaced table1 s0).
Definition s2 : sys := replaced table2 s1.

Lemma s0_starts : starts s0.
Proof.
  split; [apply NewHub_ok|]. split; [reflexivity|]. split; [exists (Some (raw (mkObject [("clusterName"%string, mkString "a")]))); vm_compute; reflexivity|done].
Qed.
Lemma s1_reach : reach (@step list_range same) s0 s1.
Proof.
  eapply (reach_cons (@step list_range same) s0); [apply (step_write same table1)|].
  exact (@reach_go list_range same 3 (replaced table1 s0)).
Qed.
End ToyLoop.

Lemma discovery_blocked_is_current_witness :
  endpoints ToyLoop.s1 = table [ToyLoop.ep "x"; ToyLoop.ep "y"].
Proof.
  refine (proj1 (@discovery_blocked_is_current list_range ToyLoop.same ToyLoop.same_sound ToyLoop.s0
    ToyLoop.s1 ToyLoop.s0_starts ToyLoop.s1_reach _ _)).
  - reflexivity.
  - exists 1, 1%nat. split; [reflexivity|]. vm_compute. discriminate.
Defined.


Lemma discovery_ready_is_a_snapshot_witness :
  exists s1, endpoints ToyLoop.s2 = wanted s1.
Proof.
  destruct (@discovery_ready_is_a_snapshot list_range ToyLoop.same ToyLoop.same_sound ToyLoop.s0 ToyLoop.s2
    ToyLoop.s0_starts) as [[Hr _]|(_ & s1 & _ & _ & He)].
  - eapply reach_snoc; [exact ToyLoop.s1_reach|apply step_write].
  - vm_compute in Hr. discriminate.
  - exists s1. exact He.
Defined.

Lemma ready_before_any_table_witness :
  ready (disc (Nat.iter 3 (@turn list_range ToyLoop.same false false) ToyLoop.s0)) = 1%nat.
Proof.
  refine (proj1 (@ready_before_any_table list_range ToyLoop.same ToyLoop.same_sound ToyLoop.s0
    ToyLoop.s0_starts _ _)); reflexivity.
Defined.
