(* ===== verification/ClusterTable.v ===== *)
(** * From the cluster table to the hub (pkg/poller/discovery.go)

    The conversion of raw backend entries to endpoint metadata, and the consumer
    of the discovery poller, which replaces the hub's content. *)

From S2P Require Import Prelude.
From S2P Require Import GoStd.
From S2P Require Import Llmd.
From S2P Require Import Hub.
From S2P Require Import Discovery.
From Stdlib Require Import Ascii String.
Local Open Scope string_scope.
Local Open Scope Z_scope.
#[local] Arguments String.append !_ _ /.

(** [type BackendConf struct]; [Port] and [Weight] are 64-bit [int]s. *)
Record BackendConf := mkBackend { bName : string; Addr : string; bPort : Z; Weight : Z }.

(** [type ClusterTableConfig map[string]map[string][]BackendConf] *)
Definition ClusterTableConfig : Type := gmap string (gmap string (list BackendConf)).

(** [s[i]]; out of range Go panics, which the caller excludes. *)
Definition byte_at (s : string) (i : nat) : ascii := default zero (String.get i s).

(** [unwrapIPv6(addr)] *)
Definition unwrapIPv6 (addr : string) : string :=
  let n := String.length addr in
  if (2 <? n)%nat && Ascii.eqb (byte_at addr 0) "[" && Ascii.eqb (byte_at addr (n - 1)) "]"
  then slice 1 (n - 1) addr else addr.

(** [backendID(b)] *)
Definition backendID (b : BackendConf) : string :=
  if decide (bName b <> "") then bName b
  else JoinHostPort (unwrapIPv6 (Addr b)) (Itoa (bPort b)).

(** The composite literal in the innermost loop. *)
Definition endpoint_of (cluster : string) (b : BackendConf) : EndpointMetadata :=
  mkEndpoint (mkName cluster (backendID b)) (bName b) (unwrapIPv6 (Addr b)) (Itoa (bPort b))
    (JoinHostPort (unwrapIPv6 (Addr b)) (Itoa (bPort b))).

(** [for _, b := range backends { ... }] *)
Fixpoint add_backends (cluster : string) (backends : list BackendConf) (eps : list EndpointMetadata) :
    list EndpointMetadata :=
  match backends with
  | [] => eps
  | b :: bs =>
      if Weight b =? 0 then add_backends cluster bs eps
      else add_backends cluster bs (eps ++ [endpoint_of cluster b])
  end.

Section Convert.
Context `{MapRange}.

(** [ConvertClusterTableToEndpoints(table)] *)
Definition convert_cluster (cluster : string) (subClusters : gmap string (list BackendConf)) :
    list EndpointMetadata :=
  fold_left (fun eps sb => add_backends cluster sb.2 eps) (range subClusters) [].
Definition ConvertClusterTableToEndpoints (t : ClusterTableConfig) :
    gmap string (list EndpointMetadata) :=
  fold_left (fun desired cs => <[cs.1 := convert_cluster cs.1 cs.2]> desired) (range t) ∅.

(** [type ClusterDiscovery struct]: the hub and the counter it updates, and the
    predicate it was created with. *)
Record ClusterDiscovery := mkClusterDiscovery { cd_hub : Hub; cd_unassigned : option Z }.

(** [NewClusterDiscovery(client, hub, assigned, unassigned)]; the client belongs to
    the source, the predicate is an argument of [Handle]. *)
Definition NewClusterDiscovery (hub : Hub) (unassigned : option Z) : ClusterDiscovery := mkClusterDiscovery hub unassigned.

(** [(d *ClusterDiscovery) Handle(ctx, desired)] *)
Definition handle_one (assigned : option (string -> bool))
    (s : gmap string (list EndpointMetadata) * option Z) (ce : string * list EndpointMetadata) :
    gmap string (list EndpointMetadata) * option Z :=
  let counter := match assigned with
    | Some f => if f ce.1 then s.2 else (fun n => n + 1) <$> s.2
    | None => s.2
    end in
  (<[ce.1 := ce.2]> s.1, counter).
Definition Handle (assigned : option (string -> bool)) (desired : gmap string (list EndpointMetadata))
    (d : ClusterDiscovery) : option error * ClusterDiscovery :=
  let '(filtered, counter) := fold_left (handle_one assigned) (range desired) (∅, cd_unassigned d) in
  (None, mkClusterDiscovery (ReplaceAll filtered (cd_hub d)) counter).

(** ** Lemmas *)

Lemma add_backends_app cluster bs eps :
  add_backends cluster bs eps =
  app eps (endpoint_of cluster <$> filter (fun b => Weight b <> 0) bs).
Proof.
  revert eps. induction bs as [|b bs IH]; intros eps; [by rewrite app_nil_r|]. simpl.
  rewrite filter_cons. destruct (Z.eqb_spec (Weight b) 0); rewrite IH.
  - by rewrite decide_False by auto.
  - rewrite decide_True by done. by rewrite <- app_assoc.
Qed.

Lemma convert_cluster_elem cluster subs e :
  e ∈ convert_cluster cluster subs <->
  exists sub bs b, subs !! sub = Some bs /\ b ∈ bs /\ Weight b <> 0 /\ e = endpoint_of cluster b.
Proof.
  assert (Hgen : forall (l : list (string * list BackendConf)) eps,
    e ∈ fold_left (fun eps sb => add_backends cluster sb.2 eps) l eps <->
    e ∈ eps \/ exists sub bs b, (sub, bs) ∈ l /\ b ∈ bs /\ Weight b <> 0 /\ e = endpoint_of cluster b).
  { induction l as [|[sub bs] l IH]; intros eps; simpl.
    - split; [by left|]. intros [He|(? & ? & ? & Hx & _)]; [done|]. by apply not_elem_of_nil in Hx.
    - rewrite IH, add_backends_app, elem_of_app, list_elem_of_fmap. setoid_rewrite list_elem_of_filter.
      setoid_rewrite elem_of_cons. split.
      + intros [[?|(b & -> & ? & ?)]|(sub' & bs' & b & ? & ? & ? & ->)]; [by left|right..].
        * exists sub, bs, b. by split; [left|].
        * exists sub', bs', b. by split; [right|].
      + intros [?|(sub' & bs' & b & [[= -> ->]|?] & ? & ? & ->)]; [by left; left|left; right|right].
        * by exists b.
        * by exists sub', bs', b. }
  unfold convert_cluster. rewrite Hgen. setoid_rewrite elem_of_range.
  split; [intros [?%not_elem_of_nil|?]; done|by right].
Qed.

(** A fold that inserts one entry per key builds the pointwise image. *)
Lemma insert_fold {A B} (f : string -> A -> B) (m : gmap string A) :
  fold_left (fun (d : gmap string B) ka => <[ka.1 := f ka.1 ka.2]> d) (range m) ∅ =
  map_imap (fun k a => Some (f k a)) m.
Proof.
  assert (Hgen : forall (l : list (string * A)) (d : gmap string B) k, NoDup l.*1 ->
    fold_left (fun (d : gmap string B) ka => <[ka.1 := f ka.1 ka.2]> d) l d !! k =
    match list_to_map (M := gmap string A) l !! k with Some a => Some (f k a) | None => d !! k end).
  { induction l as [|[k' a] l IH]; intros d k Hnd; [done|].
    rewrite fmap_cons in Hnd. apply NoDup_cons in Hnd as [Hk' Hnd]. simpl. rewrite IH by done.
    change (list_to_map ((k', a) :: l)) with (<[k' := a]> (list_to_map (M := gmap string A) l)).
    destruct (decide (k' = k)) as [->|Hne].
    - by rewrite (not_elem_of_list_to_map_1 _ _ Hk'), !lookup_insert_eq.
    - by rewrite !lookup_insert_ne. }
  apply map_eq. intros k. rewrite Hgen by apply NoDup_range. rewrite map_lookup_imap.
  assert (Hl : list_to_map (range m) = m).
  { rewrite <- (list_to_map_to_list m) at 2. apply list_to_map_proper; [apply NoDup_range|apply range_perm]. }
  rewrite Hl, lookup_empty. by destruct (m !! k).
Qed.

(** C33. The conversion is exact: the result has an entry for exactly the
    clusters of the table (one whose backends are all drained gets the empty
    list, so that its endpoints are deleted), and its endpoints are, in some
    order, those of the backends with a non-zero weight in any sub-cluster. *)
Theorem ConvertClusterTableToEndpoints_exact t cluster :
  match ConvertClusterTableToEndpoints t !! cluster with
  | None => t !! cluster = None
  | Some eps => exists subs, t !! cluster = Some subs /\
      forall e, e ∈ eps <-> exists sub bs b, subs !! sub = Some bs /\ b ∈ bs /\ Weight b <> 0 /\
        e = endpoint_of cluster b
  end.
Proof.
  unfold ConvertClusterTableToEndpoints. rewrite insert_fold, map_lookup_imap.
  unfold ClusterTableConfig in *. destruct (t !! cluster) as [subs|]; simpl; [|done].
  exists subs. split; [done|]. apply convert_cluster_elem.
Qed.

(** The consumer in closed form: the loop only copies the table. *)
Lemma Handle_run assigned desired d : exists counter,
  Handle assigned desired d = (None, mkClusterDiscovery (ReplaceAll desired (cd_hub d)) counter).
Proof.
  unfold Handle.
  assert (Hgen : forall l s, (fold_left (handle_one assigned) l s).1 =
    fold_left (fun m (ce : string * list EndpointMetadata) => <[ce.1 := ce.2]> m) l s.1).
  { induction l as [|ce l IH]; intros s; [done|]. simpl. by rewrite IH. }
  specialize (Hgen (range desired) (∅, cd_unassigned d)).
  destruct (fold_left (handle_one assigned) _ _) as [filtered counter]. simpl in Hgen. exists counter.
  replace desired with filtered; [done|].
  rewrite Hgen, (insert_fold (fun _ e => e)). apply map_eq. intros k. rewrite map_lookup_imap.
  by destruct (desired !! k).
Qed.

(** The cluster-table consumer keeps everything: whatever predicate tells
    the assigned clusters, the hub gets exactly the table it is handed, at the
    next version, and only the counter depends on the predicate. Clusters that
    disappeared are cleared. *)
Theorem cluster_table_Handle_keeps_all assigned desired d :
  let '(err, d') := Handle assigned desired d in
  err = None /\ data (cd_hub d') = desired /\
  version (cd_hub d') = uint64 (version (cd_hub d) + 1) /\
  ch (cd_hub d) ∈ closed (cd_hub d') /\
  forall cluster, (Snapshot cluster (cd_hub d')).1 = default [] (desired !! cluster).
Proof.
  destruct (Handle_run assigned desired d) as [counter ->]. repeat (split; [done|]). split; [|done].
  simpl. set_solver.
Qed.
End Convert.

(** ** Identities of endpoints *)

Lemma has_byte_app c s t : has_byte c (s ++ t) = has_byte c s || has_byte c t.
Proof. apply string_existsb_app. Qed.

Lemma JoinHostPort_inj h p h' p' :
  has_byte ":" p = false -> has_byte ":" p' = false ->
  JoinHostPort h p = JoinHostPort h' p' -> h = h' /\ p = p'.
Proof.
  intros Hp Hp' Heq.
  assert (Hform : forall h p, exists b, JoinHostPort h p = b ++ String ":" p /\
    b = if has_byte ":" h then "[" ++ h ++ "]" else h).
  { intros. unfold JoinHostPort. destruct (has_byte ":" h0); eexists; (split; [|reflexivity]); [|done].
    simpl. by rewrite string_app_assoc. }
  destruct (Hform h p) as (b & Hb & Hb1), (Hform h' p') as (b' & Hb' & Hb1'). rewrite Hb, Hb' in Heq.
  apply split_last in Heq as [Heq ->]; [|done..]. split; [|done]. rewrite Hb1, Hb1' in Heq. clear Hb Hb' Hb1 Hb1'.
  assert (Hcol : forall x, has_byte ":" ("[" ++ x ++ "]") = has_byte ":" x).
  { intros x. rewrite !has_byte_app. simpl. by rewrite orb_false_r. }
  destruct (has_byte ":" h) eqn:Hh, (has_byte ":" h') eqn:Hh'; [| | |done].
  - simpl in Heq. injection Heq as Heq. revert Heq. generalize h'. clear. induction h as [|c h IH]; intros [|c' h'] Heq;
      simpl in Heq; [done| | |].
    + by destruct h'.
    + by destruct h.
    + injection Heq as -> Heq. f_equal. by apply IH.
  - apply (f_equal (has_byte ":")) in Heq. rewrite Hcol in Heq. congruence.
  - apply (f_equal (has_byte ":")) in Heq. rewrite Hcol in Heq. congruence.
Qed.

Lemma Itoa_no_colon n : has_byte ":" (Itoa n) = false.
Proof.
  apply has_byte_Itoa; [|done]. intros d. unfold pretty_N_char. by repeat case_match.
Qed.

Lemma byte_at_last s c : byte_at (s ++ String c "") (String.length s) = c.
Proof. unfold byte_at. induction s as [|a s IH]; [done|]. exact IH. Qed.

Lemma unwrapIPv6_wrapped h : h <> "" -> unwrapIPv6 ("[" ++ h ++ "]") = h.
Proof.
  intros Hh. unfold unwrapIPv6. set (s := "[" ++ h ++ "]").
  assert (Hlen : String.length s = S (S (String.length h))).
  { unfold s. simpl. rewrite string_length_app. simpl. lia. }
  rewrite Hlen. replace (S (S (String.length h)) - 1)%nat with (S (String.length h)) by lia.
  assert (Hn : (2 <? S (S (String.length h)))%nat = true).
  { apply Nat.ltb_lt. destruct h; [done|]. simpl. lia. }
  rewrite Hn. change (byte_at s 0) with "["%char. cbn [andb Ascii.eqb Bool.eqb].
  change (byte_at s (S (String.length h))) with (byte_at (h ++ "]") (String.length h)).
  rewrite byte_at_last. unfold slice. cbn. rewrite Nat.sub_0_r. apply substring_all.
Qed.

(** Identity of unnamed backends: two of them become the same endpoint, the
    same entry of every datastore, exactly when they belong to the same cluster
    and have the same address, with or without IPv6 brackets, and port. *)
Theorem unnamed_backends_identity c1 c2 b1 b2 :
  bName b1 = "" -> bName b2 = "" ->
  ID (endpoint_of c1 b1) = ID (endpoint_of c2 b2) <->
  c1 = c2 /\ unwrapIPv6 (Addr b1) = unwrapIPv6 (Addr b2) /\ bPort b1 = bPort b2.
Proof.
  intros H1 H2. unfold endpoint_of, backendID. simpl. rewrite H1, H2, !decide_False by auto. split.
  - intros [= -> Hid]. apply JoinHostPort_inj in Hid as [-> Hp]; [|apply Itoa_no_colon..].
    by apply Itoa_inj in Hp.
  - by intros (-> & -> & ->).
Qed.

(** Endpoint names are taken on trust: when two sub-clusters of a cluster
    list different backends under one name, the plugin keeps only one of them,
    and which one depends on the order in which Go iterates the sub-cluster map:
    each of the two is kept under some order. *)
Theorem duplicate_names_depend_on_map_order c s1 s2 b1 b2 :
  s1 <> s2 -> bName b1 <> "" -> bName b1 = bName b2 -> Weight b1 <> 0 -> Weight b2 <> 0 ->
  let subs := <[s1 := [b1]]> {[s2 := [b2]]} in
  let kept (r : MapRange) := table (@convert_cluster r c subs) !! mkName c (bName b1) in
  exists r1 r2, kept r1 = Some (endpoint_of c b1) /\ kept r2 = Some (endpoint_of c b2).
Proof.
  intros Hne Hn1 Hn2 Hw1 Hw2 subs kept.
  assert (Hid : forall b, bName b = bName b1 -> ID (endpoint_of c b) = mkName c (bName b1)).
  { intros b Hb. unfold endpoint_of, backendID. simpl. by rewrite Hb, decide_True. }
  assert (Hk : forall (r : MapRange) s s' b b', Weight b <> 0 -> Weight b' <> 0 ->
    bName b = bName b1 -> bName b' = bName b1 -> range subs = [(s, [b]); (s', [b'])] ->
    kept r = Some (endpoint_of c b')).
  { intros r s s' b b' Hb Hb' Hnb Hnb' Hr. unfold kept, convert_cluster. rewrite Hr. simpl.
    rewrite (proj2 (Z.eqb_neq _ _) Hb), (proj2 (Z.eqb_neq _ _) Hb'). cbn [app]. unfold table. cbn [fold_left].
    rewrite !Hid by done. apply lookup_insert_eq. }
  assert (Hp : map_to_list subs ≡ₚ [(s1, [b1]); (s2, [b2])]).
  { unfold subs. rewrite map_to_list_insert by (by apply lookup_singleton_ne).
    by rewrite map_to_list_singleton. }
  symmetry in Hp. apply Permutation_length_2_inv in Hp as [Hp|Hp].
  - exists reverse_range, list_range. split.
    + eapply (Hk reverse_range s2 s1 b2 b1); auto. simpl. by rewrite Hp.
    + eapply (Hk list_range s1 s2 b1 b2); auto.
  - exists list_range, reverse_range. split.
    + eapply (Hk list_range s2 s1 b2 b1); auto.
    + eapply (Hk reverse_range s1 s2 b1 b2); auto. simpl. by rewrite Hp.
Qed.

(** ** Witnesses *)

Lemma unnamed_backends_identity_witness :
  ID (endpoint_of "a" (mkBackend "" "[::1]" 80 1)) = ID (endpoint_of "a" (mkBackend "" "::1" 80 5)).
Proof.
  apply (unnamed_backends_identity "a" "a" (mkBackend "" "[::1]" 80 1) (mkBackend "" "::1" 80 5)).
  - reflexivity.
  - reflexivity.
  - split; [reflexivity|]. split; [vm_compute; reflexivity|reflexivity].
Defined.

Lemma duplicate_names_depend_on_map_order_witness :
  let subs := <["s1" := [mkBackend "x" "10.0.0.1" 80 1]]> {["s2" := [mkBackend "x" "10.0.0.2" 80 1]]} in
  exists r1 r2 : MapRange,
    table (@convert_cluster r1 "a" subs) <> table (@convert_cluster r2 "a" subs).
Proof.
  destruct (duplicate_names_depend_on_map_order "a" "s1" "s2" (mkBackend "x" "10.0.0.1" 80 1)
    (mkBackend "x" "10.0.0.2" 80 1)) as (r1 & r2 & H1 & H2); try discriminate; [reflexivity|].
  exists r1, r2. intros Heq. rewrite Heq in H1. pose proof (eq_trans (eq_sym H1) H2) as H3. discriminate.
Defined.
