(* ===== verification/Frame.v ===== *)
(** * What no manager call can do

    A relation between worlds that holds across every primitive update of the
    manager holds across every manager method, drain worker turn, waiter turn
    and epp_data snapshot, whatever the arguments and the starting world.  Two
    instances: the drain queue is only ever extended by the methods, and the
    metric calls are only ever appended, every cell-state one with value 1. *)

From S2P Require Import Prelude.
From S2P Require Import GoStd.
From S2P Require Import Sha256.
From S2P Require Import Role.
From S2P Require Import Llmd.
From S2P Require Import Cell.
From S2P Require Import Compile.
From S2P Require Import Manager.
From S2P Require Import ManagerFacts.
From S2P Require Import InnerApi.
From S2P Require Import EppData.
Local Open Scope Z_scope.

(** The metric calls the program makes: a cell state is only ever set to 1. *)
Definition raises (m : metric_call) : bool :=
  match m with CellState_Set _ _ _ v => v =? 1 | _ => true end.

Section Frame.
Context {L : LlmdRouter}.

(** A cell update that leaves engine pointer and readiness alone and does not
    reopen the cell. *)
Record gentle (f : Cell -> Cell) : Prop := mkGentle {
  gentle_engine : forall o, c_engine (f o) = c_engine o;
  gentle_ready : forall o, readyCloses (f o) = readyCloses o;
  gentle_closed : forall o, c_closed o = true -> c_closed (f o) = true }.

(** A preorder on worlds that every primitive update respects. *)
Record frame (R : World -> World -> Prop) : Prop := mkFrame {
  fr_refl : forall w, R w w;
  fr_trans : forall w1 w2 w3, R w1 w2 -> R w2 w3 -> R w1 w3;
  fr_cells : forall f c w, gentle f -> R w (on_cells (alter f c) w);
  fr_cancel : forall e w, R w (cancel_eng e w);
  fr_registry : forall f w, R w (on_registry f w);
  fr_enqueue : forall t w, R w (on_drainCh (fun q => q ++ [t]) w);
  fr_scopes : forall sc w, R w (set_scopes sc w);
  fr_metric : forall m w, raises m = true -> R w (on_metrics (fun l => l ++ [m]) w);
  fr_new_cell : forall o w, c_engine o = None -> readyCloses o = 0%nat -> R w (new_cell o w).2;
  fr_new_engine : forall x w, wg x = 0 -> R w (new_engine x w).2 }.

(** What [Engine.start] and its waiter do besides: launching goroutines and marking
    the cell ready. *)
Record starts (R : World -> World -> Prop) : Prop := mkStarts {
  fr_waiters : forall f w, R w (on_waiters f w);
  fr_started : forall f w, R w (on_started f w);
  fr_ready : forall t c w, R w (on_cells (alter (set_ready t) c) w) }.

(** Repointing a cell to another engine, which only [ApplyConfig] does. *)
Definition allows_swap (R : World -> World -> Prop) : Prop :=
  forall e c w, R w (on_cells (alter (set_engine e) c) w).

Context (R : World -> World -> Prop) (F : frame R).

(** Computations that only move forward along [R]. *)
Definition moves {A} (m : St World A) : Prop := forall w, R w (m w).2.

Lemma moves_ret {A} (a : A) : moves (mret a).
Proof. intros w. apply F. Qed.
Lemma moves_bind {A B} (m : St World A) (f : A -> St World B) :
  moves m -> (forall a, moves (f a)) -> moves (m ≫= f).
Proof. intros Hm Hf w. rewrite St_bind_run. eapply fr_trans; [done|apply Hm|apply Hf]. Qed.
Lemma moves_gets {A} (f : World -> A) : moves (gets f).
Proof. intros w. apply F. Qed.
Lemma moves_modify (f : World -> World) : (forall w, R w (f w)) -> moves (modify f).
Proof. intros Hf w. apply Hf. Qed.
Lemma moves_for_each {A} (xs : list A) f : (forall x, moves (f x)) -> moves (for_each xs f).
Proof. intros Hf. induction xs; simpl; auto using moves_ret, moves_bind. Qed.
Lemma moves_if {P : Prop} `{Decision P} {A} (m1 m2 : St World A) :
  moves m1 -> moves m2 -> moves (if decide P then m1 else m2).
Proof. intros. by case_decide. Qed.
Lemma moves_case {A} (b : bool) (m1 m2 : St World A) :
  moves m1 -> moves m2 -> moves (if b then m1 else m2).
Proof. by destruct b. Qed.
Lemma moves_option {A X} (x : option X) (m1 : X -> St World A) m2 :
  (forall x, moves (m1 x)) -> moves m2 -> moves (match x with Some x => m1 x | None => m2 end).
Proof. by destruct x. Qed.

Lemma moves_load {A} (f : Cell -> A) d c : moves (load f d c).
Proof. apply moves_gets. Qed.
Lemma moves_on_cell f c : gentle f -> moves (on_cell f c).
Proof. intros Hf. apply moves_modify. intros w. by apply F. Qed.
Lemma moves_metric m : raises m = true -> moves (metric m).
Proof. intros. apply moves_modify. intros w. by apply F. Qed.
Lemma moves_new_cell o : c_engine o = None -> readyCloses o = 0%nat -> moves (new_cell o).
Proof. intros Ho Hr w. by apply F. Qed.
Lemma moves_new_engine x : wg x = 0 -> moves (new_engine x).
Proof. intros Hx w. by apply F. Qed.

Ltac moves := repeat first
  [ simple apply moves_ret | simple apply moves_gets | simple apply moves_load
  | (simple apply moves_on_cell; by split) | (simple apply moves_new_cell; reflexivity)
  | (simple apply moves_new_engine; reflexivity) | (simple apply moves_metric; reflexivity)
  | assumption | simple apply moves_if | simple apply moves_case | (simple apply moves_option; [intros ?|])
  | (simple apply moves_bind; [|intros ?]) | (simple apply moves_modify; intros ?; apply F)
  | (simple apply moves_for_each; intros ?)
  | match goal with |- moves (match ?x with _ => _ end) => destruct x end ].

Lemma moves_setRole c r : moves (setRole c r).
Proof. unfold setRole, Cell_Key, Cell_State. moves. Qed.
Lemma moves_setState c s : moves (setState c s).
Proof. unfold setState, Cell_Key, Cell_Role. moves. Qed.
Lemma moves_Close c : moves (Close c).
Proof. by apply moves_on_cell. Qed.
Lemma moves_Engine_drain e : moves (Engine_drain e).
Proof. intros w. apply F. Qed.
Lemma moves_CompareAndDelete k c : moves (CompareAndDelete k c).
Proof. unfold CompareAndDelete. moves. Qed.

Lemma moves_drain t : moves (drain t).
Proof.
  unfold drain, drain_begin, drain_end, Cell_Key.
  moves; auto using moves_Engine_drain, moves_Close, moves_CompareAndDelete.
Qed.
Lemma moves_scheduleDrain c e td : moves (scheduleDrain c e td).
Proof. unfold scheduleDrain. moves; auto using moves_drain. Qed.
Lemma moves_Promote k : moves (Promote k).
Proof. unfold Promote, Get, Cell_State. moves; auto using moves_setRole, moves_setState. Qed.
Lemma moves_Demote k : moves (Demote k).
Proof.
  unfold Demote, Get, Cell_State, Cell_Engine.
  moves; auto using moves_setRole, moves_setState, moves_scheduleDrain.
Qed.
Lemma moves_Drop k : moves (Drop k).
Proof.
  unfold Drop, Get, Cell_Engine.
  moves; auto using moves_setState, moves_scheduleDrain, moves_Close, moves_CompareAndDelete.
Qed.
Lemma moves_apply_role k c r : moves (apply_role k c r).
Proof.
  unfold apply_role, Cell_Role.
  moves; auto using moves_setRole, moves_Promote, moves_Demote.
Qed.
Lemma moves_publish k c : moves (publish k c).
Proof. unfold publish, LoadOrStore, Get. moves; auto using moves_setState, moves_Close. Qed.
Lemma moves_Ensure m k r : moves (Ensure m k r).
Proof.
  unfold Ensure, Get. moves; auto using moves_publish, moves_apply_role.
Qed.
Lemma moves_run_compile {A} c (m : CM A) : moves (run_compile c m).
Proof.
  intros w. unfold run_compile. destruct (cells w !! c) as [o|]; [|apply F].
  destruct (m _) as [r s]. 
  eapply (fr_trans R F); [by apply (fr_cells R F (set_data (cs_data s)) c w)|apply (fr_scopes R F)].
Qed.

Context (T : starts R).

Lemma moves_markReady c : moves (markReady c).
Proof.
  assert (Hr : forall t, moves (on_cell (set_ready t) c)) by (intros t w; apply T).
  unfold markReady, Cell_State. moves; auto using moves_setState.
Qed.
Lemma moves_start e c : moves (start e c).
Proof. unfold start. moves; auto using moves_markReady; intros w; apply T. Qed.
Lemma moves_ApplyConfig m k raw : allows_swap R -> moves (ApplyConfig m k raw).
Proof.
  intros Hswap. assert (Hs : forall e c, moves (on_cell (set_engine e) c)) by (intros e c w; apply Hswap).
  unfold ApplyConfig, Get, Cell_State, Cell_Engine. moves;
    auto using moves_run_compile, moves_start, moves_scheduleDrain.
Qed.
Lemma moves_waiter_step p x : moves (waiter_step p x).
Proof. unfold waiter_step. moves; auto using moves_markReady; intros w; apply F. Qed.

Context `{MapRange}.
Lemma moves_ensure_all m l : moves (ensure_all m l).
Proof.
  induction l as [|[k r] l IH]; simpl; [apply moves_ret|].
  apply moves_bind; [apply moves_Ensure|]. intros []; moves.
Qed.
Lemma moves_Handle wt cfg : allows_swap R -> moves (Handle wt cfg).
Proof.
  intros Hswap.
  unfold Handle, drop_unassigned, apply_assigned, List_cells, Cell_Key.
  moves; auto using moves_ensure_all, moves_Drop, moves_ApplyConfig.
Qed.
End Frame.

(** ** Instances *)

Section Instances.
Context {L : LlmdRouter}.

Lemma frame_drainCh : frame (fun w w' => drainCh w `prefix_of` drainCh w').
Proof.
  split; intros; try done; simpl; try by apply prefix_app_r.
  by etransitivity.
Qed.
Lemma starts_drainCh : starts (fun w w' => drainCh w `prefix_of` drainCh w').
Proof. by split. Qed.

(** The metric calls of [w'] extend those of [w] by calls that only raise. *)
Definition more_metrics (w w' : World) : Prop :=
  exists ms, metrics w' = metrics w ++ ms /\ Forall (fun m => raises m = true) ms.

Lemma frame_metrics : frame more_metrics.
Proof.
  split; unfold more_metrics; try (intros; exists []; by rewrite app_nil_r).
  - intros w1 w2 w3 (m1 & -> & H1) (m2 & -> & H2). exists (m1 ++ m2).
    by rewrite <- app_assoc, Forall_app.
  - intros m w Hm. exists [m]. split; [done|]. by repeat constructor.
Qed.

Lemma starts_metrics : starts more_metrics.
Proof. split; intros; exists []; by rewrite app_nil_r. Qed.

Lemma swap_drainCh : allows_swap (fun w w' => drainCh w `prefix_of` drainCh w').
Proof. by intros e c w. Qed.
Lemma swap_metrics : allows_swap more_metrics.
Proof. intros e c w. exists []. by rewrite app_nil_r. Qed.

(** The value a [GaugeVec] reports for one combination of labels: the last one
    set, if any. *)
Definition cell_state_gauge (ms : list metric_call) (k role state : string) : option Z :=
  fold_left (fun v m => match m with
    | CellState_Set k' r' s' v' =>
        if decide (k' = k /\ r' = role /\ s' = state) then Some v' else v
    | _ => v end) ms None.

Lemma cell_state_gauge_raised ms ms' k r s :
  Forall (fun m => raises m = true) ms' -> cell_state_gauge ms k r s = Some 1 ->
  cell_state_gauge (ms ++ ms') k r s = Some 1.
Proof.
  intros Hf H1. unfold cell_state_gauge in *. rewrite fold_left_app, H1. clear H1 ms.
  induction Hf as [|m ms' Hm Hf IH]; [done|]. simpl. destruct m; try done. simpl in Hm.
  case_decide; [|done]. by apply Z.eqb_eq in Hm as ->.
Qed.

(** The cell_state gauge is never cleared: once a combination of cluster,
    role and state was reported, no later epp_data snapshot resets it, so that
    after a transition the previous combination still reads 1 next to the
    current one. *)
Theorem cell_state_gauge_never_cleared `{MapRange} wt cfg w k r s :
  cell_state_gauge (metrics w) k r s = Some 1 ->
  cell_state_gauge (metrics (exec (Handle wt cfg) w)) k r s = Some 1.
Proof.
  intros H1. destruct (moves_Handle more_metrics frame_metrics starts_metrics wt cfg swap_metrics w) as (ms & -> & Hf).
  by apply cell_state_gauge_raised.
Qed.
End Instances.

(** After one snapshot, cluster ["a"] of the example is reported both as being
    created without a role and as a serving primary; the next snapshot keeps
    both. *)
Lemma cell_state_gauge_never_cleared_witness :
  let ms := metrics (L := ToyLlmd.toy)
    (exec (@EppData.Handle ToyLlmd.toy list_range Toy.watcher Toy.snapshot) Toy.world1) in
  cell_state_gauge ms "a" "none" "creating" = Some 1 /\
  cell_state_gauge ms "a" "primary" "primary" = Some 1.
Proof.
  split; apply (@cell_state_gauge_never_cleared ToyLlmd.toy list_range); vm_compute; reflexivity.
Defined.
