(* ===== verification/Poller.v ===== *)
(** * The polling loop (pkg/poller/helpers.go, pkg/poller/poller.go)

    [Module Backoff] is the retry delay, [Module Loop] the generic poller: a
    source is anything with a [Fetch], the consumer anything a [Handle] can
    update. *)

From S2P Require Import Prelude.
From S2P Require Import GoStd.
Local Open Scope Z_scope.

Module Backoff.
(** [type backoff struct { current, max time.Duration }] *)
Record backoff := mkBackoff { current : Z; max : Z }.

(** [(b *backoff) next()] *)
Definition next (b : backoff) : Z * backoff :=
  if current b <=? 0 then (Second, mkBackoff Second (max b))
  else
    let c := int64 (current b * 2) in
    let m := if max b <=? 0 then 30 * Second else max b in
    let c' := if m <? c then m else c in
    (c', mkBackoff c' m).

(** [(b *backoff) reset()] *)
Definition reset (b : backoff) : backoff := mkBackoff 0 (max b).

(** The state after [n] consecutive failures, and the delay of the [n]-th. *)
Fixpoint after_failures (n : nat) (b : backoff) : backoff :=
  match n with O => b | S n' => (next (after_failures n' b)).2 end.
Definition delay_of_failure (n : nat) (b : backoff) : Z := (next (after_failures n b)).1.

(** The ceiling in force: 30 seconds unless configured. *)
Definition ceiling (b : backoff) : Z := if max b <=? 0 then 30 * Second else max b.

Lemma ceiling_next b : ceiling (next b).2 = ceiling b.
Proof.
  unfold ceiling, next. destruct (Z.leb_spec (current b) 0); [done|]. simpl.
  destruct (Z.leb_spec (max b) 0); simpl; [done|].
  by destruct (Z.leb_spec (max b) 0); [lia|].
Qed.

Lemma ceiling_after n b : ceiling (after_failures n b) = ceiling b.
Proof. induction n as [|n IH]; [done|]. simpl. by rewrite ceiling_next. Qed.

(** One doubling below the ceiling, when no [int64] overflow is possible. *)
Lemma next_pos b :
  0 < current b -> current b <= ceiling b < 2 ^ 62 ->
  (next b).1 = Z.min (current b * 2) (ceiling b) /\ current (next b).2 = (next b).1.
Proof.
  intros Hpos Hle. unfold next. destruct (Z.leb_spec (current b) 0); [lia|]. simpl.
  rewrite int64_small by lia. fold (ceiling b). split; [|done].
  by destruct (Z.ltb_spec (ceiling b) (current b * 2)); lia.
Qed.

Lemma after_failures_pow n b :
  current b = 0 -> Second <= ceiling b < 2 ^ 62 ->
  current (after_failures (S n) b) = Z.min (2 ^ Z.of_nat n * Second) (ceiling b).
Proof.
  intros H0 Hc. induction n as [|n IH].
  - cbn [after_failures]. unfold next. rewrite H0. cbn -[Z.min Z.mul].
    change (2 ^ Z.of_nat 0) with 1. lia.
  - remember (S n) as m eqn:Hm. cbn [after_failures].
    rewrite Hm, Nat2Z.inj_succ, Z.pow_succ_r by lia. rewrite <- Hm.
    assert (Hp : 0 < 2 ^ Z.of_nat n) by (apply Z.pow_pos_nonneg; lia).
    revert IH Hp. generalize (2 ^ Z.of_nat n) as P. intros P IH HP.
    rewrite <- (ceiling_after m b) in *.
    assert (HS : 0 < Second) by done.
    assert (HPS : 0 < P * Second) by nia.
    destruct (next_pos (after_failures m b)) as [Hd ->]; [lia|lia|].
    rewrite Hd, IH. lia.
Qed.
End Backoff.

Module Loop.
Import Backoff.

(** What one [Fetch] returns: [(changed, newVersion, data, err)]. *)
Record FetchResult (T : Type) := mkFetch {
  changed : bool; newVersion : string; data : T; err : option error }.
Arguments mkFetch {T}.
Arguments changed {T}. Arguments newVersion {T}. Arguments data {T}. Arguments err {T}.

(** [type Source[T any] interface { Fetch(ctx, version) }]; [Src] is the state
    behind the source. *)
Class Source (Src T : Type) := Fetch : string -> St Src (FetchResult T).

(** [type Handle[T any] func(ctx, data T) error] over the consumer's state. *)
Definition Handle (Cons T : Type) := T -> St Cons (option error).

(** [type syncOnce struct { done bool }] and its [do]. *)
Definition syncOnce := bool.
Definition syncOnce_do {S} (o : syncOnce) (f : S -> S) (s : S) : syncOnce * S :=
  if o then (o, s) else (true, f s).

(** What the loop makes visible besides calling the consumer: the calls on its
    three metrics and the two log lines that carry a version. *)
Inductive event :=
| LastSync (now : Z)         (* lastSyncTimestamp.Set *)
| Failure                    (* failuresTotal.Inc, log.Error *)
| BackoffState (v : Z)       (* backoffState.Set *)
| Fetched (ch : bool) (ver : string)
| Applied (ver : string).

(** [type Options struct], without the logger. The timeout bounds a [Fetch]: it is
    the source that observes it. *)
Record Options := mkOptions { Interval : Z; Timeout : Z }.

(** [type Poller[T any] struct]. [firstSync] counts the calls of
    [close(p.firstSync)]: a second one would panic. *)
Record Poller := mkPoller {
  opts : Options;
  version : string;
  firstSync : nat;
  once : syncOnce;
  bo : backoff;
  trace : list event }.

(** [New] *)
Definition New (o : Options) : Poller := mkPoller o "" 0 false (mkBackoff 0 0) [].

(** [(p *Poller[T]) FirstSync()]: the channel is closed. *)
Definition FirstSync (p : Poller) : bool := (0 <? firstSync p)%nat.

Definition emit (e : event) (p : Poller) : Poller :=
  mkPoller (opts p) (version p) (firstSync p) (once p) (bo p) (trace p ++ [e]).
Definition set_bo (b : backoff) (p : Poller) : Poller :=
  mkPoller (opts p) (version p) (firstSync p) (once p) b (trace p).
Definition set_version (v : string) (p : Poller) : Poller :=
  mkPoller (opts p) v (firstSync p) (once p) (bo p) (trace p).

(** [p.fail(log, err)] *)
Definition fail (p : Poller) : Poller := emit Failure p.

(** [p.once.do(func() { close(p.firstSync) })] *)
Definition mark_first_sync (p : Poller) : Poller :=
  let '(o, n) := syncOnce_do (once p) S (firstSync p) in
  mkPoller (opts p) (version p) n o (bo p) (trace p).

(** The interval in force: 5 seconds unless configured. *)
Definition interval (p : Poller) : Z :=
  if Interval (opts p) <=? 0 then 5 * Second else Interval (opts p).

Section Loop.
Context {Src Cons T : Type} `{Source Src T} (handle : Handle Cons T).

(** The poller with the worlds behind its source and its consumer. *)
Record config := mkConfig { poller : Poller; src : Src; cons : Cons }.

(** The body of the [for] loop of [Start], after the [select] let the timer
    through at time [now]: the delay before the next round and the new state. *)
Definition round (now : Z) (c : config) : Z * config :=
  let p := poller c in
  let '(r, s') := Fetch (version p) (src c) in
  match err r with
  | Some _ =>
      let '(delay, b) := next (bo p) in
      (delay, mkConfig (emit (BackoffState 1) (set_bo b (fail p))) s' (cons c))
  | None =>
      let p1 := emit (BackoffState 0) (set_bo (reset (bo p))
                  (emit (Fetched (changed r) (newVersion r)) p)) in
      let ok p2 k := (interval p, mkConfig (mark_first_sync (emit (LastSync now) p2)) s' k) in
      if changed r then
        match handle (data r) (cons c) with
        | (Some _, k) => (interval p, mkConfig (fail p1) s' k)
        | (None, k) => ok (set_version (newVersion r) (emit (Applied (newVersion r)) p1)) k
        end
      else ok p1 (cons c)
  end.

(** The [for] loop: [clock] lists the times at which the timer wins the
    [select]; when it is exhausted the context is done and [Start] returns.
    The result lists the delays that were waited for. *)
Fixpoint loop (clock : list Z) (delay : Z) (c : config) : list Z * config :=
  match clock with
  | [] => ([], c)
  | now :: clock' =>
      let '(delay', c') := round now c in
      let '(ds, c'') := loop clock' delay' c' in
      (delay :: ds, c'')
  end.

(** [(p *Poller[T]) Start(ctx)] *)
Definition Start (clock : list Z) (c : config) : list Z * config := loop clock 0 c.

(** ** Reading the trace *)

(** The version of the last round whose data the consumer accepted. *)
Definition last_applied (v0 : string) (t : list event) : string :=
  fold_left (fun v e => match e with Applied v' => v' | _ => v end) t v0.

(** Did some round fetch and apply cleanly? *)
Definition some_clean (t : list event) : bool :=
  existsb (fun e => match e with LastSync _ => true | _ => false end) t.

Lemma last_applied_snoc v0 t e :
  last_applied v0 (t ++ [e]) =
  match e with Applied v => v | _ => last_applied v0 t end.
Proof. unfold last_applied. by rewrite fold_left_app; destruct e. Qed.

Lemma some_clean_snoc t e :
  some_clean (t ++ [e]) =
  match e with LastSync _ => true | _ => some_clean t end.
Proof. unfold some_clean. rewrite existsb_app. simpl. destruct e; by rewrite ?orb_true_r, ?orb_false_r. Qed.

(** What holds of a poller between two rounds. *)
Record coherent (p : Poller) : Prop := mkCoherent {
  coh_version : version p = last_applied "" (trace p);
  coh_once : once p = some_clean (trace p);
  coh_first : firstSync p = if once p then 1%nat else 0%nat }.

Lemma round_coherent now c :
  coherent (poller c) -> coherent (poller (round now c).2).
Proof.
  intros [Hv Ho Hf]. unfold round. destruct (Fetch _ _) as [r s'].
  unfold fail, mark_first_sync, syncOnce_do.
  destruct (err r); [by destruct (next (bo (poller c))) as [d b]; split; simpl;
    rewrite ?last_applied_snoc, ?some_clean_snoc|].
  destruct (changed r); [destruct (handle (data r) (cons c)) as [[e|] k]|];
    destruct (once (poller c)) eqn:Hon; split; simpl; rewrite ?Hon; simpl;
    rewrite ?last_applied_snoc, ?some_clean_snoc; congruence.
Qed.

Lemma loop_invariant (P : config -> Prop) clock delay c :
  (forall now c, P c -> P (round now c).2) -> P c -> P (loop clock delay c).2.
Proof.
  intros HP. revert delay c. induction clock as [|now clock IH]; intros delay c Hc; [done|].
  simpl. destruct (round now c) as [d' c'] eqn:Hr.
  destruct (loop clock d' c') as [ds c''] eqn:Hl. simpl.
  specialize (IH d' c'). rewrite Hl in IH. apply IH.
  specialize (HP now c Hc). by rewrite Hr in HP.
Qed.

(** A run in which every round sleeps for a delay that is a function [d] of how
    many rounds were run, because an invariant fixes it. *)
Lemma loop_delays (P : nat -> config -> Prop) (d : nat -> Z) clock n c :
  (forall n now c, P n c -> (round now c).1 = d (S n) /\ P (S n) (round now c).2) ->
  P n c ->
  (loop clock (d n) c).1 = d <$> seq n (length clock) /\
  P (n + length clock)%nat (loop clock (d n) c).2.
Proof.
  intros HP. revert n c. induction clock as [|now clock IH]; intros n c Hc; simpl.
  - by rewrite Nat.add_0_r.
  - destruct (HP n now c Hc) as [Hd Hn]. destruct (round now c) as [d' c'] eqn:Hr.
    simpl in Hd, Hn. subst d'. destruct (IH (S n) c' Hn) as [IH1 IH2].
    destruct (loop clock (d (S n)) c') as [ds c''] eqn:Hl. simpl in *.
    split; [by rewrite IH1|]. by rewrite Nat.add_succ_r.
Qed.

(** A source that implements the version-increment protocol, as long as
    [serving] holds of its state: unchanged for its current version [ver], the
    data [d] for any other. *)
Definition version_server (serving : Src -> Prop) (ver : string) (d : T) : Prop :=
  forall v s, serving s ->
    let '(r, s') := Fetch v s in
    serving s' /\ err r = None /\
    if decide (v = ver) then changed r = false
    else changed r = true /\ newVersion r = ver /\ data r = d.

(** Once at the server's version, the loop leaves the consumer alone. *)
Lemma up_to_date_stays serving ver d clock delay c :
  version_server serving ver d -> serving (src c) -> version (poller c) = ver ->
  let c' := (loop clock delay c).2 in
  cons c' = cons c /\ version (poller c') = ver.
Proof.
  intros Hsrv Hs Hv.
  destruct (loop_invariant (fun c' => cons c' = cons c /\ version (poller c') = ver /\ serving (src c'))
    clock delay c) as (? & ? & _); [|done|done].
  intros now c' (Hc & Hv' & Hs'). unfold round. rewrite Hv'. pose proof (Hsrv ver (src c') Hs') as Hf.
  destruct (Fetch _ _) as [r s']. rewrite decide_True in Hf by done. destruct Hf as (? & -> & ->).
  simpl. unfold mark_first_sync. by destruct (syncOnce_do _ _ _).
Qed.

(** Behind it, one accepted round brings it there. *)
Lemma round_catches_up serving ver d now c :
  version_server serving ver d -> serving (src c) ->
  (handle d (cons c)).1 = None -> version (poller c) <> ver ->
  let c1 := (round now c).2 in
  cons c1 = (handle d (cons c)).2 /\ version (poller c1) = ver /\ serving (src c1).
Proof.
  intros Hsrv Hs Hacc Hne. unfold round. pose proof (Hsrv (version (poller c)) (src c) Hs) as Hf.
  destruct (Fetch _ _) as [r s']. rewrite decide_False in Hf by done.
  destruct Hf as (? & -> & -> & -> & ->). simpl.
  destruct (handle d (cons c)) as [[e|] k]; [done|]. unfold mark_first_sync.
  by destruct (syncOnce_do _ _ _).
Qed.

Lemma one_round_catches_up serving ver d now clock c :
  version_server serving ver d -> serving (src c) ->
  (handle d (cons c)).1 = None -> version (poller c) <> ver ->
  let c' := (Start (now :: clock) c).2 in
  cons c' = (handle d (cons c)).2 /\ version (poller c') = ver.
Proof.
  intros Hsrv Hs Hacc Hne. unfold Start. cbn [loop].
  pose proof (round_catches_up serving ver d now c Hsrv Hs Hacc Hne) as Hfirst.
  destruct (round now c) as [dl c1]. destruct Hfirst as (Hc & Hv & Hs1). cbn [snd] in *.
  pose proof (up_to_date_stays serving ver d clock dl c1 Hsrv Hs1 Hv) as [Hc' Hv'].
  destruct (loop clock dl c1) as [ds c2]. cbn [snd] in *. by rewrite Hc', Hc.
Qed.

End Loop.
End Loop.

(** ** Properties *)

Module Spec.
Import Backoff Loop.

Section Spec.
Context {Src Cons T : Type} `{Source Src T} (handle : Handle Cons T).


(** The delay before round [n] while every fetch fails. *)
Definition backoff_delay (n : nat) : Z :=
  match n with O => 0 | S n' => Z.min (2 ^ Z.of_nat n' * Second) (30 * Second) end.

(** C32. While every fetch fails, the loop waits 0 s, 1 s, 2 s, 4 s, ... never
    more than 30 s, and it is fail-static: version, consumer and first-sync
    signal stay as they were. *)
Theorem poller_backoff_fail_static (down : Src -> Prop) clock c :
  (forall v s, down s -> err (Fetch v s).1 <> None /\ down (Fetch v s).2) ->
  down (src c) -> bo (poller c) = mkBackoff 0 0 ->
  let '(delays, c') := Start handle clock c in
  delays = backoff_delay <$> seq 0 (length clock) /\
  cons c' = cons c /\ version (poller c') = version (poller c) /\
  firstSync (poller c') = firstSync (poller c).
Proof.
  intros Hdown Hs Hbo.
  set (P := fun n (c' : @config Src Cons) => down (src c') /\ bo (poller c') = after_failures n (mkBackoff 0 0) /\
    cons c' = cons c /\ version (poller c') = version (poller c) /\
    firstSync (poller c') = firstSync (poller c)).
  assert (Hstep : forall n now c', P n c' ->
    (round handle now c').1 = backoff_delay (S n) /\ P (S n) (round handle now c').2).
  { intros n now c' (Hd & Hb & Hc & Hv & Hf). unfold round.
    destruct (Hdown (version (poller c')) (src c') Hd) as [He Hd'].
    destruct (Fetch _ _) as [r s']. simpl in He, Hd'.
    destruct (err r) as [e|]; [|done]. rewrite Hb.
    pose proof (after_failures_pow n (mkBackoff 0 0) eq_refl) as Hp.
    cbn [after_failures] in Hp. destruct (next _) as [d b'] eqn:Hn. simpl.
    split; [|by unfold P; simpl; rewrite Hn].
    assert (Hd1 : d = current b').
    { revert Hn. unfold next. by case_match; intros [= <- <-]. }
    rewrite Hd1. by apply Hp. }
  destruct (loop_delays handle P backoff_delay clock 0 c Hstep) as [H1 H2]; [done|].
  unfold Start. destruct (loop _ _ _ _) as [ds c']. simpl in *.
  by destruct H2 as (_ & _ & ?).
Qed.

(** A round the consumer rejects never becomes sticky: as long as it
    rejects what it is given, the poller keeps its version, so that the same
    round is fetched again, signals no sync and retries every interval. *)
Theorem poller_rejection_not_sticky (rejects : Src -> Prop) clock c :
  (forall s, rejects s -> let '(r, s') := Fetch (version (poller c)) s in
     err r = None /\ changed r = true /\ rejects s' /\
     forall k, (handle (data r) k).1 <> None) ->
  rejects (src c) ->
  let '(delays, c') := Start handle clock c in
  delays = (fun n => if decide (n = 0%nat) then 0 else interval (poller c)) <$> seq 0 (length clock) /\
  version (poller c') = version (poller c) /\
  firstSync (poller c') = firstSync (poller c).
Proof.
  intros Hrej Hs.
  set (P := fun (_ : nat) (c' : @config Src Cons) => rejects (src c') /\ opts (poller c') = opts (poller c) /\
    version (poller c') = version (poller c) /\
    firstSync (poller c') = firstSync (poller c)).
  assert (Hstep : forall n now c', P n c' ->
    (round handle now c').1 = interval (poller c) /\ P (S n) (round handle now c').2).
  { intros n now c' (Hr & Ho & Hv & Hf). unfold round. rewrite Hv.
    specialize (Hrej _ Hr). destruct (Fetch _ _) as [r s'].
    destruct Hrej as (-> & -> & Hr' & Hh). specialize (Hh (cons c')).
    destruct (handle _ _) as [[e|] k]; [|done]. simpl.
    split; [by unfold interval; rewrite Ho|]. by repeat split. }
  destruct (loop_delays handle P
    (fun n => if decide (n = 0%nat) then 0 else interval (poller c)) clock 0 c) as [H1 H2].
  - intros n now c' Hc'. case_decide; [done|]. by apply Hstep.
  - by repeat split.
  - unfold Start. change 0 with (if decide (0%nat = 0%nat) then 0 else interval (poller c)) at 1.
    destruct (loop _ _ _ _) as [ds c']. simpl in *. by destruct H2 as (_ & _ & ?).
Qed.

(** C31. Against a server that answers the version-increment protocol (unchanged
    for its current version, its data for any other) and a consumer that accepts
    the data, the poller converges in one round: the data is handed over exactly
    once however long it runs, and the server's version is adopted. *)
Theorem poller_converges_exactly_once (serving : Src -> Prop) (ver : string) (d : T) now clock c :
  version_server serving ver d -> serving (src c) ->
  (handle d (cons c)).1 = None -> version (poller c) <> ver ->
  let c' := (Start handle (now :: clock) c).2 in
  cons c' = (handle d (cons c)).2 /\ version (poller c') = ver.
Proof. apply one_round_catches_up. Qed.
End Spec.

(** *** Witnesses *)

(** A source that always fails, one that always changes, and a version server. *)
Definition down_source : Source unit nat :=
  fun _ s => (mkFetch false "" 0%nat (Some (NewError "timeout")), s).
Definition corrupt_source : Source unit nat := fun _ s => (mkFetch true "v9" 7%nat None, s).
Definition version_source : Source unit nat :=
  fun v s => (mkFetch (negb (bool_decide (v = "v1"))) "v1" 7%nat None, s).
Definition count_handle : Handle nat nat := fun d k => (None, (k + d)%nat).
Definition reject_handle : Handle nat nat := fun _ k => (Some (NewError "bad shape"), k).

Lemma poller_backoff_fail_static_witness :
  let '(delays, c') := @Start unit nat nat down_source count_handle
    [0; 0; 0; 0; 0; 0; 0; 0] (mkConfig (New (mkOptions 0 0)) tt 5%nat) in
  delays = [0; Second; 2 * Second; 4 * Second; 8 * Second; 16 * Second; 30 * Second; 30 * Second]
  /\ cons c' = 5%nat.
Proof.
  pose proof (@poller_backoff_fail_static unit nat nat down_source count_handle
    (fun _ => True) [0; 0; 0; 0; 0; 0; 0; 0] (mkConfig (New (mkOptions 0 0)) tt 5%nat)) as Hw.
  destruct (Start _ _ _) as [ds c'] eqn:E. destruct Hw as (Hd & Hk & _).
  - intros v s _. split; [discriminate|exact I].
  - exact I.
  - reflexivity.
  - split; [rewrite Hd; reflexivity|exact Hk].
Defined.

Lemma poller_rejection_not_sticky_witness :
  version (poller (@Start unit nat nat corrupt_source reject_handle [0; 0]
    (mkConfig (New (mkOptions 0 0)) tt 5%nat)).2) = "".
Proof.
  pose proof (@poller_rejection_not_sticky unit nat nat corrupt_source reject_handle
    (fun _ => True) [0; 0] (mkConfig (New (mkOptions 0 0)) tt 5%nat)) as Hw.
  destruct (Start _ _ _) as [ds c']. destruct Hw as (_ & Hv & _).
  - intros s _. repeat split. intros k. discriminate.
  - exact I.
  - exact Hv.
Defined.

Lemma poller_converges_exactly_once_witness :
  let c' := (@Start unit nat nat version_source count_handle [0; 0; 0]
    (mkConfig (New (mkOptions 0 0)) tt 5%nat)).2 in
  cons c' = 12%nat /\ version (poller c') = "v1".
Proof.
  apply (@poller_converges_exactly_once unit nat nat version_source count_handle (fun _ => True)
    "v1" 7%nat 0 [0; 0] (mkConfig (New (mkOptions 0 0)) tt 5%nat)).
  - intros v s _. cbn. case_decide as Hv; [subst v|rewrite bool_decide_eq_false_2 by exact Hv]; repeat split.
  - exact I.
  - reflexivity.
  - discriminate.
Defined.
End Spec.
