(* ===== verification/Lifecycle.v ===== *)
(** * The life of a cell and its engines (pkg/cell/manager.go, pkg/poller/epp_data.go)

    What the sequences of manager calls that the program makes do to engines,
    drain queue and registry: hot swap, failed compilation, drop and teardown,
    demotion followed by promotion, reassignment during a drain, and the metrics
    written on the way. *)

From S2P Require Import Prelude.
From S2P Require Import GoStd.
From S2P Require Import Sha256.
From S2P Require Import Role.
From S2P Require Import Llmd.
From S2P Require Import Cell.
From S2P Require Import Compile.
From S2P Require Import Manager.
From S2P Require Import ManagerFacts.
From S2P Require Import WellFormed.
From S2P Require Import ManagerSpec.
From S2P Require Import InnerApi.
From S2P Require Import EppData.
From S2P Require Import Frame.
From S2P Require Import Poller.
Local Open Scope Z_scope.

(** ** Hot swap *)

Section Swap.
Context {L : LlmdRouter}.

(** A cell that [ApplyConfig] will compile for. *)
Record recompiles (w : World) (k : Key) (raw : string) (c : nat) (o : Cell) : Prop := mkRecompiles {
  rc_reg : registry w !! k = Some c;
  rc_cell : cells w !! c = Some o;
  rc_live : c_state o <> StateDraining;
  rc_new : c_hash o <> Some (HashConfig raw) }.

Lemma fresh_engine w : wf w -> engines w !! next_eng w = None.
Proof.
  intros Hwf. destruct (engines w !! next_eng w) as [x|] eqn:Hx; [|done].
  destruct (wf_engines w Hwf _ _ Hx). lia.
Qed.

Lemma swapped_world_facts c o h en s w :
  cells w !! c = Some o ->
  let w' := swapped_world c o h en s w in
  drainCh w' = drainCh w /\ registry w' = registry w /\
  engines w' = <[next_eng w := mkEngineObj en c false 0]> (engines w) /\
  (forall c', c' <> c -> cells w' !! c' = cells w !! c') /\
  exists o', cells w' !! c = Some o' /\ c_engine o' = Some (next_eng w) /\ c_hash o' = Some h /\
    c_role o' = c_role o /\ c_key o' = c_key o.
Proof.
  intros Ho w'. unfold w', swapped_world, launched. set (o2 := swapped _ _ _ _).
  repeat split.
  - by case_decide.
  - by case_decide.
  - by case_decide.
  - intros c' Hne. case_decide; [rewrite cells_put_ne by done|]; simpl; by rewrite !lookup_insert_ne.
  - case_decide.
    + exists (ready_cell (now w) o2). split; [apply cells_put|].
      unfold ready_cell. by repeat case_match.
    + exists o2. split; [apply lookup_insert_eq|done].
Qed.

(** A compiled configuration repoints its cell, and leaves registry and roles. *)
Lemma ApplyConfig_repoints m k raw w c o old en s :
  wf w -> recompiles w k raw c o -> c_engine o = Some old ->
  m_compile m k raw (mkCompile (c_data o) (scopes w) None) = (Ok en, s) ->
  let w' := exec (ApplyConfig m k raw) w in
  registry w' = registry w /\ exists e o', engines w !! e = None /\ cells w' !! c = Some o' /\
    c_engine o' = Some e /\ c_role o' = c_role o.
Proof.
  intros Hwf [Hr Hc Hs Hh] Hold Hm w'.
  destruct (ApplyConfig_success m k raw c o en s w Hr Hc Hs Hh Hm) as (ms & o3 & _ & Ha).
  destruct (swapped_world_facts c o (HashConfig raw) en s w Hc) as (_ & Hg & _ & _ & o' & Ho' & He' & _ & Hro & _).
  unfold w'. rewrite Ha. cbn [snd]. unfold retired. rewrite Hold. unfold scheduled.
  split; [by case_decide|]. exists (next_eng w), o'.
  split; [by apply fresh_engine|]. by case_decide.
Qed.

(** C28. Hot swap: a configuration that compiles is served by a fresh engine,
    live and with no request in flight, from the moment the pointer is swapped;
    the engine it replaces is queued for draining exactly once and keeps running
    meanwhile, or, when the queue of 64 is full, is canceled on the spot; no
    other engine and no other cell is touched. *)
Theorem ApplyConfig_hot_swap m k raw w c o old en s :
  wf w -> recompiles w k raw c o -> c_engine o = Some old ->
  m_compile m k raw (mkCompile (c_data o) (scopes w) None) = (Ok en, s) ->
  let w' := exec (ApplyConfig m k raw) w in
  exists e o', engines w !! e = None /\ engines w' !! e = Some (mkEngineObj en c false 0) /\
    cells w' !! c = Some o' /\ c_engine o' = Some e /\ c_hash o' = Some (HashConfig raw) /\
    (if decide (length (drainCh w) < drain_capacity)%nat
     then drainCh w' = drainCh w ++ [mkTask c old false] /\ engines w' !! old = engines w !! old
     else drainCh w' = drainCh w /\ engines w' !! old = cancel_obj <$> engines w !! old) /\
    (forall e', e' <> e -> e' <> old -> engines w' !! e' = engines w !! e') /\
    (forall c', c' <> c -> cells w' !! c' = cells w !! c').
Proof.
  intros Hwf [Hr Hc Hs Hh] Hold Hm w'.
  destruct (ApplyConfig_success m k raw c o en s w Hr Hc Hs Hh Hm) as (ms & o3 & _ & Ha).
  destruct (swapped_world_facts c o (HashConfig raw) en s w Hc) as (Hq & _ & He & Hcs & o' & Ho' & He' & Hh' & _).
  pose proof (fresh_engine w Hwf) as Hf.
  assert (Hne : old <> next_eng w).
  { destruct (wf_ptr w Hwf c o old Hc Hold) as (x & Hx & _). congruence. }
  unfold w'. rewrite Ha. cbn [snd]. unfold retired. rewrite Hold. unfold scheduled.
  set (w1 := swapped_world c o (HashConfig raw) en s w) in *. rewrite Hq.
  exists (next_eng w), o'. split; [done|]. case_decide; simpl; rewrite He.
  - split; [apply lookup_insert_eq|]. do 3 (split; [done|]). rewrite Hq, lookup_insert_ne by done.
    split; [done|]. split; [|done]. intros e' H1 H2. by rewrite lookup_insert_ne.
  - rewrite lookup_alter_ne, lookup_insert_eq by done. do 4 (split; [done|]).
    rewrite Hq, lookup_alter_eq, lookup_insert_ne by done. split; [done|]. split; [|done].
    intros e' H1 H2. by rewrite lookup_alter_ne, lookup_insert_ne.
Qed.

(** A configuration that does not compile changes nothing that serves: the
    error is reported, and the engine pointer, role, state, hash and readiness
    of the cell, every engine, the drain queue and the registry stay as they
    were. *)
Theorem ApplyConfig_failure_keeps_serving m k raw w c o er s :
  recompiles w k raw c o ->
  m_compile m k raw (mkCompile (c_data o) (scopes w) None) = (Err er, s) ->
  let '(res, w') := ApplyConfig m k raw w in
  res = (false, Some er) /\ engines w' = engines w /\ drainCh w' = drainCh w /\
  registry w' = registry w /\ waiters w' = waiters w /\ started w' = started w /\
  cells w' !! c = Some (set_data (cs_data s) o) /\
  (forall c', c' <> c -> cells w' !! c' = cells w !! c').
Proof.
  intros [Hr Hc Hs Hh] Hm. rewrite (ApplyConfig_invalid m k raw c o er s w Hr Hc Hs Hh Hm).
  repeat (split; [done|]). split; [apply lookup_insert_eq|].
  intros c' Hne. by apply lookup_insert_ne.
Qed.

End Swap.

(** ** Drains *)

Section Drains.
Context {L : LlmdRouter}.

Lemma drainWorker_turn_run t q w o :
  drainCh w = t :: q -> cells w !! t_cell t = Some o ->
  exists ms, drainWorker_turn w =
    (tt, note ms (drained (t_teardown t) (t_cell t) (t_eng t) o (on_drainCh (fun _ => q) w))).
Proof.
  intros Hq Ho. unfold drainWorker_turn, drain_next.
  erewrite bind_step by (rewrite Hq; reflexivity). cbn beta iota. by apply drain_run.
Qed.

(** A drain worker's turn keeps the world well formed. *)
Lemma wf_drainWorker_turn w : wf w -> wf (exec drainWorker_turn w).
Proof.
  intros Hwf. destruct (drainCh w) as [|t q] eqn:Hq.
  - unfold drainWorker_turn, drain_next. rewrite St_bind_run, Hq. done.
  - destruct (wf_tasks w Hwf t) as [(x & Hx & Hp) _]; [rewrite Hq; left|].
    destruct (wf_engines w Hwf _ _ Hx) as [_ [o Ho]]. rewrite Hp in Ho.
    destruct (drainWorker_turn_run t q w o Hq Ho) as [ms ->].
    apply wf_note, wf_drained; [|done]. apply wf_dequeue; [done|].
    intros t' Hin. rewrite Hq. by right.
Qed.

Lemma ctx_done_canceled w e x : engines w !! e = Some x -> canceled x = true -> ctx_done w e = true.
Proof. intros Hx Hc. unfold ctx_done. by rewrite Hx, Hc. Qed.

Lemma cancel_eng_done e x w :
  engines w !! e = Some x -> cancel (eng x) = true -> ctx_done (cancel_eng e w) e = true.
Proof.
  intros Hx Hc. apply (ctx_done_canceled _ _ (set_canceled x)); [|done].
  simpl. rewrite lookup_alter_eq, Hx. unfold cancel_obj. simpl. by rewrite Hc.
Qed.

(** Dropping a cluster releases everything it held: with an idle queue, the
    drop and the drain worker's next turn take the cluster out of the registry,
    cancel the context of its cell and with it the context of every engine the
    cell ever had. *)
Theorem Drop_releases k w c o :
  wf w -> registry w !! k = Some c -> cells w !! c = Some o -> drainCh w = [] ->
  let w' := exec (Drop k ;; drainWorker_turn) w in
  registry w' = delete k (registry w) /\
  (exists o', cells w' !! c = Some o' /\ c_closed o' = true /\ c_state o' = StateDraining) /\
  drainCh w' = [] /\
  forall e, owned w e c -> ctx_done w' e = true.
Proof.
  intros Hwf Hr Hc Hq w'.
  assert (Hk : c_key o = k) by (destruct (wf_reg w Hwf _ _ Hr) as (o1 & ? & ? & _); by simplify_eq).
  destruct (Drop_run k c o w Hr Hc Hk) as [ms Hd].
  assert (Hend : exists ms' w1, (w1 = put c (dropped o) w \/
      exists e, w1 = cancel_eng e (on_drainCh (fun _ => []) (put c (dropped o) w))) /\
      w' = note ms' (torn c (dropped o) w1)).
  { unfold w'. erewrite bind_step by exact Hd. cbn beta.
    unfold drain_engine. change (c_engine (dropped o)) with (c_engine o). destruct (c_engine o) as [e|].
    - unfold scheduled. change (drainCh (put c (dropped o) w)) with (drainCh w). rewrite Hq.
      rewrite decide_True by (unfold drain_capacity; simpl; lia). set (wq := enqueue _ _).
      destruct (drainWorker_turn_run (mkTask c e true) [] (note ms wq) (dropped o)) as [ms' ->].
      + simpl. by rewrite Hq.
      + apply lookup_insert_eq.
      + exists (ms ++ ms'). eexists. split; [right; by exists e|]. cbn [snd t_teardown t_cell t_eng].
        rewrite <- note_note. reflexivity.
    - unfold drainWorker_turn, drain_next.
      erewrite bind_step by (change (drainCh (note _ _)) with (drainCh w); rewrite Hq; reflexivity).
      by eexists ms, _; split; [left|]. }
  destruct Hend as (ms' & w1 & Hw1 & ->).
  assert (Hreg : registry w1 = registry w) by by destruct Hw1 as [->|[e ->]].
  split; [|split; [|split]].
  - simpl. rewrite Hreg, Hk. by rewrite decide_True.
  - exists (set_closed (dropped o)). split; [apply lookup_insert_eq|done].
  - simpl. by destruct Hw1 as [->|[e ->]].
  - intros e (x & Hx & Hp). unfold ctx_done.
    assert (Hx1 : exists x', engines w1 !! e = Some x' /\ parent x' = c).
    { destruct Hw1 as [->|[e' ->]]; [by exists x|]. apply (owned_cancel (on_drainCh _ _)). by exists x. }
    destruct Hx1 as (x' & Hx1 & Hp1). change (engines (note ms' (torn c (dropped o) w1))) with (engines w1).
    rewrite Hx1, Hp1. change (cells (note ms' ?v)) with (cells v).
    unfold torn, unregister. simpl. rewrite lookup_insert_eq. simpl. by rewrite orb_true_r.
Qed.

(** A stale teardown is harmless: when a drain task outlives the cell it was
    queued for and the cluster has meanwhile been given a new cell, completing
    the task neither unregisters nor closes nor otherwise changes the new one. *)
Theorem stale_teardown_spares_new_cell t w o c :
  wf w -> cells w !! t_cell t = Some o -> registry w !! c_key o = Some c -> c <> t_cell t ->
  let w' := exec (drain t) w in
  registry w' = registry w /\ cells w' !! c = cells w !! c /\
  forall k, view_at w' k = view_at w k.
Proof.
  intros Hwf Ho Hr Hne w'. destruct (drain_run t o w Ho) as [ms Hd].
  assert (Hreg : registry w' = registry w /\ forall c', c' <> t_cell t -> cells w' !! c' = cells w !! c').
  { unfold w'. rewrite Hd. cbn [snd]. unfold drained. destruct (t_teardown t); [|done]. simpl. split.
    - rewrite decide_False by congruence. done.
    - intros c' Hc'. by rewrite lookup_insert_ne. }
  destruct Hreg as [Hreg Hcells]. split; [done|]. split; [by apply Hcells|]. intros k. unfold view_at.
  rewrite Hreg. destruct (registry w !! k) as [c'|] eqn:Hk; [|done]. rewrite Hcells; [done|].
  intros ->. destruct (wf_reg w Hwf _ _ Hk) as (o' & Ho' & Hk' & _). simplify_eq.
Qed.

(** C38. A demotion leaves a canceled engine behind the pointer: after a primary
    cluster was demoted, drained, promoted again and sent the same configuration,
    the manager reports success without compiling, and the cell serves as
    primary with the very engine whose context was canceled by the drain. *)
Theorem promotion_after_demotion_serves_canceled_engine m k raw w c o e x :
  wf w -> registry w !! k = Some c -> cells w !! c = Some o -> c_role o = RolePrimary ->
  c_state o <> StateDraining -> c_engine o = Some e -> engines w !! e = Some x ->
  cancel (eng x) = true -> c_hash o = Some (HashConfig raw) -> drainCh w = [] ->
  let w1 := exec (Ensure m k RoleStandby ;; drainWorker_turn) w in
  let r := (Ensure m k RolePrimary ;; ApplyConfig m k raw) w1 in
  let w2 := r.2 in
  r.1 = (false, None) /\
  exists o', cells w2 !! c = Some o' /\ c_role o' = RolePrimary /\ c_state o' = StatePrimary /\
    c_engine o' = Some e /\ ctx_done w2 e = true.
Proof.
  intros Hwf Hr Hc Hrole Hs He Hx Hcan Hh Hq w1.
  assert (Hsp : c_state o = StatePrimary) by (by apply (ok_role o); [eapply wf_cells|..]).
  destruct (Ensure_known m k c RoleStandby o w Hr Hc) as [ms1 H1].
  assert (Hw1 : exists ms, w1 = note ms (cancel_eng e (on_drainCh (fun _ => []) (put c (demoted o) w)))).
  { unfold w1. erewrite bind_step by exact H1. cbn beta. unfold role_applied. rewrite Hrole.
    rewrite (decide_False (P := RolePrimary = RoleStandby)), (decide_False (P := RolePrimary = RoleNone)),
      (decide_False (P := c_state o = StateDraining)) by done.
    unfold drain_engine. change (c_engine (demoted o)) with (c_engine o). rewrite He. unfold scheduled.
    change (drainCh (put c (demoted o) w)) with (drainCh w). rewrite Hq.
    rewrite decide_True by (unfold drain_capacity; simpl; lia). set (wq := enqueue _ _).
    destruct (drainWorker_turn_run (mkTask c e false) [] (note ms1 wq) (demoted o)) as [ms2 ->].
    - simpl. by rewrite Hq.
    - apply lookup_insert_eq.
    - exists (ms1 ++ ms2). cbn [snd t_teardown t_cell t_eng]. rewrite <- note_note. reflexivity. }
  destruct Hw1 as [ms ->]. set (v := note ms _).
  assert (Hcv : cells v !! c = Some (demoted o)) by apply lookup_insert_eq.
  destruct (Ensure_known m k c RolePrimary (demoted o) v Hr Hcv) as [ms2 H2].
  assert (Hra : role_applied c (demoted o) RolePrimary v = put c (promoted (demoted o)) v).
  { unfold role_applied. rewrite !decide_False; [done| |done].
    unfold demoted. simpl. rewrite Hsp. done. }
  rewrite Hra in H2. cbv zeta. erewrite bind_step by exact H2. cbn beta.
  assert (Hps : c_state (promoted (demoted o)) = StatePrimary).
  { unfold promoted, demoted. simpl. by rewrite Hsp. }
  rewrite (ApplyConfig_unchanged m k raw c (promoted (demoted o))).
  - split; [done|]. exists (promoted (demoted o)). split; [apply lookup_insert_eq|].
    split; [done|]. split; [done|]. split; [exact He|].
    apply (ctx_done_canceled _ _ (cancel_obj x)).
    + change (alter cancel_obj e (engines w) !! e = Some (cancel_obj x)).
      by rewrite lookup_alter_eq, Hx.
    + unfold cancel_obj. by rewrite Hcan.
  - exact Hr.
  - apply lookup_insert_eq.
  - by rewrite Hps.
  - exact Hh.
Qed.

End Drains.

(** ** Snapshots and drains *)

Section Snapshots.
Context {L : LlmdRouter}.

(** A snapshot never loses or reorders a pending drain: whatever it creates,
    switches, drops or recompiles, the tasks already queued stay in front, in
    order, and its own come after them. *)
Theorem Handle_keeps_pending_drains `{MapRange} wt cfg w :
  drainCh w `prefix_of` drainCh (exec (Handle wt cfg) w).
Proof. exact (moves_Handle _ frame_drainCh starts_drainCh wt cfg swap_drainCh w). Qed.

(** The iteration order of Go's maps is unobservable: whatever two orders
    two instances take over the same snapshot, from the same world every cluster
    assigned to them ends in the same entry, and every other cluster is on its
    way out in both. *)
Theorem Handle_order_irrelevant (r1 r2 : MapRange) wt cfg (d : Key -> DataPlane) W k :
  (forall k, m_newCell (manager wt) k = Ok (d k)) -> scope_free (m_compile (manager wt)) -> wf W ->
  let v1 := view_at (exec (@Handle L r1 wt cfg) W) k in
  let v2 := view_at (exec (@Handle L r2 wt cfg) W) k in
  match my_role (instance wt) cfg k with
  | Some _ => v1 = v2
  | None => drop_spec (view_at W k) v1 /\ drop_spec (view_at W k) v2
  end.
Proof.
  intros Hn Hsf Hwf v1 v2.
  pose proof (@Handle_spec L r1 wt cfg d W Hn Hsf Hwf) as H1.
  pose proof (@Handle_spec L r2 wt cfg d W Hn Hsf Hwf) as H2. unfold v1, v2. clear v1 v2.
  destruct (@Handle L r1 wt cfg W) as [e1 W1], (@Handle L r2 wt cfg W) as [e2 W2].
  destruct H1 as (_ & _ & H1), H2 as (_ & _ & H2). specialize (H1 k). specialize (H2 k). cbn [snd].
  unfold handle_spec in *. destruct (my_role (instance wt) cfg k) as [r|]; [|done].
  destruct (EppConfig cfg !! k) as [raw|]; [|congruence].
  by rewrite (H1 (scopes W)), (H2 (scopes W)).
Qed.

(** The consumer the epp_data poller drives. *)
Definition epp_data_handle `{MapRange} (wt : EppDataWatcher) : Loop.Handle World EppDataConfig :=
  fun cfg => Handle wt cfg.

(** C40. A cluster that is given back while its drain is still running is lost:
    the snapshot that assigns it again leaves it draining and reports success,
    so the poller adopts the version; from then on, in whatever world the drain
    ends, no later poll of that version reaches the watcher, and the cluster
    stays out of the registry until the next version. *)
Theorem reassignment_during_drain_is_lost {Src} `{MapRange, Loop.Source Src EppDataConfig}
    wt cfg (d : Key -> DataPlane) k r (serving : Src -> Prop) ver now clock c :
  Loop.version_server serving ver cfg -> serving (Loop.src c) ->
  (forall k, m_newCell (manager wt) k = Ok (d k)) -> scope_free (m_compile (manager wt)) ->
  wf (Loop.cons c) -> view_at (Loop.cons c) k = Draining ->
  my_role (instance wt) cfg k = Some r -> Loop.version (Loop.poller c) <> ver ->
  let c1 := (Loop.round (epp_data_handle wt) now c).2 in
  view_at (Loop.cons c1) k = Draining /\ Loop.version (Loop.poller c1) = ver /\
  forall W2, Loop.cons (Loop.Start (epp_data_handle wt) clock
      (Loop.mkConfig (Loop.poller c1) (Loop.src c1) W2)).2 = W2.
Proof.
  intros Hsrv Hs Hn Hsf Hwf Hv Hr Hne c1.
  pose proof (Handle_spec wt cfg d (Loop.cons c) Hn Hsf Hwf) as Hh.
  assert (Hacc : (epp_data_handle wt cfg (Loop.cons c)).1 = None).
  { unfold epp_data_handle. by destruct (Handle wt cfg (Loop.cons c)), Hh as (? & _). }
  destruct (Loop.round_catches_up (epp_data_handle wt) serving ver cfg now c Hsrv Hs Hacc Hne)
    as (Hc1 & Hv1 & Hs1). fold c1 in Hc1, Hv1, Hs1. split.
  - rewrite Hc1. unfold epp_data_handle. destruct (Handle wt cfg (Loop.cons c)) as [e W1].
    destruct Hh as (_ & _ & Hk). specialize (Hk k). rewrite Hr, Hv in Hk. cbn in Hk.
    destruct (EppConfig cfg !! k); [exact (Hk (scopes (Loop.cons c)))|done].
  - split; [done|]. intros W2.
    by destruct (Loop.up_to_date_stays (epp_data_handle wt) serving ver cfg clock 0
      (Loop.mkConfig (Loop.poller c1) (Loop.src c1) W2) Hsrv Hs1 Hv1).
Qed.

(** Two goroutines that create the same cell at once agree on one: whoever
    publishes second gets the first one's cell back and closes its own, so that
    no data plane leaks and both see the same registry entry. *)
Theorem publish_race k c1 c2 o1 o2 w :
  c1 <> c2 -> registry w !! k = None -> cells w !! c1 = Some o1 -> cells w !! c2 = Some o2 ->
  let '(r1, w1) := publish k c1 w in
  let '(r2, w2) := publish k c2 w1 in
  r1 = c1 /\ r2 = c1 /\ registry w2 = <[k := c1]> (registry w) /\
  c_closed <$> (cells w2 !! c1) = Some (c_closed o1) /\
  c_closed <$> (cells w2 !! c2) = Some true.
Proof.
  intros Hne Hr H1 H2. unfold publish, LoadOrStore, Get.
  step setState_run. erewrite bind_step by (step gets_run; cbn; rewrite Hr; reflexivity). cbn.
  erewrite bind_step; [|apply (setState_run _ _ o2); simpl; by rewrite lookup_insert_ne].
  cbn beta. erewrite bind_step by (step gets_run; cbn; rewrite lookup_insert_eq; reflexivity). cbn.
  erewrite bind_step; [|apply (Close_run _ (set_state StateCreating o2)); apply lookup_insert_eq].
  split; [done|]. split; [done|]. split; [done|]. cbn.
  by rewrite !lookup_insert_ne, lookup_insert_eq, lookup_insert_eq by done.
Qed.
End Snapshots.

(** ** Witnesses

    They continue the example of EppData.v: after the first snapshot, cell 0 is
    the primary ["a"] and cell 1 the standby ["b"]. *)
Module ToyLife.
#[local] Existing Instance ToyLlmd.toy.
#[local] Existing Instance list_range.

Definition some_cell (w : World) (c : nat) : Cell :=
  default (fresh_cell "" (Toy.data0 "")) (cells w !! c).
(** A world in which ["b"] was dropped and its drain is pending. *)
Definition world2 : World := exec (Drop "b") Toy.world1.
(** ... in which the drain has ended and ["b"] was created again, as cell 2. *)
Definition world3 : World :=
  exec (drainWorker_turn ;; _ ← Ensure Toy.mgr "b" RolePrimary; mret tt) world2.

Lemma world2_wf : wf world2.
Proof. apply Drop_spec, Toy.world1_wf. Qed.

Lemma world3_wf : wf world3.
Proof.
  pose proof (wf_drainWorker_turn world2 world2_wf) as Hw.
  unfold world3. rewrite St_bind_run.
  pose proof (Ensure_spec Toy.mgr "b" (Toy.data0 "b") RolePrimary _ Hw eq_refl) as He.
  unfold mbind, St_bind. destruct (Ensure _ _ _ _) as [r w']. by destruct He.
Qed.

(** The server that always holds version ["v2"], in which ["b"] is back. *)
#[local] Instance server : Loop.Source unit EppDataConfig :=
  fun v s => (Loop.mkFetch (negb (bool_decide (v = "v2"%string))) "v2"%string Toy.snapshot None, s).
Lemma server_ok : Loop.version_server (fun _ => True) "v2" Toy.snapshot.
Proof.
  intros v s _. cbn. case_decide as Hv; [subst v|rewrite bool_decide_eq_false_2 by exact Hv]; by repeat split.
Qed.
Definition poller2 : @Loop.config unit World :=
  Loop.mkConfig (Loop.set_version "v1" (Loop.New (Loop.mkOptions 0 0))) tt world2.
End ToyLife.

Lemma ApplyConfig_hot_swap_witness :
  drainCh (L := ToyLlmd.toy) (exec (ApplyConfig Toy.mgr "b" "plain") Toy.world1) = [mkTask 1 1 false].
Proof.
  edestruct (@ApplyConfig_hot_swap ToyLlmd.toy Toy.mgr "b" "plain" Toy.world1 1
    (ToyLife.some_cell Toy.world1 1) 1) as (e & o' & _ & _ & _ & _ & _ & Hq & _).
  - exact Toy.world1_wf.
  - split; [vm_compute; reflexivity..|vm_compute; discriminate|vm_compute; discriminate].
  - vm_compute. reflexivity.
  - vm_compute. reflexivity.
  - exact (proj1 Hq).
Defined.

Lemma ApplyConfig_failure_keeps_serving_witness :
  let '(res, w') := ApplyConfig (L := ToyLlmd.toy) Toy.mgr "b" "bad" Toy.world1 in
  res.1 = false /\ engines w' = engines Toy.world1.
Proof.
  pose proof (@ApplyConfig_failure_keeps_serving ToyLlmd.toy Toy.mgr "b" "bad" Toy.world1 1
    (ToyLife.some_cell Toy.world1 1)) as Hw.
  destruct (ApplyConfig _ _ _ _) as [res w']. edestruct Hw as (Hres & He & _).
  - split; [vm_compute; reflexivity..|vm_compute; discriminate|vm_compute; discriminate].
  - vm_compute. reflexivity.
  - split; [by rewrite Hres|exact He].
Defined.

Lemma Drop_releases_witness :
  ctx_done (L := ToyLlmd.toy) (exec (Drop "b" ;; drainWorker_turn) Toy.world1) 1 = true.
Proof.
  destruct (@Drop_releases ToyLlmd.toy "b" Toy.world1 1 (ToyLife.some_cell Toy.world1 1)) as (_ & _ & _ & Hd).
  - exact Toy.world1_wf.
  - vm_compute. reflexivity.
  - vm_compute. reflexivity.
  - vm_compute. reflexivity.
  - apply Hd. eexists. split; [vm_compute; reflexivity|reflexivity].
Defined.

Lemma stale_teardown_spares_new_cell_witness :
  registry (L := ToyLlmd.toy) (exec (drain (mkTask 1 1 true)) ToyLife.world3) !! "b"%string = Some 2%nat.
Proof.
  destruct (@stale_teardown_spares_new_cell ToyLlmd.toy (mkTask 1 1 true) ToyLife.world3
    (ToyLife.some_cell ToyLife.world3 1) 2) as (Hr & _).
  - exact ToyLife.world3_wf.
  - vm_compute. reflexivity.
  - vm_compute. reflexivity.
  - discriminate.
  - rewrite Hr. vm_compute. reflexivity.
Defined.

Lemma promotion_after_demotion_serves_canceled_engine_witness :
  exists w2 o', cells (L := ToyLlmd.toy) w2 !! 0%nat = Some o' /\ c_role o' = RolePrimary /\
    c_engine o' = Some 0%nat /\ ctx_done w2 0 = true.
Proof.
  refine (let Hw := @promotion_after_demotion_serves_canceled_engine ToyLlmd.toy Toy.mgr "a" "plain"
    Toy.world1 0 (ToyLife.some_cell Toy.world1 0) 0 _ Toy.world1_wf _ _ _ _ _ _ _ _ _ in
    match proj2 Hw with ex_intro _ o' (conj H1 (conj H2 (conj _ (conj H4 H5)))) =>
      ex_intro _ _ (ex_intro _ o' (conj H1 (conj H2 (conj H4 H5)))) end);
    first [vm_compute; reflexivity|vm_compute; discriminate].
Defined.

Lemma Handle_order_irrelevant_witness :
  view_at (L := ToyLlmd.toy) (exec (@Handle ToyLlmd.toy list_range Toy.watcher Toy.snapshot) Toy.world0) "b" =
  view_at (exec (@Handle ToyLlmd.toy reverse_range Toy.watcher Toy.snapshot) Toy.world0) "b".
Proof.
  exact (@Handle_order_irrelevant ToyLlmd.toy list_range reverse_range Toy.watcher Toy.snapshot
    Toy.data0 Toy.world0 "b" Toy.newCell_ok Toy.mgr_scope_free (@wf_empty ToyLlmd.toy 0%nat)).
Defined.

(** The drain of ["b"] ends after the snapshot that gives it back: it is gone,
    and stays gone over three more polls. *)
Lemma reassignment_during_drain_is_lost_witness :
  let h := @epp_data_handle ToyLlmd.toy list_range Toy.watcher in
  let c1 := (@Loop.round _ _ _ ToyLife.server h 1 ToyLife.poller2).2 in
  let W2 := exec (drainWorker_turn (L := ToyLlmd.toy)) (Loop.cons c1) in
  view_at W2 "b" = Absent /\
  Loop.cons (@Loop.Start _ _ _ ToyLife.server h [2; 3; 4]
    (Loop.mkConfig (Loop.poller c1) (Loop.src c1) W2)).2 = W2.
Proof.
  intros h c1 W2. split; [vm_compute; reflexivity|].
  refine (proj2 (proj2 (@reassignment_during_drain_is_lost ToyLlmd.toy unit list_range ToyLife.server
    Toy.watcher Toy.snapshot Toy.data0 "b" RoleStandby (fun _ => True) "v2" 1 [2; 3; 4] ToyLife.poller2
    ToyLife.server_ok I Toy.newCell_ok Toy.mgr_scope_free ToyLife.world2_wf _ _ _)) W2).
  - vm_compute. reflexivity.
  - reflexivity.
  - discriminate.
Defined.

Lemma publish_race_witness :
  let w := exec (new_cell (fresh_cell "z" (Toy.data0 "z")) ;; new_cell (fresh_cell "z" (Toy.data0 "z")))
             Toy.world1 in
  let '(r1, w1) := publish (L := ToyLlmd.toy) "z" 2 w in
  let '(r2, w2) := publish "z" 3 w1 in
  r1 = 2%nat /\ r2 = 2%nat.
Proof.
  pose proof (@publish_race ToyLlmd.toy "z" 2 3 (fresh_cell "z" (Toy.data0 "z"))
    (fresh_cell "z" (Toy.data0 "z")) (exec (new_cell (fresh_cell "z" (Toy.data0 "z")) ;;
      new_cell (fresh_cell "z" (Toy.data0 "z"))) Toy.world1)) as Hw.
  cbv zeta. destruct (publish "z" 2 _) as [r1 w1]. destruct (publish "z" 3 w1) as [r2 w2].
  destruct Hw as (-> & -> & _); [discriminate|vm_compute; reflexivity..|]. split; reflexivity.
Defined.
