(* ===== verification/Sources.v ===== *)
(** * The sources of the pollers (pkg/poller/epp_data.go, discovery.go, local_source.go)

    The two sources that ask the API and the two that read local files, as
    instances of the poller's [Source]; the documents the API publishes; and
    what a polling loop makes of them, from the bytes of a response to the cells
    and to the endpoint hub. *)

From S2P Require Import Prelude.
From S2P Require Import GoStd.
From S2P Require Import Llmd.
From S2P Require Import Json.
From S2P Require Import InnerApi.
From S2P Require Import Hub.
From S2P Require Import Discovery.
From S2P Require Import ClusterTable.
From S2P Require Import Poller.
From Stdlib Require Import Ascii String.
Import Api.
Local Open Scope string_scope.
Local Open Scope Z_scope.
#[local] Arguments String.append !_ _ /.

(** ** Decoding the cluster table *)

Definition dec_BackendConf : decoder BackendConf := dec_struct [
  ("Name", field bName (fun v b => mkBackend v (Addr b) (bPort b) (Weight b)) dec_string);
  ("Addr", field Addr (fun v b => mkBackend (bName b) v (bPort b) (Weight b)) dec_string);
  ("Port", field bPort (fun v b => mkBackend (bName b) (Addr b) v (Weight b)) dec_int);
  ("Weight", field Weight (fun v b => mkBackend (bName b) (Addr b) (bPort b) v) dec_int) ].
Definition dec_ClusterTableConfig : decoder ClusterTableConfig :=
  dec_map ∅ (dec_map [] (dec_slice (mkBackend "" "" 0 0) dec_BackendConf)).

(** ** The sources *)

Definition EppDataConfigPath : string := "/configs/epp_data/config".
Definition ClusterTablePath : string := "/configs/gslb_data/cluster_table".
Definition zero_EppDataConfig : EppDataConfig := mkEppData ∅ ∅.

(** [(w *EppDataWatcher) Fetch(ctx, version)] *)
Definition EppDataWatcher_Fetch {Net} `{HTTP Net} (client : Client) : Loop.Source Net EppDataConfig :=
  fun version =>
    g ← Get client EppDataConfigPath version (Some dec_EppDataConfig) zero_EppDataConfig;
    mret match err g with
    | Some e => Loop.mkFetch (changed g) (newVersion g) zero_EppDataConfig (Some e)
    | None =>
        if negb (changed g) then Loop.mkFetch false (newVersion g) zero_EppDataConfig None
        else Loop.mkFetch true (newVersion g) (out g) None
    end.

(** [(d *ClusterDiscovery) Fetch(ctx, version)] *)
Definition ClusterDiscovery_Fetch {Net} `{HTTP Net, MapRange} (client : Client) :
    Loop.Source Net (gmap string (list EndpointMetadata)) :=
  fun version =>
    g ← Get client ClusterTablePath version (Some dec_ClusterTableConfig) ∅;
    mret match err g with
    | Some e => Loop.mkFetch (changed g) (newVersion g) ∅ (Some e)
    | None =>
        if negb (changed g) then Loop.mkFetch false (newVersion g) ∅ None
        else Loop.mkFetch true (newVersion g) (ConvertClusterTableToEndpoints (out g)) None
    end.

(** [os.ReadFile] *)
Class FileSystem (FS : Type) := ReadFile : string -> St FS (result error string).

(** [NewLocalFileSource[T](dir, filename)] and its [Fetch]; a file that cannot be read or decoded is an error; any other
    is a change without a version. *)
Record LocalFileSource := mkLocal { path : string }.
Definition NewLocalFileSource (dir filename : string) : LocalFileSource := mkLocal (Join dir filename).

Definition LocalFileSource_Fetch {FS T} `{FileSystem FS} (dec : decoder T) (zero : T) (s : LocalFileSource) :
    Loop.Source FS T :=
  fun _ =>
    f ← ReadFile (path s);
    mret match f with
    | Err e => Loop.mkFetch false "" zero (Some (Errorf ("local source read " ++ path s) e))
    | Ok data =>
        match Unmarshal dec zero data with
        | (v, Some e) => Loop.mkFetch false "" v (Some (Errorf ("local source decode " ++ path s) e))
        | (v, None) => Loop.mkFetch true "" v None
        end
    end.

(** [NewLocalClusterTableSource(dir, filename)] and its [Fetch]: the cluster table
    as a file. *)
Record localClusterTableSource := mkLocalTable { table_path : string }.
Definition NewLocalClusterTableSource (dir filename : string) : localClusterTableSource :=
  mkLocalTable (Join dir filename).

Definition localClusterTableSource_Fetch {FS} `{FileSystem FS, MapRange} (s : localClusterTableSource) :
    Loop.Source FS (gmap string (list EndpointMetadata)) :=
  fun _ =>
    f ← ReadFile (table_path s);
    mret match f with
    | Err e => Loop.mkFetch false "" ∅ (Some (Errorf ("local source read " ++ table_path s) e))
    | Ok data =>
        match Unmarshal dec_ClusterTableConfig ∅ data with
        | (_, Some e) => Loop.mkFetch false "" ∅ (Some (Errorf ("local source decode " ++ table_path s) e))
        | (t, None) => Loop.mkFetch true "" (ConvertClusterTableToEndpoints t) None
        end
    end.

(** ** The documents *)

Section Documents.
Context `{MapRange}.

Definition id_doc (o : option string) : json := match o with Some s => mkString s | None => JNull end.
Definition entry_doc (e : AssignmentEntry) : json :=
  mkObject [("primary", id_doc (Primary e)); ("standby", id_doc (Standby e))].
(** An epp_data snapshot: a JSON configuration per cluster, and the assignments. *)
Definition epp_data_doc (conf : gmap string json) (asg : gmap string AssignmentEntry) : json :=
  mkObject [("epp_config", encode_map id conf); ("assignment", encode_map entry_doc asg)].

Definition backend_doc (b : BackendConf) : json :=
  mkObject [("Name", mkString (bName b)); ("Addr", mkString (Addr b));
            ("Port", mkInt (bPort b)); ("Weight", mkInt (Weight b))].
Definition cluster_table_doc (t : ClusterTableConfig) : json :=
  encode_map (encode_map (fun bs => mkArray (backend_doc <$> bs))) t.

(** What the texts require: UTF-8 strings and 64-bit numbers. *)
Definition valid_id (o : option string) : Prop := match o with Some s => Valid s | None => True end.
Definition valid_entry (e : AssignmentEntry) : Prop := valid_id (Primary e) /\ valid_id (Standby e).
Definition int64_range (z : Z) : Prop := - 2 ^ 63 <= z < 2 ^ 63.
Definition valid_backend (b : BackendConf) : Prop :=
  Valid (bName b) /\ Valid (Addr b) /\ int64_range (bPort b) /\ int64_range (Weight b).
Definition valid_table (t : ClusterTableConfig) : Prop :=
  valid_keys t /\ map_Forall (fun _ subs => valid_keys subs /\ map_Forall (fun _ bs => Forall valid_backend bs) subs) t.

(** A snapshot whose configurations nest at most [d] deep, a depth that the
    decoder accepts three levels further in. *)
Definition epp_data_ok (d : nat) (conf : gmap string json) (asg : gmap string AssignmentEntry) : Prop :=
  valid_keys conf /\ map_Forall (fun _ j => compact d j) conf /\
  valid_keys asg /\ map_Forall (fun _ e => valid_entry e) asg /\ (1 <= d)%nat /\ depth_ok (S (S (S (S d)))).

Lemma dec_entry_doc e : dec_AssignmentEntry (mkEntry None None) (entry_doc e) = (e, true).
Proof. by destruct e as [[] []]. Qed.

Lemma dec_epp_data_doc conf asg :
  dec_EppDataConfig zero_EppDataConfig (epp_data_doc conf asg) = (mkEppData (raw <$> conf) asg, true).
Proof.
  assert (H1 : dec_map "" dec_raw ∅ (encode_map id conf) = (raw <$> conf, true)).
  { by apply (dec_map_encode "" dec_raw id raw conf). }
  assert (H2 : dec_map (mkEntry None None) dec_AssignmentEntry ∅ (encode_map entry_doc asg) = (asg, true)).
  { apply dec_map_same. intros k e _. apply dec_entry_doc. }
  unfold dec_EppDataConfig, epp_data_doc, mkObject, dec_struct, field, zero_EppDataConfig.
  cbn -[dec_map encode_map dec_raw dec_AssignmentEntry]. by rewrite H1; cbn -[dec_map encode_map dec_AssignmentEntry]; rewrite H2.
Qed.

Lemma dec_backend_doc b : int64_range (bPort b) -> int64_range (Weight b) ->
  dec_BackendConf (mkBackend "" "" 0 0) (backend_doc b) = (b, true).
Proof.
  intros Hp Hw. unfold dec_BackendConf, backend_doc, mkObject, dec_struct, mkInt, field, dec_int.
  cbn -[ParseInt Itoa]. rewrite !ParseInt_Itoa by done. by destruct b.
Qed.

Lemma dec_cluster_table_doc t : valid_table t ->
  dec_ClusterTableConfig ∅ (cluster_table_doc t) = (t, true).
Proof.
  intros [_ Ht]. unfold dec_ClusterTableConfig, cluster_table_doc.
  apply dec_map_same. intros cluster subs Hs. destruct (Ht cluster subs Hs) as [_ Hb].
  apply dec_map_same. intros sub bs Hbs. apply dec_slice_same.
  eapply Forall_impl; [exact (Hb sub bs Hbs)|]. intros b (_ & _ & ? & ?). by apply dec_backend_doc.
Qed.

Lemma compact_epp_data_doc d conf asg :
  valid_keys conf -> map_Forall (fun _ j => compact d j) conf ->
  valid_keys asg -> map_Forall (fun _ e => valid_entry e) asg -> (1 <= d)%nat ->
  compact (S (S d)) (epp_data_doc conf asg).
Proof.
  intros Hk Hc Hk' He Hd. apply compact_object. repeat constructor.
  - by apply compact_encode_map.
  - apply compact_encode_map; [done|]. intros k e Hin. destruct (He k e Hin) as [H1 H2].
    destruct d as [|d]; [lia|]. apply compact_object.
    assert (Hid : forall o, valid_id o -> compact d (id_doc o)).
    { intros [s|]; [apply compact_string|by destruct d]. }
    repeat constructor; by apply Hid.
Qed.

Lemma compact_cluster_table_doc t : valid_table t -> compact 4 (cluster_table_doc t).
Proof.
  intros [Hk Ht]. apply compact_encode_map; [done|]. intros cluster subs Hs.
  destruct (Ht cluster subs Hs) as [Hks Hb]. apply compact_encode_map; [done|]. intros sub bs Hbs.
  apply compact_array, Forall_fmap. eapply Forall_impl; [apply (Hb sub bs Hbs)|].
  intros b (H1 & H2 & _). apply compact_object. members.
Qed.
End Documents.

(** A payload whose [Config] is null is not refused: it decodes into the empty
    snapshot, which is reported as a change, although it assigns no cluster to
    anyone. *)
Theorem null_config_is_an_empty_snapshot client ver r msg wm {Net} `{HTTP Net} n n' version :
  arrives r (raw (envelope_doc 200 msg (versioned_doc ver JNull) wm)) -> StatusCode r = 200 ->
  Valid msg -> Valid wm -> Valid ver ->
  parse_url (request_url client EppDataConfigPath version) = None ->
  Do (hc_Timeout client) (setAuth client (mkRequest (request_url client EppDataConfigPath version) ∅)) n = (Ok r, n') ->
  EppDataWatcher_Fetch client version n = (Loop.mkFetch true ver zero_EppDataConfig None, n').
Proof.
  intros Ha Hs Hm Hw Hv Hp Hd. unfold EppDataWatcher_Fetch, Get. rewrite Hp, !St_bind_run, Hd.
  pose proof (get_response_answer EppDataConfigPath version dec_EppDataConfig zero_EppDataConfig r 200 msg
    (News ver JNull) wm 0 Ha ltac:(by split) Hm Hw (conj Hv I) ltac:(by vm_compute)) as Hg.
  cbv zeta in Hg. rewrite decide_False in Hg by lia. cbn in Hg. cbn. by rewrite Hg.
Qed.
