(* ===== verification/Typing.v ===== *)
(** * What decoded documents look like, whatever bytes arrive

    The typing of the JSON decoder: whatever text a server or a file holds, every
    string and key the decoder hands out is valid UTF-8 and every integer fits
    its 64 bits.  Decoders are typed by a class whose instances follow the
    combinators of Json.v, so the types of the two documents are found by
    instance search. *)

From S2P Require Import Prelude.
From S2P Require Import GoStd.
From S2P Require Import Llmd.
From S2P Require Import Json.
From S2P Require Import InnerApi.
From S2P Require Import Hub.
From S2P Require Import Discovery.
From S2P Require Import ClusterTable.
From S2P Require Import Poller.
From S2P Require Import Sources.
From Stdlib Require Import Ascii String.
Import Api.
Local Open Scope string_scope.
Local Open Scope Z_scope.
#[local] Arguments String.append !_ _ /.

(** ** Resolved string literals are UTF-8 *)

Lemma code_byte z : 0 <= z < 256 -> code (byte z) = z.
Proof. intros Hz. unfold code, byte. rewrite N_ascii_embedding by lia. lia. Qed.

Lemma Valid_ascii a s : (code a <? 128) = true -> Valid (String a s) = Valid s.
Proof. intros Ha. cbn [Valid]. by rewrite Ha. Qed.
Lemma Valid_2 a b s : utf8_2 a b = true -> Valid (String a (String b s)) = Valid s.
Proof.
  intros H. cbn [Valid]. rewrite H. destruct (code a <? 128) eqn:Ha; [|done].
  unfold utf8_2, between in H. lia.
Qed.
Lemma Valid_3 a b c s : utf8_3 a b c = true -> Valid (String a (String b (String c s))) = Valid s.
Proof.
  intros H. cbn [Valid]. rewrite H. destruct (code a <? 128) eqn:Ha; [unfold utf8_3, between in H; lia|].
  destruct (utf8_2 a b) eqn:H2; [|done]. unfold utf8_2, utf8_3, between in *. lia.
Qed.
Lemma Valid_4 a b c d s : utf8_4 a b c d = true ->
  Valid (String a (String b (String c (String d s)))) = Valid s.
Proof.
  intros H. cbn [Valid]. rewrite H. destruct (code a <? 128) eqn:Ha; [unfold utf8_4, between in H; lia|].
  destruct (utf8_2 a b) eqn:H2; [unfold utf8_2, utf8_4, between in *; lia|].
  destruct (utf8_3 a b c) eqn:H3; [unfold utf8_3, utf8_4, between in *; lia|done].
Qed.

(** A Unicode scalar value is encoded in UTF-8. *)
Lemma Valid_rune r s : 0 <= r < 1114112 -> is_surrogate r = false -> Valid (encode_rune r ++ s) = Valid s.
Proof.
  unfold is_surrogate. intros Hr Hs. unfold encode_rune.
  destruct (r <? 128) eqn:H1; [cbn; by rewrite code_byte, H1 by lia|].
  destruct (r <? 2048) eqn:H2.
  { apply Valid_2. unfold utf8_2, cont, between. rewrite !code_byte; Z.div_mod_to_equations; lia. }
  destruct (r <? 65536) eqn:H3.
  { apply Valid_3. unfold utf8_3, cont, between. rewrite !code_byte; Z.div_mod_to_equations; lia. }
  apply Valid_4. unfold utf8_4, cont, between. rewrite !code_byte; Z.div_mod_to_equations; lia.
Qed.

Lemma unhex_range c z : unhex c = Some z -> 0 <= z < 16.
Proof. unfold unhex, is_digit, between. intros H. repeat case_match; simplify_eq; lia. Qed.
Lemma hex4_range a b c d r : hex4 a b c d = Some r -> 0 <= r < 65536.
Proof.
  unfold hex4. intros H.
  destruct (unhex a) eqn:Ha; [|done]. destruct (unhex b) eqn:Hb; [|done].
  destruct (unhex c) eqn:Hc; [|done]. destruct (unhex d) eqn:Hd; [|done]. cbn in H. simplify_eq.
  apply unhex_range in Ha, Hb, Hc, Hd. lia.
Qed.
Lemma escape_of_ascii e b : escape_of e = Some b -> (code b <? 128) = true.
Proof. every_byte e; intros H; vm_compute in H; by simplify_eq. Qed.

(** One step of [unquote]: it emits whole characters, and has less left. *)
Definition whole (t : string) : Prop := forall u, Valid (t ++ u) = Valid u.
Definition steps_to (s : string) : Prop := unquote s = "" \/
  exists t s', (String.length s' < String.length s)%nat /\ whole t /\ unquote s = t ++ unquote s'.

Lemma emit s t s' : (String.length s' < String.length s)%nat -> whole t -> unquote s = t ++ unquote s' -> steps_to s.
Proof. intros Hl Ht Hs. right. by exists t, s'. Qed.
Lemma whole_rune r : 0 <= r < 1114112 -> is_surrogate r = false -> whole (encode_rune r).
Proof. intros Hr Hs u. by apply Valid_rune. Qed.
Lemma whole_replacement : whole replacement.
Proof. by apply whole_rune. Qed.

(** After a surrogate escape. *)
Definition low_half (r : Z) (s2 : string) : string :=
  match s2 with
  | String "\" (String "u" (String l1 (String l2 (String l3 (String l4 s3))))) =>
      match hex4 l1 l2 l3 l4 with
      | Some r2 =>
          if is_high r && is_low r2
          then encode_rune ((r - 55296) * 1024 + (r2 - 56320) + 65536) ++ unquote s3
          else replacement ++ unquote s2
      | None => replacement ++ unquote s2
      end
  | _ => replacement ++ unquote s2
  end.

Lemma low_half_cases r s2 : low_half r s2 = replacement ++ unquote s2 \/
  exists l1 l2 l3 l4 s3 r2, s2 = String "\" (String "u" (String l1 (String l2 (String l3 (String l4 s3))))) /\
    is_high r && is_low r2 = true /\
    low_half r s2 = encode_rune ((r - 55296) * 1024 + (r2 - 56320) + 65536) ++ unquote s3.
Proof.
  destruct s2 as [|b s2]; [by left|]. destruct (ascii_dec b "\") as [->|Hb].
  2:{ left. revert Hb. every_byte b; done. }
  destruct s2 as [|u s2]; [by left|]. destruct (ascii_dec u "u") as [->|Hu].
  2:{ left. revert Hu. every_byte u; done. }
  destruct s2 as [|l1 [|l2 [|l3 [|l4 s3]]]]; try by left.
  cbn [low_half]. destruct (hex4 l1 l2 l3 l4) as [r2|]; [|by left].
  destruct (is_high r && is_low r2) eqn:Hr; [|by left]. right. by exists l1, l2, l3, l4, s3, r2.
Qed.

Lemma unquote_u h1 h2 h3 h4 s2 : unquote (String "\" (String "u" (String h1 (String h2 (String h3 (String h4 s2)))))) =
  match hex4 h1 h2 h3 h4 with
  | None => ""
  | Some r => if is_surrogate r then low_half r s2 else encode_rune r ++ unquote s2
  end.
Proof. reflexivity. Qed.

Lemma unquote_letter e s2 : e <> "u"%char -> unquote (String "\" (String e s2)) =
  match escape_of e with Some b => String b (unquote s2) | None => "" end.
Proof. every_byte e; done. Qed.

Lemma escape_steps s1 : steps_to (String "\" s1).
Proof.
  destruct s1 as [|e s2]; [by left|]. destruct (ascii_dec e "u") as [->|He].
  2:{ unfold steps_to. rewrite unquote_letter by done. destruct (escape_of e) as [b|] eqn:Hb; [right|by left].
      exists (single b), s2. split; [simpl; lia|]. split; [|done].
      intros u. apply Valid_ascii. by eapply escape_of_ascii. }
  destruct s2 as [|h1 [|h2 [|h3 [|h4 s2]]]]; try by left.
  unfold steps_to. rewrite unquote_u. destruct (hex4 h1 h2 h3 h4) as [r|] eqn:Hr; [right|by left].
  apply hex4_range in Hr. destruct (is_surrogate r) eqn:Hs.
  - destruct (low_half_cases r s2) as [->|(l1 & l2 & l3 & l4 & s3 & r2 & -> & Hp & ->)].
    + exists replacement, s2. split; [simpl; lia|]. split; [apply whole_replacement|done].
    + eexists _, s3. split; [simpl; lia|]. split; [|done]. unfold is_high, is_low in Hp.
      apply whole_rune; [lia|unfold is_surrogate; lia].
  - exists (encode_rune r), s2. split; [simpl; lia|]. split; [by apply whole_rune; [lia|]|done].
Qed.

Lemma unquote_steps s : steps_to s.
Proof.
  destruct s as [|a s1]; [by left|].
  destruct (ascii_dec a "\") as [->|Ha]; [apply escape_steps|].
  apply Ascii.eqb_neq in Ha.
  destruct (code a <? 128) eqn:H1.
  { apply (emit _ (single a) s1); [simpl; lia|intros u; by apply Valid_ascii|cbn [unquote]; by rewrite Ha, H1]. }
  assert (Hbad : unquote (String a s1) = replacement ++ unquote s1 -> steps_to (String a s1)).
  { intros Hu. apply (emit _ replacement s1); [simpl; lia|apply whole_replacement|done]. }
  destruct s1 as [|b s2]; [apply Hbad; cbn [unquote]; by rewrite Ha, H1|].
  destruct (utf8_2 a b) eqn:H2.
  { apply (emit _ (String a (single b)) s2); [simpl; lia|intros u; by apply Valid_2|].
    cbn [unquote]. by rewrite Ha, H1, H2. }
  destruct s2 as [|c s3]; [apply Hbad; cbn [unquote]; by rewrite Ha, H1, H2|].
  destruct (utf8_3 a b c) eqn:H3.
  { apply (emit _ (String a (String b (single c))) s3); [simpl; lia|intros u; by apply Valid_3|].
    cbn [unquote]. by rewrite Ha, H1, H2, H3. }
  destruct s3 as [|d s4]; [apply Hbad; cbn [unquote]; by rewrite Ha, H1, H2, H3|].
  destruct (utf8_4 a b c d) eqn:H4.
  { apply (emit _ (String a (String b (String c (single d)))) s4); [simpl; lia|intros u; by apply Valid_4|].
    cbn [unquote]. by rewrite Ha, H1, H2, H3, H4. }
  apply Hbad. cbn [unquote]. by rewrite Ha, H1, H2, H3, H4.
Qed.

Lemma unquote_valid s : Valid (unquote s) = true.
Proof.
  remember (String.length s) as n eqn:Hn. revert s Hn. induction (lt_wf n) as [n _ IH]. intros s ->.
  destruct (unquote_steps s) as [->|(t & s' & Hl & Ht & ->)]; [done|]. rewrite (Ht (unquote s')). by apply (IH _ Hl).
Qed.

(** Concatenations and pieces of UTF-8 texts. *)
Lemma Valid_whole s : Valid s = true -> whole s.
Proof.
  remember (String.length s) as n eqn:Hn. revert s Hn. induction (lt_wf n) as [n _ IH]. intros s -> Hv u.
  destruct s as [|a s1]; [done|]. cbn [Valid String.append] in *.
  destruct (code a <? 128); [apply (IH (String.length s1)); [simpl; lia|done..]|].
  destruct s1 as [|b s2]; [done|]. cbn [String.append].
  destruct (utf8_2 a b); [apply (IH (String.length s2)); [simpl; lia|done..]|].
  destruct s2 as [|c s3]; [done|]. cbn [String.append].
  destruct (utf8_3 a b c); [apply (IH (String.length s3)); [simpl; lia|done..]|].
  destruct s3 as [|d s4]; [done|]. cbn [String.append]. apply andb_true_iff in Hv as [-> Hv].
  apply (IH (String.length s4)); [simpl; lia|done..].
Qed.

Lemma ascii_not_cont c : (code c <? 128) = true -> cont c = false.
Proof. unfold cont, between. lia. Qed.

Lemma Valid_drop_last s c : (code c <? 128) = true -> Valid (s ++ single c) = true -> Valid s = true.
Proof.
  intros Hc. remember (String.length s) as n eqn:Hn. revert s Hn.
  induction (lt_wf n) as [n _ IH]. intros s -> Hv.
  destruct s as [|a s1]; [done|]. cbn [Valid String.append] in *.
  destruct (code a <? 128); [apply (IH (String.length s1)); [simpl; lia|done..]|].
  pose proof (ascii_not_cont c Hc) as Hn.
  destruct s1 as [|b s2]; cbn in Hv; [unfold utf8_2 in Hv; by rewrite Hn, andb_false_r in Hv|].
  destruct (utf8_2 a b); [apply (IH (String.length s2)); [simpl; lia|done..]|].
  destruct s2 as [|c' s3]; cbn in Hv; [unfold utf8_3 in Hv; by rewrite Hn, andb_false_r in Hv|].
  destruct (utf8_3 a b c'); [apply (IH (String.length s3)); [simpl; lia|done..]|].
  destruct s3 as [|d s4]; cbn in Hv.
  { unfold utf8_4 in Hv. by rewrite Hn, andb_false_r in Hv. }
  apply andb_true_iff in Hv as [-> Hv]. apply (IH (String.length s4)); [simpl; lia|done..].
Qed.

Lemma num_step_ascii n c n' : num_step n c = Some n' -> (code c <? 128) = true.
Proof.
  unfold num_step, is_digit, is_e, between. intros H.
  repeat case_match; simplify_eq; try lia; by every_byte c.
Qed.
Lemma num_run_valid s n n' : num_run s n = Some n' -> Valid s = true.
Proof.
  revert n. induction s as [|c s IH]; intros n H; [done|]. cbn [num_run] in H.
  destruct (num_step n c) as [n1|] eqn:Hs; [|done]. cbn in H.
  rewrite Valid_ascii by (by eapply num_step_ascii). by eapply IH.
Qed.
(** ** Parsed values *)

(** Every string and key of a value is UTF-8. *)
Fixpoint utf8 (j : json) : bool :=
  match j with
  | JString _ s => Valid s
  | JArray _ vs => forallb utf8 vs
  | JObject _ ms => forallb (fun kv => Valid kv.1 && utf8 kv.2) ms
  | _ => true
  end.

(** ... and of what the scanner holds. *)
Definition frame_utf8 (f : frame) : bool :=
  match f with
  | InArray _ vs => forallb utf8 vs
  | InObject _ ms k => forallb (fun kv => Valid kv.1 && utf8 kv.2) ms && Valid k
  end.
Definition mode_utf8 (m : mode) : bool :=
  match m with InLiteral _ j | EndTop j => utf8 j | _ => true end.
Definition state_utf8 (s : state) : bool := forallb frame_utf8 (stack s) && mode_utf8 (at_mode s).

Lemma utf8_write t stk : forallb frame_utf8 (write t stk) = forallb frame_utf8 stk.
Proof. by destruct stk as [|[] stk]. Qed.

Lemma utf8_push f m stk s : frame_utf8 f = true -> mode_utf8 m = true -> forallb frame_utf8 stk = true ->
  push f m stk = Some s -> state_utf8 s = true.
Proof. unfold push. intros Hf Hm Hs H. case_match; simplify_eq. unfold state_utf8. simpl. by rewrite Hf, Hs, Hm. Qed.

Lemma utf8_deliver j stk : utf8 j = true -> forallb frame_utf8 stk = true -> state_utf8 (deliver j stk) = true.
Proof.
  intros Hj Hs. unfold state_utf8. destruct stk as [|[x vs|x ms k] stk]; simpl in *.
  - done.
  - apply andb_true_iff in Hs as [Hv Hs]. rewrite forallb_app. simpl. by rewrite Hj, Hv, Hs.
  - apply andb_true_iff in Hs as [[Hv Hk]%andb_true_iff Hs]. rewrite forallb_app. simpl. by rewrite Hj, Hv, Hk, Hs.
Qed.

Lemma utf8_begin_value c stk s : forallb frame_utf8 stk = true -> begin_value c stk = Some s -> state_utf8 s = true.
Proof.
  intros Hs. unfold begin_value. intros H. unfold state_utf8.
  repeat case_match; simplify_eq; simpl; rewrite ?utf8_write, ?Hs; try done; by eapply utf8_push in H.
Qed.

Lemma utf8_end_value c s s' : state_utf8 s = true -> end_value c s = Some s' -> state_utf8 s' = true.
Proof.
  unfold end_value. intros Hs H. unfold state_utf8 in Hs. apply andb_true_iff in Hs as [Hs Hm].
  destruct (stack s) as [|[x vs|x ms k] stk] eqn:Hst; simpl in Hs.
  - case_match; simplify_eq. unfold state_utf8. by rewrite Hst, Hm.
  - apply andb_true_iff in Hs as [Hv Hs]. repeat case_match; simplify_eq; [..|by apply utf8_deliver];
      unfold state_utf8; simpl; by rewrite Hv, Hs.
  - apply andb_true_iff in Hs as [Hv Hs]. repeat case_match; simplify_eq; [..|apply utf8_deliver; [by apply andb_true_iff in Hv as [Hv _]|done]];
      unfold state_utf8; simpl; by rewrite Hv, Hs.
Qed.

Lemma utf8_step c s s' : state_utf8 s = true -> step c s = Some s' -> state_utf8 s' = true.
Proof.
  intros Hs H. pose proof Hs as Hs'. unfold state_utf8 in Hs'. apply andb_true_iff in Hs' as [Hk Hm].
  assert (Hgo : forall m, mode_utf8 m = true -> state_utf8 (mkState (stack s) m) = true).
  { intros m Hm'. unfold state_utf8. simpl. by rewrite Hk, Hm'. }
  assert (Hwr : forall t m, mode_utf8 m = true -> state_utf8 (mkState (write t (stack s)) m) = true).
  { intros t m Hm'. unfold state_utf8. simpl. by rewrite utf8_write, Hk, Hm'. }
  unfold step in H. destruct (at_mode s) as [| | | |key t|key t|key t n|n t|todo j| | |j].
  - by eapply utf8_begin_value.
  - repeat case_match; simplify_eq; eauto using utf8_begin_value, utf8_end_value.
  - unfold begin_string in H. repeat case_match; simplify_eq; eauto using utf8_end_value.
  - unfold begin_string in H. repeat case_match; simplify_eq; eauto.
  - case_match; [|repeat case_match; simplify_eq; eauto]. unfold end_string in H. destruct key; simplify_eq.
    + destruct (stack s) as [|[x vs|x ms k] stk]; simplify_eq. unfold state_utf8. simpl in *.
      apply andb_true_iff in Hk as [[Hv _]%andb_true_iff Hk]. by rewrite Hv, Hk, unquote_valid.
    + apply utf8_deliver; [|done]. apply unquote_valid.
  - repeat case_match; simplify_eq; eauto.
  - repeat case_match; simplify_eq; eauto.
  - repeat case_match; simplify_eq; eauto. eapply utf8_end_value, H. by apply utf8_deliver.
  - repeat case_match; simplify_eq; eauto using utf8_deliver.
  - repeat case_match; simplify_eq; eauto.
  - by eapply utf8_end_value.
  - by eapply utf8_end_value.
Qed.

Lemma utf8_run t s s' : state_utf8 s = true -> run t s = Some s' -> state_utf8 s' = true.
Proof.
  revert s. induction t as [|c t IH]; intros s Hs H; simpl in H; [by simplify_eq|].
  destruct (step c s) as [s1|] eqn:Hc; [|done]. simpl in H. eapply IH, H. by eapply utf8_step.
Qed.

Lemma parse_utf8 text j : parse text = Some j -> utf8 j = true.
Proof.
  unfold parse. intros H. destruct (run _ _) as [s|] eqn:Hr; [|done]. simpl in H.
  apply utf8_run in Hr; [|done]. unfold state_utf8 in Hr. apply andb_true_iff in Hr as [_ Hm].
  destruct (at_mode s); simplify_eq. exact Hm.
Qed.

(** ** Typed decoders *)

(** From a value of the type, any JSON value leads to one, mismatches included. *)
Class Typed {T} (P : T -> Prop) (dec : decoder T) : Prop :=
  typed : forall cur j, P cur -> utf8 j = true -> P (dec cur j).1.

Definition valid_string (s : string) : Prop := Valid s = true.
Definition any_text (s : string) : Prop := True.
Definition option_of {T} (P : T -> Prop) (o : option T) : Prop := match o with Some v => P v | None => True end.
Definition map_of {T} (P : T -> Prop) (m : gmap string T) : Prop := map_Forall (fun k v => valid_string k /\ P v) m.

#[export] Instance typed_string : Typed valid_string dec_string.
Proof. intros cur [] Hc Hj; done. Qed.
#[export] Instance typed_raw : Typed any_text dec_raw.
Proof. done. Qed.

Lemma ParseInt_range l z : ParseInt l = Some z -> int64_range z.
Proof. unfold ParseInt, int64_range. intros H. repeat case_match; simplify_eq; lia. Qed.
#[export] Instance typed_int : Typed int64_range dec_int.
Proof.
  intros cur [] Hc Hj; try done. simpl. destruct (ParseInt _) eqn:Hp; [by eapply ParseInt_range|done].
Qed.

(** Zero values belong to their types. *)
Class Zero {T} (P : T -> Prop) (v : T) : Prop := zero_typed : P v.
#[export] Instance zero_string : Zero valid_string "".
Proof. reflexivity. Qed.
#[export] Instance zero_text s : Zero any_text s.
Proof. done. Qed.
#[export] Instance zero_int : Zero int64_range 0.
Proof. split; [discriminate|reflexivity]. Qed.
#[export] Instance zero_pointer {T} (P : T -> Prop) : Zero (option_of P) None.
Proof. done. Qed.
#[export] Instance zero_map {T} (P : T -> Prop) : Zero (map_of P) ∅.
Proof. apply map_Forall_empty. Qed.
#[export] Instance zero_slice {T} (P : T -> Prop) : Zero (Forall P) [].
Proof. constructor. Qed.

#[export] Instance typed_pointer {T} (P : T -> Prop) zero dec :
  Zero P zero -> Typed P dec -> Typed (option_of P) (dec_pointer zero dec).
Proof.
  intros Hz Hd cur j Hc Hj.
  assert (Hb : P (dec (default zero cur) j).1) by (apply Hd; [by destruct cur|done]).
  unfold dec_pointer. destruct j; try done; by destruct (dec _ _) as [v ok].
Qed.

#[export] Instance typed_map {T} (P : T -> Prop) zero dec :
  Zero P zero -> Typed P dec -> Typed (map_of P) (dec_map zero dec).
Proof.
  intros Hz Hd cur j Hc Hj. destruct j as [| | | | |text ms]; simpl; try done.
  simpl in Hj. apply Is_true_true, forallb_True in Hj. revert cur Hc. generalize true as ok.
  induction Hj as [|[k v] ms [Hk Hv]%andb_prop_elim Hj IH]; intros ok cur Hc; simpl in *; [done|].
  apply Is_true_true in Hk, Hv.
  destruct (dec zero v) as [x ok'] eqn:Hx. apply IH. apply map_Forall_insert_2; [|done].
  split; [done|]. change x with (x, ok').1. rewrite <- Hx. by apply Hd.
Qed.

#[export] Instance typed_slice {T} (P : T -> Prop) zero dec :
  Zero P zero -> Typed P dec -> Typed (Forall P) (dec_slice zero dec).
Proof.
  intros Hz Hd cur j Hc Hj. destruct j as [| | | |text vs|]; simpl; try done.
  simpl in Hj. revert cur Hc Hj. induction vs as [|v vs IH]; intros cur Hc Hj; simpl in *; [constructor|].
  apply andb_true_iff in Hj as [Hv Hj].
  assert (Hx : P (dec (default zero (head cur)) v).1) by (apply Hd; [by destruct Hc|done]).
  destruct (dec _ v) as [x ok]. specialize (IH (tail cur)).
  destruct (dec_elements zero dec (tail cur) vs) as [l ok']. constructor; [exact Hx|].
  apply IH; [by destruct Hc|done].
Qed.

Lemma find_field_typed {A} (Q : A -> Prop) p (fields : list (string * A)) a :
  Forall (fun f => Q f.2) fields -> find_field p fields = Some a -> Q a.
Proof. induction 1 as [|[n b] fs Hb _ IH]; simpl; [done|]. case_match; [by intros [= <-]|done]. Qed.

Lemma typed_struct {T} (P : T -> Prop) (fields : list (string * decoder T)) :
  Forall (fun f => Typed P f.2) fields -> Typed P (dec_struct fields).
Proof.
  intros Hf cur j Hc Hj. destruct j as [| | | | |text ms]; simpl; try done.
  simpl in Hj. apply Is_true_true, forallb_True in Hj. revert cur Hc. generalize true as ok.
  induction Hj as [|[k v] ms [Hk Hv]%andb_prop_elim Hj IH]; intros ok cur Hc; simpl in *; [done|].
  apply Is_true_true in Hk, Hv.
  destruct (field_of fields k) as [dec|] eqn:Hd; [|by apply IH].
  assert (Hx : P (dec cur v).1).
  { assert (Ht : Typed P dec); [|by apply Ht]. unfold field_of in Hd.
    destruct (find_field (String.eqb k) fields) eqn:H1; simplify_eq; by eapply (find_field_typed (Typed P)). }
  destruct (dec cur v) as [x ok']. by apply IH.
Qed.

Lemma typed_field {T F} (P : T -> Prop) (Q : F -> Prop) get set dec :
  Typed Q dec -> (forall cur, P cur -> Q (get cur)) -> (forall v cur, Q v -> P cur -> P (set v cur)) ->
  Typed P (field get set dec).
Proof.
  intros Hd Hg Hs cur j Hc Hj. unfold field. pose proof (Hd (get cur) j (Hg cur Hc) Hj) as Hv.
  destruct (dec (get cur) j) as [v ok]. by apply Hs.
Qed.

(** A struct whose type is the conjunction of those of its fields. *)
Ltac typed_fields :=
  apply typed_struct; repeat (apply Forall_cons; split); [..|by apply Forall_nil];
  (eapply typed_field; [apply _|..];
    [intros [] Hc; hnf in Hc; destruct_and?; done
    |intros ? [] ? Hc; hnf in Hc; destruct_and?; hnf; split_and?; done]).

(** ** The documents *)

Definition entry_typed (e : AssignmentEntry) : Prop :=
  option_of valid_string (Primary e) /\ option_of valid_string (Standby e).
Definition epp_data_typed (c : EppDataConfig) : Prop :=
  map_of any_text (EppConfig c) /\ map_of entry_typed (Assignment c).
Definition backend_typed (b : BackendConf) : Prop :=
  valid_string (bName b) /\ valid_string (Addr b) /\ int64_range (bPort b) /\ int64_range (Weight b).
Definition table_typed : ClusterTableConfig -> Prop := map_of (map_of (Forall backend_typed)).

#[export] Instance typed_entry : Typed entry_typed dec_AssignmentEntry.
Proof. typed_fields. Qed.
#[export] Instance zero_entry : Zero entry_typed (mkEntry None None).
Proof. done. Qed.
#[export] Instance typed_epp_data : Typed epp_data_typed dec_EppDataConfig.
Proof. typed_fields. Qed.
#[export] Instance zero_epp_data : Zero epp_data_typed zero_EppDataConfig.
Proof. split; apply zero_map. Qed.
#[export] Instance typed_backend : Typed backend_typed dec_BackendConf.
Proof. typed_fields. Qed.
#[export] Instance zero_backend : Zero backend_typed (mkBackend "" "" 0 0).
Proof. split_and!; first [apply zero_string|apply zero_int]. Qed.
#[export] Instance typed_table : Typed table_typed dec_ClusterTableConfig.
Proof. unfold table_typed, dec_ClusterTableConfig. apply _. Qed.

(** [Unmarshal] and [Get]: whatever arrives, and however they end. *)
Lemma Unmarshal_typed {T} (P : T -> Prop) dec cur data : Typed P dec -> P cur -> P (Unmarshal dec cur data).1.
Proof.
  intros Hd Hc. unfold Unmarshal. destruct (parse data) as [j|] eqn:Hp; [|done].
  pose proof (Hd cur j Hc (parse_utf8 _ _ Hp)) as Hv. by destruct (dec cur j).
Qed.

Lemma get_response_typed {T} (P : T -> Prop) path version dec cur r :
  Typed P dec -> P cur -> P (out (get_response path version (Some dec) cur r)).
Proof.
  intros Hd Hc. unfold get_response, get_payload.
  destruct (ReadAll max_body r) as [b [e|]]; [done|]. case_match; [done|].
  destruct (Unmarshal dec_envelope _ b) as [env [e|]]; [done|]. do 2 (case_match; [done|]).
  destruct (Unmarshal dec_payload _ _) as [p [e|]]; [done|].
  pose proof (Unmarshal_typed P dec cur (Config p) Hd Hc) as Hv.
  by destruct (Unmarshal dec cur (Config p)) as [v [e|]].
Qed.

Lemma Get_typed {Net T} `{HTTP Net} (P : T -> Prop) (c : Client) path version dec cur n :
  Typed P dec -> P cur -> P (out (Get c path version (Some dec) cur n).1).
Proof.
  intros Hd Hc. unfold Get. destruct (parse_url _); [done|]. rewrite St_bind_run.
  destruct (Do _ _ n) as [[r|e] n2]; [by apply (get_response_typed P path version dec cur r)|done].
Qed.

(** ** From the table to the endpoints *)

Definition endpoint_typed (cluster : string) (e : EndpointMetadata) : Prop :=
  Namespace (ID e) = cluster /\ valid_string (Name (ID e)) /\ valid_string (EpName e) /\
  valid_string (Address e) /\ valid_string (MetricsHost e) /\
  exists p, int64_range p /\ Port e = Itoa p.


Lemma valid_Itoa z : valid_string (Itoa z).
Proof.
  pose proof (Itoa_literal z) as Hl. unfold number_literal in Hl. destruct (Itoa z) as [|c s]; [done|].
  unfold valid_string. destruct (num_start c) as [n|] eqn:Hs; [|done]. cbn in Hl.
  destruct (num_run s n) as [n'|] eqn:Hr; [|done].
  rewrite Valid_ascii; [by eapply num_run_valid|]. unfold num_start, between in Hs.
  repeat case_match; simplify_eq; try lia; by every_byte c.
Qed.

Lemma valid_join host port : valid_string host -> valid_string port -> valid_string (JoinHostPort host port).
Proof.
  unfold valid_string, JoinHostPort. intros Hh Hp. case_match.
  - change (Valid (String "[" (host ++ String "]" (String ":" port))) = true).
    rewrite Valid_ascii, (Valid_whole host Hh), !Valid_ascii by reflexivity. done.
  - rewrite (Valid_whole host Hh). change (Valid (String ":" port) = true). by rewrite Valid_ascii.
Qed.

Lemma string_snoc s : s <> "" -> exists t c, s = t ++ single c.
Proof.
  induction s as [|a s IH]; [done|]. intros _. destruct s as [|b s]; [by exists "", a|].
  destruct IH as (t & c & ->); [done|]. by exists (String a t), c.
Qed.

Lemma valid_unwrap addr : valid_string addr -> valid_string (unwrapIPv6 addr).
Proof.
  intros Hv. unfold unwrapIPv6. case_match eqn:Hb; [|done].
  apply andb_true_iff in Hb as [[Hn H0]%andb_true_iff H1].
  destruct addr as [|a s]; [done|]. apply Ascii.eqb_eq in H0. cbn in H0. subst a.
  destruct (string_snoc s) as (t & c & ->); [by intros ->|].
  assert (Hc : c = "]"%char).
  { change (String "[" (t ++ single c)) with (String "[" t ++ single c) in H1. rewrite string_length_app in H1.
    replace (String.length (String "[" t) + String.length (single c) - 1)%nat
      with (String.length (String "[" t)) in H1 by (simpl; lia).
    unfold single in H1. rewrite byte_at_last in H1. by apply Ascii.eqb_eq in H1. }
  subst c. assert (Hw : unwrapIPv6 ("[" ++ t ++ "]") = t).
  { apply unwrapIPv6_wrapped. by intros ->. }
  unfold unwrapIPv6 in Hw. change ("[" ++ t ++ "]") with (String "[" (t ++ single "]")) in Hw.
  rewrite Hn, H1, andb_true_r in Hw. change (Ascii.eqb (byte_at (String "[" _) 0) "[") with true in Hw. cbn [andb] in Hw.
  rewrite Hw. unfold valid_string in *. rewrite Valid_ascii in Hv by done. by apply (Valid_drop_last t "]").
Qed.

Lemma endpoint_of_typed cluster b : backend_typed b -> endpoint_typed cluster (endpoint_of cluster b).
Proof.
  intros (Hn & Ha & Hp & _). pose proof (valid_unwrap _ Ha) as Hu. pose proof (valid_Itoa (bPort b)) as Hi.
  split_and!; [done| |done|done|by apply valid_join|by exists (bPort b)].
  simpl. unfold backendID. case_decide; [done|by apply valid_join].
Qed.

Definition endpoints_typed (eps : gmap string (list EndpointMetadata)) : Prop :=
  map_Forall (fun cluster l => valid_string cluster /\ Forall (endpoint_typed cluster) l) eps.

Lemma convert_typed `{MapRange} t : table_typed t -> endpoints_typed (ConvertClusterTableToEndpoints t).
Proof.
  intros Ht cluster l Hl. unfold ConvertClusterTableToEndpoints in Hl. rewrite insert_fold, map_lookup_imap in Hl.
  unfold ClusterTableConfig in *. destruct (t !! cluster) as [subs|] eqn:Hs; [|done]. simpl in Hl. simplify_eq.
  destruct (Ht cluster subs Hs) as [Hk Hsub]. split; [done|]. apply Forall_forall. intros e He.
  apply convert_cluster_elem in He as (sub & bs & b & Hb & Hin & _ & ->).
  destruct (Hsub sub bs Hb) as [_ Hbs]. rewrite Forall_forall in Hbs. by apply endpoint_of_typed, Hbs.
Qed.

Lemma endpoints_typed_empty : endpoints_typed ∅.
Proof. apply map_Forall_empty. Qed.

(** The four [Fetch] methods, one by one. *)
Section Fetches.
Context {Net FS : Type} `{HTTP Net, FileSystem FS, MapRange}.

Lemma EppDataWatcher_Fetch_typed client version (n : Net) :
  epp_data_typed (Loop.data (EppDataWatcher_Fetch client version n).1).
Proof.
  unfold EppDataWatcher_Fetch. rewrite St_bind_run.
  pose proof (Get_typed epp_data_typed client EppDataConfigPath version _ zero_EppDataConfig n typed_epp_data zero_epp_data) as Hg.
  destruct (Get _ _ _ _ _ n) as [[ch ver [e|] v] n']; [apply zero_epp_data|]. simpl in *.
  destruct ch; [done|apply zero_epp_data].
Qed.

Lemma ClusterDiscovery_Fetch_typed client version (n : Net) :
  endpoints_typed (Loop.data (ClusterDiscovery_Fetch client version n).1).
Proof.
  unfold ClusterDiscovery_Fetch. rewrite St_bind_run.
  pose proof (Get_typed table_typed client ClusterTablePath version _ ∅ n typed_table (map_Forall_empty _)) as Hg.
  destruct (Get _ _ _ _ _ n) as [[ch ver [e|] v] n']; [apply endpoints_typed_empty|]. simpl in *.
  destruct ch; [by apply convert_typed|apply endpoints_typed_empty].
Qed.

Lemma LocalFileSource_Fetch_typed file version (fs : FS) :
  epp_data_typed (Loop.data (LocalFileSource_Fetch dec_EppDataConfig zero_EppDataConfig file version fs).1).
Proof.
  unfold LocalFileSource_Fetch. rewrite St_bind_run. destruct (ReadFile _ fs) as [[text|e] fs']; [|apply zero_epp_data].
  pose proof (Unmarshal_typed epp_data_typed _ zero_EppDataConfig text typed_epp_data zero_epp_data) as Hu.
  cbn. by destruct (Unmarshal _ _ text) as [v [e|]].
Qed.

Lemma localClusterTableSource_Fetch_typed file version (fs : FS) :
  endpoints_typed (Loop.data (localClusterTableSource_Fetch file version fs).1).
Proof.
  unfold localClusterTableSource_Fetch. rewrite St_bind_run.
  destruct (ReadFile _ fs) as [[text|e] fs']; [|apply endpoints_typed_empty].
  pose proof (Unmarshal_typed table_typed _ ∅ text typed_table (map_Forall_empty _)) as Hu.
  cbn. destruct (Unmarshal _ _ text) as [v [e|]]; [apply endpoints_typed_empty|by apply convert_typed].
Qed.
End Fetches.

(** C24. Type safety of the inputs: whatever bytes the API answers or a local file
    holds, malformed UTF-8 and out-of-range numbers included, and whether the
    fetch succeeds or fails, the snapshot a source hands to its poller is well
    typed: every cluster name, instance id, address and label in it is valid
    UTF-8 and every port and weight an int64. *)
Theorem sources_typed {Net FS} `{HTTP Net, FileSystem FS, MapRange} client file table_file version (n : Net) (fs : FS) :
  epp_data_typed (Loop.data (EppDataWatcher_Fetch client version n).1) /\
  endpoints_typed (Loop.data (ClusterDiscovery_Fetch client version n).1) /\
  epp_data_typed (Loop.data (LocalFileSource_Fetch dec_EppDataConfig zero_EppDataConfig file version fs).1) /\
  endpoints_typed (Loop.data (localClusterTableSource_Fetch table_file version fs).1).
Proof.
  split_and!; [apply EppDataWatcher_Fetch_typed|apply ClusterDiscovery_Fetch_typed|
    apply LocalFileSource_Fetch_typed|apply localClusterTableSource_Fetch_typed].
Qed.
