(* ===== verification/System.v ===== *)
(** * The running system: manager calls, drain workers, waiters and requests

    A transition system in which the manager's methods (called by the epp_data
    goroutine), the drain workers, the goroutines that wait for discovery and the
    request streams take turns.  Request streams move by the single atomic
    actions of [Process] and [Track]; a drain is split into its cancellation, its
    wait and its completion.  A method of the manager, [markReady] and a teardown
    are one step each; Races.v takes [markReady] apart. *)

From S2P Require Import Prelude.
From S2P Require Import GoStd.
From S2P Require Import Sha256.
From S2P Require Import Role.
From S2P Require Import Llmd.
From S2P Require Import Cell.
From S2P Require Import Compile.
From S2P Require Import Manager.
From S2P Require Import ManagerFacts.
From S2P Require Import WellFormed.
From S2P Require Import ManagerSpec.
From S2P Require Import InnerApi.
From S2P Require Import EppData.
From S2P Require Import Frame.
From S2P Require Import Poller.
From S2P Require Import Lifecycle.
Local Open Scope Z_scope.

Section System.
Context {L : LlmdRouter}.

(** Where a stream of cell [c] stands with engine [e]: the pointer was loaded
    ([eng := c.Engine()]); [e.wg.Add(1)] ran; the re-check succeeded, so the
    request is being served; it failed, so [e.wg.Done()] is due; over. *)
Inductive stream :=
| Loaded (c e : nat)
| Added (c e : nat)
| Accepted (c e : nat)
| Rejected (c e : nat)
| Finished.

(** [s_busy] are the tasks drain workers are waiting for; [quiesced] the engines
    whose drain saw the counter at zero, [retired] those among them that were not
    the current engine of their cell at that moment. *)
Record sys := mkSys {
  W : World; streams : list stream; s_busy : list drainTask;
  quiesced : list nat; retired_clean : list nat }.

Definition set_W w s := mkSys w (streams s) (s_busy s) (quiesced s) (retired_clean s).
Definition set_stream i x s :=
  mkSys (W s) (<[i := x]> (streams s)) (s_busy s) (quiesced s) (retired_clean s).

(** The streams that hold a count on [e]. *)
Definition holds (e : nat) (x : stream) : bool :=
  match x with
  | Added _ e' | Accepted _ e' | Rejected _ e' => bool_decide (e' = e)
  | _ => false
  end.
Definition in_flight (e : nat) (l : list stream) : Z := Z.of_nat (length (filter (fun x => holds e x = true) l)).

(** The manager's drain worker limit. *)
Context (m : Manager).
Definition workers : Z := DrainWorkers (m_opts m).

(** A drain worker's observation at the end of the wait: the counter is zero. *)
Definition drained_dry (w : World) (e : nat) : bool :=
  bool_decide (from_option wg 0 (engines w !! e) = 0).
Definition is_retired (w : World) (t : drainTask) : bool :=
  negb (bool_decide (from_option c_engine None (cells w !! t_cell t) = Some (t_eng t))).

(** What runs besides the epp_data goroutine. *)
Inductive background : sys -> sys -> Prop :=
(* a drain worker takes a task, sees the counter at zero, or times out *)
| st_take t w s :
    drain_next (W s) = (Some t, w) -> Z.of_nat (length (s_busy s)) < workers ->
    background s (mkSys (exec (drain_begin t) w) (streams s) (s_busy s ++ [t]) (quiesced s) (retired_clean s))
| st_dry i t s :
    s_busy s !! i = Some t -> drained_dry (W s) (t_eng t) = true ->
    background s (mkSys (exec (drain_end t) (W s)) (streams s) (delete i (s_busy s)) (t_eng t :: quiesced s)
      (if is_retired (W s) t then t_eng t :: retired_clean s else retired_clean s))
| st_timeout i t s :
    s_busy s !! i = Some t ->
    background s (mkSys (exec (drain_end t) (W s)) (streams s) (delete i (s_busy s)) (quiesced s) (retired_clean s))
(* a waiter of [Engine.start], a discovery plugin, the clock *)
| st_waiter i x p r w s :
    waiters (W s) !! i = Some x -> waiter_step p x (W s) = (r, w) ->
    background s (set_W (on_waiters (fun l => match r with Some y => <[i := y]> l | None => delete i l end) w) s)
| st_ready e i s : background s (set_W (on_readies (fun r => {[(e, i)]} ∪ r) (W s)) s)
| st_tick t s : background s (set_W (set_now t (W s)) s)
(* a stream *)
| st_load c e s :
    (Cell_Engine c (W s)).1 = Some e ->
    background s (mkSys (W s) (streams s ++ [Loaded c e]) (s_busy s) (quiesced s) (retired_clean s))
| st_add i c e s :
    streams s !! i = Some (Loaded c e) ->
    background s (set_stream i (Added c e) (set_W (exec (wg_Add e) (W s)) s))
| st_check i c e s :
    streams s !! i = Some (Added c e) ->
    background s (set_stream i (if (is_current c e (W s)).1 then Accepted c e else Rejected c e) s)
| st_done i c e s :
    streams s !! i = Some (Accepted c e) \/ streams s !! i = Some (Rejected c e) ->
    background s (set_stream i Finished (set_W (exec (wg_Done e) (W s)) s)).

(** The epp_data goroutine calls the manager's methods and sets its gauge. *)
Inductive step : sys -> sys -> Prop :=
| st_Ensure k r s : step s (set_W (exec (Ensure m k r) (W s)) s)
| st_Drop k s : step s (set_W (exec (Drop k) (W s)) s)
| st_ApplyConfig k raw s : step s (set_W (exec (ApplyConfig m k raw) (W s)) s)
| st_metric x s : step s (set_W (exec (metric x) (W s)) s)
| st_background s s' : background s s' -> step s s'.

Definition init (sc : Scopes) : sys := mkSys (empty_world sc) [] [] [] [].

(** ** Counting *)

Lemma in_flight_app e l l' : in_flight e (l ++ l') = in_flight e l + in_flight e l'.
Proof. unfold in_flight. rewrite filter_app, length_app. lia. Qed.

Lemma in_flight_insert e l i x y :
  l !! i = Some x ->
  in_flight e (<[i := y]> l) =
  in_flight e l - (if holds e x then 1 else 0) + (if holds e y then 1 else 0).
Proof.
  intros Hi. rewrite insert_take_drop by (by eapply lookup_lt_Some).
  rewrite <- (take_drop_middle l i x Hi) at 3. rewrite !in_flight_app.
  assert (Hc : forall z r, in_flight e (z :: r) = (if holds e z then 1 else 0) + in_flight e r).
  { intros z r. unfold in_flight. rewrite filter_cons. destruct (holds e z) eqn:Hz.
    - rewrite decide_True by done. simpl length. lia.
    - rewrite decide_False by done. lia. }
  rewrite !Hc. lia.
Qed.

Lemma in_flight_pos e l x : x ∈ l -> holds e x = true -> 0 < in_flight e l.
Proof.
  intros Hx Hh. unfold in_flight. assert (Hf : x ∈ filter (fun x => holds e x = true) l)
    by by apply list_elem_of_filter.
  destruct (filter _ l); [by apply not_elem_of_nil in Hf|]. simpl. lia.
Qed.

(** ** Frames: what the manager's methods keep *)

(** Every engine keeps its counter and new ones start at zero; every cell keeps
    its engine pointer. *)
Definition counters (w w' : World) : Prop :=
  (forall e, is_Some (engines w !! e) -> (e < next_eng w)%nat) ->
  (forall e, is_Some (engines w' !! e) -> (e < next_eng w')%nat) /\
  (next_eng w <= next_eng w')%nat /\
  (forall e x, engines w !! e = Some x -> exists x', engines w' !! e = Some x' /\
     wg x' = wg x /\ parent x' = parent x) /\
  (forall e x', engines w' !! e = Some x' -> engines w !! e = None -> wg x' = 0).
Definition pointers (w w' : World) : Prop :=
  (forall c, is_Some (cells w !! c) -> (c < next_cell w)%nat) ->
  (forall c, is_Some (cells w' !! c) -> (c < next_cell w')%nat) /\
  (forall c o', cells w' !! c = Some o' ->
     c_engine o' = None \/ exists o, cells w !! c = Some o /\ c_engine o' = c_engine o).

Lemma counters_id w w' : engines w' = engines w -> next_eng w' = next_eng w -> counters w w'.
Proof. unfold counters. intros -> ->. intros Hb. split; [done|]. split; [done|]. split; naive_solver. Qed.

Lemma frame_counters : frame counters.
Proof.
  split; try (intros; by apply counters_id).
  - intros w1 w2 w3 H12 H23 Hb. destruct (H12 Hb) as (Hb2 & Hn2 & Hk2 & Hz2).
    destruct (H23 Hb2) as (Hb3 & Hn3 & Hk3 & Hz3). split; [done|]. split; [lia|]. split.
    + intros e x Hx. destruct (Hk2 e x Hx) as (x2 & Hx2 & <- & <-). by apply Hk3.
    + intros e x' Hx' Hno. destruct (engines w2 !! e) as [x2|] eqn:Hx2; [|by apply (Hz3 e)].
      destruct (Hk3 e x2 Hx2) as (x3 & Hx3 & Hw & _). simplify_eq. rewrite Hw. by apply (Hz2 e).
  - intros e w Hb. simpl.
    assert (Hl : forall e', engines (cancel_eng e w) !! e' =
      (if decide (e' = e) then cancel_obj <$> engines w !! e' else engines w !! e')).
    { intros e'. simpl. case_decide; [subst; by rewrite lookup_alter_eq|by rewrite lookup_alter_ne]. }
    split; [|split; [done|]; split].
    + intros e' Hs. apply Hb. change (alter _ _ _) with (engines (cancel_eng e w)) in Hs.
      rewrite Hl in Hs. case_decide; [by rewrite fmap_is_Some in Hs|done].
    + intros e' x Hx. change (alter _ _ _) with (engines (cancel_eng e w)). rewrite Hl, Hx.
      case_decide; [|by exists x]. exists (cancel_obj x). split; [done|].
      unfold cancel_obj. by destruct (cancel (eng x)).
    + intros e' x'. change (alter _ _ _) with (engines (cancel_eng e w)). rewrite Hl.
      intros Hx' Hno. rewrite Hno in Hx'. by case_decide.
  - intros x w Hx Hb. simpl. split; [|split; [lia|]; split].
    + intros e [y Hy]. apply lookup_insert_Some in Hy as [[<- _]|[_ Hy]]; [lia|].
      specialize (Hb e ltac:(by eexists)). lia.
    + intros e y Hy. exists y. split; [|done]. rewrite lookup_insert_ne; [done|].
      specialize (Hb e ltac:(by eexists)). lia.
    + intros e y Hy Hno. apply lookup_insert_Some in Hy as [[_ <-]|[_ Hy]]; [done|congruence].
Qed.

Lemma starts_counters : starts counters.
Proof. split; intros; by apply counters_id. Qed.
Lemma swap_counters : allows_swap counters.
Proof. intros e c w. by apply counters_id. Qed.

Lemma pointers_id w w' : cells w' = cells w -> next_cell w' = next_cell w -> pointers w w'.
Proof. unfold pointers. intros -> ->. intros Hb. split; [done|]. naive_solver. Qed.

Lemma pointers_alter f c w : (forall o, c_engine (f o) = c_engine o) -> pointers w (on_cells (alter f c) w).
Proof.
  intros Hf Hb. simpl. split.
  - intros c' [o Ho]. apply Hb. apply lookup_alter_Some in Ho as [(_ & o' & -> & _)|[_ ->]]; by eexists.
  - intros c' o' Ho'. right. apply lookup_alter_Some in Ho' as [(-> & o & Ho & ->)|[_ Ho]]; [|by exists o'].
    exists o. by rewrite Hf.
Qed.

Lemma frame_pointers : frame pointers.
Proof.
  split; try (intros; by apply pointers_id).
  - intros w1 w2 w3 H12 H23 Hb. destruct (H12 Hb) as (Hb2 & Hk2). destruct (H23 Hb2) as (Hb3 & Hk3).
    split; [done|]. intros c o3 Ho3. destruct (Hk3 c o3 Ho3) as [?|(o2 & Ho2 & ->)]; [by left|].
    destruct (Hk2 c o2 Ho2) as [?|(o1 & Ho1 & ->)]; [by left|]. right. by exists o1.
  - intros f c w [Hf _ _]. by apply pointers_alter.
  - intros o w Ho _ Hb. simpl. split.
    + intros c [o' Ho']. apply lookup_insert_Some in Ho' as [[<- _]|[_ Ho']]; [lia|].
      specialize (Hb c ltac:(by eexists)). lia.
    + intros c o' Ho'. apply lookup_insert_Some in Ho' as [[_ <-]|[_ Ho']]; [by left|right; by exists o'].
Qed.
Lemma starts_pointers : starts pointers.
Proof. split; intros; [by apply pointers_id..|by apply pointers_alter]. Qed.

(** What any manager method, drain or waiter does, seen by the streams. *)
Record evolves (w w' : World) : Prop := mkEvolves {
  ev_wf : wf w';
  ev_kept : forall e x, engines w !! e = Some x ->
    exists x', engines w' !! e = Some x' /\ wg x' = wg x /\ parent x' = parent x;
  ev_new : forall e x', engines w' !! e = Some x' -> engines w !! e = None -> wg x' = 0;
  ev_ptr : forall c o' e, cells w' !! c = Some o' -> c_engine o' = Some e ->
    (exists o, cells w !! c = Some o /\ c_engine o = Some e) \/ engines w !! e = None;
  ev_ages : ages w w' }.

(** A frame computation that keeps the world well formed evolves it. *)
Lemma evolves_frame {A} (f : St World A) w :
  wf w -> wf (exec f w) -> ages w (exec f w) -> moves counters f -> moves pointers f ->
  evolves w (exec f w).
Proof.
  intros Hw Hw' Ha Hc Hp.
  destruct (Hc w) as (_ & _ & H1 & H2); [intros e [x Hx]; by apply (wf_engines w Hw e x)|].
  destruct (Hp w) as (_ & H3); [intros c [o Ho]; by apply (wf_cells w Hw c o)|].
  split; [done|done|done| |done]. intros c o' e Ho' He.
  destruct (H3 c o' Ho') as [?|(o & Ho & Heq)]; [congruence|]. left. exists o. by rewrite <- Heq.
Qed.

Lemma wf_Ensure k r w : wf w -> wf (exec (Ensure m k r) w).
Proof.
  intros Hw. destruct (registry w !! k) as [c|] eqn:Hr.
  - destruct (wf_reg w Hw k c Hr) as (o & Ho & _).
    destruct (Ensure_known m k c r o w Hr Ho) as [ms ->].
    destruct (role_applied_spec w k c o r Hw Hr Ho) as [? _]. by apply wf_note.
  - destruct (m_newCell m k) as [d|e] eqn:Hn.
    + pose proof (Ensure_spec m k d r w Hw Hn) as He. destruct (Ensure m k r w). by destruct He.
    + unfold Ensure, Get. step gets_run. rewrite Hr, Hn. done.
Qed.

Lemma evolves_Ensure k r w : wf w -> evolves w (exec (Ensure m k r) w).
Proof.
  intros Hw. apply evolves_frame; [done|by apply wf_Ensure|by apply ages_Ensure|apply moves_Ensure..];
    [apply frame_counters|apply frame_pointers].
Qed.

Lemma evolves_Drop k w : wf w -> evolves w (exec (Drop k) w).
Proof.
  intros Hw. apply evolves_frame; [done|by apply Drop_spec|by apply ages_Drop|apply moves_Drop..];
    [apply frame_counters|apply frame_pointers].
Qed.

Lemma wf_ApplyConfig k raw w : wf w -> wf (exec (ApplyConfig m k raw) w).
Proof.
  intros Hw. pose proof (ApplyConfig_spec m k raw w Hw) as Ha. destruct (ApplyConfig m k raw w). by destruct Ha.
Qed.

Lemma cells_scheduled c e o w : cells (scheduled false c e o w) = cells w.
Proof. unfold scheduled. by case_decide. Qed.

(** [ApplyConfig] either keeps a pointer or moves it to a brand-new engine. *)
Lemma ApplyConfig_pointers k raw w c o' e :
  wf w -> cells (exec (ApplyConfig m k raw) w) !! c = Some o' -> c_engine o' = Some e ->
  (exists o, cells w !! c = Some o /\ c_engine o = Some e) \/ engines w !! e = None.
Proof.
  intros Hw Ho' He'. destruct (lookup_cases w k Hw) as [[Hr _]|(c1 & o & Hr & Hc & _)].
  { rewrite ApplyConfig_unassigned in Ho' by by left. left. by exists o'. }
  destruct (decide (c_state o = StateDraining)) as [Hs|Hs].
  { rewrite ApplyConfig_unassigned in Ho' by (right; eauto). left. by exists o'. }
  destruct (decide (c_hash o = Some (HashConfig raw))) as [Hh|Hh].
  { erewrite ApplyConfig_unchanged in Ho' by eauto. left. by exists o'. }
  destruct (m_compile m k raw (mkCompile (c_data o) (scopes w) None)) as [[en|er] s] eqn:Hm.
  - destruct (ApplyConfig_success m k raw c1 o en s w Hr Hc Hs Hh Hm) as (ms & o3 & _ & Ha).
    destruct (swapped_world_facts c1 o (HashConfig raw) en s w Hc) as (_ & _ & _ & Hcs & o4 & Ho4 & He4 & _).
    rewrite Ha in Ho'. cbn [snd] in Ho'.
    assert (Hcell : cells (swapped_world c1 o (HashConfig raw) en s w) !! c = Some o').
    { revert Ho'. unfold retired. destruct (c_engine o); [|done].
      change (cells (note ms ?x)) with (cells x). by rewrite cells_scheduled. }
    destruct (decide (c = c1)) as [->|Hne]; [|rewrite Hcs in Hcell by done; left; by exists o'].
    right. simplify_eq. by apply fresh_engine.
  - rewrite (ApplyConfig_invalid m k raw c1 o er s w Hr Hc Hs Hh Hm) in Ho'. cbn [snd] in Ho'.
    left. change (cells (note _ _)) with (<[c1 := set_data (cs_data s) o]> (cells w)) in Ho'.
    apply lookup_insert_Some in Ho' as [[<- <-]|[_ Ho']]; [by exists o|by exists o'].
Qed.

Lemma evolves_ApplyConfig k raw w : wf w -> evolves w (exec (ApplyConfig m k raw) w).
Proof.
  intros Hw. destruct (moves_ApplyConfig counters frame_counters starts_counters m k raw swap_counters w) as (_ & _ & H1 & H2).
  { intros e [x Hx]. by apply (wf_engines w Hw e x). }
  split; [by apply wf_ApplyConfig|done|done| |by apply ages_ApplyConfig].
  intros c o' e. by apply ApplyConfig_pointers.
Qed.

(** A task a worker may be busy with: its engine belongs to its cell, and a
    teardown concerns a draining cell. *)
Definition task_ok (w : World) (t : drainTask) : Prop :=
  owned w (t_eng t) (t_cell t) /\
  forall o, cells w !! t_cell t = Some o -> t_teardown t = true -> c_state o = StateDraining.

Lemma task_cell w t : wf w -> task_ok w t -> exists o, cells w !! t_cell t = Some o.
Proof. intros Hw [(x & Hx & <-) _]. destruct (wf_engines w Hw _ _ Hx) as [_ [o Ho]]. by exists o. Qed.

Lemma evolves_take t w w' : wf w -> drain_next w = (Some t, w') ->
  evolves w (exec (drain_begin t) w') /\ task_ok (exec (drain_begin t) w') t.
Proof.
  intros Hw Hn. unfold drain_next in Hn. destruct (drainCh w) as [|t' q] eqn:Hq; simplify_eq.
  change (exec (drain_begin t) ?v) with (cancel_eng (t_eng t) v).
  assert (Hdq : wf (on_drainCh (fun _ => q) w)).
  { apply wf_dequeue; [done|]. intros t' Ht. rewrite Hq. by right. }
  split.
  - destruct (evolves_frame (Engine_drain (t_eng t)) (on_drainCh (fun _ => q) w)) as [H1 H2 H3 H4 H5];
      [done|by apply wf_cancel|by apply ages_same|apply moves_Engine_drain, frame_counters
      |apply moves_Engine_drain, frame_pointers|].
    split; [exact H1|exact H2|exact H3|exact H4|exact H5].
  - destruct (wf_tasks w Hw t) as [Ho Hd]; [rewrite Hq; left|]. split; [|exact Hd].
    apply owned_cancel. exact Ho.
Qed.

Lemma moves_drain_end R t : frame R -> moves R (drain_end t).
Proof.
  intros F. pose proof (moves_drain R F t) as Hd. unfold drain_end, Cell_Key.
  apply (moves_bind R F); [apply (moves_load R F)|]. intros k.
  apply (moves_bind R F); [by apply (moves_metric R F)|]. intros _.
  destruct (t_teardown t); [|apply (moves_ret R F)].
  apply (moves_bind R F); [apply (moves_Close R F)|]. intros _. apply (moves_CompareAndDelete R F).
Qed.

Lemma drain_end_run t o w :
  cells w !! t_cell t = Some o ->
  exists ms, exec (drain_end t) w = note ms (if t_teardown t then torn (t_cell t) o w else w).
Proof.
  intros Ho. unfold drain_end, Cell_Key. step (load_run c_key ""%string (t_cell t) o w Ho).
  eexists. erewrite bind_step by reflexivity. cbn beta.
  destruct (t_teardown t); [|reflexivity].
  erewrite bind_step; [|apply (Close_run _ o); exact Ho]. reflexivity.
Qed.

Lemma evolves_drain_end t w : wf w -> task_ok w t -> evolves w (exec (drain_end t) w).
Proof.
  intros Hw Ht. destruct (task_cell w t Hw Ht) as [o Ho]. destruct (drain_end_run t o w Ho) as [ms He].
  apply evolves_frame; [done|rewrite He..|apply moves_drain_end, frame_counters|apply moves_drain_end, frame_pointers].
  - apply wf_note. destruct (t_teardown t); [by apply wf_torn|done].
  - destruct (t_teardown t); [by apply ages_torn|by apply ages_same].
Qed.

(** A waiter's turn changes at most the readiness of its cell. *)
Lemma waiter_step_run p x o w r w' :
  cells w !! w_cell x = Some o -> waiter_step p x w = (r, w') ->
  (w' = w \/ exists ms, w' = note ms (put (w_cell x) (ready_cell (now w) o) w)) /\
  (forall z, r = Some z -> w_eng z = w_eng x /\ w_cell z = w_cell x).
Proof.
  intros Ho Hstep. unfold waiter_step in Hstep.
  erewrite bind_step in Hstep by reflexivity. cbn beta zeta in Hstep.
  destruct (_ <=? w_next x)%nat; cycle 1.
  { destruct (ctx_done w (w_eng x) && _); [|destruct (bool_decide _)]; injection Hstep as <- <-;
      (split; [by left|]); intros z; [done|by intros [= <-]..]. }
  destruct (markReady_run (w_cell x) o w Ho) as [ms Hm].
  erewrite bind_step in Hstep by exact Hm. injection Hstep as <- <-. split; [right; by exists ms|done].
Qed.

(** A waiter's turn, and the list of waiters afterwards. *)
Lemma evolves_waiter i x p r w w' :
  wf w -> waiters w !! i = Some x -> waiter_step p x w = (r, w') ->
  evolves w (on_waiters (fun l => match r with Some y => <[i := y]> l | None => delete i l end) w').
Proof.
  intros Hw Hi Hstep.
  assert (Hx : x ∈ waiters w) by by eapply list_elem_of_lookup_2.
  destruct (wf_waiters w Hw x Hx) as (y & Hy & Hpar).
  destruct (wf_engines w Hw _ _ Hy) as [_ [o Ho]]. rewrite Hpar in Ho.
  destruct (waiter_step_run p x o w r w' Ho Hstep) as [Hrun Hr].
  destruct (wf_cells w Hw _ _ Ho) as [_ Hok].
  assert (Hwf : wf w' /\ waiters w' = waiters w /\ ages w w').
  { destruct Hrun as [->|[ms ->]]; [split; [done|split; [done|apply ages_refl]]|].
    split; [apply wf_note; eauto with epp|]. split; [done|by apply (ages_ready (now w) _ o)]. }
  destruct Hwf as (Hwf & Hws & Hag).
  assert (He : evolves w w').
  { change w' with (snd (r, w')). rewrite <- Hstep. apply evolves_frame;
      [done|by rewrite Hstep|by rewrite Hstep
      |apply moves_waiter_step; [apply frame_counters|apply starts_counters]
      |apply moves_waiter_step; [apply frame_pointers|apply starts_pointers]]. }
  destruct He as [_ H2 H3 H4 H5]. split; [|exact H2|exact H3|exact H4|exact H5].
  destruct Hwf as [C1 C2 C3 C4 C5 C6]. split; [exact C1|exact C2|exact C3|exact C4|exact C5|].
  intros z Hz. unfold on_waiters in Hz. cbn in Hz. destruct r as [v|].
  - apply list_elem_of_lookup_1 in Hz as [j Hj].
    destruct (decide (j = i)) as [->|Hne].
    + rewrite list_lookup_insert_eq in Hj by (rewrite Hws; by eapply lookup_lt_Some). simplify_eq.
      destruct (Hr _ eq_refl) as [-> ->]. apply C6. by rewrite Hws.
    + rewrite list_lookup_insert_ne in Hj by done. apply C6. by eapply list_elem_of_lookup_2.
  - apply C6. by eapply list_elem_of_delete_inv.
Qed.

(** ** The invariant *)

Definition refers (x : stream) : option (nat * nat) :=
  match x with
  | Loaded c e | Added c e | Accepted c e | Rejected c e => Some (c, e)
  | Finished => None
  end.

Record inv (s : sys) : Prop := mkInv {
  i_wf : wf (W s);
  i_wg : forall e x, engines (W s) !! e = Some x -> wg x = in_flight e (streams s);
  i_ref : forall x c e, x ∈ streams s -> refers x = Some (c, e) -> owned (W s) e c;
  i_busy : forall t, t ∈ s_busy s -> task_ok (W s) t;
  i_workers : Z.of_nat (length (s_busy s)) <= Z.max 0 workers;
  i_clean : forall e, e ∈ retired_clean s -> is_Some (engines (W s) !! e) /\
    (forall c o, cells (W s) !! c = Some o -> c_engine o <> Some e) /\
    (forall c, Accepted c e ∉ streams s) }.

Lemma holds_refers e x : holds e x = true -> exists c, refers x = Some (c, e).
Proof. destruct x; simpl; intros H; try done; apply bool_decide_eq_true in H as ->; by eexists. Qed.

Lemma in_flight_none e l : (forall x, x ∈ l -> holds e x = false) -> in_flight e l = 0.
Proof.
  intros Hl. unfold in_flight. destruct (filter _ l) as [|x r] eqn:Hf; [done|].
  assert (Hx : x ∈ filter (fun x => holds e x = true) l) by (rewrite Hf; left).
  apply list_elem_of_filter in Hx as [Hx1 Hx2]. by rewrite Hl in Hx1.
Qed.

Lemma owned_evolves w w' e c : evolves w w' -> owned w e c -> owned w' e c.
Proof.
  intros Hev (x & Hx & Hp). destruct (ev_kept w w' Hev e x Hx) as (x' & Hx' & _ & Hp').
  exists x'. by rewrite Hp'.
Qed.

Lemma task_evolves w w' t : wf w -> evolves w w' -> task_ok w t -> task_ok w' t.
Proof.
  intros Hw Hev Ht. destruct (task_cell w t Hw Ht) as [o Ho]. destruct Ht as [Hown Hd].
  split; [by eapply owned_evolves|]. intros o' Ho' Htd.
  destruct (ev_ages w w' Hev _ o Ho) as (o1 & Ho1 & _ & Hs). simplify_eq. by apply Hs, Hd.
Qed.

Lemma inv_evolves w s : inv s -> evolves (W s) w -> inv (set_W w s).
Proof.
  intros [H1 H2 H3 H4 H5 H6] Hev. split; simpl.
  - apply Hev.
  - intros e x' Hx'. destruct (engines (W s) !! e) as [x|] eqn:Hx.
    + destruct (ev_kept _ _ Hev e x Hx) as (x2 & Hx2 & Hw & _). simplify_eq. rewrite Hw. by apply H2.
    + rewrite (ev_new _ _ Hev e x' Hx' Hx). symmetry. apply in_flight_none. intros y Hy.
      destruct (holds e y) eqn:Hh; [|done]. apply holds_refers in Hh as [c Hc].
      destruct (H3 y c e Hy Hc) as (z & Hz & _). congruence.
  - intros x c e Hx Hr. eapply owned_evolves; eauto.
  - intros t Ht. eapply task_evolves; eauto.
  - done.
  - intros e He. destruct (H6 e He) as ([x Hx] & Hp & Ha). split; [|split; [|done]].
    + destruct (ev_kept _ _ Hev e x Hx) as (x2 & Hx2 & _). by eexists.
    + intros c o Ho Heq. destruct (ev_ptr _ _ Hev c o e Ho Heq) as [(o1 & Ho1 & He1)|Hno]; [|congruence].
      by apply (Hp c o1 Ho1).
Qed.

Lemma evolves_same w w' :
  wf w -> cells w' = cells w -> engines w' = engines w -> registry w' = registry w ->
  drainCh w' = drainCh w -> waiters w' = waiters w -> next_cell w' = next_cell w ->
  next_eng w' = next_eng w -> evolves w w'.
Proof.
  intros [C1 C2 C3 C4 C5 C6] E1 E2 E3 E4 E5 E6 E7. unfold owned in *.
  split; rewrite ?E1, ?E2; [|naive_solver..|by apply ages_same].
  split; unfold owned; rewrite ?E1, ?E2, ?E3, ?E4, ?E5, ?E6, ?E7; done.
Qed.

(** Updates of one engine that keep its parent. *)
Lemma owned_alter g e w e' c :
  (forall x, parent (g x) = parent x) -> owned w e' c -> owned (on_engines (alter g e) w) e' c.
Proof.
  intros Hg (x & Hx & Hp). unfold owned. simpl. destruct (decide (e' = e)) as [->|].
  - exists (g x). by rewrite lookup_alter_eq, Hx, Hg.
  - exists x. by rewrite lookup_alter_ne.
Qed.

Lemma wf_alter g e w : (forall x, parent (g x) = parent x) -> wf w -> wf (on_engines (alter g e) w).
Proof.
  intros Hg [Hc He Hp Hr Ht Hw]. split; try done.
  - intros e' x Hx. simpl in Hx. apply lookup_alter_Some in Hx as [(-> & y & Hy & ->)|[_ Hx]];
      [|by apply (He _ x)]. destruct (He _ y Hy) as [H1 H2]. split; [done|]. by rewrite Hg.
  - intros c o e' Ho Hoe. apply owned_alter; [done|]. by eapply Hp.
  - intros t Hin. destruct (Ht t Hin). by split; [apply owned_alter|].
  - intros x Hin. by apply owned_alter, Hw.
Qed.

Definition b2z (b : bool) : Z := if b then 1 else 0.

Lemma holds_other e e' c x : refers x = Some (c, e) -> e' <> e -> holds e' x = false.
Proof. destruct x; simpl; intros [= -> ->] Hne; try done; apply bool_decide_eq_false; congruence. Qed.

(** A stream of engine [e] moves from [x] to [y], adjusting the counter. *)
Lemma inv_stream i x y c e d s :
  inv s -> streams s !! i = Some x -> refers x = Some (c, e) ->
  refers y = Some (c, e) \/ y = Finished ->
  d = b2z (holds e y) - b2z (holds e x) ->
  (y = Accepted c e -> e ∉ retired_clean s) ->
  inv (set_stream i y (set_W (on_engines (alter (add_wg d) e) (W s)) s)).
Proof.
  intros [H1 H2 H3 H4 H5 H6] Hi Hx Hy -> Hacc.
  assert (Hp : forall z, parent (add_wg (b2z (holds e y) - b2z (holds e x)) z) = parent z) by done.
  split; simpl.
  - by apply wf_alter.
  - intros e' z Hz. rewrite (in_flight_insert e' _ i x y Hi). fold (b2z (holds e' x)). fold (b2z (holds e' y)).
    apply lookup_alter_Some in Hz as [(Heq & z' & Hz' & ->)|[Hne Hz]].
    + subst e'. simpl. rewrite (H2 e z' Hz'). lia.
    + rewrite (H2 e' z Hz), (holds_other e e' c x) by done.
      assert (Hh : holds e' y = false) by (destruct Hy as [Hy| ->]; [by eapply holds_other|done]).
      rewrite Hh. simpl. lia.
  - intros z c' e' Hz Hr. apply owned_alter; [done|].
    apply list_elem_of_lookup_1 in Hz as [j Hj]. destruct (decide (j = i)) as [->|Hne].
    + rewrite list_lookup_insert_eq in Hj by (by eapply lookup_lt_Some). simplify_eq.
      destruct Hy as [Hy| ->]; [|done]. rewrite Hy in Hr. simplify_eq.
      apply (H3 x c' e'); [by eapply list_elem_of_lookup_2|done].
    + rewrite list_lookup_insert_ne in Hj by done.
      apply (H3 z c' e'); [by eapply list_elem_of_lookup_2|done].
  - intros t Ht. destruct (H4 t Ht). by split; [apply owned_alter|].
  - done.
  - intros e' He'. destruct (H6 e' He') as ([z Hz] & Hptr & Ha). split; [|split; [done|]].
    + destruct (decide (e' = e)) as [->|]; [rewrite lookup_alter_eq, Hz|rewrite lookup_alter_ne by done]; by eexists.
    + intros c' Hin. apply list_elem_of_lookup_1 in Hin as [j Hj]. destruct (decide (j = i)) as [->|Hne].
      * rewrite list_lookup_insert_eq in Hj by (by eapply lookup_lt_Some). simplify_eq.
        destruct Hy as [[= -> ->]|?]; [|done]. by apply Hacc.
      * rewrite list_lookup_insert_ne in Hj by done. apply (Ha c'). by eapply list_elem_of_lookup_2.
Qed.

Lemma add_wg_0 e w : on_engines (alter (add_wg 0) e) w = w.
Proof.
  destruct w. unfold on_engines. simpl. f_equal. apply map_eq. intros i.
  destruct (decide (i = e)) as [->|]; [|by rewrite lookup_alter_ne].
  rewrite lookup_alter_eq. destruct (_ !! e) as [[en p cn n]|]; [|done]. simpl. unfold add_wg. simpl.
  by rewrite Z.add_0_r.
Qed.

Lemma is_current_run c e w :
  (is_current c e w).1 = bool_decide (from_option c_engine None (cells w !! c) = Some e).
Proof. unfold is_current, Cell_Engine, load. by step gets_run. Qed.

(** Ending a drain, cleanly or not. *)
Lemma inv_end i t q r s :
  inv s -> s_busy s !! i = Some t ->
  r = retired_clean s \/
    (r = t_eng t :: retired_clean s /\ drained_dry (W s) (t_eng t) = true /\ is_retired (W s) t = true) ->
  inv (mkSys (exec (drain_end t) (W s)) (streams s) (delete i (s_busy s)) q r).
Proof.
  intros Hinv Hi Hr. pose proof Hinv as [H1 H2 H3 H4 H5 H6].
  assert (Ht : task_ok (W s) t) by (apply H4; by eapply list_elem_of_lookup_2).
  pose proof (evolves_drain_end t (W s) H1 Ht) as Hev. destruct Ht as [Hown _].
  destruct (inv_evolves _ _ Hinv Hev) as [G1 G2 G3 G4 G5 G6]. simpl in *. split; simpl; [done|done|done| | |].
  - intros t' Ht'. apply G4. by eapply list_elem_of_delete_inv.
  - rewrite length_delete by by eexists. lia.
  - destruct Hr as [->|(-> & Hdry & Hret)]; [done|]. intros e [->|He]%elem_of_cons; [|by apply G6].
    destruct Hown as (x & Hx & Hpar). split; [|split].
    + destruct (ev_kept _ _ Hev _ x Hx) as (x2 & Hx2 & _). by eexists.
    + intros c o Ho Heq. destruct (ev_ptr _ _ Hev c o _ Ho Heq) as [(o1 & Ho1 & He1)|Hno]; [|congruence].
      destruct (wf_ptr _ H1 c o1 _ Ho1 He1) as (y & Hy & Hpy).
      assert (Hct : c = t_cell t) by congruence. rewrite Hct in Ho1.
      unfold is_retired in Hret. rewrite Ho1 in Hret. simpl in Hret.
      by rewrite bool_decide_eq_true_2 in Hret.
    + intros c Hin. unfold drained_dry in Hdry. rewrite Hx in Hdry. simpl in Hdry.
      apply bool_decide_eq_true in Hdry. rewrite (H2 _ x Hx) in Hdry.
      pose proof (in_flight_pos (t_eng t) (streams s) _ Hin (bool_decide_eq_true_2 _ eq_refl)). lia.
Qed.

Lemma inv_background s s' : inv s -> background s s' -> inv s'.
Proof.
  intros Hinv Hs. pose proof Hinv as [H1 H2 H3 H4 H5 H6]. destruct Hs.
  - destruct (evolves_take t (W s) w H1 H) as [Hev Hown].
    destruct (inv_evolves _ _ Hinv Hev) as [G1 G2 G3 G4 G5 G6]. split; simpl in *; try done.
    + intros t' [Ht'| ->%list_elem_of_singleton]%elem_of_app; [by apply G4|done].
    + rewrite length_app. simpl. lia.
  - apply inv_end; [done|done|]. destruct (is_retired (W s) t) eqn:Hr; [by right|by left].
  - apply inv_end; [done|done|by left].
  - apply inv_evolves; [done|]. by eapply evolves_waiter.
  - apply inv_evolves; [done|]. by apply (evolves_same (W s)).
  - apply inv_evolves; [done|]. by apply (evolves_same (W s)).
  - assert (Hown : owned (W s) e c).
    { revert H. unfold Cell_Engine, load, gets. simpl. destruct (cells (W s) !! c) as [o|] eqn:Ho; [|done].
      simpl. intros He. by eapply wf_ptr. }
    split; simpl; try done.
    + intros e' x Hx. rewrite in_flight_app, <- (H2 e' x Hx). unfold in_flight. simpl. lia.
    + intros x c' e' [Hx| ->%list_elem_of_singleton]%elem_of_app Hr; [by eapply H3|by simplify_eq/=].
    + intros e' He'. destruct (H6 e' He') as (? & ? & Ha). split; [done|]. split; [done|].
      intros c' [Hin|Hin%list_elem_of_singleton]%elem_of_app; [by apply (Ha c')|done].
  - apply (inv_stream i (Loaded c e) (Added c e) c e 1); [done|done|done|by left| |done]. simpl.
    by rewrite bool_decide_eq_true_2.
  - rewrite is_current_run. set (y := if bool_decide _ then _ else _).
    replace s with (set_W (on_engines (alter (add_wg 0) e) (W s)) s) at 1
      by (rewrite add_wg_0; by destruct s).
    apply (inv_stream i (Added c e) y c e 0); [done|done|done|..]; unfold y; case_bool_decide as Hc; auto;
      [simpl; lia|simpl; lia| |done].
    + intros _ He. destruct (H6 e He) as (_ & Hp & _).
      destruct (cells (W s) !! c) as [o|] eqn:Ho; [|done]. by apply (Hp c o Ho).
  - destruct H as [H|H].
    + apply (inv_stream i (Accepted c e) Finished c e (-1)); [done|done|done|by right| |done]. simpl.
      by rewrite bool_decide_eq_true_2.
    + apply (inv_stream i (Rejected c e) Finished c e (-1)); [done|done|done|by right| |done]. simpl.
      by rewrite bool_decide_eq_true_2.
Qed.

Lemma inv_step s s' : inv s -> step s s' -> inv s'.
Proof.
  intros Hinv Hs. pose proof (i_wf s Hinv) as Hw. destruct Hs.
  - by apply inv_evolves, evolves_Ensure.
  - by apply inv_evolves, evolves_Drop.
  - by apply inv_evolves, evolves_ApplyConfig.
  - apply inv_evolves; [done|]. by apply (evolves_same (W s)).
  - by eapply inv_background.
Qed.

Lemma init_inv sc : inv (init sc).
Proof.
  split; simpl; [apply wf_empty|intros e x Hx; done| | |lia|];
    intros ? **; exfalso; by eapply not_elem_of_nil.
Qed.

Lemma inv_reach sc s : reach step (init sc) s -> inv s.
Proof. apply reach_invariant; [by intros; eapply inv_step|apply init_inv]. Qed.

Lemma retired_grows s s' e : reach step s s' -> e ∈ retired_clean s -> e ∈ retired_clean s'.
Proof.
  intros Hr He. apply (reach_invariant step (fun x => e ∈ retired_clean x) s s'); [|done|done].
  intros x y Hx Hs. destruct Hs as [| | | |? ? Hs]; [done..|]. destruct Hs; simpl in *; try done.
  case_match; [by right|done].
Qed.


(** C9. No request is lost in a swap: once the drain of an engine that is no
    longer its cell's current one has seen the counter at zero, no stream is
    being served by it, then or ever after, in every interleaving, although
    streams that loaded the old pointer may still add to its counter: the
    re-check of [Track] turns them away. *)
Theorem retired_engine_is_quiet sc s s' e c :
  reach step (init sc) s -> e ∈ retired_clean s -> reach step s s' ->
  Accepted c e ∉ streams s'.
Proof.
  intros Hr He Hr'. pose proof (inv_reach sc s' (reach_trans step _ _ _ Hr Hr')) as Hi.
  destruct (i_clean s' Hi e (retired_grows s s' e Hr' He)) as (_ & _ & Ha). apply Ha.
Qed.
End System.

(** ** Runs of the example *)

Module ToySystem.
#[local] Existing Instance ToyLlmd.toy.

Abbreviation stp := (step Toy.mgr).
Definition s0 : sys := init 0%nat.
Definition do (f : World -> World) (s : sys) : sys := set_W (f (W s)) s.
(** Cluster ["a"] gets a first and a second configuration. *)
Definition s1 : sys := do (fun w => exec (Ensure Toy.mgr "a" RolePrimary) w) s0.
Definition s2 : sys := do (fun w => exec (ApplyConfig Toy.mgr "a" "plain") w) s1.
Definition s3 : sys := do (fun w => exec (ApplyConfig Toy.mgr "a" "disc") w) s2.
(** A worker drains the engine of the first one. *)
Definition task : drainTask := mkTask 0 0 false.
Definition taken (s : sys) : sys :=
  mkSys (exec (drain_begin task) (drain_next (W s)).2) (streams s) (s_busy s ++ [task])
    (quiesced s) (retired_clean s).
Definition dried (s : sys) : sys :=
  mkSys (exec (drain_end task) (W s)) (streams s) (delete 0%nat (s_busy s)) (t_eng task :: quiesced s)
    (if is_retired (W s) task then t_eng task :: retired_clean s else retired_clean s).

Lemma taken_background s : drainCh (W s) = [task] -> s_busy s = [] -> background Toy.mgr s (taken s).
Proof.
  intros Hq Hb. apply (st_take Toy.mgr task).
  - unfold drain_next. rewrite Hq. reflexivity.
  - rewrite Hb. reflexivity.
Qed.

Lemma taken_step s : drainCh (W s) = [task] -> s_busy s = [] -> stp s (taken s).
Proof. intros. by apply st_background, taken_background. Qed.

Lemma run2 : reach stp s0 s2.
Proof.
  eapply reach_snoc; [eapply reach_snoc; [constructor|]|].
  - apply (st_Ensure Toy.mgr "a" RolePrimary).
  - apply (st_ApplyConfig Toy.mgr "a" "plain").
Qed.

Definition s5 : sys := dried (taken s3).
Lemma run5 : reach stp s0 s5.
Proof.
  eapply reach_snoc; [eapply reach_snoc; [eapply reach_snoc; [apply run2|]|]|].
  - apply (st_ApplyConfig Toy.mgr "a" "disc").
  - apply taken_step; vm_compute; reflexivity.
  - apply st_background, (st_dry Toy.mgr 0 task); vm_compute; reflexivity.
Qed.
End ToySystem.


Lemma retired_engine_is_quiet_witness :
  Accepted 0 0 ∉ streams (L := ToyLlmd.toy) ToySystem.s5.
Proof.
  apply (@retired_engine_is_quiet ToyLlmd.toy Toy.mgr 0%nat ToySystem.s5 ToySystem.s5 0 0 ToySystem.run5).
  - vm_compute. left.
  - constructor.
Defined.

(** The guarantee does not extend to a demotion, which drains the current
    engine without replacing it: in some interleaving a stream is being served by
    an engine whose drain saw its counter at zero and canceled it. *)
Theorem demotion_breaks_quiescence :
  exists (s : sys (L := ToyLlmd.toy)) e c,
    reach (step (L := ToyLlmd.toy) Toy.mgr) ToySystem.s0 s /\ e ∈ quiesced s /\ Accepted c e ∈ streams s /\
    ctx_done (W s) e = true.
Proof.
  set (a1 := ToySystem.do (fun w => exec (Ensure (L := ToyLlmd.toy) Toy.mgr "a" RoleStandby) w) ToySystem.s2).
  set (a2 := ToySystem.dried (ToySystem.taken a1)).
  set (a3 := ToySystem.do (fun w => exec (Ensure (L := ToyLlmd.toy) Toy.mgr "a" RolePrimary) w) a2).
  set (a4 := mkSys (W a3) (streams a3 ++ [Loaded 0 0]) (s_busy a3) (quiesced a3) (retired_clean a3)).
  set (a5 := set_stream 0 (Added 0 0) (set_W (exec (wg_Add (L := ToyLlmd.toy) 0) (W a4)) a4)).
  exists (set_stream 0 (if (is_current (L := ToyLlmd.toy) 0 0 (W a5)).1 then Accepted 0 0 else Rejected 0 0) a5), 0%nat, 0%nat.
  split; [|split; [|split]].
  - eapply reach_snoc; [eapply reach_snoc; [eapply reach_snoc; [eapply reach_snoc; [eapply reach_snoc;
      [eapply reach_snoc; [eapply reach_snoc; [apply ToySystem.run2|]|]|]|]|]|]|].
    + apply (st_Ensure (L := ToyLlmd.toy) Toy.mgr "a" RoleStandby).
    + apply ToySystem.taken_step; vm_compute; reflexivity.
    + apply st_background, (st_dry (L := ToyLlmd.toy) Toy.mgr 0 ToySystem.task); vm_compute; reflexivity.
    + apply (st_Ensure (L := ToyLlmd.toy) Toy.mgr "a" RolePrimary).
    + apply st_background, (st_load (L := ToyLlmd.toy) Toy.mgr 0 0). vm_compute. reflexivity.
    + apply st_background, (st_add (L := ToyLlmd.toy) Toy.mgr 0 0 0). vm_compute. reflexivity.
    + apply st_background, (st_check (L := ToyLlmd.toy) Toy.mgr 0 0 0). vm_compute. reflexivity.
  - vm_compute. left.
  - vm_compute. left.
  - vm_compute. reflexivity.
Qed.
