(* ===== verification/Threads.v ===== *)
(** * Goroutines as programs of atomic actions

    A goroutine is a program over the state it shares with the others.  Between
    any two of its actions the others take any number of steps.  The state is a
    parameter; Interleaved, Races and Requests use it at that of System. *)

From S2P Require Import Prelude.

Section Programs.
Context {S : Type}.

Inductive prog (A : Type) : Type :=
| Done (a : A)
| Act {X : Type} (f : St S X) (k : X -> prog A).
Arguments Done {A} a.
Arguments Act {A X} f k.

#[export] Instance prog_ret : MRet prog := fun _ a => Done a.
Fixpoint prog_bind {A B} (k : A -> prog B) (p : prog A) : prog B :=
  match p with Done a => k a | Act f k' => Act f (fun x => prog_bind k (k' x)) end.
#[export] Instance prog_mbind : MBind prog := @prog_bind.

Definition act {X} (f : St S X) : prog X := Act f (fun x => Done x).
Fixpoint for_each_prog {X} (xs : list X) (f : X -> prog unit) : prog unit :=
  match xs with [] => mret tt | x :: xs' => f x ;; for_each_prog xs' f end.

(** The program run alone. *)
Fixpoint run {A} (p : prog A) : St S A :=
  match p with Done a => mret a | Act f k => x ← f; run (k x) end.

(** The program run from [s] to [s'] with answer [a], any number of steps [R] of
    the other goroutines in front of every action and at the end. *)
Fixpoint interleaved (R : S -> S -> Prop) {A} (p : prog A) (s : S) (a : A) (s' : S) : Prop :=
  match p with
  | Done b => b = a /\ reach R s s'
  | Act f k => exists s1, reach R s s1 /\ interleaved R (k (f s1).1) (exec f s1) a s'
  end.

Lemma run_act {X} (f : St S X) s : run (act f) s = f s.
Proof. simpl. rewrite St_bind_run. by destruct (f s). Qed.

Lemma run_bind {A B} (p : prog A) (k : A -> prog B) s :
  run (p ≫= k) s = (x ← run p; run (k x)) s.
Proof.
  revert s. induction p as [a|X f k' IH]; intros s; [done|].
  change (run (Act f k' ≫= k)) with (x ← f; run (k' x ≫= k)). simpl run.
  rewrite !St_bind_run, IH. by rewrite St_bind_run.
Qed.

Lemma run_for_each {X} (xs : list X) (f : X -> prog unit) s :
  run (for_each_prog xs f) s = for_each xs (fun x => run (f x)) s.
Proof.
  revert s. induction xs as [|x xs IH]; intros s; [done|]. simpl.
  rewrite run_bind, !St_bind_run. apply IH.
Qed.

Lemma interleaved_bind R {A B} (p : prog A) (k : A -> prog B) s b s' :
  interleaved R (p ≫= k) s b s' ->
  exists a s1, interleaved R p s a s1 /\ interleaved R (k a) s1 b s'.
Proof.
  revert s. induction p as [a|X f k' IH]; intros s H.
  - exists a, s. split; [by split; [|constructor]|exact H].
  - destruct H as (s1 & Hb & H). destruct (IH _ _ H) as (a & s2 & H1 & H2).
    exists a, s2. split; [by exists s1|done].
Qed.

Lemma interleaved_act R {X A} (f : St S X) (k : X -> prog A) s a s' :
  interleaved R (act f ≫= k) s a s' ->
  exists s1, reach R s s1 /\ interleaved R (k (f s1).1) (exec f s1) a s'.
Proof. done. Qed.

Lemma interleaved_later R {A} (p : prog A) s s0 a s' :
  reach R s s0 -> interleaved R p s0 a s' -> interleaved R p s a s'.
Proof.
  destruct p as [b|X f k]; simpl; intros Hb.
  - intros [-> Hb']. split; [done|]. by eapply reach_trans.
  - intros (s1 & Hb' & Hrun). exists s1. split; [by eapply reach_trans|done].
Qed.

Lemma interleaved_then R {A B} (p : prog A) (k : A -> prog B) s a s1 b s' :
  interleaved R p s a s1 -> interleaved R (k a) s1 b s' -> interleaved R (p ≫= k) s b s'.
Proof.
  revert s. induction p as [x|X f k' IH]; intros s.
  - intros [-> Hb] Hk. by eapply interleaved_later.
  - intros (s0 & Hb & H1) Hk. exists s0. split; [done|]. by apply IH.
Qed.

Lemma interleaved_step R {X A} (f : St S X) (k : X -> prog A) s s1 a s' :
  reach R s s1 -> interleaved R (k (f s1).1) (exec f s1) a s' -> interleaved R (act f ≫= k) s a s'.
Proof. intros Hb Hk. by exists s1. Qed.

(** Running alone is one of the interleavings. *)
Lemma interleaved_run R {A} (p : prog A) s : interleaved R p s (run p s).1 (exec (run p) s).
Proof.
  revert s. induction p as [a|X f k IH]; intros s; simpl.
  - split; [done|constructor].
  - exists s. split; [constructor|]. rewrite St_bind_run. apply IH.
Qed.

Lemma for_each_prog_map {X Y} (g : X -> Y) xs (f : Y -> prog unit) :
  for_each_prog (g <$> xs) f = for_each_prog xs (fun x => f (g x)).
Proof. induction xs as [|x xs IH]; [done|]. rewrite fmap_cons. simpl. by rewrite IH. Qed.

(** Actions that are steps of a system, and programs made of them. *)
Definition is_steps (R : S -> S -> Prop) {X} (f : St S X) : Prop := forall s, reach R s (exec f s).
Fixpoint all_steps (R : S -> S -> Prop) {A} (p : prog A) : Prop :=
  match p with Done _ => True | Act f k => is_steps R f /\ forall x, all_steps R (k x) end.

Lemma all_steps_act R {X} (f : St S X) : is_steps R f -> all_steps R (act f).
Proof. by split. Qed.

Lemma all_steps_bind R {A B} (p : prog A) (k : A -> prog B) :
  all_steps R p -> (forall a, all_steps R (k a)) -> all_steps R (p ≫= k).
Proof. induction p as [a|X f k' IH]; simpl; [auto|]. intros [H1 H2] Hk. split; [done|]. intros x. by apply IH. Qed.

Lemma all_steps_for_each R {X} (xs : list X) f :
  (forall x, all_steps R (f x)) -> all_steps R (for_each_prog xs f).
Proof. intros Hf. induction xs; simpl; [done|]. by apply all_steps_bind. Qed.

Lemma reach_mono (R R' : S -> S -> Prop) s s' :
  (forall x y, R x y -> R' x y) -> reach R s s' -> reach R' s s'.
Proof. intros HR. induction 1; [constructor|]. econstructor; [done|by apply HR]. Qed.

(** An interleaving is an execution of a system that has the steps of all. *)
Lemma interleaved_reach (R R' : S -> S -> Prop) {A} (p : prog A) s a s' :
  (forall x y, R x y -> R' x y) -> all_steps R' p -> interleaved R p s a s' -> reach R' s s'.
Proof.
  intros HR. revert s. induction p as [b|X f k IH]; intros s; simpl.
  - intros _ [_ H]. by eapply reach_mono.
  - intros [Hf Hk] (s1 & Hb & H). eapply reach_trans; [by eapply reach_mono|].
    eapply reach_trans; [apply Hf|]. by eapply IH.
Qed.
End Programs.
Arguments prog : clear implicits.
Arguments Done {S A} a.
Arguments Act {S A X} f k.
