(* ===== verification/Interleaved.v ===== *)
(** * A snapshot applied while everything else runs

    [EppData.Handle] is atomic; in the program the drain workers, the goroutines
    that wait for discovery, the plugins and the request streams run between any
    two of its calls to the manager.  Here [Handle] is a program of such calls,
    the steps of System.v run between them, and what the snapshot does to every
    cluster is proved for all interleavings. *)

From S2P Require Import Prelude.
From S2P Require Import Threads.
From S2P Require Import GoStd.
From S2P Require Import Sha256.
From S2P Require Import Role.
From S2P Require Import Llmd.
From S2P Require Import Cell.
From S2P Require Import Compile.
From S2P Require Import Manager.
From S2P Require Import ManagerFacts.
From S2P Require Import WellFormed.
From S2P Require Import ManagerSpec.
From S2P Require Import InnerApi.
From S2P Require Import EppData.
From S2P Require Import System.
Local Open Scope string_scope.

(** ** Actions on the store, inside the system *)

Section Actions.
Context {L : LlmdRouter}.

Lemma set_W_id s : set_W (W s) s = s.
Proof. by destruct s. Qed.

(** A method of the manager, or a read of the store, as one action. *)
Definition on_sys {X} (f : St World X) : St sys X := fun s => ((f (W s)).1, set_W (exec f (W s)) s).
Definition invoke {X} (f : St World X) : prog sys X := act (on_sys f).

Lemma reads_is_steps R {X} (g : World -> X) : is_steps R (on_sys (gets g)).
Proof. intros s. unfold on_sys. simpl. rewrite set_W_id. constructor. Qed.

Lemma reach_background m s s' : reach (background m) s s' -> reach (step m) s s'.
Proof. apply reach_mono. intros. by apply st_background. Qed.

(** A loop of calls is the loop of the methods. *)
Lemma on_sys_ret {X} (x : X) s : on_sys (mret x) s = (x, s).
Proof. unfold on_sys. simpl. by rewrite set_W_id. Qed.

Lemma on_sys_run {X} (f : St World X) s x w : f (W s) = (x, w) -> on_sys f s = (x, set_W w s).
Proof. unfold on_sys. by intros ->. Qed.

Lemma on_sys_ext {X} (f g : St World X) s : f (W s) = g (W s) -> on_sys f s = on_sys g s.
Proof. unfold on_sys. by intros ->. Qed.

Lemma on_sys_bind {X Y} (f : St World X) (k : X -> St World Y) s :
  on_sys (f ≫= k) s = (x ← on_sys f; on_sys (k x)) s.
Proof. unfold on_sys. by rewrite !St_bind_run. Qed.

Lemma on_sys_for_each {X} (xs : list X) (f : X -> St World unit) s :
  on_sys (for_each xs f) s = for_each xs (fun x => on_sys (f x)) s.
Proof.
  revert s. induction xs as [|x xs IH]; intros s; [apply on_sys_ret|]. simpl.
  rewrite on_sys_bind, !St_bind_run. apply IH.
Qed.
Lemma run_invoke {X} (f : St World X) s : run (invoke f) s = on_sys f s.
Proof. apply run_act. Qed.
End Actions.

(** ** [Handle], call by call *)

Section HandleProgram.
Context {L : LlmdRouter} `{MapRange}.

Fixpoint ensure_all_prog (m : Manager) (l : list (string * Role)) : prog sys (option error) :=
  match l with
  | [] => mret None
  | (cluster, role) :: l' =>
      r ← invoke (Ensure m cluster role);
      match r with
      | Err e => mret (Some (Errorf ("ensure cell " +:+ cluster) e))
      | Ok _ => ensure_all_prog m l'
      end
  end.

Definition drop_unassigned_prog (mine : gmap string Role) (c : nat) : prog sys unit :=
  k ← invoke (Cell_Key c);
  match mine !! k with None => invoke (Drop k) | Some _ => mret tt end.

Definition apply_assigned_prog (m : Manager) (mine : gmap string Role) (ce : string * string) : prog sys unit :=
  match mine !! ce.1 with
  | None => mret tt
  | Some _ => _ ← invoke (ApplyConfig m ce.1 ce.2); mret tt
  end.

Definition Handle_prog (w : EppDataWatcher) (cfg : EppDataConfig) : prog sys (option error) :=
  let mine := resolve_mine (instance w) cfg in
  invoke (metric (AssignmentNoMatch_Set (if decide (mine = ∅) then 1 else 0)%Z)) ;;
  err ← ensure_all_prog (manager w) (range mine);
  match err with
  | Some e => mret (Some e)
  | None =>
      live ← invoke List_cells;
      for_each_prog live (drop_unassigned_prog mine) ;;
      for_each_prog (range (EppConfig cfg)) (apply_assigned_prog (manager w) mine) ;;
      mret None
  end.

Lemma run_ensure_all m l s : run (ensure_all_prog m l) s = on_sys (ensure_all m l) s.
Proof.
  revert s. induction l as [|[k r] l IH]; intros s; [symmetry; apply on_sys_ret|].
  cbn [ensure_all_prog ensure_all]. rewrite run_bind, on_sys_bind, !St_bind_run, run_invoke.
  destruct (on_sys (Ensure m k r) s) as [[c|e] s1]; [apply IH|symmetry; apply on_sys_ret].
Qed.

Lemma for_each_ext {S X} (xs : list X) (f g : X -> St S unit) s :
  (forall x s, f x s = g x s) -> for_each xs f s = for_each xs g s.
Proof.
  intros Hfg. revert s. induction xs as [|x xs IH]; intros s; [done|]. simpl.
  by rewrite !St_bind_run, Hfg.
Qed.

Lemma run_drop_unassigned mine c s : run (drop_unassigned_prog mine c) s = on_sys (drop_unassigned mine c) s.
Proof.
  unfold drop_unassigned_prog, drop_unassigned. rewrite run_bind, on_sys_bind, !St_bind_run, run_invoke.
  destruct (mine !! _); [symmetry; apply on_sys_ret|apply run_invoke].
Qed.

Lemma run_apply_assigned m mine ce s : run (apply_assigned_prog m mine ce) s = on_sys (apply_assigned m mine ce) s.
Proof.
  unfold apply_assigned_prog, apply_assigned. destruct (mine !! ce.1); [|symmetry; apply on_sys_ret].
  rewrite run_bind, on_sys_bind, !St_bind_run, run_invoke. symmetry. apply on_sys_ret.
Qed.

(** Undisturbed, the program of calls is [Handle]. *)
Theorem Handle_prog_run wt cfg s : run (Handle_prog wt cfg) s = on_sys (Handle wt cfg) s.
Proof.
  unfold Handle_prog, Handle. set (mine := resolve_mine _ _).
  set (ev := AssignmentNoMatch_Set _). rewrite run_bind, on_sys_bind, !St_bind_run, run_invoke.
  generalize (exec (on_sys (metric ev)) s). intros s0.
  rewrite run_bind, on_sys_bind, !St_bind_run, run_ensure_all.
  destruct (on_sys (ensure_all _ _) s0) as [[e|] s1]; cbn [fst snd]; [symmetry; apply on_sys_ret|].
  rewrite run_bind, on_sys_bind, !St_bind_run, run_invoke.
  destruct (on_sys List_cells s1) as [live s2]. cbn [fst snd].
  rewrite run_bind, on_sys_bind, !St_bind_run, run_for_each, on_sys_for_each.
  rewrite (for_each_ext live (fun c => run (drop_unassigned_prog mine c))
    (fun c => on_sys (drop_unassigned mine c)) s2 (run_drop_unassigned mine)).
  destruct (for_each live _ s2) as [[] s3]. cbn [fst snd].
  rewrite run_bind, on_sys_bind, !St_bind_run, run_for_each, on_sys_for_each.
  rewrite (for_each_ext _ (fun ce => run (apply_assigned_prog (manager wt) mine ce))
    (fun ce => on_sys (apply_assigned (manager wt) mine ce)) s3 (run_apply_assigned (manager wt) mine)). symmetry. apply on_sys_ret.
Qed.

Lemma Handle_prog_steps wt cfg : all_steps (step (manager wt)) (Handle_prog wt cfg).
Proof.
  assert (Hens : forall l, all_steps (step (manager wt)) (ensure_all_prog (manager wt) l)).
  { induction l as [|[k r] l IH]; [done|]. apply all_steps_bind.
    - apply all_steps_act. intros s. apply reach_one, st_Ensure.
    - by intros [c|e]. }
  unfold Handle_prog. apply all_steps_bind; [apply all_steps_act; intros s; apply reach_one, st_metric|].
  intros _. apply all_steps_bind; [apply Hens|]. intros [e|]; [done|].
  apply all_steps_bind; [apply all_steps_act, reads_is_steps|]. intros live.
  apply all_steps_bind; [|intros _; apply all_steps_bind; [|done]]; apply all_steps_for_each.
  - intros c. apply all_steps_bind; [apply all_steps_act, reads_is_steps|]. intros k. case_match; [done|].
    apply all_steps_act. intros s. apply reach_one, st_Drop.
  - intros ce. unfold apply_assigned_prog. case_match; [|done]. apply all_steps_bind; [|done].
    apply all_steps_act. intros s. apply reach_one, st_ApplyConfig.
Qed.
End HandleProgram.

(** ** What the other goroutines do to a cluster's entry *)

Section Drift.
Context {L : LlmdRouter} (m : Manager).

(** A cell may become ready; a draining one may disappear. *)
Definition ready_live (l : live) : live :=
  if l_once l then l
  else mkLive (l_role l) (if decide (l_state l = StateCreating) then StateStandby else l_state l)
    (l_hash l) true (l_data l).
Definition drifts (v v' : view) : Prop :=
  match v with
  | Absent => v' = Absent
  | Draining => v' = Draining \/ v' = Absent
  | Live l => v' = Live l \/ v' = Live (ready_live l)
  end.

Lemma drifts_refl v : drifts v v.
Proof. destruct v; simpl; auto. Qed.

Lemma ready_live_idem l : ready_live (ready_live l) = ready_live l.
Proof. unfold ready_live. destruct (l_once l) eqn:Ho; [by rewrite Ho|done]. Qed.

Lemma drifts_trans v1 v2 v3 : drifts v1 v2 -> drifts v2 v3 -> drifts v1 v3.
Proof.
  destruct v1; simpl; intros H1 H2.
  - by subst v2.
  - destruct H1 as [->| ->]; [done|]. simpl in H2. auto.
  - destruct H1 as [->| ->]; [done|]. simpl in H2. rewrite ready_live_idem in H2.
    right. by destruct H2.
Qed.

Lemma view_ready t o :
  view_of (ready_cell t o) = match view_of o with Live l => Live (ready_live l) | v => v end.
Proof.
  unfold view_of, ready_cell, live_of, ready_live.
  destruct (decide (c_state o = StateDraining)) as [Hs|Hs].
  - rewrite decide_True; [done|]. destruct (c_once o); [done|].
    rewrite decide_False by congruence. done.
  - cbn [l_once l_state]. destruct (c_once o) eqn:Ho.
    + rewrite decide_False by done. by rewrite Ho.
    + destruct (decide (c_state o = StateCreating)); (rewrite decide_False by done); done.
Qed.

Lemma drifts_put_ready t c o w k :
  wf w -> cells w !! c = Some o -> drifts (view_at w k) (view_at (put c (ready_cell t o) w) k).
Proof.
  intros Hw Ho. unfold view_at. change (registry (put _ _ w)) with (registry w).
  destruct (registry w !! k) as [c'|] eqn:Hr; [|done].
  destruct (decide (c' = c)) as [->|Hne].
  - rewrite cells_put, Ho, view_ready. destruct (view_of o); simpl; auto.
  - rewrite cells_put_ne by done. apply drifts_refl.
Qed.

(** What the end of a drain does. *)
Definition empties (v v' : view) : Prop := v' = v \/ v = Draining /\ v' = Absent.

Lemma empties_drifts v v' : empties v v' -> drifts v v'.
Proof. intros [->|[-> ->]]; [apply drifts_refl|by right]. Qed.

Lemma empties_torn c o w k :
  wf w -> cells w !! c = Some o -> c_state o = StateDraining ->
  empties (view_at w k) (view_at (torn c o w) k).
Proof.
  intros Hw Ho Hs. destruct (decide (registry w !! k = Some c)) as [Hr|Hr].
  - assert (Hk : c_key o = k) by (destruct (wf_reg w Hw k c Hr) as (o' & ? & ? & _); by simplify_eq).
    destruct (view_torn w k c o Hw Hr Hk) as [-> _].
    rewrite (view_registered w k c o Hr Ho). unfold view_of. rewrite decide_True by done. by right.
  - left. unfold view_at, torn, unregister, on_registry. simpl.
    assert (Hreg : (if decide (registry w !! c_key o = Some c) then delete (c_key o) (registry w)
      else registry w) !! k = registry w !! k).
    { case_decide as Hd; [|done]. rewrite lookup_delete_ne; [done|]. intros <-. done. }
    rewrite Hreg. destruct (registry w !! k) as [c'|] eqn:Hc'; [|done].
    rewrite lookup_insert_ne; [done|]. intros <-. done.
Qed.

(** A task a worker is busy with ends. *)
Lemma empties_drain_end s t k :
  inv m s -> t ∈ s_busy s -> empties (view_at (W s) k) (view_at (exec (drain_end t) (W s)) k).
Proof.
  intros Hi Hin. pose proof (i_busy m s Hi t Hin) as Ht. pose proof (i_wf m s Hi) as Hw.
  destruct (task_cell (W s) t Hw Ht) as [o Ho]. destruct (drain_end_run t o (W s) Ho) as [ms ->].
  destruct (t_teardown t) eqn:Htd; [|by left]. change (view_at (note ms ?x) k) with (view_at x k).
  apply empties_torn; [done|done|]. by apply (proj2 Ht).
Qed.

Lemma background_drifts s s' :
  inv m s -> background m s s' ->
  ages (W s) (W s') /\ forall k, drifts (view_at (W s) k) (view_at (W s') k).
Proof.
  intros Hinv Hb. pose proof (i_wf m s Hinv) as Hw.
  assert (Hsame : forall w, cells w = cells (W s) -> registry w = registry (W s) ->
    ages (W s) w /\ forall k, drifts (view_at (W s) k) (view_at w k)).
  { intros w Hc Hr. split; [by apply ages_same|]. intros k. unfold view_at. rewrite Hc, Hr. apply drifts_refl. }
  assert (Hend : forall i t, s_busy s !! i = Some t -> ages (W s) (exec (drain_end t) (W s)) /\
    forall k, drifts (view_at (W s) k) (view_at (exec (drain_end t) (W s)) k)).
  { intros i t Hi. assert (Ht : task_ok (W s) t) by (apply (i_busy m s Hinv); by eapply list_elem_of_lookup_2).
    split; [by apply (ev_ages _ _ (evolves_drain_end t (W s) Hw Ht))|].
    intros k. apply empties_drifts, empties_drain_end; [done|by eapply list_elem_of_lookup_2]. }
  destruct Hb as [t w ? Hn _|i t ? Hi _|i t ? Hi|i x p r w ? Hi Hr|e i ?|t ?|c e ? _|i c e ? _|i c e ? _|i c e ? _];
    cbn [W set_W set_stream]; try (by apply Hsame).
  - unfold drain_next in Hn. destruct (drainCh (W s)); simplify_eq. by apply Hsame.
  - by apply (Hend i).
  - by apply (Hend i).
  - destruct (wf_waiters _ Hw x) as (y & Hy & Hpar); [by eapply list_elem_of_lookup_2|].
    destruct (wf_engines _ Hw _ _ Hy) as [_ [o Ho]]. rewrite Hpar in Ho.
    destruct (waiter_step_run p x o (W s) r w Ho Hr) as [[->|[ms ->]] _]; [by apply Hsame|].
    split; [by apply (ages_ready (now (W s)) _ o)|]. intros k. by apply (drifts_put_ready _ _ o).
Qed.

Lemma quiet s s' :
  inv m s -> reach (background m) s s' ->
  inv m s' /\ ages (W s) (W s') /\ forall k, drifts (view_at (W s) k) (view_at (W s') k).
Proof.
  intros Hinv Hr. induction Hr as [|s1 s2 Hr IH Hb].
  - split; [done|]. split; [apply ages_refl|]. intros k. apply drifts_refl.
  - destruct IH as (Hi & Ha & Hd). destruct (background_drifts s1 s2 Hi Hb) as [Ha' Hd'].
    split; [by eapply inv_background|]. split; [by eapply ages_trans|].
    intros k. by eapply drifts_trans.
Qed.
End Drift.

(** ** What a snapshot does in every interleaving *)

Section Refinement.
Context {L : LlmdRouter} `{MapRange} (m : Manager).

(** One action of the epp_data goroutine, the others before and after it. *)
Definition around (R : view -> view -> Prop) (v v' : view) : Prop :=
  exists v0 v1, drifts v v0 /\ R v0 v1 /\ drifts v1 v'.

Lemma around_left R v0 v v' : drifts v0 v -> around R v v' -> around R v0 v'.
Proof. intros Hd (v1 & v2 & H1 & H2 & H3). exists v1, v2. split; [by eapply drifts_trans|done]. Qed.
Lemma around_right R v v' v0 : around R v v' -> drifts v' v0 -> around R v v0.
Proof. intros (v1 & v2 & H1 & H2 & H3) Hd. exists v1, v2. split_and!; [done|done|by eapply drifts_trans]. Qed.

(** From [s] to [s'] the entry of [k] changes as [R] says and every other entry
    only drifts. *)
Definition changes (k : Key) (R : view -> view -> Prop) (s s' : sys) : Prop :=
  inv m s' /\ ages (W s) (W s') /\
  (forall k', k' <> k -> drifts (view_at (W s) k') (view_at (W s') k')) /\
  R (view_at (W s) k) (view_at (W s') k).

Lemma quiet_changes k R s s' s'' :
  inv m s -> reach (background m) s s' -> changes k (around R) s' s'' -> changes k (around R) s s''.
Proof.
  intros Hi Hb (H1 & H2 & H3 & H4). destruct (quiet m s s' Hi Hb) as (_ & Ha & Hd).
  split; [done|]. split; [by eapply ages_trans|]. split.
  - intros k' Hk. eapply drifts_trans; [apply Hd|by apply H3].
  - by eapply around_left.
Qed.

(** A call of a manager method, from the step after its start to the end. *)
Lemma call_changes {X} (f : St World X) k (R : view -> view -> Prop) s s1 s' :
  inv m s -> reach (background m) s s1 ->
  inv m (set_W (exec f (W s1)) s1) -> ages (W s1) (exec f (W s1)) ->
  others k (W s1) (exec f (W s1)) -> R (view_at (W s1) k) (view_at (exec f (W s1)) k) ->
  reach (background m) (set_W (exec f (W s1)) s1) s' ->
  changes k (around R) s s'.
Proof.
  intros Hi Hb Hi1 Ha Ho HR Hb'. eapply quiet_changes; [done|exact Hb|].
  destruct (quiet m _ s' Hi1 Hb') as (Hi' & Ha' & Hd').
  split; [done|]. split; [by eapply ages_trans|]. split.
  - intros k' Hk. rewrite <- (Ho k' Hk). apply Hd'.
  - eexists _, _. split_and!; [apply drifts_refl|exact HR|apply Hd'].
Qed.

Lemma inv_after f s : (forall s, step m s (set_W (f (W s)) s)) -> inv m s -> inv m (set_W (f (W s)) s).
Proof. intros Hf Hi. by eapply inv_step. Qed.

(** A loop over distinct keys of which every iteration changes its own. *)
Lemma loop_changes {X} (key : X -> Key) (f : X -> prog sys unit) (R : X -> view -> view -> Prop) xs
    (w0 : World) s a s' :
  (forall x s s', x ∈ xs -> inv m s -> ages w0 (W s) -> interleaved (background m) (f x) s tt s' ->
     changes (key x) (around (R x)) s s') ->
  NoDup (key <$> xs) -> inv m s -> ages w0 (W s) -> interleaved (background m) (for_each_prog xs f) s a s' ->
  inv m s' /\ ages (W s) (W s') /\
  (forall x, x ∈ xs -> around (R x) (view_at (W s) (key x)) (view_at (W s') (key x))) /\
  (forall k, k ∉ key <$> xs -> drifts (view_at (W s) k) (view_at (W s') k)).
Proof.
  revert s. induction xs as [|x xs IH]; intros s Hf Hnd Hi Ha Hrun.
  - destruct Hrun as [_ Hb]. destruct (quiet m s s' Hi Hb) as (H1 & H2 & H3).
    split_and!; [done|done| |done]. intros x Hx. by apply not_elem_of_nil in Hx.
  - apply interleaved_bind in Hrun as ([] & s1 & H1 & H2).
    inversion Hnd as [|? ? Hx Hnd']; subst.
    destruct (Hf x s s1) as (Hi1 & Ha1 & Hd1 & Hr1); [left|done..|].
    destruct (IH s1) as (Hi2 & Ha2 & Hr2 & Hd2); [|done|done|by eapply ages_trans|done|].
    { intros y t t' Hy. apply Hf. by right. }
    split; [done|]. split; [by eapply ages_trans|]. split.
    + intros y [->|Hy]%elem_of_cons; [by eapply around_right; [|apply Hd2]|].
      eapply around_left; [|by apply Hr2]. apply Hd1. intros Heq. apply Hx. rewrite <- Heq.
      apply list_elem_of_fmap. by exists y.
    + intros k [Hk1 Hk2]%not_elem_of_cons. eapply drifts_trans; [by apply Hd1|by apply Hd2].
Qed.

(** Phase 1: ensuring every cluster of [mine]. *)
Lemma ensure_all_interleaved (d : Key -> DataPlane) l s a s' :
  (forall k, m_newCell m k = Ok (d k)) -> NoDup l.*1 -> inv m s ->
  interleaved (background m) (ensure_all_prog m l) s a s' ->
  a = None /\ inv m s' /\
  (forall k r, (k, r) ∈ l ->
    around (fun v v' => v' = ensure_spec (d k) r v) (view_at (W s) k) (view_at (W s') k)) /\
  (forall k, k ∉ l.*1 -> drifts (view_at (W s) k) (view_at (W s') k)).
Proof.
  intros Hn. revert s. induction l as [|[k r] l IH]; intros s Hnd Hi Hrun.
  - destruct Hrun as [<- Hb]. destruct (quiet m s s' Hi Hb) as (H1 & _ & H3).
    split_and!; [done|done| |done]. intros k r Hin. by apply not_elem_of_nil in Hin.
  - rewrite fmap_cons in Hnd. apply NoDup_cons in Hnd as [Hk Hnd].
    simpl in Hrun. destruct Hrun as (s1 & Hb & Hrun).
    destruct (quiet m s s1 Hi Hb) as (Hi1 & _ & _). pose proof (i_wf m s1 Hi1) as Hw1.
    pose proof (Ensure_spec m k (d k) r (W s1) Hw1 (Hn k)) as He.
    pose proof (ages_Ensure m k r (W s1) Hw1) as Hage.
    assert (Hi2 : inv m (set_W (exec (Ensure m k r) (W s1)) s1)).
    { apply (inv_after (fun w => exec (Ensure m k r) w)); [|done]. intros. apply st_Ensure. }
    destruct (Ensure m k r (W s1)) as [res w1] eqn:Hres. destruct He as (_ & Hok & Ho & Hv).
    cbn [fst snd] in *. destruct res as [c|e]; [|done].
    set (s2 := set_W w1 s1) in *.
    assert (Hc : changes k (around (fun v v' => v' = ensure_spec (d k) r v)) s s2).
    { apply (call_changes (Ensure m k r) k _ s s1); rewrite ?Hres; try done. constructor. }
    destruct Hc as (_ & _ & Hd2 & Hr2).
    destruct (IH s2 Hnd Hi2 Hrun) as (-> & Hi3 & Hin3 & Hout3). split; [done|]. split; [done|]. split.
    + intros k' r' [Heq|Hin]%elem_of_cons; [simplify_eq; by eapply around_right; [|apply Hout3]|].
      eapply around_left; [|by apply Hin3]. apply Hd2. intros ->. apply Hk, list_elem_of_fmap.
      by exists (k, r').
    + intros k' [Hne Hnin]%not_elem_of_cons. eapply drifts_trans; [by apply Hd2|by apply Hout3].
Qed.

(** The goroutine does nothing to the entry. *)
Lemma quiet_around k s s1 s' :
  inv m s -> reach (background m) s s1 -> reach (background m) s1 s' ->
  changes k (around (fun v v' => v' = v)) s s'.
Proof.
  intros Hi Hb Hb'. destruct (quiet m s s1 Hi Hb) as (H1 & Ha1 & Hd1).
  destruct (quiet m s1 s' H1 Hb') as (H2 & Ha2 & Hd2).
  split_and!; [done|by eapply ages_trans|by intros; eapply drifts_trans|].
  by eexists _, _.
Qed.

Definition drop_unless (mine : gmap string Role) (k : Key) (v v' : view) : Prop :=
  match mine !! k with Some _ => v' = v | None => drop_spec v v' end.

(** Phase 2, one cell of the list. *)
Lemma drop_interleaved mine w0 k c s s' :
  registry w0 !! k = Some c -> wf w0 -> inv m s -> ages w0 (W s) ->
  interleaved (background m) (drop_unassigned_prog mine c) s tt s' ->
  changes k (around (drop_unless mine k)) s s'.
Proof.
  intros Hr Hw0 Hi Ha Hrun.
  apply interleaved_act in Hrun as (s1 & Hb & Hrun). destruct (quiet m s s1 Hi Hb) as (Hi1 & Ha1 & _).
  destruct (wf_reg w0 Hw0 k c Hr) as (o & Ho & Hk & _).
  destruct (ages_trans _ _ _ Ha Ha1 c o Ho) as (o1 & Ho1 & Hk1 & _).
  unfold on_sys, Cell_Key in Hrun. rewrite (load_run _ _ _ _ _ Ho1) in Hrun. cbn [fst snd] in Hrun.
  rewrite set_W_id, Hk1, Hk in Hrun. cbn [prog_mbind prog_bind] in Hrun.
  unfold drop_unless. destruct (mine !! k).
  - destruct Hrun as [_ Hb']. by eapply quiet_around.
  - destruct Hrun as (s2 & Hb2 & _ & Hb3). destruct (quiet m s1 s2 Hi1 Hb2) as (Hi2 & _ & _).
    destruct (Drop_spec k (W s2) (i_wf m s2 Hi2)) as (H1 & H2 & H3).
    eapply (call_changes (Drop k)); [done|by eapply reach_trans| |by apply ages_Drop, (i_wf m)|done|done|done].
    apply (inv_after (fun w => exec (Drop k) w)); [|done]. intros. apply st_Drop.
Qed.

Definition apply_if (mine : gmap string Role) (kr : Key * string) (v v' : view) : Prop :=
  match mine !! kr.1 with
  | Some _ => forall sc, v' = (apply_spec (compile_at (m_compile m) kr.1 kr.2 sc) kr.2 v).1
  | None => v' = v
  end.

(** Phase 3, one entry of the epp_config section. *)
Lemma apply_interleaved mine kr s s' :
  scope_free (m_compile m) -> inv m s -> interleaved (background m) (apply_assigned_prog m mine kr) s tt s' ->
  changes kr.1 (around (apply_if mine kr)) s s'.
Proof.
  destruct kr as [k raw]. intros Hsf Hi Hrun. unfold apply_if, apply_assigned_prog in *. simpl in *.
  destruct (mine !! k).
  - destruct Hrun as (s1 & Hb & _ & Hb'). unfold on_sys in Hb'. cbn [snd] in Hb'.
    destruct (quiet m s s1 Hi Hb) as (Hi1 & _ & _).
    pose proof (ApplyConfig_spec m k raw (W s1) (i_wf m s1 Hi1)) as Hs.
    pose proof (ages_ApplyConfig m k raw (W s1) (i_wf m s1 Hi1)) as Ha.
    assert (Hi2 : inv m (set_W (exec (ApplyConfig m k raw) (W s1)) s1)).
    { apply (inv_after (fun w => exec (ApplyConfig m k raw) w)); [|done]. intros. apply st_ApplyConfig. }
    destruct (ApplyConfig m k raw (W s1)) as [res w1] eqn:Hr. destruct Hs as (_ & Ho & Hv).
    eapply (call_changes (ApplyConfig m k raw) k _ s s1); rewrite ?Hr; try done.
    intros sc. erewrite apply_spec_ext; [by rewrite Hv|]. intros d. apply Hsf.
  - destruct Hrun as [_ Hb']. by eapply quiet_around; [|constructor|].
Qed.

Lemma around_drift v v' : around (fun v v' => v' = v) v v' -> drifts v v'.
Proof. intros (v0 & v1 & H1 & -> & H2). by eapply drifts_trans. Qed.

(** Phase 2: every registered cell was listed, and no other can be registered
    but by this goroutine. *)
Lemma drop_phase_interleaved mine s s' :
  inv m s -> interleaved (background m) (for_each_prog (range (registry (W s))).*2 (drop_unassigned_prog mine)) s tt s' ->
  inv m s' /\ forall k, around (drop_unless mine k) (view_at (W s) k) (view_at (W s') k).
Proof.
  intros Hi Hrun. rewrite for_each_prog_map in Hrun. pose proof (i_wf m s Hi) as Hw.
  destruct (loop_changes (fun kc : Key * nat => kc.1) (fun kc => drop_unassigned_prog mine kc.2)
    (fun kc => drop_unless mine kc.1) (range (registry (W s))) (W s) s tt s') as (Hi' & _ & Hin & Hout);
    [|apply NoDup_range|done|apply ages_refl|done|].
  { intros [k c] t t' Hkc Ht Ha Hr. apply elem_of_range in Hkc. by eapply drop_interleaved. }
  split; [done|]. intros k. destruct (registry (W s) !! k) as [c|] eqn:Hr.
  - apply (Hin (k, c)). by apply elem_of_range.
  - assert (Hd : drifts (view_at (W s) k) (view_at (W s') k)).
    { apply Hout. rewrite elem_of_range_keys, Hr. by intros []. }
    assert (Ha : view_at (W s) k = Absent) by (unfold view_at; by rewrite Hr).
    rewrite Ha in *. exists Absent, Absent. split_and!; [done| |done].
    unfold drop_unless. by destruct (mine !! k).
Qed.

(** Phase 3. *)
Lemma apply_phase_interleaved mine (conf : gmap string string) s s' :
  scope_free (m_compile m) -> inv m s ->
  interleaved (background m) (for_each_prog (range conf) (apply_assigned_prog m mine)) s tt s' ->
  inv m s' /\ forall k, match mine !! k, conf !! k with
    | Some _, Some raw => around (fun v v' => forall sc, v' = (apply_spec (compile_at (m_compile m) k raw sc) raw v).1)
        (view_at (W s) k) (view_at (W s') k)
    | _, _ => drifts (view_at (W s) k) (view_at (W s') k)
    end.
Proof.
  intros Hsf Hi Hrun.
  destruct (loop_changes (fun kr : Key * string => kr.1) (apply_assigned_prog m mine) (apply_if mine)
    (range conf) (W s) s tt s') as (Hi' & _ & Hin & Hout);
    [|apply NoDup_range|done|apply ages_refl|done|].
  { intros kr t t' _ Ht _ Hr. by apply apply_interleaved. }
  split; [done|]. intros k. destruct (conf !! k) as [raw|] eqn:Hc.
  - specialize (Hin (k, raw)). unfold apply_if in Hin. cbn [fst snd] in Hin.
    assert (Hk : (k, raw) ∈ range conf) by by apply elem_of_range.
    specialize (Hin Hk). destruct (mine !! k); [done|by apply around_drift].
  - assert (Hd : drifts (view_at (W s) k) (view_at (W s') k)).
    { apply Hout. rewrite elem_of_range_keys, Hc. by intros []. }
    by destruct (mine !! k).
Qed.

(** What a snapshot does to the entry of a cluster while the others run. *)
Definition handle_around (d : DataPlane) (k : Key) (role : option Role) (raw : option string)
    (v v' : view) : Prop :=
  match role with
  | None => around drop_spec v v'
  | Some r => exists v1, around (fun v v' => v' = ensure_spec d r v) v v1 /\
      match raw with
      | None => drifts v1 v'
      | Some raw =>
          around (fun v v' => forall sc, v' = (apply_spec (compile_at (m_compile m) k raw sc) raw v).1) v1 v'
      end
  end.
End Refinement.

Section Theorems.
Context {L : LlmdRouter} `{MapRange}.

Lemma Handle_interleaved wt cfg (d : Key -> DataPlane) s err s' :
  let m := manager wt in
  (forall k, m_newCell m k = Ok (d k)) -> scope_free (m_compile m) -> inv m s ->
  interleaved (background m) (Handle_prog wt cfg) s err s' ->
  err = None /\ inv m s' /\
  forall k, handle_around m (d k) k (my_role (instance wt) cfg k) (EppConfig cfg !! k)
    (view_at (W s) k) (view_at (W s') k).
Proof.
  intros m Hn Hsf Hi Hrun. unfold Handle_prog in Hrun. fold m in Hrun.
  set (mine := resolve_mine (instance wt) cfg) in Hrun.
  apply interleaved_act in Hrun as (s0 & Hb0 & Hrun). destruct (quiet m s s0 Hi Hb0) as (Hi0 & _ & Hd0).
  set (s1 := exec (on_sys _) s0) in Hrun.
  assert (Hi1 : inv m s1).
  { apply (inv_after m (fun w => exec (metric _) w)); [|done]. intros. apply st_metric. }
  apply interleaved_bind in Hrun as (e1 & s2 & Hens & Hrun).
  destruct (ensure_all_interleaved m d _ s1 e1 s2 Hn (NoDup_range mine) Hi1 Hens)
    as (-> & Hi2 & Hin1 & Hout1). cbn iota in Hrun.
  apply interleaved_act in Hrun as (s3 & Hb3 & Hrun). destruct (quiet m s2 s3 Hi2 Hb3) as (Hi3 & _ & Hd3).
  unfold on_sys, List_cells, gets in Hrun. cbn [fst snd] in Hrun. rewrite set_W_id in Hrun.
  apply interleaved_bind in Hrun as ([] & s4 & Hdrop & Hrun).
  apply interleaved_bind in Hrun as ([] & s5 & Happ & [<- Hb5]).
  destruct (drop_phase_interleaved m mine s3 s4 Hi3 Hdrop) as [Hi4 H4].
  destruct (apply_phase_interleaved m mine (EppConfig cfg) s4 s5 Hsf Hi4 Happ) as [Hi5 H5].
  destruct (quiet m s5 s' Hi5 Hb5) as (Hi' & _ & Hd5). split; [done|]. split; [done|].
  intros k. specialize (H4 k). specialize (H5 k). specialize (Hd0 k). specialize (Hd3 k). specialize (Hd5 k).
  rewrite <- resolve_mine_lookup. fold mine. unfold handle_around, drop_unless in *.
  destruct (mine !! k) as [r|] eqn:Hm.
  - exists (view_at (W s4) k). apply around_drift in H4. split.
    + eapply around_left; [exact Hd0|]. eapply around_right; [apply Hin1; by apply elem_of_range|].
      by eapply drifts_trans.
    + destruct (EppConfig cfg !! k); [by eapply around_right|by eapply drifts_trans].
  - eapply around_left; [|eapply around_right; [exact H4|]].
    + eapply drifts_trans; [exact Hd0|]. eapply drifts_trans; [|exact Hd3].
      apply Hout1. rewrite elem_of_range_keys, Hm. by intros [].
    + by eapply drifts_trans.
Qed.


Lemma my_role_holds self cfg k r : my_role self cfg k = Some r -> r <> RoleNone.
Proof.
  unfold my_role, resolveRole. destruct (Assignment cfg !! k) as [e|]; [simpl|done].
  repeat case_decide; naive_solver.
Qed.

(** The data plane of an entry, or the one its cell will be created with. *)
Definition data_of (d : DataPlane) (v : view) : DataPlane :=
  match v with Live l => l_data l | _ => d end.

Lemma drifts_live l v : drifts (Live l) v ->
  exists l', v = Live l' /\ l_role l' = l_role l /\ l_hash l' = l_hash l /\ l_data l' = l_data l.
Proof.
  intros [->| ->]; [by exists l|]. exists (ready_live l). unfold ready_live. by destruct (l_once l).
Qed.

Lemma around_ensure_live (d : DataPlane) r v v' :
  r <> RoleNone -> v <> Draining -> around (fun v v' => v' = ensure_spec d r v) v v' ->
  exists l, v' = Live l /\ l_role l = r /\ l_data l = data_of d v.
Proof.
  intros Hr Hv (v0 & v1 & H1 & -> & H2).
  assert (Hl : exists l, ensure_spec d r v0 = Live l /\ l_role l = r /\ l_data l = data_of d v).
  { destruct v as [| |l]; [|done|].
    - simpl in H1. subst v0. eexists. split; [done|]. by destruct r.
    - destruct (drifts_live l v0 H1) as (l0 & -> & _ & _ & Hd). eexists. split; [done|].
      simpl. rewrite <- Hd. by destruct r. }
  destruct Hl as (l & Hl & <- & <-). rewrite Hl in H2.
  destruct (drifts_live l v' H2) as (l' & -> & Hr' & _ & Hd'). by exists l'.
Qed.

Lemma around_apply_live (f : CompileFunc) k raw (sc : Scopes) l v' :
  around (fun v v' => forall sc, v' = (apply_spec (compile_at f k raw sc) raw v).1) (Live l) v' ->
  exists l', v' = Live l' /\ l_role l' = l_role l /\
    (is_ok (compile_at f k raw sc (l_data l)).1 = true -> l_hash l' = Some (HashConfig raw)).
Proof.
  intros (v0 & v1 & H1 & H2 & H3). destruct (drifts_live l v0 H1) as (l0 & -> & <- & _ & <-).
  assert (Hl : exists l1, v1 = Live l1 /\ l_role l1 = l_role l0 /\
    (is_ok (compile_at f k raw sc (l_data l0)).1 = true -> l_hash l1 = Some (HashConfig raw))).
  { rewrite (H2 sc). simpl. case_decide as Hh; [by exists l0|].
    by destruct (compile_at f k raw _ (l_data l0)) as [[en|e] d]; eexists. }
  destruct Hl as (l1 & -> & <- & Hh1). destruct (drifts_live l1 v' H3) as (l' & -> & Hr' & Hh' & _).
  exists l'. by rewrite Hh'.
Qed.

(** What an operator sees after a snapshot, however the rest of the system was
    scheduled; Process.v has it for the whole process. *)
Theorem snapshot_takes_effect sc wt cfg (d : Key -> DataPlane) s err s' :
  let m := manager wt in
  (forall k, m_newCell m k = Ok (d k)) -> scope_free (m_compile m) ->
  reach (step m) (init sc) s -> interleaved (background m) (Handle_prog wt cfg) s err s' ->
  err = None /\ forall k,
  match my_role (instance wt) cfg k with
  | None => view_at (W s') k = Draining \/ view_at (W s') k = Absent
  | Some r => view_at (W s) k <> Draining ->
      exists l, view_at (W s') k = Live l /\ l_role l = r /\
        forall raw, EppConfig cfg !! k = Some raw ->
          is_ok (compile_at (m_compile m) k raw sc (data_of (d k) (view_at (W s) k))).1 = true ->
          l_hash l = Some (HashConfig raw)
  end.
Proof.
  intros m Hn Hsf Hr Hrun.
  destruct (Handle_interleaved wt cfg d s err s' Hn Hsf (inv_reach m sc s Hr) Hrun) as (He & _ & Hk).
  split; [done|]. intros k. specialize (Hk k). destruct (my_role (instance wt) cfg k) as [r|] eqn:Hrole; simpl in Hk.
  - intros Hnd. destruct Hk as (v1 & H1 & H2).
    destruct (around_ensure_live _ r _ v1 (my_role_holds _ _ _ _ Hrole) Hnd H1) as (l1 & -> & <- & <-).
    destruct (EppConfig cfg !! k) as [raw|].
    + destruct (around_apply_live _ k raw sc l1 _ H2) as (l & -> & Hl & Hh). exists l.
      split; [done|]. split; [done|]. by intros raw' [= <-].
    + destruct (drifts_live l1 _ H2) as (l & -> & Hl & _). by exists l.
  - destruct Hk as (v0 & v1 & _ & H1 & H2).
    assert (Hv1 : v1 = Draining \/ v1 = Absent) by (destruct v0; simpl in H1; auto).
    destruct Hv1 as [->| ->]; simpl in H2; auto.
Qed.
End Theorems.

(** ** Witnesses

    A drain worker takes the task left by the second configuration of ["a"]
    while the snapshot of the example is being applied. *)

Module ToyInterleaved.
#[local] Existing Instance ToyLlmd.toy.
#[local] Existing Instance list_range.

Definition handling : prog sys (option error) := Handle_prog Toy.watcher Toy.snapshot.
Definition raced : sys := exec (run handling) (ToySystem.taken ToySystem.s3).

Lemma start_reached : reach (step (manager Toy.watcher)) (init 0%nat) ToySystem.s3.
Proof. eapply reach_snoc; [apply ToySystem.run2|]. apply (st_ApplyConfig Toy.mgr "a" "disc"). Qed.

Lemma handling_raced : interleaved (background (manager Toy.watcher)) handling ToySystem.s3 None raced.
Proof.
  pose proof (interleaved_run (background (manager Toy.watcher)) handling (ToySystem.taken ToySystem.s3)) as Hr.
  assert (Hn : (run handling (ToySystem.taken ToySystem.s3)).1 = None) by (vm_compute; reflexivity).
  rewrite Hn in Hr. eapply interleaved_later; [|exact Hr].
  apply reach_one, ToySystem.taken_background; vm_compute; reflexivity.
Qed.
End ToyInterleaved.


Lemma snapshot_takes_effect_witness :
  exists l, view_at (L := ToyLlmd.toy) (W ToyInterleaved.raced) "a" = Live l /\ l_role l = RolePrimary /\
    l_hash l = Some (HashConfig "plain").
Proof.
  destruct (proj2 (@snapshot_takes_effect ToyLlmd.toy list_range 0%nat Toy.watcher Toy.snapshot Toy.data0
    ToySystem.s3 None ToyInterleaved.raced Toy.newCell_ok Toy.mgr_scope_free
    ToyInterleaved.start_reached ToyInterleaved.handling_raced) "a") as (l & Hv & Hr & Hh).
  - vm_compute. discriminate.
  - exists l. split; [exact Hv|]. split; [exact Hr|]. apply Hh; [reflexivity|]. vm_compute. reflexivity.
Defined.
