(* ===== verification/Teardown.v ===== *)
(** * Every drain ends, and takes its cell with it

    A registered cell that is [DRAINING] always has a teardown waiting in the
    queue or in the hands of a drain worker; the workers can always go on, cannot
    go on for ever, and leave no draining cell behind when they are idle. *)

From S2P Require Import Prelude.
From S2P Require Import GoStd.
From S2P Require Import Sha256.
From S2P Require Import Role.
From S2P Require Import Llmd.
From S2P Require Import Cell.
From S2P Require Import Compile.
From S2P Require Import Manager.
From S2P Require Import ManagerFacts.
From S2P Require Import WellFormed.
From S2P Require Import ManagerSpec.
From S2P Require Import InnerApi.
From S2P Require Import EppData.
From S2P Require Import System.
From S2P Require Import Interleaved.
Local Open Scope Z_scope.

(** ** No call but [Drop] makes a cell draining *)

Section Undrains.
Context {L : LlmdRouter}.

(** The queue is only extended, and a registered draining cell of [w'] was one
    of [w], under the same name. *)
Definition undrains (w w' : World) : Prop :=
  drainCh w `prefix_of` drainCh w' /\
  forall k c o', registry w' !! k = Some c -> cells w' !! c = Some o' -> c_state o' = StateDraining ->
    registry w !! k = Some c /\ exists o, cells w !! c = Some o /\ c_state o = StateDraining.

Lemma undrains_same w w' :
  cells w' = cells w -> registry w' = registry w -> drainCh w' = drainCh w -> undrains w w'.
Proof. intros Hc Hr Hq. split; [by rewrite Hq|]. intros k c o'. rewrite Hc, Hr. eauto. Qed.

Lemma undrains_refl w : undrains w w.
Proof. by apply undrains_same. Qed.

Lemma undrains_trans w1 w2 w3 : undrains w1 w2 -> undrains w2 w3 -> undrains w1 w3.
Proof.
  intros [Hq1 H1] [Hq2 H2]. split; [by etrans|]. intros k c o3 Hr Ho Hs.
  destruct (H2 k c o3 Hr Ho Hs) as (Hr2 & o2 & Ho2 & Hs2). eauto.
Qed.

Lemma undrains_put w c o o' :
  cells w !! c = Some o -> (c_state o' = StateDraining -> c_state o = StateDraining) ->
  undrains w (put c o' w).
Proof.
  intros Ho Hs. split; [done|]. intros k c' o1 Hr Ho1 Hs1. split; [done|].
  destruct (decide (c' = c)) as [->|].
  - rewrite cells_put in Ho1. simplify_eq. eauto.
  - rewrite cells_put_ne in Ho1 by done. eauto.
Qed.

Lemma undrains_torn w c o : cells w !! c = Some o -> undrains w (torn c o w).
Proof.
  intros Ho. destruct (undrains_put w c o (set_closed o) Ho id) as [_ Hp].
  split; [done|]. intros k c' o1 Hr Ho1 Hs. apply (Hp k c' o1); [|done|done].
  simpl in Hr |- *. case_decide; [|done]. by apply lookup_delete_Some in Hr as [_ Hr].
Qed.

Lemma undrains_scheduled td w c e o : cells w !! c = Some o -> undrains w (scheduled td c e o w).
Proof.
  intros Ho. unfold scheduled. case_decide.
  - split; [by exists [mkTask c e td]|]. intros k c' o'. eauto.
  - unfold drained. eapply undrains_trans; [by apply (undrains_same w (cancel_eng e w))|].
    destruct td; [by apply undrains_torn|apply undrains_refl].
Qed.

Lemma undrains_drain td w c o : cells w !! c = Some o -> undrains w (drain_engine td c o w).
Proof.
  intros Ho. unfold drain_engine. destruct (c_engine o); [by apply undrains_scheduled|].
  destruct td; [by apply undrains_torn|apply undrains_refl].
Qed.

Lemma undrains_new_cell k d w : wf w -> undrains w (with_new_cell k (fresh_cell k d) w).
Proof.
  intros Hw. split; [done|]. intros k' c o' Hr Ho Hs. simpl in Hr, Ho.
  apply lookup_insert_Some in Ho as [[<- <-]|[Hne Ho]]; [done|].
  apply lookup_insert_Some in Hr as [[_ Hr]|[_ Hr]]; [congruence|eauto].
Qed.

Lemma undrains_role_applied w c o r : cells w !! c = Some o -> undrains w (role_applied c o r w).
Proof.
  intros Hc. unfold role_applied.
  repeat case_match; try apply undrains_refl.
  - by eapply undrains_put.
  - eapply undrains_trans; [apply (undrains_put w c o (demoted o)); [done|]|].
    + unfold demoted. by destruct (decide (c_state o = StatePrimary)).
    + exact (undrains_drain false _ c (demoted o) (cells_put _ _ _)).
  - eapply undrains_put; [done|]. unfold promoted.
    by destruct (decide (c_state o = StateStandby \/ c_state o = StateCreating)).
Qed.

Lemma undrains_Ensure m k r w : wf w -> undrains w (exec (Ensure m k r) w).
Proof.
  intros Hwf. destruct (lookup_cases w k Hwf) as [[Hr _]|(c & o & Hr & Hc & _)].
  - destruct (m_newCell m k) as [d|e] eqn:Hn.
    + destruct (Ensure_new m k d r w Hr Hn) as [ms ->].
      eapply undrains_trans; [by apply (undrains_new_cell k d)|].
      apply undrains_role_applied, lookup_insert_eq.
    + unfold Ensure, Get. step gets_run. rewrite Hr, Hn. apply undrains_refl.
  - destruct (Ensure_known m k c r o w Hr Hc) as [ms ->]. by apply undrains_role_applied.
Qed.

Lemma undrains_ready t c o w : cells w !! c = Some o -> undrains w (put c (ready_cell t o) w).
Proof.
  intros Ho. apply (undrains_put w c o); [done|]. unfold ready_cell.
  by destruct (c_once o), (decide (c_state o = StateCreating)).
Qed.

Lemma undrains_launched e c en o w : cells w !! c = Some o -> undrains w (launched e c en o w).
Proof. intros Ho. unfold launched. case_decide; [by apply undrains_ready|by apply undrains_same]. Qed.

Lemma undrains_ApplyConfig m k raw w : wf w -> undrains w (exec (ApplyConfig m k raw) w).
Proof.
  intros Hwf. destruct (lookup_cases w k Hwf) as [[Hr _]|(c & o & Hr & Hc & _)].
  { rewrite ApplyConfig_unassigned by by left. apply undrains_refl. }
  destruct (decide (c_state o = StateDraining)) as [Hs|Hs].
  { rewrite ApplyConfig_unassigned by (right; eauto). apply undrains_refl. }
  destruct (decide (c_hash o = Some (HashConfig raw))) as [Hh|Hh].
  { erewrite ApplyConfig_unchanged by eauto. apply undrains_refl. }
  destruct (m_compile m k raw (mkCompile (c_data o) (scopes w) None)) as [[en|er] s] eqn:Hm.
  - destruct (ApplyConfig_success m k raw c o en s w Hr Hc Hs Hh Hm) as (ms & o' & Ho' & ->).
    set (o2 := swapped (HashConfig raw) (next_eng w) (cs_data s) o).
    assert (Hput : undrains w (put c o2 (new_engine (mkEngineObj en c false 0) (compiled_world c o s w)).2)).
    { assert (H : undrains w (put c o2 (put c (set_data (cs_data s) o) w))); [|exact H].
      rewrite put_put. by eapply undrains_put. }
    assert (Hsw : undrains w (swapped_world c o (HashConfig raw) en s w)).
    { eapply undrains_trans; [exact Hput|]. apply undrains_launched, cells_put. }
    eapply undrains_trans; [exact Hsw|]. cbn [snd]. unfold retired.
    destruct (c_engine o) as [x|]; [exact (undrains_scheduled false _ c x o' Ho')|by apply undrains_same].
  - rewrite (ApplyConfig_invalid m k raw c o er s w Hr Hc Hs Hh Hm).
    by apply (undrains_put w c o (set_data (cs_data s) o)).
Qed.
End Undrains.

(** ** Pending teardowns *)

Section Pending.
Context {L : LlmdRouter} (m : Manager).

(** A task that will tear down cell [c]. *)
Definition tears (c : nat) (t : drainTask) : Prop := t_cell t = c /\ t_teardown t = true.

Definition pending (s : sys) : Prop :=
  forall k c o, registry (W s) !! k = Some c -> cells (W s) !! c = Some o -> c_state o = StateDraining ->
  exists t, t ∈ drainCh (W s) ++ s_busy s /\ tears c t.

Lemma pending_undrains w s : pending s -> undrains (W s) w -> pending (set_W w s).
Proof.
  intros Hp [Hq Hu] k c o Hr Ho Hs. destruct (Hu k c o Hr Ho Hs) as (Hr' & o1 & Ho1 & Hs1).
  destruct (Hp k c o1 Hr' Ho1 Hs1) as (t & Ht & Htc). exists t. split; [|done]. simpl.
  apply elem_of_app in Ht as [Ht|Ht]; apply elem_of_app; [left|by right].
  destruct Hq as [q ->]. apply elem_of_app. by left.
Qed.

(** Taking a cell out of the registry leaves nothing of it to tear down. *)
Lemma torn_unregisters w k c o :
  wf w -> registry w !! k = Some c -> cells w !! c = Some o ->
  forall k', registry (torn c o w) !! k' <> Some c.
Proof.
  intros Hw Hr Ho k' Hr'. pose proof (wf_reg _ (wf_torn c o w Hw Ho) k' c Hr') as (o1 & Ho1 & _ & Hcl).
  simpl in Ho1. rewrite lookup_insert_eq in Ho1. by simplify_eq.
Qed.

(** A teardown is either done on the spot or queued. *)
Lemma drain_engine_tears w k c o :
  wf w -> registry w !! k = Some c -> cells w !! c = Some o ->
  let w' := drain_engine true c o w in
  (forall k', registry w' !! k' <> Some c) \/ exists t, t ∈ drainCh w' /\ tears c t.
Proof.
  intros Hw Hr Ho w'. unfold w', drain_engine. destruct (c_engine o) as [e|].
  - unfold scheduled. case_decide.
    + right. exists (mkTask c e true). split; [|done]. simpl. apply elem_of_app. right. left.
    + left. by apply (torn_unregisters (cancel_eng e w) k); [apply wf_cancel|..].
  - left. by apply (torn_unregisters w k).
Qed.

Lemma pending_Drop k s : wf (W s) -> pending s -> pending (set_W (exec (Drop k) (W s)) s).
Proof.
  intros Hw Hp. destruct (lookup_cases (W s) k Hw) as [[Hr _]|(c & o & Hr & Hc & Hk & _)].
  { rewrite Drop_absent by done. cbn [snd]. by rewrite set_W_id. }
  destruct (Drop_run k c o (W s) Hr Hc Hk) as [ms ->]. cbn [snd].
  set (w1 := put c (dropped o) (W s)).
  assert (Hw1 : wf w1) by (destruct (wf_cells _ Hw _ _ Hc); eauto with epp).
  assert (Hc1 : cells w1 !! c = Some (dropped o)) by apply cells_put.
  set (w' := drain_engine true c (dropped o) w1).
  destruct (undrains_drain true w1 c (dropped o) Hc1) as [[q Hq] Hu]. fold w' in Hq, Hu.
  intros k' c' o' Hr' Ho' Hs'. destruct (decide (c' = c)) as [->|Hne].
  - destruct (drain_engine_tears w1 k c (dropped o) Hw1 Hr Hc1) as [Hgone|(t & Ht & Htc)].
    + by destruct (Hgone k').
    + exists t. split; [|done]. apply elem_of_app. by left.
  - destruct (Hu k' c' o' Hr' Ho' Hs') as (Hr1 & o1 & Ho1 & Hs1).
    unfold w1 in Ho1. rewrite cells_put_ne in Ho1 by done.
    destruct (Hp k' c' o1 Hr1 Ho1 Hs1) as (t & Ht & Htc). exists t. split; [|done].
    apply elem_of_app in Ht as [Ht|Ht]; apply elem_of_app; [left|by right].
    change (t ∈ drainCh w'). rewrite Hq. apply elem_of_app. by left.
Qed.

Lemma elem_of_delete_ne {A} (l : list A) i x y : l !! i = Some y -> x ∈ l -> x <> y -> x ∈ delete i l.
Proof.
  intros Hi Hx Hne. rewrite delete_take_drop. rewrite <- (take_drop_middle l i y Hi) in Hx.
  apply elem_of_app in Hx as [Hx|[Hx|Hx]%elem_of_cons]; apply elem_of_app; auto. done.
Qed.

(** A worker that finishes a teardown unregisters the cell it concerned. *)
Lemma pending_drain_end i t q r s :
  inv m s -> pending s -> s_busy s !! i = Some t ->
  pending (mkSys (exec (drain_end t) (W s)) (streams s) (delete i (s_busy s)) q r).
Proof.
  intros Hi Hp Hb. pose proof (i_wf m s Hi) as Hw.
  assert (Hin : t ∈ s_busy s) by by eapply list_elem_of_lookup_2.
  pose proof (i_busy m s Hi t Hin) as Ht. destruct (task_cell (W s) t Hw Ht) as [o Ho].
  destruct (drain_end_run t o (W s) Ho) as [ms Hend].
  intros k c o' Hr' Ho' Hs'. cbn [W s_busy] in *. rewrite Hend in Hr', Ho' |- *.
  assert (Hold : exists t', t' ∈ drainCh (W s) ++ s_busy s /\ tears c t' /\ t' <> t).
  { destruct (t_teardown t) eqn:Htd.
    - destruct (undrains_torn (W s) (t_cell t) o Ho) as [_ Hu].
      destruct (Hu k c o' Hr' Ho' Hs') as (Hr & o1 & Ho1 & Hs1).
      destruct (Hp k c o1 Hr Ho1 Hs1) as (t' & Ht' & Htc). exists t'. split; [done|]. split; [done|].
      intros ->. destruct Htc as [<- _]. by apply (torn_unregisters (W s) k (t_cell t) o Hw Hr Ho k).
    - destruct (Hp k c o' Hr' Ho' Hs') as (t' & Ht' & Htc). exists t'. split; [done|]. split; [done|].
      intros ->. destruct Htc. congruence. }
  destruct Hold as (t' & Ht' & Htc & Hne). exists t'. split; [|done].
  assert (Hq : drainCh (note ms (if t_teardown t then torn (t_cell t) o (W s) else W s)) = drainCh (W s))
    by by destruct (t_teardown t).
  apply elem_of_app in Ht' as [Ht'|Ht']; apply elem_of_app; [left; by rewrite Hq|right].
  by eapply elem_of_delete_ne.
Qed.

Lemma pending_background s s' : inv m s -> pending s -> background m s s' -> pending s'.
Proof.
  intros Hi Hp Hb. pose proof (i_wf m s Hi) as Hw.
  assert (Hsame : forall st w, cells w = cells (W s) -> registry w = registry (W s) ->
    drainCh w = drainCh (W s) -> pending (mkSys w st (s_busy s) (quiesced s) (retired_clean s))).
  { intros st w H1 H2 H3. exact (pending_undrains w s Hp (undrains_same _ _ H1 H2 H3)). }
  destruct Hb as [t w ? Hn _|i t ? Hb _|i t ? Hb|i x p r w ? Hx Hr|e i ?|t ?|c e ? _|i c e ? _|i c e ? _|i c e ? _];
    try (by apply Hsame).
  - unfold drain_next in Hn. destruct (drainCh (W s)) as [|t' q] eqn:Hq; simplify_eq.
    intros k c o Hr Ho Hs. destruct (Hp k c o Hr Ho Hs) as (t' & Ht' & Htc). exists t'. split; [|done].
    rewrite Hq in Ht'. simpl. set_solver.
  - by apply pending_drain_end.
  - by apply pending_drain_end.
  - destruct (wf_waiters _ Hw x) as (y & Hy & Hpar); [by eapply list_elem_of_lookup_2|].
    destruct (wf_engines _ Hw _ _ Hy) as [_ [o Ho]]. rewrite Hpar in Ho.
    destruct (waiter_step_run p x o (W s) r w Ho Hr) as [[->|[ms ->]] _]; [by apply Hsame|].
    apply (pending_undrains _ s Hp). by apply (undrains_ready (now (W s)) _ o).
Qed.

Lemma pending_step s s' : inv m s -> pending s -> step m s s' -> pending s'.
Proof.
  intros Hi Hp Hs. pose proof (i_wf m s Hi) as Hw. destruct Hs.
  - by apply pending_undrains; [|apply undrains_Ensure].
  - by apply pending_Drop.
  - by apply pending_undrains; [|apply undrains_ApplyConfig].
  - apply pending_undrains; [done|]. by apply undrains_same.
  - by eapply pending_background.
Qed.

Lemma pending_reach sc s : reach (step m) (init sc) s -> pending s.
Proof.
  intros Hr. apply (reach_invariant (step m) (fun s => inv m s /\ pending s) (init sc) s); [| |done].
  - intros x y [Hi Hp] Hs. split; [by eapply inv_step|by eapply pending_step].
  - split; [apply init_inv|]. intros k c o Hk. done.
Qed.

(** C14. No cluster is stuck in [DRAINING]: in every reachable state of the
    system, for every registered cell in that state a teardown of it is queued
    or in the hands of a drain worker. *)
Theorem draining_has_a_teardown sc s k c o :
  reach (step m) (init sc) s ->
  registry (W s) !! k = Some c -> cells (W s) !! c = Some o -> c_state o = StateDraining ->
  exists t, t ∈ drainCh (W s) ++ s_busy s /\ t_cell t = c /\ t_teardown t = true.
Proof. intros Hr. apply (pending_reach sc s Hr). Qed.

(** ** The drain workers *)

(** The steps of [drainWorker]: take a task, finish it with the counter at zero,
    finish it by timeout. *)
Inductive worker : sys -> sys -> Prop :=
| wk_take t w s :
    drain_next (W s) = (Some t, w) -> Z.of_nat (length (s_busy s)) < workers m ->
    worker s (mkSys (exec (drain_begin t) w) (streams s) (s_busy s ++ [t]) (quiesced s) (retired_clean s))
| wk_dry i t s :
    s_busy s !! i = Some t -> drained_dry (W s) (t_eng t) = true ->
    worker s (mkSys (exec (drain_end t) (W s)) (streams s) (delete i (s_busy s)) (t_eng t :: quiesced s)
      (if is_retired (W s) t then t_eng t :: retired_clean s else retired_clean s))
| wk_timeout i t s :
    s_busy s !! i = Some t ->
    worker s (mkSys (exec (drain_end t) (W s)) (streams s) (delete i (s_busy s)) (quiesced s) (retired_clean s)).

Lemma worker_background s s' : worker s s' -> background m s s'.
Proof. intros []; [by eapply st_take|by apply st_dry|by apply st_timeout]. Qed.

(** What is left to do: a queued task takes two steps, a taken one takes one. *)
Definition work (s : sys) : nat := (2 * length (drainCh (W s)) + length (s_busy s))%nat.

Lemma drain_end_queue t w : wf w -> task_ok w t -> drainCh (exec (drain_end t) w) = drainCh w.
Proof.
  intros Hw Ht. destruct (task_cell w t Hw Ht) as [o Ho]. destruct (drain_end_run t o w Ho) as [ms ->].
  by destruct (t_teardown t).
Qed.

Lemma worker_works s s' : inv m s -> worker s s' -> work s = S (work s').
Proof.
  intros Hi Hs. pose proof (i_wf m s Hi) as Hw.
  assert (Hend : forall i t, s_busy s !! i = Some t ->
    (2 * length (drainCh (exec (drain_end t) (W s))) + length (delete i (s_busy s)))%nat = Nat.pred (work s) /\
    work s <> 0%nat).
  { intros i t Hb. assert (Ht : task_ok (W s) t) by (apply (i_busy m s Hi); by eapply list_elem_of_lookup_2).
    pose proof (lookup_lt_Some _ _ _ Hb). unfold work.
    rewrite (drain_end_queue t _ Hw Ht), length_delete by by eexists. lia. }
  destruct Hs as [t w ? Hn _|i t ? Hb _|i t ? Hb]; [|destruct (Hend i t Hb); unfold work in *; simpl in *; lia..].
  unfold drain_next in Hn. unfold work. destruct (drainCh (W s)) as [|t' q] eqn:Hq; simplify_eq.
  simpl. rewrite length_app. simpl. lia.
Qed.

Lemma worker_empties s s' k : inv m s -> worker s s' -> empties (view_at (W s) k) (view_at (W s') k).
Proof.
  intros Hi Hs. destruct Hs as [t w ? Hn _|i t ? Hb _|i t ? Hb].
  - unfold drain_next in Hn. destruct (drainCh (W s)); simplify_eq. by left.
  - apply (empties_drain_end m); [done|by eapply list_elem_of_lookup_2].
  - apply (empties_drain_end m); [done|by eapply list_elem_of_lookup_2].
Qed.

(** While work is left, some worker can go on. *)
Lemma worker_progress s : 0 < workers m -> work s <> 0%nat -> exists s', worker s s'.
Proof.
  intros Hpos Hwork. destruct (s_busy s) as [|t l] eqn:Hb.
  - destruct (drainCh (W s)) as [|t q] eqn:Hq; [unfold work in Hwork; by rewrite Hb, Hq in Hwork|].
    eexists. apply (wk_take t (on_drainCh (fun _ => q) (W s))); [unfold drain_next; by rewrite Hq|].
    by rewrite Hb.
  - eexists. apply (wk_timeout 0 t). by rewrite Hb.
Qed.

Lemma empties_trans v1 v2 v3 : empties v1 v2 -> empties v2 v3 -> empties v1 v3.
Proof. unfold empties. intros [->|[-> ->]] [->|[? ->]]; auto. Qed.

Lemma workers_run n s s' : inv m s -> pending s -> nsteps worker n s s' ->
  inv m s' /\ pending s' /\ work s = (n + work s')%nat /\
  forall k, empties (view_at (W s) k) (view_at (W s') k).
Proof.
  intros Hi Hp Hn. induction Hn as [s|n s s1 s2 Hs Hn IH].
  - split_and!; [done|done|done|by left].
  - pose proof (worker_background s s1 Hs) as Hb.
    destruct IH as (Hi2 & Hp2 & Hw2 & He2); [by eapply inv_background|by eapply pending_background|].
    pose proof (worker_works s s1 Hi Hs). split_and!; [done|done|lia|].
    intros k. eapply empties_trans; [by apply worker_empties|apply He2].
Qed.

Lemma idle_none_draining s k : inv m s -> pending s -> work s = 0%nat -> view_at (W s) k <> Draining.
Proof.
  intros Hi Hp Hwork Hv. destruct (lookup_cases (W s) k (i_wf m s Hi)) as [[_ Ha]|(c & o & Hr & Ho & _ & _ & Ha)].
  - congruence.
  - rewrite Ha in Hv. unfold view_of in Hv. case_decide as Hs; [|done].
    destruct (Hp k c o Hr Ho Hs) as (t & Ht & _). unfold work in Hwork.
    destruct (drainCh (W s)), (s_busy s); simpl in *; try lia. by apply not_elem_of_nil in Ht.
Qed.

End Pending.

(** The number of workers is positive in every manager [NewManager] makes. *)
Lemma NewManager_workers {L : LlmdRouter} o : 0 < workers (NewManager o).
Proof. unfold workers, NewManager. simpl. case_match; lia. Qed.

(** ** Witnesses: the drop of ["a"] with its engine, and its drain *)

Module ToyTeardown.
#[local] Existing Instance ToyLlmd.toy.

Definition down : drainTask := mkTask 0 0 true.
Definition dropped_a : sys := ToySystem.do (fun w => exec (Drop "a") w) ToySystem.s2.
Definition taken_a : sys :=
  mkSys (exec (drain_begin down) (drain_next (W dropped_a)).2) [] [down] [] [].
Definition gone_a : sys := mkSys (exec (drain_end down) (W taken_a)) [] [] [] [].

Lemma run_dropped : reach (step Toy.mgr) (init 0%nat) dropped_a.
Proof. eapply reach_snoc; [apply ToySystem.run2|]. apply (st_Drop Toy.mgr "a"). Qed.

Lemma run_gone : nsteps (worker Toy.mgr) 2 dropped_a gone_a.
Proof.
  eapply nsteps_l; [|eapply nsteps_l; [|constructor]].
  - apply (wk_take Toy.mgr down (drain_next (W dropped_a)).2 dropped_a); vm_compute; reflexivity.
  - apply (wk_timeout Toy.mgr 0 down taken_a). reflexivity.
Qed.
End ToyTeardown.

Lemma draining_has_a_teardown_witness :
  exists t, t ∈ drainCh (W ToyTeardown.dropped_a) ++ s_busy ToyTeardown.dropped_a /\
    t_cell t = 0%nat /\ t_teardown t = true.
Proof.
  eapply (@draining_has_a_teardown ToyLlmd.toy Toy.mgr 0%nat ToyTeardown.dropped_a "a" 0%nat _ ToyTeardown.run_dropped);
    vm_compute; reflexivity.
Defined.

