(* ===== verification/Readiness.v ===== *)
(** * When a cell becomes ready (Engine.start, Cell.markReady)

    [start] launches the discovery plugins of an engine and a goroutine that waits
    for each of them in turn and then marks the cell ready.  Here: a cell is
    marked ready only after every plugin of one of its engines has signalled its
    initial sync, and no cell is left behind, for all interleavings of System.v. *)

From S2P Require Import Prelude.
From S2P Require Import GoStd.
From S2P Require Import Sha256.
From S2P Require Import Role.
From S2P Require Import Llmd.
From S2P Require Import Cell.
From S2P Require Import Compile.
From S2P Require Import Manager.
From S2P Require Import ManagerFacts.
From S2P Require Import WellFormed.
From S2P Require Import ManagerSpec.
From S2P Require Import InnerApi.
From S2P Require Import EppData.
From S2P Require Import Frame.
From S2P Require Import Lifecycle.
From S2P Require Import System.
Local Open Scope nat_scope.

Section Readiness.
Context {L : LlmdRouter}.

(** How many discovery plugins an engine runs, and whether its first [n] have
    closed their channels. *)
Definition plugins (w : World) (e : nat) : nat :=
  from_option (fun x => length (discovery (eng x))) 0 (engines w !! e).
Definition signalled (w : World) (e n : nat) : Prop := forall i, i < n -> (e, i) ∈ readies w.
#[export] Instance signalled_dec w e n : Decision (signalled w e n).
Proof.
  refine (cast_if (decide (Forall (fun i => (e, i) ∈ readies w) (seq 0 n)))); unfold signalled.
  - intros i Hi. rewrite Forall_forall in f. apply f, elem_of_seq. lia.
  - intros Hs. apply n0, Forall_forall. intros i Hi%elem_of_seq. apply Hs. lia.
Defined.
Definition synced (w : World) (e : nat) : Prop := signalled w e (plugins w e).
Definition waited (w : World) (c e : nat) : Prop := exists x, x ∈ waiters w /\ w_eng x = e /\ w_cell x = c.

Record sync (w : World) : Prop := mkSync {
  sy_waiters : forall x, x ∈ waiters w -> w_next x <= plugins w (w_eng x) /\ signalled w (w_eng x) (w_next x);
  sy_ready : forall c o, cells w !! c = Some o -> 0 < readyCloses o -> exists e, owned w e c /\ synced w e;
  sy_current : forall c o e, cells w !! c = Some o -> c_engine o = Some e ->
    0 < readyCloses o \/ ctx_done w e = true \/ waited w c e }.

(** ** What leaves readiness alone *)

Definition bounded (w : World) : Prop :=
  (forall c, is_Some (cells w !! c) -> c < next_cell w) /\
  (forall e, is_Some (engines w !! e) -> e < next_eng w).

(** The engines of [w] are still there, with their plugins; a canceled one stays
    canceled. *)
Definition engines_kept (w w' : World) : Prop :=
  forall e x, engines w !! e = Some x -> exists x', engines w' !! e = Some x' /\
    eng x' = eng x /\ parent x' = parent x /\ (canceled x = true -> canceled x' = true).
Definition cells_kept (w w' : World) : Prop :=
  forall c o, cells w !! c = Some o -> exists o', cells w' !! c = Some o' /\
    (c_closed o = true -> c_closed o' = true).

Definition calm (w w' : World) : Prop := bounded w ->
  bounded w' /\ readies w' = readies w /\ waiters w' = waiters w /\
  engines_kept w w' /\ cells_kept w w' /\
  (forall c o', cells w' !! c = Some o' -> c_engine o' = None /\ readyCloses o' = 0 \/
     exists o, cells w !! c = Some o /\ c_engine o' = c_engine o /\ readyCloses o' = readyCloses o).

Lemma wf_bounded w : wf w -> bounded w.
Proof.
  intros Hw. split.
  - intros c [o Ho]. by apply (wf_cells w Hw c o).
  - intros e [x Hx]. by apply (wf_engines w Hw e x).
Qed.

Lemma engines_kept_id w w' : engines w' = engines w -> engines_kept w w'.
Proof. intros He e x Hx. exists x. by rewrite He. Qed.
Lemma cells_kept_id w w' : cells w' = cells w -> cells_kept w w'.
Proof. intros Hc c o Ho. exists o. by rewrite Hc. Qed.

Lemma calm_id w w' : cells w' = cells w -> engines w' = engines w -> readies w' = readies w ->
  waiters w' = waiters w -> next_cell w' = next_cell w -> next_eng w' = next_eng w -> calm w w'.
Proof.
  intros Hc He Hr Hw Hnc Hne Hb. split; [by unfold bounded; rewrite Hc, He, Hnc, Hne|].
  do 2 (split; [done|]). split; [by apply engines_kept_id|]. split; [by apply cells_kept_id|].
  rewrite Hc. eauto.
Qed.

Lemma calm_trans w1 w2 w3 : calm w1 w2 -> calm w2 w3 -> calm w1 w3.
Proof.
  intros H12 H23 Hb1. destruct (H12 Hb1) as (Hb2 & Hr2 & Hw2 & He2 & Hk2 & Hc2).
  destruct (H23 Hb2) as (Hb3 & Hr3 & Hw3 & He3 & Hk3 & Hc3).
  split; [done|]. split; [congruence|]. split; [congruence|]. split; [|split].
  - intros e x Hx. destruct (He2 e x Hx) as (x2 & Hx2 & E2 & P2 & C2).
    destruct (He3 e x2 Hx2) as (x3 & Hx3 & E3 & P3 & C3). exists x3. rewrite E3, P3. split_and!; auto.
  - intros c o Ho. destruct (Hk2 c o Ho) as (o2 & Ho2 & C2). destruct (Hk3 c o2 Ho2) as (o3 & Ho3 & C3). exists o3. auto.
  - intros c o3 Ho3. destruct (Hc3 c o3 Ho3) as [?|(o2 & Ho2 & -> & ->)]; [by left|]. by apply Hc2.
Qed.

Lemma calm_alter f c w : gentle f -> calm w (on_cells (alter f c) w).
Proof.
  intros [Hf1 Hf2 Hf3] [Hb1 Hb2].
  assert (Hl : forall c', cells (on_cells (alter f c) w) !! c' =
    (if decide (c' = c) then f <$> cells w !! c' else cells w !! c')).
  { intros c'. simpl. case_decide; [subst; by rewrite lookup_alter_eq|by rewrite lookup_alter_ne]. }
  split; [|do 2 (split; [done|]); split; [by apply engines_kept_id|split]].
  - split; [|done]. intros c'. rewrite Hl. case_decide; [rewrite fmap_is_Some|]; apply Hb1.
  - intros c' o Ho. rewrite Hl, Ho. case_decide; simpl; eauto.
  - intros c' o'. rewrite Hl. intros Ho'. right.
    case_decide; [apply fmap_Some in Ho' as (o & Ho & ->); eauto|eauto].
Qed.

Lemma calm_alter_engine g e w :
  (forall x, eng (g x) = eng x /\ parent (g x) = parent x /\ (canceled x = true -> canceled (g x) = true)) ->
  calm w (on_engines (alter g e) w).
Proof.
  intros Hg [Hb1 Hb2].
  assert (Hl : forall e', engines (on_engines (alter g e) w) !! e' =
    (if decide (e' = e) then g <$> engines w !! e' else engines w !! e')).
  { intros e'. simpl. case_decide; [subst; by rewrite lookup_alter_eq|by rewrite lookup_alter_ne]. }
  split; [|do 2 (split; [done|]); split; [|split; [by apply cells_kept_id|eauto]]].
  - split; [done|]. intros e'. rewrite Hl. case_decide; [rewrite fmap_is_Some|]; apply Hb2.
  - intros e' x Hx. rewrite Hl, Hx. case_decide; simpl; eauto.
Qed.

Lemma cancel_obj_gentle x :
  eng (cancel_obj x) = eng x /\ parent (cancel_obj x) = parent x /\
  (canceled x = true -> canceled (cancel_obj x) = true).
Proof. unfold cancel_obj. by destruct (cancel (eng x)). Qed.

Lemma frame_calm : frame calm.
Proof.
  split; try (intros; by apply calm_id).
  - apply calm_trans.
  - intros f c w. apply calm_alter.
  - intros e w. apply calm_alter_engine, cancel_obj_gentle.
  - intros o w He Hr [Hb1 Hb2]. simpl.
    split; [|do 2 (split; [done|]); split; [by apply engines_kept_id|split]].
    + split; [|done]. intros c [o' Ho']. simpl in *.
      apply lookup_insert_Some in Ho' as [[<- _]|[_ Ho']]; [lia|].
      specialize (Hb1 c (mk_is_Some _ _ Ho')). lia.
    + intros c o1 Ho1. specialize (Hb1 c (mk_is_Some _ _ Ho1)). exists o1. simpl.
      rewrite lookup_insert_ne; [done|lia].
    + intros c o' Ho'. apply lookup_insert_Some in Ho' as [[_ <-]|[_ Ho']]; [by left|right; eauto].
  - intros x w Hx [Hb1 Hb2]. simpl.
    split; [|do 2 (split; [done|]); split; [|split; [by apply cells_kept_id|simpl; eauto]]].
    + split; [done|]. intros e [y Hy]. simpl in *.
      apply lookup_insert_Some in Hy as [[<- _]|[_ Hy]]; [lia|].
      specialize (Hb2 e (mk_is_Some _ _ Hy)). lia.
    + intros e y Hy. specialize (Hb2 e (mk_is_Some _ _ Hy)). exists y. simpl.
      rewrite lookup_insert_ne; [done|lia].
Qed.

(** ** The invariant survives it *)

Lemma ctx_done_kept w w' e : engines_kept w w' -> cells_kept w w' ->
  ctx_done w e = true -> ctx_done w' e = true.
Proof.
  intros He Hc. unfold ctx_done. destruct (engines w !! e) as [x|] eqn:Hx; [|done].
  destruct (He e x Hx) as (x' & -> & _ & -> & Hcan). intros [Hd|Hd]%orb_true_iff.
  - by rewrite Hcan.
  - destruct (cells w !! parent x) as [o|] eqn:Ho; [|done].
    destruct (Hc _ o Ho) as (o' & -> & Hcl). simpl in *. rewrite Hcl by done. apply orb_true_r.
Qed.

Lemma plugins_kept w w' e : engines_kept w w' -> is_Some (engines w !! e) -> plugins w' e = plugins w e.
Proof. intros He [x Hx]. unfold plugins. destruct (He e x Hx) as (x' & -> & Heq & _). by rewrite Hx; simpl; rewrite Heq. Qed.

Lemma plugins_grow w w' e : engines_kept w w' -> plugins w e <= plugins w' e.
Proof.
  intros He. destruct (engines w !! e) as [x|] eqn:Hx; [by rewrite (plugins_kept w w')|].
  unfold plugins. rewrite Hx. simpl. lia.
Qed.

Lemma owned_kept w w' e c : engines_kept w w' -> owned w e c -> owned w' e c.
Proof. intros He (x & Hx & Hp). destruct (He e x Hx) as (x' & Hx' & _ & Hp' & _). exists x'. by rewrite Hp'. Qed.

Lemma synced_kept w w' e c : engines_kept w w' -> readies w ⊆ readies w' -> owned w e c -> synced w e -> synced w' e.
Proof.
  intros He Hr (x & Hx & _) Hs i Hi. rewrite (plugins_kept w w') in Hi by (done || by exists x).
  by apply Hr, Hs.
Qed.

Lemma sync_calm w w' : bounded w -> calm w w' -> sync w -> sync w'.
Proof.
  intros Hb Hcalm [S1 S2 S3]. destruct (Hcalm Hb) as (_ & Hr & Hw & He & Hk & Hc). split.
  - rewrite Hw. intros x Hx. destruct (S1 x Hx) as [Hn Hs]. split.
    + etransitivity; [exact Hn|by apply plugins_grow].
    + intros i Hi. rewrite Hr. by apply Hs.
  - intros c o' Ho' Hcl. destruct (Hc c o' Ho') as [[_ Hz]|(o & Ho & _ & Hz)]; [lia|].
    destruct (S2 c o Ho) as (e & Hown & Hsy); [lia|]. exists e.
    split; [by eapply owned_kept|]. eapply synced_kept; eauto. by rewrite Hr.
  - intros c o' e Ho' Hen. destruct (Hc c o' Ho') as [[Hz _]|(o & Ho & Heq & Hz)]; [congruence|].
    rewrite Hz. destruct (S3 c o e Ho) as [?|[Hd|Hwt]]; [congruence|by left|right; left|right; right].
    + by eapply ctx_done_kept.
    + unfold waited. by rewrite Hw.
Qed.

(** ** Swapping an engine in *)

Lemma calm_put c o o' w : cells w !! c = Some o -> c_engine o' = c_engine o -> readyCloses o' = readyCloses o ->
  c_closed o' = c_closed o -> calm w (put c o' w).
Proof.
  intros Ho He Hr Hc. intros Hb.
  assert (Hl : forall c', cells (put c o' w) !! c' = (if decide (c' = c) then Some o' else cells w !! c')).
  { intros c'. case_decide; [subst; apply cells_put|by apply cells_put_ne]. }
  split; [|do 2 (split; [done|]); split; [by apply engines_kept_id|split]].
  - split; [|apply Hb]. intros c'. rewrite Hl. case_decide; [subst; intros _; apply Hb; by exists o|apply Hb].
  - intros c' o1 Ho1. rewrite Hl. case_decide; [subst; simplify_eq; exists o'; by rewrite Hc|by exists o1].
  - intros c' o1. rewrite Hl. intros Ho1. right. case_decide; [subst; simplify_eq; by exists o|by exists o1].
Qed.

Lemma ready_cell_closes t o : cell_ok o -> 0 < readyCloses (ready_cell t o).
Proof.
  intros Hok. unfold ready_cell. destruct (c_once o) eqn:Ho; [rewrite (ok_ready o Hok), Ho; lia|].
  by case_decide; simpl; lia.
Qed.

(** Marking a cell ready on behalf of an engine whose plugins have all signalled. *)
Lemma sync_ready c o o' e w :
  cells w !! c = Some o -> c_closed o' = c_closed o -> 0 < readyCloses o' ->
  owned w e c -> synced w e -> 
  (forall x, x ∈ waiters w -> w_next x <= plugins w (w_eng x) /\ signalled w (w_eng x) (w_next x)) ->
  (forall c1 o1, c1 <> c -> cells w !! c1 = Some o1 -> 0 < readyCloses o1 -> exists e, owned w e c1 /\ synced w e) ->
  (forall c1 o1 e, c1 <> c -> cells w !! c1 = Some o1 -> c_engine o1 = Some e ->
     0 < readyCloses o1 \/ ctx_done w e = true \/ waited w c1 e) ->
  sync (put c o' w).
Proof.
  intros Ho Hcl Hr Hown Hsy S1 S2 S3. split; [exact S1| |].
  - intros c1 o1 Ho1 Hr1. destruct (decide (c1 = c)) as [->|Hne]; [by exists e|].
    rewrite cells_put_ne in Ho1 by done. by apply (S2 c1 o1).
  - intros c1 o1 e1 Ho1 He1. destruct (decide (c1 = c)) as [->|Hne].
    + rewrite cells_put in Ho1. simplify_eq. by left.
    + rewrite cells_put_ne in Ho1 by done. destruct (S3 c1 o1 e1 Hne Ho1 He1) as [?|[Hd|?]]; [by left| |by right; right].
      right. left. revert Hd. apply ctx_done_kept; [by apply engines_kept_id|].
      intros c2 o2 Ho2. destruct (decide (c2 = c)) as [->|]; [rewrite cells_put; simplify_eq; exists o'; by rewrite Hcl|].
      rewrite cells_put_ne by done. by exists o2.
Qed.

Lemma sync_launched e c en o o' w :
  sync w -> cells w !! c = Some o -> engines w !! e = Some (mkEngineObj en c false 0) ->
  c_engine o' = Some e -> readyCloses o' = readyCloses o -> c_closed o' = c_closed o -> cell_ok o' ->
  sync (launched e c en o' (put c o' w)).
Proof.
  intros [S1 S2 S3] Ho He Hen Hrd Hcl Hok. assert (Hown : owned w e c) by by eexists.
  assert (Hpl : plugins w e = length (discovery en)) by (unfold plugins; by rewrite He).
  unfold launched. case_decide as Hn.
  - rewrite put_put. apply (sync_ready c o _ e); eauto.
    + by rewrite closed_ready.
    + by apply ready_cell_closes.
    + intros i Hi. rewrite Hpl, Hn in Hi. lia.
  - assert (Hk : cells_kept w (put c o' w)).
    { intros c1 o1 Ho1. destruct (decide (c1 = c)) as [->|]; [rewrite cells_put; simplify_eq; exists o'; by rewrite Hcl|].
      rewrite cells_put_ne by done. by exists o1. }
    split.
    + intros x. simpl. intros [Hx| ->%list_elem_of_singleton]%elem_of_app; [by apply S1|].
      split; [simpl; lia|]. intros i Hi. simpl in Hi. lia.
    + intros c1 o1 Ho1 Hr1. change (cells _) with (cells (put c o' w)) in Ho1.
      destruct (decide (c1 = c)) as [->|]; [rewrite cells_put in Ho1|rewrite cells_put_ne in Ho1 by done].
      * simplify_eq. rewrite Hrd in Hr1. by apply (S2 c o).
      * by apply (S2 c1 o1).
    + intros c1 o1 e1 Ho1 He1. change (cells _) with (cells (put c o' w)) in Ho1.
      destruct (decide (c1 = c)) as [->|]; [rewrite cells_put in Ho1|rewrite cells_put_ne in Ho1 by done].
      * simplify_eq. right. right. exists (mkWaiter e c 0). split; [|done]. simpl.
        apply elem_of_app. right. by apply list_elem_of_singleton.
      * destruct (S3 c1 o1 e1 Ho1 He1) as [?|[Hd|(x & Hx & Hxe)]]; [by left| |].
        { right. left. revert Hd. by apply ctx_done_kept; [apply engines_kept_id|]. }
        { right. right. exists x. split; [|done]. simpl. apply elem_of_app. by left. }
Qed.

Lemma bounded_launched e c en o o' w : bounded w -> cells w !! c = Some o -> bounded (launched e c en o' (put c o' w)).
Proof.
  intros [Hb1 Hb2] Ho. assert (Hp : forall y, bounded (put c y w)).
  { intros y. split; [|done]. intros c1 [o1 Ho1]. destruct (decide (c1 = c)) as [->|]; [by apply Hb1; exists o|].
    rewrite cells_put_ne in Ho1 by done. by apply Hb1; exists o1. }
  unfold launched. case_decide; [rewrite put_put; apply Hp|exact (Hp o')].
Qed.

Lemma calm_scheduled c e o w : calm w (scheduled false c e o w).
Proof.
  unfold scheduled. case_decide; [by apply calm_id|]. apply (fr_cancel calm frame_calm).
Qed.

Lemma calm_note ms w : calm w (note ms w).
Proof. by apply calm_id. Qed.

Lemma sync_ApplyConfig m k raw w : wf w -> sync w -> sync (exec (ApplyConfig m k raw) w).
Proof.
  intros Hw Hs. pose proof (wf_bounded w Hw) as Hb.
  destruct (lookup_cases w k Hw) as [[Hr _]|(c & o & Hr & Hc & _)]; [by rewrite ApplyConfig_unassigned by by left|].
  destruct (decide (c_state o = StateDraining)) as [Hst|Hst].
  { by rewrite ApplyConfig_unassigned by (right; eauto). }
  destruct (decide (c_hash o = Some (HashConfig raw))) as [Hh|Hh]; [by erewrite ApplyConfig_unchanged by eauto|].
  assert (Hcomp : forall s, calm w (compiled_world c o s w)).
  { intros s. eapply calm_trans; [by apply (calm_put c o (set_data (cs_data s) o))|by apply calm_id]. }
  destruct (m_compile m k raw (mkCompile (c_data o) (scopes w) None)) as [[en|er] s] eqn:Hm.
  2:{ rewrite (ApplyConfig_invalid m k raw c o er s w Hr Hc Hst Hh Hm). cbn [snd].
      apply (sync_calm w); [done| |done]. eapply calm_trans; [apply Hcomp|apply calm_note]. }
  destruct (ApplyConfig_success m k raw c o en s w Hr Hc Hst Hh Hm) as (ms & o3 & _ & ->). cbn [snd].
  set (x := mkEngineObj en c false 0). set (w2 := (new_engine x (compiled_world c o s w)).2).
  assert (Hw2 : calm w w2).
  { eapply calm_trans; [apply Hcomp|]. by apply (fr_new_engine calm frame_calm). }
  destruct (Hw2 Hb) as (Hb2 & _).
  assert (Hsw : sync (swapped_world c o (HashConfig raw) en s w)).
  { unfold swapped_world. apply (sync_launched _ c en (set_data (cs_data s) o)).
    - by apply (sync_calm w w2).
    - apply lookup_insert_eq.
    - apply lookup_insert_eq.
    - done.
    - done.
    - done.
    - destruct (wf_cells w Hw c o Hc) as [_ [H1 H2 H3 H4]]. by split. }
  apply (sync_calm (swapped_world c o (HashConfig raw) en s w)); [|eapply calm_trans; [|apply calm_note]|done].
  - eapply bounded_launched; [done|apply lookup_insert_eq].
  - unfold retired. destruct (c_engine o); [apply calm_scheduled|by apply calm_id].
Qed.

(** ** A turn of a waiter *)

Lemma waiter_turn p x o w r w' : cells w !! w_cell x = Some o -> waiter_step p x w = (r, w') ->
  (plugins w (w_eng x) <= w_next x /\ r = None /\
     exists ms, w' = note ms (put (w_cell x) (ready_cell (now w) o) w)) \/
  (w_next x < plugins w (w_eng x) /\ w' = w /\
     ((r = None /\ ctx_done w (w_eng x) = true) \/
      (r = Some (mkWaiter (w_eng x) (w_cell x) (S (w_next x))) /\ (w_eng x, w_next x) ∈ readies w) \/
      (r = Some x /\ ((w_eng x, w_next x) ∉ readies w) /\ ctx_done w (w_eng x) = false))).
Proof.
  intros Ho Hstep. unfold waiter_step in Hstep.
  erewrite bind_step in Hstep by reflexivity. cbn beta zeta in Hstep. fold (plugins w (w_eng x)) in Hstep.
  destruct (Nat.leb_spec (plugins w (w_eng x)) (w_next x)) as [Hle|Hlt].
  - left. split; [done|]. destruct (markReady_run (w_cell x) o w Ho) as [ms Hm].
    erewrite bind_step in Hstep by exact Hm. injection Hstep as <- <-. split; [done|by exists ms].
  - right. split; [done|]. case_bool_decide as Hrd; destruct (ctx_done w (w_eng x)), p;
      simpl in Hstep; injection Hstep as <- <-; split; auto.
Qed.

(** The waiters after a turn of the one at [i]. *)
Definition turned (i : nat) (r : option waiter) (l : list waiter) : list waiter :=
  match r with Some y => <[i := y]> l | None => delete i l end.

Lemma turned_in i x r z l : l !! i = Some x -> z ∈ turned i r l -> z ∈ l \/ r = Some z.
Proof.
  intros Hi. destruct r as [y|]; simpl; [|intros Hz; left; by eapply list_elem_of_delete_inv].
  intros [j Hj]%list_elem_of_lookup_1. destruct (decide (i = j)) as [->|Hne].
  - rewrite list_lookup_insert_eq in Hj by (by eapply lookup_lt_Some). simplify_eq. by right.
  - rewrite list_lookup_insert_ne in Hj by done. left. by eapply list_elem_of_lookup_2.
Qed.

Lemma turned_other i x r z l : l !! i = Some x -> z ∈ l -> z = x \/ z ∈ turned i r l.
Proof.
  intros Hi [j Hj]%list_elem_of_lookup_1. destruct (decide (i = j)) as [->|Hne]; [left; congruence|right].
  destruct r as [y|]; simpl.
  - apply list_elem_of_lookup_2 with j. by rewrite list_lookup_insert_ne.
  - pose proof (delete_Permutation l i x Hi) as Hp.
    assert (Hz : z ∈ x :: delete i l) by (rewrite <- Hp; by eapply list_elem_of_lookup_2).
    destruct (decide (j < i)) as [Hlt|Hge].
    + apply list_elem_of_lookup_2 with j. by rewrite list_lookup_delete_lt.
    + apply list_elem_of_lookup_2 with (j - 1). rewrite list_lookup_delete_ge by lia.
      by replace (S (j - 1)) with j by lia.
Qed.

(** Changing only the waiters: each one left must have come from its signals, and
    those that are gone must not be needed. *)
Lemma sync_waiters f w : sync w ->
  (forall x, x ∈ f (waiters w) -> w_next x <= plugins w (w_eng x) /\ signalled w (w_eng x) (w_next x)) ->
  (forall x, x ∈ waiters w -> ctx_done w (w_eng x) = true \/
     exists y, y ∈ f (waiters w) /\ w_eng y = w_eng x /\ w_cell y = w_cell x) ->
  sync (on_waiters f w).
Proof.
  intros [S1 S2 S3] Hl Hn. split; [exact Hl|exact S2|]. intros c o e Ho He.
  destruct (S3 c o e Ho He) as [?|[?|(x & Hx & <- & <-)]]; [by left|by right; left|right].
  destruct (Hn x Hx) as [?|(y & Hy & ? & ?)]; [by left|]. right. by exists y.
Qed.

Lemma sync_waiter i x p r w w' : wf w -> sync w -> waiters w !! i = Some x -> waiter_step p x w = (r, w') ->
  sync (on_waiters (turned i r) w').
Proof.
  intros Hw Hs Hi Hstep. pose proof Hs as [S1 S2 S3].
  assert (Hx : x ∈ waiters w) by by eapply list_elem_of_lookup_2.
  destruct (wf_waiters w Hw x Hx) as (y & Hy & Hpar).
  destruct (wf_engines w Hw _ _ Hy) as [_ [o Ho]]. rewrite Hpar in Ho.
  destruct (waiter_turn p x o w r w' Ho Hstep) as [(Hle & -> & ms & ->)|(Hlt & -> & Hr)].
  - set (v := on_waiters (turned i None) w).
    change (on_waiters _ (note ms (put (w_cell x) (ready_cell (now w) o) w)))
      with (note ms (put (w_cell x) (ready_cell (now w) o) v)).
    assert (Hv : sync (put (w_cell x) (ready_cell (now w) o) v)).
    { apply (sync_ready _ o _ (w_eng x)).
      - exact Ho.
      - apply closed_ready.
      - apply ready_cell_closes. by apply (wf_cells w Hw _ _ Ho).
      - by exists y.
      - intros j Hj. apply (S1 x Hx). change (plugins v (w_eng x)) with (plugins w (w_eng x)) in Hj. lia.
      - intros z Hz. apply S1. by destruct (turned_in i x None z _ Hi Hz).
      - intros c1 o1 _. apply S2.
      - intros c1 o1 e1 Hne Ho1 He1. destruct (S3 c1 o1 e1 Ho1 He1) as [?|[?|(z & Hz & Hze & Hzc)]]; auto.
        right. right. exists z. split; [|done].
        destruct (turned_other i x None z _ Hi Hz) as [->|?]; [congruence|done]. }
    destruct Hv. by split.
  - apply sync_waiters; [done| |].
    + intros z Hz. destruct (turned_in i x r z _ Hi Hz) as [?|Hrz]; [by apply S1|].
      destruct Hr as [[? _]|[[? Hin]|[? _]]]; simplify_eq; [|by apply S1].
      simpl. split; [lia|]. intros j Hj. destruct (decide (j = w_next x)) as [->|]; [done|].
      apply (S1 x Hx). lia.
    + intros z Hz. destruct (turned_other i x r z _ Hi Hz) as [->|?]; [|right; by exists z].
      pose proof (lookup_lt_Some _ _ _ Hi) as Hlen.
      destruct Hr as [[-> ?]|[[-> _]|[-> _]]]; [by left|right; eexists..];
        (split; [apply list_elem_of_lookup_2 with i; simpl; by apply list_lookup_insert_eq|done]).
Qed.

(** ** All interleavings *)

Context (m : Manager).

Lemma calm_sync w w' : wf w -> calm w w' -> sync w -> sync w'.
Proof. intros Hw. apply sync_calm. by apply wf_bounded. Qed.

Lemma calm_drain_end t w : calm w (exec (drain_end t) w).
Proof. apply moves_drain_end, frame_calm. Qed.

Lemma calm_counted n e w : calm w (on_engines (alter (add_wg n) e) w).
Proof. by apply calm_alter_engine. Qed.

Lemma sync_background s s' : inv m s -> sync (W s) -> background m s s' -> sync (W s').
Proof.
  intros Hi Hs Hb. pose proof (i_wf m s Hi) as Hw.
  destruct Hb as [t w s Hn _|j t s _ _|j t s _|j x p r w s Hx Hr|e j s|t s|c e s _|j c e s _|j c e s _|j c e s _];
    simpl; try done.
  - apply (calm_sync (W s)); [done| |done]. unfold drain_next in Hn.
    destruct (drainCh (W s)) as [|t' q]; simplify_eq.
    apply (calm_trans _ (on_drainCh (fun _ => q) (W s))); [by apply calm_id|].
    apply (fr_cancel calm frame_calm).
  - apply (calm_sync (W s)); [done|apply calm_drain_end|done].
  - apply (calm_sync (W s)); [done|apply calm_drain_end|done].
  - by eapply sync_waiter.
  - destruct Hs as [S1 S2 S3]. split; [|intros c o Ho Hc|exact S3].
    + intros x Hx. destruct (S1 x Hx) as [Hn Hs]. split; [exact Hn|]. intros k Hk. simpl. set_solver.
    + destruct (S2 c o Ho Hc) as (e' & Hown & Hsy). exists e'. split; [exact Hown|].
      intros k Hk. specialize (Hsy k Hk). simpl. set_solver.
  - destruct Hs as [S1 S2 S3]. by split.
  - apply (calm_sync (W s)); [done|apply calm_counted|done].
  - apply (calm_sync (W s)); [done|apply calm_counted|done].
Qed.

Lemma sync_step s s' : inv m s -> sync (W s) -> step m s s' -> sync (W s').
Proof.
  intros Hi Hs Hst. pose proof (i_wf m s Hi) as Hw.
  destruct Hst as [k r s|k s|k raw s|x s|s s' Hb].
  - apply (calm_sync (W s)); [done|apply moves_Ensure, frame_calm|done].
  - apply (calm_sync (W s)); [done|apply moves_Drop, frame_calm|done].
  - by apply sync_ApplyConfig.
  - apply (calm_sync (W s)); [done|by apply calm_id|done].
  - by apply (sync_background s s').
Qed.

Lemma sync_reach sc s : reach (step m) (init sc) s -> sync (W s).
Proof.
  intros Hr. assert (H : inv m s /\ sync (W s)); [|by destruct H].
  apply (reach_invariant (step m) (fun s => inv m s /\ sync (W s)) (init sc) s); [|split; [apply init_inv|split]|done].
  - intros s1 s2 [Hi Hs] Hst. split; [by eapply inv_step|by eapply sync_step].
  - intros x Hx. by apply not_elem_of_nil in Hx.
  - intros c o Ho. done.
  - intros c o e Ho. done.
Qed.

(** A cell reports ready only after its first endpoint sync: in every reachable
    state, whatever ran in between, a cell whose ready channel is closed has had
    an engine all of whose discovery plugins have signalled. *)
Theorem ready_after_discovery sc s c :
  reach (step m) (init sc) s -> (Cell_Ready c (W s)).1 = true ->
  exists e x, engines (W s) !! e = Some x /\ parent x = c /\
    forall i, i < length (discovery (eng x)) -> (e, i) ∈ readies (W s).
Proof.
  intros Hr Hc. pose proof (sync_reach sc s Hr) as Hs.
  unfold Cell_Ready in Hc. rewrite St_bind_run in Hc. unfold load, gets in Hc. cbn [fst snd] in Hc.
  destruct (cells (W s) !! c) as [o|] eqn:Ho; [|done]. apply Nat.ltb_lt in Hc. simpl in Hc.
  destruct (sy_ready _ Hs c o Ho Hc) as (e & (x & Hx & Hp) & Hsy). exists e, x.
  split; [done|]. split; [done|]. unfold synced, plugins in Hsy. by rewrite Hx in Hsy.
Qed.

(** ** Waiters finish *)

(** An effective turn: the waiter moves on, gives up or marks its cell ready. *)
Inductive advance : sys -> sys -> Prop :=
| advance_intro i x p r w s :
    waiters (W s) !! i = Some x -> waiter_step p x (W s) = (r, w) -> r <> Some x ->
    advance s (set_W (on_waiters (turned i r) w) s).

Lemma advance_step s s' : advance s s' -> step m s s'.
Proof. intros [i x p r w s0 Hi Hr _]. apply st_background. by apply (st_waiter m i x p r w). Qed.

(** Turns left. *)
Definition left_of (w : World) (x : waiter) : nat := S (plugins w (w_eng x)) - w_next x.
Definition turns_left (w : World) : nat := sum_list_with (left_of w) (waiters w).

Lemma sum_delete {A} (f : A -> nat) l i x : l !! i = Some x ->
  sum_list_with f l = f x + sum_list_with f (delete i l).
Proof.
  revert i. induction l as [|y l IH]; intros [|i] Hi; simplify_eq/=; [done|]. rewrite (IH i Hi). lia.
Qed.
Lemma sum_insert {A} (f : A -> nat) l i x y : l !! i = Some x ->
  f x + sum_list_with f (<[i := y]> l) = f y + sum_list_with f l.
Proof.
  revert i. induction l as [|z l IH]; intros [|i] Hi; simplify_eq/=; [lia|]. specialize (IH i Hi). lia.
Qed.

(** What a turn leaves: engines, signals, and of every cell the engine pointer and
    whether it is closed; a ready cell stays ready. *)
Definition keeps (w w' : World) : Prop :=
  engines w' = engines w /\ readies w' = readies w /\
  forall c o, cells w !! c = Some o -> exists o', cells w' !! c = Some o' /\
    c_engine o' = c_engine o /\ c_closed o' = c_closed o /\ readyCloses o <= readyCloses o'.

Lemma advance_keeps s s' : inv m s -> sync (W s) -> advance s s' ->
  keeps (W s) (W s') /\ turns_left (W s') < turns_left (W s).
Proof.
  intros Hinv Hs Ht. revert Hinv Hs. destruct Ht as [i x p r w s0 Hi Hstep Hne]. intros Hinv Hs. pose proof (i_wf m s0 Hinv) as Hw.
  assert (Hx : x ∈ waiters (W s0)) by by eapply list_elem_of_lookup_2.
  destruct (wf_waiters _ Hw x Hx) as (y & Hy & Hpar).
  destruct (wf_engines _ Hw _ _ Hy) as [_ [o Ho]]. rewrite Hpar in Ho.
  destruct (sy_waiters _ Hs x Hx) as [Hle _]. unfold turns_left.
  pose proof (sum_delete (left_of (W s0)) _ i x Hi) as Hdel.
  assert (Hpos : 0 < left_of (W s0) x) by (unfold left_of; lia).
  destruct (waiter_turn p x o (W s0) r w Ho Hstep) as [(_ & -> & ms & ->)|(Hlt & -> & Hr)].
  - split.
    + split; [done|]. split; [done|]. intros c1 o1 Ho1. simpl.
      destruct (decide (c1 = w_cell x)) as [->|Hc]; [rewrite lookup_insert_eq|rewrite lookup_insert_ne by done; by exists o1].
      assert (o1 = o) as -> by congruence. exists (ready_cell (now (W s0)) o). split; [done|].
      unfold ready_cell. destruct (c_once o); [done|]. case_decide; simpl; split_and!; (done || lia).
    + change (waiters (W (set_W _ s0))) with (delete i (waiters (W s0))).
      change (left_of (W (set_W _ s0))) with (left_of (W s0)). lia.
  - split; [split; [done|split; [done|]]; intros c1 o1 Ho1; by exists o1|].
    change (waiters (W (set_W _ s0))) with (turned i r (waiters (W s0))).
    change (left_of (W (set_W _ s0))) with (left_of (W s0)).
    destruct Hr as [[-> _]|[[-> _]|[-> _]]]; simpl; [lia| |done].
    pose proof (sum_insert (left_of (W s0)) _ i x (mkWaiter (w_eng x) (w_cell x) (S (w_next x))) Hi) as Hins.
    unfold left_of in Hins at 1 3. simpl in Hins. unfold left_of in Hpos. lia.
Qed.

Lemma keeps_trans w1 w2 w3 : keeps w1 w2 -> keeps w2 w3 -> keeps w1 w3.
Proof.
  intros (E2 & R2 & C2) (E3 & R3 & C3). split; [congruence|]. split; [congruence|].
  intros c o Ho. destruct (C2 c o Ho) as (o2 & Ho2 & P2 & D2 & N2).
  destruct (C3 c o2 Ho2) as (o3 & Ho3 & P3 & D3 & N3). exists o3. split_and!; [done|congruence|congruence|lia].
Qed.

Lemma keeps_alive w w' e : is_Some (engines w !! e) -> wf w -> keeps w w' -> ctx_done w' e = ctx_done w e.
Proof.
  intros [x Hx] Hw (He & _ & Hc). unfold ctx_done. rewrite He, Hx.
  destruct (wf_engines w Hw e x Hx) as [_ [o Ho]]. destruct (Hc _ o Ho) as (o' & -> & _ & Hcl & _).
  by rewrite Ho; simpl; rewrite Hcl.
Qed.

Lemma advances_keep n s s' : inv m s -> sync (W s) -> nsteps advance n s s' ->
  inv m s' /\ sync (W s') /\ keeps (W s) (W s') /\ n + turns_left (W s') <= turns_left (W s).
Proof.
  intros Hi Hs Hn. induction Hn as [s|n s1 s2 s3 Ht Hn IH].
  - split_and!; [done|done|split; [done|split; [done|]]; intros c o Ho; by exists o|lia].
  - destruct (advance_keeps s1 s2 Hi Hs Ht) as [Hk Hlt]. apply advance_step in Ht.
    destruct IH as (Hi' & Hs' & Hk' & Hle); [by eapply inv_step|by eapply sync_step|].
    split_and!; [done|done|by eapply keeps_trans|lia].
Qed.

(** A waiter whose engine is live and fully signalled can take a turn. *)
Lemma waiter_can_turn s x : inv m s -> x ∈ waiters (W s) -> synced (W s) (w_eng x) ->
  exists s', advance s s'.
Proof.
  intros Hi Hx Hsy. pose proof (i_wf m s Hi) as Hw.
  destruct (wf_waiters _ Hw x Hx) as (y & Hy & Hpar).
  destruct (wf_engines _ Hw _ _ Hy) as [_ [o Ho]]. rewrite Hpar in Ho.
  apply list_elem_of_lookup_1 in Hx as [i Hi'].
  destruct (waiter_step false x (W s)) as [r w] eqn:Hstep.
  exists (set_W (on_waiters (turned i r) w) s). apply (advance_intro i x false r w); [done|done|].
  destruct (waiter_turn false x o (W s) r w Ho Hstep) as [(_ & -> & _)|(Hlt & _ & Hr)]; [done|].
  destruct Hr as [[-> _]|[[-> _]|(_ & Hno & _)]]; [done| |].
  - intros [= Heq]. destruct x as [e c n]. simpl in Heq. injection Heq as Heq. lia.
  - by destruct Hno; apply Hsy.
Qed.

(** C15. Liveness: from any reachable state the waiters can take only so many
    effective turns, one more than the plugins each still waits for; and once they
    can go no further, every cell whose current engine is live and has all its
    plugins synced is ready, in whatever order the turns were taken. *)
Theorem waiting_ends sc s n s' :
  reach (step m) (init sc) s -> nsteps advance n s s' ->
  n <= turns_left (W s) /\
  ((exists s'', advance s' s'') \/
   forall c o e, cells (W s) !! c = Some o -> c_engine o = Some e -> ctx_done (W s) e = false ->
     synced (W s) e -> (Cell_Ready c (W s')).1 = true).
Proof.
  intros Hr Hn. pose proof (inv_reach m sc s Hr) as Hi. pose proof (sync_reach sc s Hr) as Hs.
  destruct (advances_keep n s s' Hi Hs Hn) as (Hi' & Hs' & Hk & Hle). split; [lia|].
  destruct (decide (Exists (fun x => signalled (W s') (w_eng x) (plugins (W s') (w_eng x))) (waiters (W s')))) as [Hex|Hno].
  { left. apply Exists_exists in Hex as (x & Hx & Hsy). by apply (waiter_can_turn s' x). }
  right. intros c o e Ho He Hd Hsy. pose proof Hk as (HE & HR & HC).
  destruct (HC c o Ho) as (o' & Ho' & He' & _ & _).
  assert (Hsy' : synced (W s') e) by (unfold synced, signalled, plugins; rewrite HE, HR; exact Hsy).
  destruct (sy_current _ Hs' c o' e Ho') as [Hready|[Hdone|(x & Hx & <- & _)]]; [congruence| | |].
  - unfold Cell_Ready. rewrite St_bind_run. unfold load, gets. cbn [fst snd]. rewrite Ho'. simpl.
    by apply Nat.ltb_lt.
  - destruct (wf_ptr _ (i_wf m s Hi) c o e Ho He) as (y & Hy & _).
    rewrite (keeps_alive (W s)) in Hdone; [congruence|by exists y|by apply (i_wf m s)|done].
  - destruct Hno. apply Exists_exists. by exists x.
Qed.
End Readiness.

(** ** Witnesses: a first configuration with a discovery plugin *)

Module ToyReadiness.
#[local] Existing Instance ToyLlmd.toy.

Definition started : sys := ToySystem.do (fun w => exec (ApplyConfig Toy.mgr "a" "disc") w) ToySystem.s1.
Definition signal : sys := set_W (on_readies (fun r => {[(0, 0)]} ∪ r) (W started)) started.
(** The only waiter takes a turn: it sees the signal, and then marks the cell ready. *)
Definition take_turn (x : waiter) (s : sys) : sys :=
  let rw := waiter_step false x (W s) in set_W (on_waiters (turned 0 rw.1) rw.2) s.
Definition seen : sys := take_turn (mkWaiter 0 0 0) signal.
Definition ready : sys := take_turn (mkWaiter 0 0 1) seen.

Lemma turn_taken x s : waiters (W s) !! 0 = Some x -> (waiter_step false x (W s)).1 <> Some x ->
  advance s (take_turn x s).
Proof. intros Hx Hr. by apply (advance_intro 0 x false _ _ s Hx (surjective_pairing _) Hr). Qed.

Lemma turn_seen : advance signal seen.
Proof. apply turn_taken; vm_compute; [reflexivity|discriminate]. Qed.
Lemma turn_ready : advance seen ready.
Proof. apply turn_taken; vm_compute; [reflexivity|discriminate]. Qed.

Lemma run_signal : reach (step Toy.mgr) ToySystem.s0 signal.
Proof.
  eapply reach_snoc; [eapply reach_snoc; [eapply reach_snoc; [constructor|]|]|].
  - apply (st_Ensure Toy.mgr "a" RolePrimary).
  - apply (st_ApplyConfig Toy.mgr "a" "disc").
  - apply st_background, (st_ready Toy.mgr 0 0).
Qed.

Lemma turns : nsteps advance 2 signal ready.
Proof. eapply nsteps_l; [apply turn_seen|]. eapply nsteps_l; [apply turn_ready|constructor]. Qed.

Lemma run_ready : reach (step Toy.mgr) ToySystem.s0 ready.
Proof.
  eapply reach_snoc; [eapply reach_snoc; [apply run_signal|]|].
  - apply advance_step, turn_seen.
  - apply advance_step, turn_ready.
Qed.
End ToyReadiness.

Lemma ready_after_discovery_witness :
  exists e x, engines (L := ToyLlmd.toy) (W ToyReadiness.ready) !! e = Some x /\
    forall i, i < length (discovery (eng x)) -> (e, i) ∈ readies (W ToyReadiness.ready).
Proof.
  destruct (@ready_after_discovery ToyLlmd.toy Toy.mgr 0 ToyReadiness.ready 0 ToyReadiness.run_ready)
    as (e & x & Hx & _ & Hs); [vm_compute; reflexivity|].
  exists e, x. exact (conj Hx Hs).
Defined.

Lemma waiting_ends_witness : 2 <= turns_left (L := ToyLlmd.toy) (W ToyReadiness.signal).
Proof.
  exact (proj1 (@waiting_ends ToyLlmd.toy Toy.mgr 0 ToyReadiness.signal 2 ToyReadiness.ready
    ToyReadiness.run_signal ToyReadiness.turns)).
Defined.
