(* ===== verification/Races.v ===== *)
(** * Where a method is not atomic: [markReady] against the manager

    Elsewhere [markReady] is one step.  It is a test of the lifecycle state
    followed by a store to it, run by the goroutine that waits for discovery,
    while the epp_data goroutine stores to the same field.  Here the two halves
    are apart, and a call of the manager comes between them. *)

From S2P Require Import Prelude.
From S2P Require Import Threads.
From S2P Require Import GoStd.
From S2P Require Import Sha256.
From S2P Require Import Role.
From S2P Require Import Llmd.
From S2P Require Import Cell.
From S2P Require Import Compile.
From S2P Require Import Manager.
From S2P Require Import ManagerFacts.
From S2P Require Import WellFormed.
From S2P Require Import ManagerSpec.
From S2P Require Import InnerApi.
From S2P Require Import EppData.
From S2P Require Import Frame.
From S2P Require Import Poller.
From S2P Require Import Lifecycle.
From S2P Require Import System.
From S2P Require Import Interleaved.
Local Open Scope Z_scope.

Section Races.
Context {L : LlmdRouter}.

(** What runs inside [readyOnce.Do] before the state is looked at; [false] when
    it has run before. *)
Definition markReady_open (c : nat) : St World bool :=
  once ← load c_once true c;
  if once : bool then mret false else t ← gets now; on_cell (set_ready t) c ;; mret true.

(** [(c *Cell) markReady()], action by action *)
Definition markReady_prog (c : nat) : prog sys unit :=
  fresh ← invoke (markReady_open c);
  if fresh : bool then
    s ← invoke (Cell_State c);
    if decide (s = StateCreating) then invoke (setState c StateStandby) else mret tt
  else mret tt.

Lemma markReady_halves c w :
  markReady c w =
  (fresh ← markReady_open c;
   if fresh : bool then
     s ← Cell_State c; if decide (s = StateCreating) then setState c StateStandby else mret tt
   else mret tt) w.
Proof.
  unfold markReady, markReady_open. rewrite !St_bind_run. cbn [fst snd load gets].
  destruct (from_option c_once true (cells w !! c)); [done|]. by rewrite !St_bind_run.
Qed.

Lemma markReady_prog_run c s : run (markReady_prog c) s = on_sys (markReady c) s.
Proof.
  rewrite (on_sys_ext _ _ s (markReady_halves c (W s))), on_sys_bind.
  unfold markReady_prog. rewrite run_bind, !St_bind_run, run_invoke.
  destruct (on_sys (markReady_open c) s) as [[] s1]; cbn [fst snd]; [|symmetry; apply on_sys_ret].
  rewrite run_bind, on_sys_bind, !St_bind_run, run_invoke.
  case_decide; [apply run_invoke|symmetry; apply on_sys_ret].
Qed.

(** The interleaving: [f] between the test and the store. *)
Definition overtaken (f : World -> World) (c : nat) (w : World) : World :=
  exec (setState c StateStandby) (f (exec (markReady_open c) w)).

Lemma overtaken_interleaved m f c o s :
  (forall s, step m s (set_W (f (W s)) s)) ->
  cells (W s) !! c = Some o -> c_once o = false -> c_state o = StateCreating ->
  interleaved (step m) (markReady_prog c) s tt (set_W (overtaken f c (W s)) s).
Proof.
  intros Hf Ho Hon Hs. exists s. split; [constructor|].
  assert (Hopen : markReady_open c (W s) = (true, put c (set_ready (now (W s)) o) (W s))).
  { unfold markReady_open. step (load_run _ _ _ _ _ Ho). rewrite Hon. step gets_run.
    by step (on_cell_run _ _ _ _ Ho). }
  rewrite (on_sys_run _ _ _ _ Hopen). cbn [fst snd]. unfold overtaken. rewrite Hopen. cbn [snd].
  set (w1 := put c (set_ready (now (W s)) o) (W s)). exists (set_W w1 s). split; [constructor|].
  assert (Hst : Cell_State c w1 = (StateCreating, w1)).
  { unfold Cell_State. rewrite (load_run _ _ _ (set_ready (now (W s)) o)) by apply cells_put. simpl. by rewrite Hs. }
  rewrite (on_sys_run _ (set_W w1 s) _ _ Hst). cbn [fst snd prog_bind prog_mbind].
  exists (set_W (f w1) (set_W w1 s)). split; [apply reach_one, (Hf (set_W w1 s))|].
  split; [done|constructor].
Qed.

Lemma put_enqueue c o t w : put c o (enqueue t w) = enqueue t (put c o w).
Proof. done. Qed.

(** Promoting a live cell that is not primary. *)
Lemma Ensure_promotes m k c o w :
  registry w !! k = Some c -> cells w !! c = Some o -> c_state o = StateStandby ->
  exists ms o', exec (Ensure m k RolePrimary) w = note ms (put c o' w) /\
    c_key o' = c_key o /\ c_hash o' = c_hash o /\ c_state o' <> StateDraining /\ c_role o' = RolePrimary.
Proof.
  intros Hr Hc Hs. destruct (Ensure_known m k c RolePrimary o w Hr Hc) as [ms ->]. exists ms.
  unfold role_applied. destruct (decide (c_role o = RolePrimary)) as [Hp|Hp].
  - exists o. rewrite put_id by done. by rewrite Hs.
  - rewrite decide_False by congruence. exists (promoted o). unfold promoted. by rewrite Hs.
Qed.

(** C39. A lost update: when a cluster is dropped just as its discovery becomes
    ready, [markReady] may have seen [CREATING] and store [STANDBY] over
    [DRAINING].  The cluster then looks alive while its teardown is queued; the
    next snapshot may promote it and will find its configuration unchanged, and
    the drain worker then removes it all the same. *)
Theorem ready_undoes_drop m k c o e raw s :
  registry (W s) !! k = Some c -> cells (W s) !! c = Some o -> c_key o = k ->
  c_state o = StateCreating -> c_once o = false -> c_engine o = Some e ->
  c_hash o = Some (HashConfig raw) -> (length (drainCh (W s)) < drain_capacity)%nat ->
  exists s', interleaved (step m) (markReady_prog c) s tt s' /\
    mkTask c e true ∈ drainCh (W s') /\
    (exists l, view_at (W s') k = Live l /\ l_state l = StateStandby) /\
    let w := exec (Ensure m k RolePrimary) (W s') in
    (exists l, view_at w k = Live l /\ l_role l = RolePrimary) /\
    ApplyConfig m k raw w = ((false, None), w) /\
    view_at (exec (drain (mkTask c e true)) w) k = Absent.
Proof.
  intros Hr Ho Hk Hs Hon He Hh Hq. set (f := fun w => exec (Drop k) w).
  exists (set_W (overtaken f c (W s)) s).
  split; [by apply (overtaken_interleaved m f c o); [intros; apply st_Drop|..]|].
  set (o1 := set_ready (now (W s)) o). set (o2 := set_state StateStandby (dropped o1)).
  assert (Hopen : exec (markReady_open c) (W s) = put c o1 (W s)).
  { unfold markReady_open. step (load_run _ _ _ _ _ Ho). rewrite Hon. step gets_run.
    by step (on_cell_run _ _ _ _ Ho). }
  assert (Hov : exists ms, overtaken f c (W s) = note ms (enqueue (mkTask c e true) (put c o2 (W s)))).
  { unfold overtaken, f. rewrite Hopen.
    destruct (Drop_run k c o1 (put c o1 (W s)) Hr (cells_put _ _ _) Hk) as [ms ->]. cbn [snd].
    rewrite put_put. unfold drain_engine. change (c_engine (dropped o1)) with (c_engine o). rewrite He.
    unfold scheduled. rewrite decide_True by done.
    rewrite (setState_run c StateStandby (dropped o1)) by apply cells_put. cbn [snd].
    eexists. by rewrite put_note, note_note, put_enqueue, put_put. }
  destruct Hov as [ms Hov]. cbn [W set_W]. rewrite Hov, <- put_enqueue.
  set (w1 := enqueue (mkTask c e true) (W s)).
  split; [simpl; apply elem_of_app; right; left|].
  assert (Hview : forall ms o', c_state o' <> StateDraining ->
    view_at (note ms (put c o' w1)) k = Live (live_of o')).
  { intros ms' o' Hs'. rewrite (view_registered (note ms' (put c o' w1)) k c o' Hr (cells_put c o' w1)).
    unfold view_of. by rewrite decide_False. }
  split; [exists (live_of o2); by rewrite Hview|].
  destruct (Ensure_promotes m k c o2 (note ms (put c o2 w1))) as (ms' & o3 & -> & Hk3 & Hh3 & Hs3 & Hr3);
    [done|apply cells_put|done|]. rewrite put_note, put_put, note_note.
  cbn zeta. set (w := note _ (put c o3 w1)).
  split; [exists (live_of o3); split; [by apply Hview|done]|].
  split; [apply (ApplyConfig_unchanged m k raw c o3); [done|apply cells_put|done|by rewrite Hh3]|].
  destruct (drain_run (mkTask c e true) o3 w (cells_put _ _ _)) as [ms2 ->]. cbn [snd].
  unfold view_at. simpl. rewrite Hk3. simpl. rewrite Hk, decide_True by done. by rewrite lookup_delete_eq.
Qed.

(** In the same way a promotion is half undone: the cell has the primary role and
    reads [STANDBY], and ensuring the role again changes nothing. *)
Theorem ready_undoes_promotion m k c o s :
  registry (W s) !! k = Some c -> cells (W s) !! c = Some o ->
  c_state o = StateCreating -> c_once o = false -> c_role o <> RolePrimary ->
  exists s' l, interleaved (step m) (markReady_prog c) s tt s' /\
    view_at (W s') k = Live l /\ l_role l = RolePrimary /\ l_state l = StateStandby /\
    view_at (exec (Ensure m k RolePrimary) (W s')) k = Live l.
Proof.
  intros Hr Ho Hs Hon Hnp. set (f := fun w => exec (Ensure m k RolePrimary) w).
  set (o1 := set_ready (now (W s)) o). set (o2 := set_state StateStandby (promoted o1)).
  assert (Hopen : exec (markReady_open c) (W s) = put c o1 (W s)).
  { unfold markReady_open. step (load_run _ _ _ _ _ Ho). rewrite Hon. step gets_run.
    by step (on_cell_run _ _ _ _ Ho). }
  assert (Hov : exists ms, overtaken f c (W s) = note ms (put c o2 (W s))).
  { unfold overtaken, f. rewrite Hopen.
    destruct (Ensure_known m k c RolePrimary o1 (put c o1 (W s)) Hr (cells_put _ _ _)) as [ms ->]. cbn [snd].
    unfold role_applied. rewrite decide_False by done. rewrite decide_False by (simpl; congruence).
    rewrite put_put, (setState_run c StateStandby (promoted o1)) by apply cells_put. cbn [snd].
    eexists. by rewrite put_note, note_note, put_put. }
  destruct Hov as [ms Hov]. exists (set_W (overtaken f c (W s)) s), (live_of o2).
  split; [by apply (overtaken_interleaved m f c o); [intros; apply st_Ensure|..]|].
  cbn [W set_W]. rewrite Hov.
  assert (Hv : forall ms, view_at (note ms (put c o2 (W s))) k = Live (live_of o2)).
  { intros ms'. by rewrite (view_registered (note ms' (put c o2 (W s))) k c o2 Hr (cells_put c o2 (W s))). }
  split; [apply Hv|]. split; [done|]. split; [done|].
  destruct (Ensure_known m k c RolePrimary o2 (note ms (put c o2 (W s))) Hr (cells_put _ _ _)) as [ms' ->].
  cbn [snd]. unfold role_applied. rewrite decide_True by done. rewrite note_note. apply Hv.
Qed.
End Races.

(** ** Witnesses: cluster ["b"] of the example waits for discovery. *)

Module ToyRaces.
#[local] Existing Instance ToyLlmd.toy.
Definition s1 : sys := mkSys Toy.world1 [] [] [] [].
End ToyRaces.

Lemma ready_undoes_drop_witness :
  exists s', mkTask 1 1 true ∈ drainCh (W (L := ToyLlmd.toy) s') /\
    view_at (exec (drain (mkTask 1 1 true)) (exec (Ensure Toy.mgr "b" RolePrimary) (W s'))) "b" = Absent.
Proof.
  destruct (@ready_undoes_drop ToyLlmd.toy Toy.mgr "b" 1%nat (ToyLife.some_cell Toy.world1 1) 1%nat "disc" ToyRaces.s1)
    as (s' & _ & Ht & _ & _ & _ & Hv).
  1-7: vm_compute; reflexivity.
  - vm_compute. lia.
  - exists s'. split; [exact Ht|exact Hv].
Defined.

Lemma ready_undoes_promotion_witness :
  exists (s' : sys (L := ToyLlmd.toy)) l, view_at (W s') "b" = Live l /\ l_role l = RolePrimary /\ l_state l = StateStandby.
Proof.
  destruct (@ready_undoes_promotion ToyLlmd.toy Toy.mgr "b" 1%nat (ToyLife.some_cell Toy.world1 1) ToyRaces.s1)
    as (s' & l & _ & Hv & Hr & Hs & _).
  1-4: vm_compute; reflexivity.
  - vm_compute. discriminate.
  - exists s', l. split; [exact Hv|]. split; [exact Hr|exact Hs].
Defined.
