(* ===== verification/Demux.v ===== *)
(** * The demux server (pkg/demux/demux.go, server.go)

    [Process] is the whole life of an ext-proc stream up to the engine: it may
    panic (in llm-d or envoy code) at several points, so it runs in a monad with
    panics, a deferred [done] and a final [recover].  The envoy messages, the
    llm-d helpers that read them, and the engine's streaming server are
    parameters. *)

From S2P Require Import Prelude.
From S2P Require Import GoStd.
From S2P Require Import Role.
From S2P Require Import Llmd.
From S2P Require Import Cell.
From S2P Require Import Manager.
From S2P Require Import ManagerFacts.
From S2P Require Import WellFormed.
From S2P Require Import ManagerSpec.
From S2P Require Import InnerApi.
From S2P Require Import EppData.
From S2P Require Import Frame.
From S2P Require Import Poller.
From S2P Require Import Lifecycle.
Local Open Scope string_scope.

(** ** Errors *)

Definition MetadataNamespace : string := "llm-d.ai".
Definition PoolMetadataKey : string := "inference-pool".

Definition ErrNoPoolMetadata : error := Sentinel "ErrNoPoolMetadata" "missing inference-pool metadata".
Definition ErrUnknownPool : error := Sentinel "ErrUnknownPool" "unknown inference pool".
Definition ErrCellDraining : error :=
  Sentinel "ErrCellDraining" "cell is not serving (draining or not ready)".

(** [toStatus(err)] *)
Definition toStatus (err : error) : error :=
  if errors_Is err ErrNoPoolMetadata then StatusError Internal (Error ErrNoPoolMetadata)
  else if errors_Is err ErrUnknownPool then StatusError Internal (Error ErrUnknownPool)
  else if errors_Is err ErrCellDraining then StatusError Unavailable (Error ErrCellDraining)
  else err.

(** ** Messages *)

Record HeaderValue := mkHeader { hKey : string; hValue : string; RawValue : string }.
(** [HttpHeaders]; [None] is a nil [*HeaderMap]. *)
Record HttpHeaders := mkHttpHeaders { Headers : option (list HeaderValue) }.

(** A value of type [any], as far as the type assertions of [extractPool] see; a
    missing map entry reads as nil. *)
Inductive any := AnyNil | AnyString (s : string) | AnyMap (m : string -> any) | AnyOther.

(** A call that may panic with a value, of which [%v] prints the string. *)
Inductive outcome (A : Type) := Ret (a : A) | Panic (v : string).
Arguments Ret {A} a. Arguments Panic {A} v.

Class Envoy := {
  (* the other variants of the request oneof, and the other message fields *)
  OtherRequest : Type;
  OtherFields : Type;
  Ctx : Type;
  IntoContext : Ctx -> list (string * string) -> Ctx }.

Section Messages.
Context {E : Envoy}.

(** [ProcessingRequest.Request] *)
Inductive request :=
| ReqNil
| ReqHeaders (h : option HttpHeaders)
| ReqOther (o : OtherRequest).
Record ProcessingRequest := mkRequest { Request : request; fields : OtherFields }.

(** What [Recv] delivers, in order; after the last one, [io.EOF]. *)
Definition Stream : Type := list (result error ProcessingRequest).
Definition EOF : error := Sentinel "EOF" "EOF".
Definition Recv : St Stream (result error ProcessingRequest) := fun s =>
  match s with [] => (Err EOF, []) | m :: s' => (m, s') end.

(** [type bufferedStream struct] over the rest of the stream. *)
Record bufferedStream := mkBuffered {
  inner : Stream; inner_ctx : Ctx; first : ProcessingRequest; ctx : option Ctx; used : bool }.

(** [(b *bufferedStream) Context()] and [Recv()] *)
Definition Context (b : bufferedStream) : Ctx := default (inner_ctx b) (ctx b).
Definition buffered_Recv : St bufferedStream (result error ProcessingRequest) := fun b =>
  if negb (used b) then
    (Ok (first b), mkBuffered (inner b) (inner_ctx b) (first b) (ctx b) true)
  else let '(m, s) := Recv (inner b) in
    (m, mkBuffered s (inner_ctx b) (first b) (ctx b) (used b)).

(** Reading [n] messages. *)
Fixpoint recv_n {S A} (recv : St S A) (n : nat) : St S (list A) :=
  match n with
  | O => mret []
  | Datatypes.S n' => m ← recv; ms ← recv_n recv n'; mret (m :: ms)
  end.
End Messages.

(** ** The server *)

Section Server.
Context {L : LlmdRouter} {E : Envoy}.

(** What the server takes from llm-d: the header and metadata readers and the
    streaming server of an engine. *)
Class Handlers := {
  RequestIDHeaderKey : string;
  ExtractHeaderValue : option HttpHeaders -> string -> outcome string;
  ExtractMetadataValues : ProcessingRequest -> outcome (string -> any);
  StreamingServer_Process : option StreamingServer -> bufferedStream -> outcome (option error) }.
Context {H : Handlers}.

(** [type Router interface { Route(pool) }], and [ManagerRouter]. *)
Definition Router : Type := string -> St World (result error nat).
Definition ManagerRouter_Route : Router := fun pool =>
  c ← Get pool;
  match c with None => mret (Err ErrUnknownPool) | Some c => mret (Ok c) end.

(** [type Server struct] *)
Record Server := mkServer { router : Router; defaultPool : string }.
Definition NewServer (router : Router) (defaultPool : string) : Server := mkServer router defaultPool.

(** What a call of [Process] reads and writes: the cells, the [demuxErrors]
    counters by reason, and its stream. *)
Record DW := mkDW { world : World; demuxErrors : list string; inbox : Stream }.
Definition PM (A : Type) : Type := DW -> outcome A * DW.
#[export] Instance PM_ret : MRet PM := fun _ a w => (Ret a, w).
#[export] Instance PM_bind : MBind PM := fun _ _ f m w =>
  match m w with (Ret a, w') => f a w' | (Panic v, w') => (Panic v, w') end.

Definition call {A} (o : outcome A) : PM A := fun w => (o, w).
Definition on_world {A} (m : St World A) : PM A := fun w =>
  let '(a, x) := m (world w) in (Ret a, mkDW x (demuxErrors w) (inbox w)).
Definition recv : PM (result error ProcessingRequest) := fun w =>
  let '(m, s) := Recv (inbox w) in (Ret m, mkDW (world w) (demuxErrors w) s).
(** [demuxErrors.WithLabelValues(reason).Inc()] *)
Definition count_error (reason : string) : PM unit := fun w =>
  (Ret tt, mkDW (world w) (demuxErrors w ++ [reason])%list (inbox w)).
(** [defer d()] around [m]: [d] runs whether [m] returns or panics. *)
Definition with_defer {A} (m : PM A) (d : PM unit) : PM A := fun w =>
  let '(r, w1) := m w in
  match d w1 with (Ret _, w2) => (r, w2) | (Panic v, w2) => (Panic v, w2) end.

(** [extractPool(req)] *)
Definition extractPool (req : ProcessingRequest) : PM string :=
  md ← call (ExtractMetadataValues req);
  mret match md MetadataNamespace with
       | AnyMap ns => match ns PoolMetadataKey with AnyString v => v | _ => "" end
       | _ => ""
       end.

(** The header the server appends when the gateway supplied none. *)
Definition add_request_id (h : HttpHeaders) (id : string) : HttpHeaders :=
  mkHttpHeaders (Some (default [] (Headers h) ++ [mkHeader RequestIDHeaderKey "" id])%list).

(** The first message as the engine will see it: with [uuid] as its request id
    when it carried none. *)
Definition with_request_id (uuid id : string) (h : HttpHeaders) (msg : ProcessingRequest) :
    ProcessingRequest :=
  if decide (id = "") then mkRequest (ReqHeaders (Some (add_request_id h uuid))) (fields msg)
  else msg.

(** [eng.Streamer().Process(&bufferedStream{...})] *)
Definition serve (e : nat) (pool : string) (msg : ProcessingRequest) (sctx : Ctx) :
    PM (option error) := fun w =>
  (StreamingServer_Process (engines (world w) !! e ≫= fun x => streamer (eng x))
     (mkBuffered (inbox w) sctx msg (Some (IntoContext sctx [("pool", pool)])) false), w).

(** From the pool name on: route, check the role, track, serve. *)
Definition route (s : Server) (pool : string) (msg : ProcessingRequest) (sctx : Ctx) :
    PM (option error) :=
  c ← on_world (router s pool);
  match c with
  | Err e => count_error "unknown-pool" ;; mret (Some (toStatus e))
  | Ok c =>
      en ← on_world (Cell_Engine c);
      role ← on_world (Cell_Role c);
      match en with
      | None => count_error "cell-draining" ;; mret (Some (toStatus ErrCellDraining))
      | Some e =>
          if decide (role <> RolePrimary) then
            count_error "cell-draining" ;; mret (Some (toStatus ErrCellDraining))
          else
            ok ← on_world (Track c e);
            if negb ok then
              count_error "cell-draining" ;; mret (Some (toStatus ErrCellDraining))
            else with_defer (serve e pool msg sctx) (on_world (wg_Done e))
      end
  end.

(** [(s *Server) Process(stream)] up to the recover. [uuid] is what
    [uuid.NewString()] answers, [sctx] is [stream.Context()]. *)
Definition process_body (s : Server) (uuid : string) (sctx : Ctx) : PM (option error) :=
  m ← recv;
  match m with
  | Err e => mret (Some e)
  | Ok msg =>
      match Request msg with
      | ReqHeaders (Some h) =>
          id ← call (ExtractHeaderValue (Some h) RequestIDHeaderKey);
          let msg := with_request_id uuid id h msg in
          pool ← extractPool msg;
          let pool := if decide (pool = "") then defaultPool s else pool in
          if decide (pool = "") then
            count_error "no-pool" ;; mret (Some (toStatus ErrNoPoolMetadata))
          else route s pool msg sctx
      | _ => mret (Some (StatusError Internal "first ext-proc message is not RequestHeaders"))
      end
  end.

(** [(s *Server) Process(stream)]: the deferred [recover] turns a panic into an
    error. *)
Definition Process (s : Server) (uuid : string) (sctx : Ctx) (w : DW) : option error * DW :=
  match process_body s uuid sctx w with
  | (Ret r, w') => (r, w')
  | (Panic v, w') => (Some (StatusError Internal ("internal error: " +:+ v)), w')
  end.

(** ** Lemmas *)

Lemma add_wg_cancel e w : on_engines (alter (add_wg (-1)) e) (on_engines (alter (add_wg 1) e) w) = w.
Proof.
  destruct w. unfold on_engines. simpl. f_equal. apply map_eq. intros i.
  destruct (decide (i = e)) as [->|]; [|by rewrite !lookup_alter_ne].
  rewrite !lookup_alter_eq. destruct (_ !! e) as [[en p cn n]|]; [|done]. simpl.
  unfold add_wg. simpl. do 2 f_equal. lia.
Qed.

Lemma Track_run c e w :
  Track c e w = if bool_decide (from_option c_engine None (cells w !! c) = Some e)
    then (true, on_engines (alter (add_wg 1) e) w) else (false, w).
Proof.
  unfold Track, wg_Add, wg_Done, on_engine, modify. erewrite bind_step by reflexivity. cbn beta.
  unfold is_current, Cell_Engine, load. erewrite bind_step by (step gets_run; reflexivity). cbn.
  case_bool_decide; [done|]. erewrite bind_step by reflexivity. by rewrite add_wg_cancel.
Qed.

(** Which engine, if any, takes a request for [pool]. *)
Definition admitted (w : World) (pool : string) : result (string * error) nat :=
  match registry w !! pool with
  | None => Err ("unknown-pool", StatusError Internal "unknown inference pool")
  | Some c =>
      match cells w !! c with
      | Some o =>
          match c_engine o with
          | Some e => if decide (c_role o = RolePrimary) then Ok e
              else Err ("cell-draining", StatusError Unavailable "cell is not serving (draining or not ready)")
          | None => Err ("cell-draining", StatusError Unavailable "cell is not serving (draining or not ready)")
          end
      | None => Err ("cell-draining", StatusError Unavailable "cell is not serving (draining or not ready)")
      end
  end.

(** The pool a message names, with the server's fallback. *)
Definition pool_of (md : string -> any) (default_pool : string) : string :=
  let named := match md MetadataNamespace with
    | AnyMap ns => match ns PoolMetadataKey with AnyString v => v | _ => "" end
    | _ => "" end in
  if decide (named = "") then default_pool else named.

(** What the caller of [Process] sees of an outcome. *)
Definition recovered (o : outcome (option error)) : option error :=
  match o with Ret r => r | Panic v => Some (StatusError Internal ("internal error: " +:+ v)) end.

(** A deferred [wg.Done] pairs with the [wg.Add] of a successful [Track]. *)
Lemma serve_run e pool msg sctx w :
  let w1 := mkDW (on_engines (alter (add_wg 1) e) (world w)) (demuxErrors w) (inbox w) in
  with_defer (serve e pool msg sctx) (on_world (wg_Done e)) w1 = ((serve e pool msg sctx w1).1, w).
Proof.
  unfold with_defer, serve, on_world, wg_Done, on_engine, modify. simpl. rewrite add_wg_cancel.
  by destruct w.
Qed.

(** Tracking does not change what an engine is. *)
Lemma streamer_tracked e e' w :
  engines (on_engines (alter (add_wg 1) e) w) !! e' ≫= (fun x => streamer (eng x)) =
  engines w !! e' ≫= (fun x => streamer (eng x)).
Proof.
  simpl. destruct (decide (e' = e)) as [->|]; [|by rewrite lookup_alter_ne].
  rewrite lookup_alter_eq. by destruct (engines w !! e).
Qed.

Lemma pm_step {A B} (m : PM A) (f : A -> PM B) w a w' : m w = (Ret a, w') -> (m ≫= f) w = f a w'.
Proof. intros Hm. unfold mbind, PM_bind. by rewrite Hm. Qed.

Lemma on_world_run {A} (m : St World A) w a x :
  m (world w) = (a, x) -> on_world m w = (Ret a, mkDW x (demuxErrors w) (inbox w)).
Proof. intros Hm. unfold on_world. by rewrite Hm. Qed.

Lemma route_run dp pool msg sctx w :
  route (NewServer ManagerRouter_Route dp) pool msg sctx w =
  match admitted (world w) pool with
  | Ok e => ((serve e pool msg sctx w).1, w)
  | Err (reason, st) => (Ret (Some st), mkDW (world w) (demuxErrors w ++ [reason])%list (inbox w))
  end.
Proof.
  destruct w as [x de ib]. unfold route, admitted. cbn [router world demuxErrors inbox].
  assert (Hr : ManagerRouter_Route pool x =
    (match registry x !! pool with None => Err ErrUnknownPool | Some c => Ok c end, x)).
  { unfold ManagerRouter_Route, Get. step gets_run. by destruct (registry x !! pool). }
  erewrite pm_step by (apply on_world_run; exact Hr). cbn beta. cbn [world demuxErrors inbox].
  destruct (registry x !! pool) as [c|]; [|done].
  erewrite pm_step by (apply on_world_run; unfold Cell_Engine, load; apply gets_run). cbn beta.
  erewrite pm_step by (apply on_world_run; unfold Cell_Role, load; apply gets_run).
  cbn beta. cbn [world demuxErrors inbox].
  destruct (cells x !! c) as [o|] eqn:Ho; [|done]. cbn [from_option].
  destruct (c_engine o) as [e|] eqn:He; [|done].
  destruct (decide (c_role o = RolePrimary)) as [Hp|Hp].
  - rewrite (decide_False (P := c_role o <> RolePrimary)) by auto.
    erewrite pm_step; [|apply on_world_run; rewrite Track_run; cbn [world]; rewrite Ho; cbn [from_option];
      rewrite bool_decide_eq_true_2 by done; reflexivity].
    cbn beta. cbn [negb demuxErrors inbox].
    pose proof (serve_run e pool msg sctx (mkDW x de ib)) as Hs. cbn [world demuxErrors inbox] in Hs.
    rewrite Hs. f_equal. unfold serve. cbn [fst world inbox]. by rewrite streamer_tracked.
  - by rewrite decide_True.
Qed.

(** C18. Admission: a request whose first message carries headers and names a
    pool (or falls back to the default one) is answered by the streaming server
    of that cluster's current engine exactly when the cluster is registered, has
    an engine and holds the primary role; an unknown pool is an INTERNAL error,
    any other cluster UNAVAILABLE, each counted once under its reason. The
    engine's own panic becomes an INTERNAL error. *)
Theorem Process_admission dp uuid sctx w msg rest h id md :
  inbox w = Ok msg :: rest -> Request msg = ReqHeaders (Some h) ->
  ExtractHeaderValue (Some h) RequestIDHeaderKey = Ret id ->
  let msg' := with_request_id uuid id h msg in
  ExtractMetadataValues msg' = Ret md -> pool_of md dp <> "" ->
  let pool := pool_of md dp in
  let w1 := mkDW (world w) (demuxErrors w) rest in
  Process (NewServer ManagerRouter_Route dp) uuid sctx w =
  match admitted (world w) pool with
  | Ok e => (recovered (serve e pool msg' sctx w1).1, w1)
  | Err (reason, st) => (Some st, mkDW (world w) (demuxErrors w ++ [reason])%list rest)
  end.
Proof.
  intros Hin Hreq Hid msg' Hmd Hpool pool w1.
  assert (Hb : process_body (NewServer ManagerRouter_Route dp) uuid sctx w =
    route (NewServer ManagerRouter_Route dp) pool msg' sctx w1).
  { unfold process_body. erewrite pm_step by (unfold recv; rewrite Hin; reflexivity). cbn beta iota.
    rewrite Hreq. erewrite pm_step by (unfold call; rewrite Hid; reflexivity). cbn beta iota.
    fold msg'. unfold extractPool. erewrite pm_step.
    2: { erewrite pm_step by (unfold call; rewrite Hmd; reflexivity). reflexivity. }
    cbn beta. cbn [defaultPool]. fold (pool_of md dp). by rewrite decide_False. }
  unfold Process. rewrite Hb, route_run. change (world w1) with (world w).
  destruct (admitted (world w) pool) as [e|[reason st]]; [|done].
  unfold recovered. by destruct (serve e pool msg' sctx w1).1.
Qed.

Lemma Process_snd s uuid sctx w : (Process s uuid sctx w).2 = (process_body s uuid sctx w).2.
Proof. unfold Process. by destruct (process_body _ _ _ _) as [[r|v] w']. Qed.

(** C19. Whatever a stream does, and wherever llm-d or envoy code panics on it,
    [Process] returns, the cells and engines are as before (in particular every
    in-flight counter it incremented was decremented, so that the request cannot
    block the drain of its engine), exactly one message was taken from the
    stream by the server itself, and at most one error was counted. *)
Theorem Process_leaves_no_trace dp uuid sctx w :
  let w' := (Process (NewServer ManagerRouter_Route dp) uuid sctx w).2 in
  world w' = world w /\ inbox w' = tail (inbox w) /\
  exists counted, demuxErrors w' = (demuxErrors w ++ counted)%list /\ (length counted <= 1)%nat.
Proof.
  destruct w as [x de ib]. cbv zeta.
  set (ok := fun w' => world w' = x /\ inbox w' = tail ib /\
    exists counted, demuxErrors w' = (de ++ counted)%list /\ (length counted <= 1)%nat).
  change (ok (Process (NewServer ManagerRouter_Route dp) uuid sctx (mkDW x de ib)).2).
  assert (H0 : ok (mkDW x de (tail ib))).
  { split; [done|]. split; [done|]. exists []. rewrite app_nil_r. split; [done|simpl; lia]. }
  assert (H1 : forall r, ok (mkDW x (de ++ [r])%list (tail ib))).
  { intros r. split; [done|]. split; [done|]. exists [r]. split; [done|simpl; lia]. }
  clearbody ok. rewrite Process_snd. unfold process_body.
  erewrite pm_step by (unfold recv; cbn [inbox]; rewrite (surjective_pairing (Recv ib)); reflexivity).
  cbn beta. cbn [world demuxErrors]. assert (Hr : (Recv ib).2 = tail ib) by by destruct ib.
  rewrite Hr. destruct (Recv ib).1 as [msg|e]; [|exact H0].
  destruct (Request msg) as [|[h|]|]; try exact H0.
  unfold mbind at 1, PM_bind at 1, call at 1. destruct (ExtractHeaderValue _ _) as [id|v]; [|exact H0].
  unfold extractPool, mbind, PM_bind, call.
  destruct (ExtractMetadataValues _) as [md|v]; [|exact H0]. unfold mret, PM_ret. fold (pool_of md dp).
  cbn [defaultPool]. fold (pool_of md dp). case_decide; [apply H1|].
  rewrite route_run. cbn [world demuxErrors inbox].
  destruct (admitted x _) as [e|[reason st]]; [exact H0|apply H1].
Qed.

(** No header has the request-id key, in any case. *)
Definition no_id_header (h : HttpHeaders) : Prop :=
  forall hv, hv ∈ default [] (Headers h) -> ToLower (hKey hv) <> ToLower RequestIDHeaderKey.

(** One request id: whatever the gateway sent, the engine reads back from the
    message it is handed the id the server logged: the one the gateway supplied,
    in an untouched message, or else, when there was no such header at all, the
    one the server generated. The header reader must find a header that was
    appended where there was none. *)
Theorem request_id_reaches_the_engine uuid h msg id :
  (forall h id, no_id_header h ->
     ExtractHeaderValue (Some (add_request_id h id)) RequestIDHeaderKey = Ret id) ->
  Request msg = ReqHeaders (Some h) ->
  ExtractHeaderValue (Some h) RequestIDHeaderKey = Ret id -> (id = "" -> no_id_header h) ->
  let msg' := with_request_id uuid id h msg in
  fields msg' = fields msg /\ (id <> "" -> msg' = msg) /\
  exists h', Request msg' = ReqHeaders (Some h') /\
    ExtractHeaderValue (Some h') RequestIDHeaderKey = Ret (if decide (id = "") then uuid else id).
Proof.
  intros Hadd Hreq Hid Hno msg'. unfold msg', with_request_id. case_decide as He.
  - split; [done|]. split; [done|]. eexists. split; [reflexivity|]. by apply Hadd, Hno.
  - split; [done|]. split; [done|]. by exists h.
Qed.

(** The engine sees a complete stream: reading any number of messages from
    the buffered stream gives what the client sent, in order, starting with the
    first message, and the end of the stream where the client ended it. *)
Theorem bufferedStream_replays (b : bufferedStream) n :
  used b = false ->
  (recv_n buffered_Recv n b).1 = (recv_n Recv n (Ok (first b) :: inner b)).1.
Proof.
  intros Hb.
  assert (Hn : forall n (b : bufferedStream), used b = true ->
    (recv_n buffered_Recv n b).1 = (recv_n Recv n (inner b)).1).
  { clear. induction n as [|n IH]; intros b Hu; [done|]. cbn [recv_n]. rewrite !St_bind_run.
    set (b1 := mkBuffered (Recv (inner b)).2 (inner_ctx b) (first b) (ctx b) true).
    assert (Hr : buffered_Recv b = ((Recv (inner b)).1, b1)).
    { unfold buffered_Recv. rewrite Hu. cbn [negb]. unfold b1. by destruct (Recv (inner b)). }
    rewrite Hr. cbn. by rewrite (IH b1). }
  destruct n as [|n]; [done|]. cbn [recv_n]. rewrite !St_bind_run.
  set (b1 := mkBuffered (inner b) (inner_ctx b) (first b) (ctx b) true).
  assert (Hr : buffered_Recv b = (Ok (first b), b1)) by (unfold buffered_Recv; by rewrite Hb).
  rewrite Hr. cbn. by rewrite (Hn n b1).
Qed.
End Server.

(** ** Admission during a drain *)

Section Draining.
Context {L : LlmdRouter}.

(** The lifecycle state is not consulted: a primary cluster that was dropped
    keeps admitting requests to its engine while the drain is pending, and still
    does after the drain worker canceled that engine, until the cell leaves the
    registry. *)
Theorem draining_cell_still_admits k w c o e x :
  wf w -> registry w !! k = Some c -> cells w !! c = Some o -> c_role o = RolePrimary ->
  c_engine o = Some e -> engines w !! e = Some x -> cancel (eng x) = true ->
  (length (drainCh w) < drain_capacity)%nat ->
  let w1 := exec (Drop k) w in
  let w2 := exec (drain_begin (mkTask c e true)) w1 in
  view_at w1 k = Draining /\ admitted w1 k = Ok e /\
  view_at w2 k = Draining /\ admitted w2 k = Ok e /\ ctx_done w2 e = true.
Proof.
  intros Hwf Hr Hc Hrole He Hx Hcan Hq w1 w2.
  assert (Hk : c_key o = k) by (destruct (wf_reg w Hwf _ _ Hr) as (o1 & ? & ? & _); by simplify_eq).
  destruct (Drop_run k c o w Hr Hc Hk) as [ms Hd].
  assert (Hw1 : w1 = note ms (enqueue (mkTask c e true) (put c (dropped o) w))).
  { unfold w1. rewrite Hd. unfold drain_engine. change (c_engine (dropped o)) with (c_engine o).
    rewrite He. unfold scheduled. by rewrite decide_True. }
  assert (Hv : forall v, registry v = registry w -> cells v = <[c := dropped o]> (cells w) ->
    view_at v k = Draining /\ admitted v k = Ok e).
  { intros v Hvr Hvc. unfold view_at, admitted. rewrite Hvr, Hvc, Hr, lookup_insert_eq.
    change (c_engine (dropped o)) with (c_engine o). rewrite He.
    change (c_role (dropped o)) with (c_role o). split; [done|by rewrite decide_True]. }
  destruct (Hv w1) as [H1 H2]; [by rewrite Hw1..|].
  assert (Hw2 : w2 = cancel_eng e w1) by done.
  destruct (Hv w2) as [H3 H4]; [by rewrite Hw2, Hw1..|].
  do 4 (split; [done|]). rewrite Hw2. apply (cancel_eng_done e x); [by rewrite Hw1|done].
Qed.
End Draining.

(** ** Witnesses

    A gateway whose messages carry the pool in a field of their own, and an
    engine that answers [nil]. *)
Module ToyDemux.
#[local] Existing Instance ToyLlmd.toy.
Local Open Scope Z_scope.

#[export] Instance envoy : Envoy :=
  {| OtherRequest := unit; OtherFields := string; Ctx := list (string * string); IntoContext := fun c kvs => (kvs ++ c)%list |}.

Fixpoint find_header (hs : list HeaderValue) (key : string) : string :=
  match hs with
  | [] => ""
  | hv :: hs' => if decide (ToLower (hKey hv) = ToLower key) then RawValue hv else find_header hs' key
  end.
Definition pool_metadata (pool : string) : string -> any := fun ns =>
  if decide (ns = MetadataNamespace)
  then AnyMap (fun k => if decide (k = PoolMetadataKey) then AnyString pool else AnyNil) else AnyNil.
#[export] Instance handlers : Handlers :=
  {| RequestIDHeaderKey := "x-request-id";
     ExtractHeaderValue h key := Ret (find_header (default [] (h ≫= Headers)) key);
     ExtractMetadataValues msg := Ret (pool_metadata (fields msg));
     StreamingServer_Process _ b :=
       if decide (fields (first b) = "b") then Panic "boom" else Ret None |}.

Definition headers : HttpHeaders := mkHttpHeaders (Some [mkHeader ":path" "" "/v1"]).
Definition message (pool : string) : ProcessingRequest := mkRequest (ReqHeaders (Some headers)) pool.
Definition inbound (pool : string) : DW := mkDW Toy.world1 [] [Ok (message pool)].

Lemma find_appended hs id :
  (forall hv, hv ∈ hs -> ToLower (hKey hv) <> ToLower "x-request-id") ->
  find_header (hs ++ [mkHeader "x-request-id" "" id]) "x-request-id" = id.
Proof.
  induction hs as [|hv hs IH]; intros Hno; [reflexivity|]. simpl.
  rewrite decide_False by (apply Hno; left). apply IH. intros hv' Hin. apply Hno. by right.
Qed.
End ToyDemux.

(** Cluster ["a"] is served, and the standby ["b"] refused. *)
Lemma Process_admission_witness :
  (@Process ToyLlmd.toy ToyDemux.envoy ToyDemux.handlers (NewServer ManagerRouter_Route "") "u-1" []
     (ToyDemux.inbound "a")).1 = None /\
  (@Process ToyLlmd.toy ToyDemux.envoy ToyDemux.handlers (NewServer ManagerRouter_Route "") "u-1" []
     (ToyDemux.inbound "b")).1 =
  Some (StatusError Unavailable "cell is not serving (draining or not ready)").
Proof.
  split.
  - rewrite (@Process_admission ToyLlmd.toy ToyDemux.envoy ToyDemux.handlers "" "u-1" []
      (ToyDemux.inbound "a") (ToyDemux.message "a") [] ToyDemux.headers "" (ToyDemux.pool_metadata "a")
      eq_refl eq_refl eq_refl eq_refl); [vm_compute; reflexivity|discriminate].
  - rewrite (@Process_admission ToyLlmd.toy ToyDemux.envoy ToyDemux.handlers "" "u-1" []
      (ToyDemux.inbound "b") (ToyDemux.message "b") [] ToyDemux.headers "" (ToyDemux.pool_metadata "b")
      eq_refl eq_refl eq_refl eq_refl); [vm_compute; reflexivity|discriminate].
Defined.

Lemma request_id_reaches_the_engine_witness :
  exists h', Request (@with_request_id ToyLlmd.toy ToyDemux.envoy ToyDemux.handlers "u-1" ""
    ToyDemux.headers (ToyDemux.message "a")) = ReqHeaders (Some h') /\
    @ExtractHeaderValue _ _ ToyDemux.handlers (Some h') "x-request-id" = Ret "u-1".
Proof.
  refine (proj2 (proj2 (@request_id_reaches_the_engine ToyLlmd.toy ToyDemux.envoy ToyDemux.handlers
    "u-1" ToyDemux.headers (ToyDemux.message "a") "" _ eq_refl eq_refl _))).
  - intros h id Hno. exact (f_equal Ret (ToyDemux.find_appended _ id Hno)).
  - intros _ hv Hin. apply list_elem_of_singleton in Hin as ->. vm_compute. discriminate.
Defined.

Lemma bufferedStream_replays_witness :
  (recv_n (@buffered_Recv ToyDemux.envoy) 2
    (mkBuffered [Ok (ToyDemux.message "x")] [] (ToyDemux.message "a") None false)).1 =
  [Ok (ToyDemux.message "a"); Ok (ToyDemux.message "x")].
Proof.
  rewrite (@bufferedStream_replays ToyDemux.envoy
    (mkBuffered [Ok (ToyDemux.message "x")] [] (ToyDemux.message "a") None false) 2); reflexivity.
Defined.

Lemma draining_cell_still_admits_witness :
  admitted (L := ToyLlmd.toy) (exec (drain_begin (mkTask 0 0 true)) (exec (Drop "a") Toy.world1)) "a" = Ok 0.
Proof.
  edestruct (@draining_cell_still_admits ToyLlmd.toy "a" Toy.world1 0) as (_ & _ & _ & Ha & _);
    [exact Toy.world1_wf|vm_compute; reflexivity..| | |exact Ha].
  - vm_compute. reflexivity.
  - vm_compute. lia.
Defined.
