(* ===== verification/Requests.v ===== *)
(** * A request while everything else runs

    [Demux.route] is one function of the store; in the program a request reads
    the registry, the engine pointer and the role, counts itself in, re-checks,
    is served and counts itself out, and swaps, drops, drains and other requests
    may come between any two of these.  Here it is a program of those actions,
    and its outcome is explained by states of the run, for all interleavings. *)

From S2P Require Import Prelude.
From S2P Require Import Threads.
From S2P Require Import GoStd.
From S2P Require Import Role.
From S2P Require Import Llmd.
From S2P Require Import Cell.
From S2P Require Import Compile.
From S2P Require Import Manager.
From S2P Require Import ManagerFacts.
From S2P Require Import WellFormed.
From S2P Require Import ManagerSpec.
From S2P Require Import InnerApi.
From S2P Require Import EppData.
From S2P Require Import Frame.
From S2P Require Import Poller.
From S2P Require Import Lifecycle.
From S2P Require Import System.
From S2P Require Import Interleaved.
From S2P Require Import Demux.
Local Open Scope string_scope.

Section Requests.
Context {L : LlmdRouter} {E : Envoy} {H : Handlers}.

(** How [Process] ends once the pool is known: with a counted error, or with what
    the streaming server of an engine answered. *)
Inductive answer :=
| Refused (reason : string) (status : error)
| Served (e : nat) (r : outcome (option error)).

Definition draining_answer : answer := Refused "cell-draining" (toStatus ErrCellDraining).

(** [eng := c.Engine()]: a stream that finds an engine appears in the system,
    under the next index. *)
Definition load_engine (c : nat) : St sys (option (nat * nat)) := fun s =>
  match (Cell_Engine c (W s)).1 with
  | Some e => (Some (e, length (streams s)),
      mkSys (W s) (streams s ++ [Loaded c e]) (s_busy s) (quiesced s) (retired_clean s))
  | None => (None, s)
  end.

(** The two halves of [c.Track(eng)], and [done()]. *)
Definition count_in (i c e : nat) : St sys unit := fun s =>
  (tt, set_stream i (Added c e) (set_W (exec (wg_Add e) (W s)) s)).
Definition re_check (i c e : nat) : St sys bool := fun s =>
  let cur := (is_current c e (W s)).1 in
  (cur, set_stream i (if cur then Accepted c e else Rejected c e) s).
Definition count_out (i e : nat) : St sys unit := fun s =>
  (tt, set_stream i Finished (set_W (exec (wg_Done e) (W s)) s)).

(** [eng.Streamer().Process(...)], on the rest [rest] of the stream *)
Definition streaming (e : nat) (pool : string) (msg : ProcessingRequest) (sctx : Ctx) (rest : Stream) :
    St sys (outcome (option error)) := fun s =>
  ((serve e pool msg sctx (mkDW (W s) [] rest)).1, s).

(** From [c.Track(eng)] on. *)
Definition track_and_serve (i c e : nat) (pool : string) (msg : ProcessingRequest) (sctx : Ctx)
    (rest : Stream) : prog sys answer :=
  act (count_in i c e) ;;
  ok ← act (re_check i c e);
  if ok : bool then
    r ← act (streaming e pool msg sctx rest); act (count_out i e) ;; mret (Served e r)
  else act (count_out i e) ;; mret draining_answer.

(** From [c.Role()] on. *)
Definition loaded (i c e : nat) (pool : string) (msg : ProcessingRequest) (sctx : Ctx) (rest : Stream) :
    prog sys answer :=
  role ← invoke (Cell_Role c);
  if decide (role <> RolePrimary) then mret draining_answer
  else track_and_serve i c e pool msg sctx rest.

(** [route], action by action; with the answer, the index the stream got. *)
Definition request (pool : string) (msg : ProcessingRequest) (sctx : Ctx) (rest : Stream) :
    prog sys (answer * option nat) :=
  c ← invoke (ManagerRouter_Route pool);
  match c with
  | Err e => mret (Refused "unknown-pool" (toStatus e), None)
  | Ok c =>
      en ← act (load_engine c);
      match en with
      | None => mret (draining_answer, None)
      | Some (e, i) => a ← loaded i c e pool msg sctx rest; mret (a, Some i)
      end
  end.

(** The steps of all the others: they do not move the stream of index [i]. *)
Definition others_than (m : Manager) (i : nat) (s s' : sys) : Prop :=
  step m s s' /\ forall x, streams s !! i = Some x -> streams s' !! i = Some x.

(** ** Alone, a request is [route] *)

Definition outcome_of (a : answer) : outcome (option error) :=
  match a with Refused _ st => Ret (Some st) | Served _ r => r end.

Lemma Track_current c e w o :
  cells w !! c = Some o -> c_engine o = Some e -> (is_current c e w).1 = true.
Proof. intros Ho He. rewrite is_current_run, Ho. simpl. rewrite He. by apply bool_decide_eq_true_2. Qed.

Lemma track_alone i c e o pool msg sctx rest s de :
  cells (W s) !! c = Some o -> c_engine o = Some e ->
  run (track_and_serve i c e pool msg sctx rest) s =
  (Served e (serve e pool msg sctx (mkDW (W s) de rest)).1, set_stream i Finished s).
Proof.
  intros Ho He. unfold track_and_serve. rewrite run_bind, St_bind_run, run_act.
  set (s1 := exec (count_in i c e) s).
  rewrite run_bind, St_bind_run, run_act. unfold re_check.
  assert (Hcur : (is_current c e (W s1)).1 = true) by exact (Track_current c e (W s1) o Ho He).
  rewrite Hcur. cbn [fst snd]. rewrite run_bind, St_bind_run, run_act. cbn [fst snd streaming].
  rewrite run_bind, St_bind_run, run_act. cbn [fst snd count_out run mret prog_ret St_ret]. unfold mret, St_ret.
  f_equal; [f_equal|].
  - unfold serve. cbn [fst world inbox]. f_equal. exact (streamer_tracked e e (W s)).
  - unfold s1, count_in, set_stream, set_W, wg_Done, wg_Add, on_engine, modify. cbn [fst snd W streams s_busy quiesced retired_clean].
    rewrite add_wg_cancel, !list_insert_insert_eq. by destruct s.
Qed.

Lemma invoke_Route pool s : on_sys (ManagerRouter_Route pool) s =
  (match registry (W s) !! pool with None => Err ErrUnknownPool | Some c => Ok c end, s).
Proof.
  assert (Hr : ManagerRouter_Route pool (W s) =
    (match registry (W s) !! pool with None => Err ErrUnknownPool | Some c => Ok c end, W s)).
  { unfold ManagerRouter_Route, Get. step gets_run. by destruct (registry (W s) !! pool). }
  rewrite (on_sys_run _ s _ _ Hr). by destruct s.
Qed.


(** ** What the others can do to a request *)

Section Interleavings.
Context (m : Manager).

(** No step takes an engine away or points a cell to an engine that existed but
    was not its current one. *)
Definition pointers_kept (w w' : World) : Prop :=
  (forall e, is_Some (engines w !! e) -> is_Some (engines w' !! e)) /\
  (forall c, is_Some (cells w !! c) -> is_Some (cells w' !! c)) /\
  (forall c o' e, cells w' !! c = Some o' -> c_engine o' = Some e ->
     (exists o, cells w !! c = Some o /\ c_engine o = Some e) \/ engines w !! e = None).

Lemma evolves_kept w w' : evolves w w' -> pointers_kept w w'.
Proof.
  intros Hev. split; [|split; [|apply Hev]].
  - intros e [x Hx]. destruct (ev_kept w w' Hev e x Hx) as (x' & Hx' & _). by exists x'.
  - intros c [o Ho]. destruct (ev_ages w w' Hev c o Ho) as (o' & Ho' & _). by exists o'.
Qed.

Lemma counted_kept g e w : pointers_kept w (on_engines (alter g e) w).
Proof.
  split; [|split; by eauto]. intros e' [x Hx]. simpl. destruct (decide (e' = e)) as [->|].
  - rewrite lookup_alter_eq, Hx. by eexists.
  - rewrite lookup_alter_ne by done. by exists x.
Qed.

Lemma same_kept w w' : cells w' = cells w -> engines w' = engines w -> pointers_kept w w'.
Proof. intros Hc He. split; [by rewrite He|]. rewrite Hc. eauto. Qed.

Lemma step_kept s s' : inv m s -> step m s s' -> pointers_kept (W s) (W s').
Proof.
  intros Hi Hs. pose proof (i_wf m s Hi) as Hw.
  assert (Hend : forall j t, s_busy s !! j = Some t -> pointers_kept (W s) (exec (drain_end t) (W s))).
  { intros j t Hj. apply evolves_kept, evolves_drain_end; [done|]. apply (i_busy m s Hi).
    by eapply list_elem_of_lookup_2. }
  destruct Hs as [k r ?|k ?|k raw ?|x ?|? ? Hb].
  - by apply evolves_kept, evolves_Ensure.
  - by apply evolves_kept, evolves_Drop.
  - by apply evolves_kept, evolves_ApplyConfig.
  - by apply same_kept.
  - destruct Hb as [t w ? Hn _|j t ? Hj _|j t ? Hj|j x p r w ? Hx Hr|e j ?|t ?|c e ? _|j c e ? _|j c e ? _|j c e ? _].
    + by apply evolves_kept, (evolves_take t (W s) w).
    + by apply (Hend j).
    + by apply (Hend j).
    + apply evolves_kept. by eapply evolves_waiter.
    + by apply same_kept.
    + by apply same_kept.
    + by apply same_kept.
    + apply counted_kept.
    + by apply same_kept.
    + apply counted_kept.
Qed.

(** Along any run the invariant holds, and an engine that is current at the end
    was current all the time since it exists. *)
Lemma reach_kept s s' : inv m s -> reach (step m) s s' ->
  inv m s' /\
  (forall e, is_Some (engines (W s) !! e) -> is_Some (engines (W s') !! e)) /\
  (forall c, is_Some (cells (W s) !! c) -> is_Some (cells (W s') !! c)) /\
  (forall c o' e, cells (W s') !! c = Some o' -> c_engine o' = Some e -> is_Some (engines (W s) !! e) ->
     exists o, cells (W s) !! c = Some o /\ c_engine o = Some e).
Proof.
  intros Hi. induction 1 as [|s1 s2 Hr IH Hs]; [split_and!; eauto|].
  destruct IH as (Hi1 & He1 & Hc1 & Hp1). destruct (step_kept s1 s2 Hi1 Hs) as (He2 & Hc2 & Hp2).
  split; [by eapply inv_step|]. split; [auto|]. split; [auto|].
  intros c o' e Ho' He Hx. destruct (Hp2 c o' e Ho' He) as [(o & Ho & Heo)|Hno]; [by apply (Hp1 c o e)|].
  destruct (He1 e Hx). congruence.
Qed.

(** While the others run, the stream stays where it is. *)
Lemma others_run i s s' : inv m s -> reach (others_than m i) s s' ->
  inv m s' /\ reach (step m) s s' /\
  (forall x, streams s !! i = Some x -> streams s' !! i = Some x).
Proof.
  intros Hi Hr. assert (Hall : reach (step m) s s') by (eapply reach_mono; [|exact Hr]; by intros ? ? []).
  split; [by eapply reach_kept|]. split; [done|].
  clear Hi Hall. induction Hr as [|s1 s2 Hr IH [Hs Hk]]; auto.
Qed.

(** The engine and the cell a stream refers to exist. *)
Lemma stream_lives s i x c e : inv m s -> streams s !! i = Some x -> refers x = Some (c, e) ->
  is_Some (engines (W s) !! e) /\ is_Some (cells (W s) !! c).
Proof.
  intros Hi Hs Hx. destruct (i_ref m s Hi x c e) as (y & Hy & Hp); [by eapply list_elem_of_lookup_2|done|].
  split; [by exists y|]. rewrite <- Hp. by apply (wf_engines (W s) (i_wf m s Hi) e y Hy).
Qed.

(** A request being served keeps its engine from being found idle. *)
Lemma accepted_in_flight s i c e : inv m s -> streams s !! i = Some (Accepted c e) ->
  drained_dry (W s) e = false /\ e ∉ retired_clean s.
Proof.
  intros Hi Hs. assert (Hin : Accepted c e ∈ streams s) by by eapply list_elem_of_lookup_2.
  destruct (i_ref m s Hi _ c e Hin eq_refl) as (x & Hx & _). split.
  - unfold drained_dry. rewrite Hx. simpl. apply bool_decide_eq_false. rewrite (i_wg m s Hi e x Hx).
    pose proof (in_flight_pos e (streams s) _ Hin (bool_decide_eq_true_2 _ eq_refl)). lia.
  - intros He. destruct (i_clean m s Hi e He) as (_ & _ & Ha). by apply (Ha c).
Qed.

Lemma set_stream_lookup s i x y : streams s !! i = Some x -> streams (set_stream i y s) !! i = Some y.
Proof. intros Hx. simpl. apply list_lookup_insert_eq. by eapply lookup_lt_Some. Qed.

(** What [track_and_serve] comes to, for a stream that has loaded the engine. *)
Definition tracked_as (i c e : nat) (pool : string) (msg : ProcessingRequest) (sctx : Ctx) (rest : Stream)
    (s : sys) (a : answer) (s' : sys) : Prop :=
  match a with
  | Served e' r => e' = e /\ exists s1 s2,
      reach (step m) s s1 /\ (exists o, cells (W s1) !! c = Some o /\ c_engine o = Some e) /\
      streams s1 !! i = Some (Accepted c e) /\ reach (others_than m i) s1 s2 /\
      r = (serve e pool msg sctx (mkDW (W s2) [] rest)).1 /\ reach (step m) s2 s'
  | Refused _ _ => a = draining_answer /\ exists s1,
      reach (step m) s s1 /\ (exists o, cells (W s1) !! c = Some o /\ c_engine o <> Some e) /\
      reach (step m) s1 s'
  end.

Lemma track_interleaved i c e pool msg sctx rest s a s' :
  inv m s -> streams s !! i = Some (Loaded c e) ->
  interleaved (others_than m i) (track_and_serve i c e pool msg sctx rest) s a s' ->
  tracked_as i c e pool msg sctx rest s a s' /\ inv m s' /\ streams s' !! i = Some Finished.
Proof.
  intros Hi Hs Hrun. apply interleaved_act in Hrun as (s1 & Hb1 & Hrun).
  destruct (others_run i s s1 Hi Hb1) as (Hi1 & Hr1 & Hk1). specialize (Hk1 _ Hs).
  assert (Hst1 : step m s1 (exec (count_in i c e) s1)) by by apply st_background, st_add.
  pose proof (inv_step m _ _ Hi1 Hst1) as Hi2.
  assert (Hs2 : streams (exec (count_in i c e) s1) !! i = Some (Added c e))
    by exact (set_stream_lookup (set_W _ s1) i _ _ Hk1).
  set (s2 := exec (count_in i c e) s1) in *. clearbody s2.
  apply interleaved_act in Hrun as (s3 & Hb3 & Hrun).
  destruct (others_run i s2 s3 Hi2 Hb3) as (Hi3 & Hr3 & Hk3). specialize (Hk3 _ Hs2).
  assert (Hst3 : step m s3 (exec (re_check i c e) s3)) by by apply st_background, st_check.
  pose proof (inv_step m _ _ Hi3 Hst3) as Hi4.
  assert (Hto3 : reach (step m) s s3).
  { eapply reach_trans; [exact Hr1|]. eapply reach_cons; [exact Hst1|exact Hr3]. }
  unfold re_check in Hrun, Hst3, Hi4. cbn [fst snd] in Hrun, Hst3, Hi4.
  rewrite is_current_run in Hrun, Hst3, Hi4. case_bool_decide as Hcur.
  - set (s4 := set_stream i (Accepted c e) s3) in *.
    assert (Hs4 : streams s4 !! i = Some (Accepted c e)) by exact (set_stream_lookup s3 i _ _ Hk3).
    apply interleaved_act in Hrun as (s5 & Hb5 & Hrun). cbn [fst snd streaming] in Hrun.
    destruct (others_run i s4 s5 Hi4 Hb5) as (Hi5 & Hr5 & Hk5). specialize (Hk5 _ Hs4).
    apply interleaved_act in Hrun as (s6 & Hb6 & [<- Hb7]).
    destruct (others_run i s5 s6 Hi5 Hb6) as (Hi6 & Hr6 & Hk6). specialize (Hk6 _ Hk5).
    assert (Hst6 : step m s6 (exec (count_out i e) s6)) by (apply st_background, (st_done m i c e); by left).
    pose proof (inv_step m _ _ Hi6 Hst6) as Hi7.
    assert (Hs7 : streams (exec (count_out i e) s6) !! i = Some Finished)
      by exact (set_stream_lookup (set_W _ s6) i _ _ Hk6).
    destruct (others_run i _ s' Hi7 Hb7) as (Hi' & Hr7 & Hk7). split; [|by auto].
    split; [done|]. exists s4, s5. split; [by econstructor|]. split; [|split; [done|]].
    { change (W s4) with (W s3). destruct (cells (W s3) !! c) as [o|]; [|done]. by exists o. }
    split; [done|]. split; [done|]. eapply reach_trans; [exact Hr6|]. by eapply reach_cons.
  - set (s4 := set_stream i (Rejected c e) s3) in *.
    assert (Hs4 : streams s4 !! i = Some (Rejected c e)) by exact (set_stream_lookup s3 i _ _ Hk3).
    apply interleaved_act in Hrun as (s6 & Hb6 & [<- Hb7]).
    destruct (others_run i s4 s6 Hi4 Hb6) as (Hi6 & Hr6 & Hk6). specialize (Hk6 _ Hs4).
    assert (Hst6 : step m s6 (exec (count_out i e) s6)) by (apply st_background, (st_done m i c e); by right).
    pose proof (inv_step m _ _ Hi6 Hst6) as Hi7.
    assert (Hs7 : streams (exec (count_out i e) s6) !! i = Some Finished)
      by exact (set_stream_lookup (set_W _ s6) i _ _ Hk6).
    destruct (others_run i _ s' Hi7 Hb7) as (Hi' & Hr7 & Hk7). split; [|by auto].
    split; [done|]. exists s3. split; [done|]. split.
    { destruct (stream_lives s3 i _ c e Hi3 Hk3 eq_refl) as [_ [o Ho]]. exists o. split; [done|].
      intros Heq. apply Hcur. by rewrite Ho. }
    eapply reach_cons; [exact Hst3|]. eapply reach_trans; [exact Hr6|]. by eapply reach_cons.
Qed.
(** What [loaded] comes to. *)
Definition loaded_as (i c e : nat) (pool : string) (msg : ProcessingRequest) (sctx : Ctx) (rest : Stream)
    (s : sys) (a : answer) (s' : sys) : Prop :=
  match a with
  | Served e' r => e' = e /\ exists s1 s2 s3,
      reach (step m) s s1 /\
      (exists o, cells (W s1) !! c = Some o /\ c_role o = RolePrimary /\ c_engine o = Some e) /\
      reach (step m) s1 s2 /\ (exists o, cells (W s2) !! c = Some o /\ c_engine o = Some e) /\
      inv m s2 /\ streams s2 !! i = Some (Accepted c e) /\ reach (others_than m i) s2 s3 /\
      r = (serve e pool msg sctx (mkDW (W s3) [] rest)).1 /\ reach (step m) s3 s' /\
      streams s' !! i = Some Finished
  | Refused _ _ => a = draining_answer /\ exists s1,
      reach (step m) s s1 /\
      (exists o, cells (W s1) !! c = Some o /\ (c_role o <> RolePrimary \/ c_engine o <> Some e)) /\
      reach (step m) s1 s'
  end.

Lemma loaded_interleaved i c e pool msg sctx rest s a s' :
  inv m s -> streams s !! i = Some (Loaded c e) ->
  interleaved (others_than m i) (loaded i c e pool msg sctx rest) s a s' ->
  loaded_as i c e pool msg sctx rest s a s' /\ inv m s'.
Proof.
  intros Hi Hs Hrun. apply interleaved_act in Hrun as (s1 & Hb1 & Hrun).
  destruct (others_run i s s1 Hi Hb1) as (Hi1 & Hr1 & Hk1). specialize (Hk1 _ Hs).
  destruct (stream_lives s1 i _ c e Hi1 Hk1 eq_refl) as [He1 [o Ho]].
  unfold Cell_Role in Hrun. rewrite (on_sys_run _ s1 _ _ (load_run _ _ _ _ _ Ho)), set_W_id in Hrun.
  cbn [fst snd] in Hrun. destruct (decide (c_role o <> RolePrimary)) as [Hp|Hp].
  - destruct Hrun as [<- Hb]. destruct (others_run i s1 s' Hi1 Hb) as (Hi' & Hr' & _).
    split; [|done]. split; [done|]. exists s1. split; [done|]. split; [|done]. exists o. auto.
  - destruct (track_interleaved i c e pool msg sctx rest s1 a s' Hi1 Hk1 Hrun) as (Ht & Hi' & Hf).
    split; [|done]. destruct a as [reason st|e' r].
    + destruct Ht as (-> & s2 & Hr2 & (o2 & Ho2 & He2) & Hr'). split; [done|].
      exists s2. split; [by eapply reach_trans|]. split; [|done]. exists o2. auto.
    + destruct Ht as (-> & s2 & s3 & Hr2 & (o2 & Ho2 & He2) & Hs2 & Hr3 & -> & Hr'). split; [done|].
      destruct (reach_kept s1 s2 Hi1 Hr2) as (Hi2 & _ & _ & Hback).
      destruct (Hback c o2 e Ho2 He2 He1) as (o1 & Ho1 & Heo). simplify_eq.
      exists s1, s2, s3. split; [done|]. split; [exists o; split_and!; [done|by apply dec_stable|done]|].
      split; [done|]. split; [by exists o2|]. by split_and!.
Qed.

Lemma loaded_step c s e j s' : load_engine c s = (Some (e, j), s') ->
  (Cell_Engine c (W s)).1 = Some e /\ j = length (streams s) /\
  s' = mkSys (W s) (streams s ++ [Loaded c e]) (s_busy s) (quiesced s) (retired_clean s).
Proof. unfold load_engine. intros Hl. repeat case_match; by simplify_eq. Qed.

Lemma engine_found c s e : (Cell_Engine c (W s)).1 = Some e ->
  load_engine c s = (Some (e, length (streams s)),
    mkSys (W s) (streams s ++ [Loaded c e]) (s_busy s) (quiesced s) (retired_clean s)).
Proof. unfold load_engine. by intros ->. Qed.

Lemma load_none c s s' : load_engine c s = (None, s') -> (Cell_Engine c (W s)).1 = None /\ s' = s.
Proof. unfold load_engine. intros Hl. repeat case_match; by simplify_eq. Qed.

Lemma engine_loaded c w e : (Cell_Engine c w).1 = Some e ->
  exists o, cells w !! c = Some o /\ c_engine o = Some e.
Proof.
  unfold Cell_Engine, load, gets. simpl. destruct (cells w !! c) as [o|]; [|done]. intros He. by exists o.
Qed.

(** C10. What a request is told is true of states the system went through between
    its arrival and its answer, whatever runs in between. Served by [e]: at one
    and the same moment the pool's cell held the primary role and [e] was its
    engine; [e] was still current when the re-check accepted the stream; and as
    long as it is served, no drain of [e] sees its counter at zero. Refused: the
    pool was unknown, or its cell had no engine, or was not primary, or had its
    engine swapped under the request. *)
Theorem request_explained sc i pool msg sctx rest s a j s' :
  reach (step m) (init sc) s ->
  interleaved (others_than m i) (request pool msg sctx rest) s (a, j) s' -> j = None \/ j = Some i ->
  match a with
  | Served e r =>
      exists c s0 s1 s2 s3, reach (step m) s s0 /\ registry (W s0) !! pool = Some c /\
        reach (step m) s0 s1 /\
        (exists o, cells (W s1) !! c = Some o /\ c_role o = RolePrimary /\ c_engine o = Some e) /\
        reach (step m) s1 s2 /\ (exists o, cells (W s2) !! c = Some o /\ c_engine o = Some e) /\
        reach (others_than m i) s2 s3 /\ r = (serve e pool msg sctx (mkDW (W s3) [] rest)).1 /\
        (forall s4, reach (others_than m i) s2 s4 ->
           streams s4 !! i = Some (Accepted c e) /\ drained_dry (W s4) e = false /\ e ∉ retired_clean s4) /\
        reach (step m) s3 s' /\ streams s' !! i = Some Finished
  | Refused reason st =>
      (reason = "unknown-pool" /\ st = StatusError Internal "unknown inference pool" /\
       exists s0, reach (step m) s s0 /\ registry (W s0) !! pool = None /\ reach (step m) s0 s') \/
      (reason = "cell-draining" /\
       st = StatusError Unavailable "cell is not serving (draining or not ready)" /\
       exists c s0 s1, reach (step m) s s0 /\ registry (W s0) !! pool = Some c /\
         reach (step m) s0 s1 /\ reach (step m) s1 s' /\
         exists o, cells (W s1) !! c = Some o /\
           (c_engine o = None \/ c_role o <> RolePrimary \/
            exists e s2 o2, reach (step m) s0 s2 /\ reach (step m) s2 s1 /\ cells (W s2) !! c = Some o2 /\
              c_engine o2 = Some e /\ c_engine o <> Some e))
  end.
Proof.
  intros Hinit Hrun Hj. pose proof (inv_reach m sc s Hinit) as Hi.
  apply interleaved_act in Hrun as (s0 & Hb0 & Hrun).
  destruct (others_run i s s0 Hi Hb0) as (Hi0 & Hr0 & _).
  rewrite invoke_Route in Hrun. cbn [fst snd] in Hrun.
  destruct (registry (W s0) !! pool) as [c|] eqn:Hc.
  2:{ destruct Hrun as [[= <- <-] Hb]. left. split; [done|]. split; [done|].
      exists s0. split; [done|]. split; [done|]. by apply (others_run i s0 s' Hi0 Hb). }
  apply interleaved_act in Hrun as (s1 & Hb1 & Hrun).
  destruct (others_run i s0 s1 Hi0 Hb1) as (Hi1 & Hr1 & _).
  destruct (wf_reg (W s0) (i_wf m s0 Hi0) pool c Hc) as (o0 & Ho0 & _).
  destruct (proj1 (proj2 (proj2 (reach_kept s0 s1 Hi0 Hr1))) c (mk_is_Some _ _ Ho0)) as [o1 Ho1].
  destruct (load_engine c s1) as [[[e j']|] s2] eqn:Hl; cbn [fst snd] in Hrun.
  2:{ destruct Hrun as [[= <- <-] Hb]. right. split; [done|]. split; [done|].
      apply load_none in Hl as [Hn ->]. exists c, s0, s1. split_and!; [done..| |].
      { by apply (others_run i s1 s' Hi1 Hb). }
      exists o1. split; [done|]. left. unfold Cell_Engine, load, gets in Hn. simpl in Hn. by rewrite Ho1 in Hn. }
  destruct (loaded_step c s1 e j' s2 Hl) as (He1 & -> & ->).
  destruct (engine_loaded c (W s1) e He1) as (o1' & Ho1' & Heo1). simplify_eq.
  set (s2 := mkSys (W s1) _ _ _ _) in *.
  assert (Hst2 : step m s1 s2) by by apply st_background, st_load.
  pose proof (inv_step m _ _ Hi1 Hst2) as Hi2.
  assert (Hs2 : streams s2 !! length (streams s1) = Some (Loaded c e)) by apply list_lookup_middle, eq_refl.
  apply interleaved_bind in Hrun as (a' & s4 & Hrun & [= <- <-] & Hb4).
  destruct Hj as [Hj|[= Hj]]; [done|]. rewrite Hj in *.
  destruct (loaded_interleaved i c e pool msg sctx rest s2 a' s4 Hi2 Hs2 Hrun) as (Hex & Hi4).
  destruct (others_run i s4 s' Hi4 Hb4) as (_ & Hr4 & Hk4).
  assert (Hr02 : reach (step m) s0 s2) by by econstructor.
  destruct a' as [reason st|e' r].
  - right. destruct Hex as ([= -> ->] & s5 & Hr5 & (o5 & Ho5 & Hw5) & Hr'). split; [done|]. split; [done|].
    exists c, s0, s5. split; [done|]. split; [done|]. split; [by eapply reach_trans|].
    split; [by eapply reach_trans|]. exists o5. split; [done|]. right.
    destruct Hw5 as [Hw5|Hw5]; [by left|]. right. exists e, s1, o1. split_and!; try done.
    eapply reach_cons; [exact Hst2|done].
  - destruct Hex as (-> & s5 & s6 & s7 & Hr5 & Hp5 & Hr6 & Hp6 & Hi6 & Hs6 & Hr7 & -> & Hr' & Hf).
    exists c, s0, s5, s6, s7. split; [done|]. split; [done|]. split; [by eapply reach_trans|].
    do 5 (split; [done|]). split; [|split; [by eapply reach_trans|by apply Hk4]].
    intros s8 Hr8. destruct (others_run i s6 s8 Hi6 Hr8) as (Hi8 & _ & Hk8). specialize (Hk8 _ Hs6).
    split; [done|]. by apply (accepted_in_flight s8 i c e).
Qed.

(** A hot swap costs the requests it overtakes: from any reachable state in
    which a request for the pool would be served and a new configuration
    compiles, there is an interleaving in which the swap falls between the load
    of the engine pointer and the re-check, and the request is refused as
    UNAVAILABLE although its cell is registered, primary and has an engine before,
    during and after: nothing retries it on the new engine. *)
Theorem swap_refuses_request sc s k raw c o old en x msg sctx rest :
  reach (step m) (init sc) s -> recompiles (W s) k raw c o -> c_engine o = Some old ->
  c_role o = RolePrimary ->
  m_compile m k raw (mkCompile (c_data o) (scopes (W s)) None) = (Ok en, x) ->
  admitted (W s) k = Ok old /\
  exists s' e, interleaved (others_than m (length (streams s))) (request k msg sctx rest) s
      (Refused "cell-draining" (StatusError Unavailable "cell is not serving (draining or not ready)"),
       Some (length (streams s))) s' /\
    e <> old /\ admitted (W s') k = Ok e.
Proof.
  intros Hinit Hrc Hold Hrole Hm. pose proof (inv_reach m sc s Hinit) as Hi.
  destruct (ApplyConfig_repoints m k raw (W s) c o old en x (i_wf m s Hi) Hrc Hold Hm)
    as (Hreg & e & o' & Hfresh & Ho' & He' & Hrole').
  destruct Hrc as [Hr Hc _ _]. set (w' := exec (ApplyConfig m k raw) (W s)) in *.
  assert (Hne : e <> old).
  { intros ->. destruct (wf_ptr _ (i_wf m s Hi) c o old Hc Hold) as (y & Hy & _). congruence. }
  split; [unfold admitted; rewrite Hr, Hc, Hold; by rewrite decide_True|].
  set (i := length (streams s)).
  set (s2 := mkSys (W s) (streams s ++ [Loaded c old]) (s_busy s) (quiesced s) (retired_clean s)).
  set (s3 := set_W w' s2).
  exists (exec (count_out i old) (exec (re_check i c old) (exec (count_in i c old) s3))), e.
  split; [|split; [done|]].
  - eapply interleaved_step; [constructor|]. rewrite invoke_Route, Hr. cbn [fst snd].
    eapply interleaved_step; [constructor|].
    rewrite (engine_found c s old) by (unfold Cell_Engine, load, gets; simpl; by rewrite Hc).
    cbn [fst snd]. change (mkSys (W s) _ _ _ _) with s2. fold i.
    eapply (interleaved_then _ (loaded i c old k msg sctx rest)); [|split; [reflexivity|constructor]].
    eapply interleaved_step; [constructor|]. unfold Cell_Role.
    rewrite (on_sys_run _ s2 _ _ (load_run _ _ _ _ _ Hc)). change (set_W (W s) s2) with s2. cbn [fst snd].
    rewrite decide_False by auto. eapply interleaved_step.
    { apply reach_one. split; [apply (st_ApplyConfig m k raw s2)|done]. }
    change (set_W (exec (ApplyConfig m k raw) (W s2)) s2) with s3.
    eapply interleaved_step; [constructor|].
    assert (Hcur : (is_current c old (W (exec (count_in i c old) s3))).1 = false).
    { rewrite is_current_run. apply bool_decide_eq_false_2. simpl. rewrite Ho'. simpl. congruence. }
    unfold re_check at 1. rewrite Hcur. cbn [fst snd].
    eapply interleaved_step; [constructor|]. by split; [|constructor].
  - unfold admitted. simpl. rewrite Hreg, Hr, Ho', He'. rewrite decide_True by congruence. done.
Qed.
End Interleavings.
End Requests.

(** ** Witnesses: a request for ["a"] in the running example *)

Module ToyRequests.
#[local] Existing Instance ToyLlmd.toy.
#[local] Existing Instance ToyDemux.envoy.
#[local] Existing Instance ToyDemux.handlers.

Abbreviation others := (others_than Toy.mgr 0).
Definition req : prog sys (answer * option nat) := request "a" (ToyDemux.message "a") [] [].
Definition served : sys := exec (run req) ToySystem.s2.
Lemma served_run : interleaved others req ToySystem.s2 (Served 0 (Ret None), Some 0%nat) served.
Proof. exact (interleaved_run others req ToySystem.s2). Qed.
End ToyRequests.

Lemma request_explained_witness :
  exists c s3, registry (L := ToyLlmd.toy) (W s3) !! "a" = Some c /\
    streams (L := ToyLlmd.toy) ToyRequests.served !! 0%nat = Some Finished.
Proof.
  destruct (@request_explained ToyLlmd.toy ToyDemux.envoy ToyDemux.handlers Toy.mgr 0%nat 0 "a"
    (ToyDemux.message "a") [] [] ToySystem.s2 (Served 0 (Ret None)) (Some 0%nat) ToyRequests.served
    ToySystem.run2 ToyRequests.served_run (or_intror eq_refl))
    as (c & s0 & s1 & s2 & s3 & _ & Hc & _ & _ & _ & _ & _ & _ & _ & _ & Hf).
  exists c, s0. split; [exact Hc|exact Hf].
Defined.

Lemma swap_refuses_request_witness :
  exists s' e, interleaved ToyRequests.others ToyRequests.req ToySystem.s2
      (Refused "cell-draining" (StatusError Unavailable "cell is not serving (draining or not ready)"),
       Some 0%nat) s' /\
    e <> 0%nat /\ admitted (L := ToyLlmd.toy) (W s') "a" = Ok e.
Proof.
  edestruct (@swap_refuses_request ToyLlmd.toy ToyDemux.envoy ToyDemux.handlers Toy.mgr 0%nat ToySystem.s2
    "a" "disc" 0 (default (fresh_cell "" (Toy.data0 "")) (cells (W ToySystem.s2) !! 0%nat)) 0)
    as (_ & s' & e & H).
  - exact ToySystem.run2.
  - split; [vm_compute; reflexivity..|vm_compute; discriminate|vm_compute; discriminate].
  - vm_compute. reflexivity.
  - vm_compute. reflexivity.
  - vm_compute. reflexivity.
  - exists s', e. exact H.
Defined.
