(* ===== verification/Plugins.v ===== *)
(** * Plugin registration (cmd/epp/plugins.go)

    The packages the program imports from llm-d-router are a class: each gives a
    type name and a factory.  Registration is the list of calls made on the
    framework's registry, in order; what the registry answers afterwards is an
    interface of its own. *)

From S2P Require Import Prelude.
From S2P Require Import GoStd.
From S2P Require Import Hub.
From S2P Require Import Discovery.
Local Open Scope string_scope.

(** A plugin package: its type name and its factory, a function that builds a
    plugin from its name and its parameters. *)
Section Registration.
Context {Plugin : Type}.

(** [fwkplugin.FactoryFunc]; the decoder of the parameters as in [Factory]. *)
Definition FactoryFunc : Type := string -> option string -> result error Plugin.
Record package := mkPackage { Type_ : string; Factory_ : FactoryFunc }.

(** The imported packages, under the names of the import list, and the data keys
    of the default producers. *)
Class Packages := {
  flowcontrol_FeatureGate : string;
  utilizationfilter : package; prefix : package; kvcacheutilization : package;
  queuedepth : package; runningrequests : package; loadaware : package;
  sessionaffinityscorer : package; maxscore : package; random : package;
  weightedrandom : package; single : package;
  globalstrict : package; roundrobin : package; fcfs : package; edf : package;
  slodeadline : package; usagelimits : package; concurrency : package;
  utilizationdetector : package;
  approximateprefix : package; inflightload : package; tokenizer : package;
  PrefixCacheMatchInfoDataKey : string; InFlightLoadDataKey : string;
  TokenizedPromptDataKey : string;
  openai : package; passthrough : package; vllmhttp : package;
  sourcemetrics : package; extractormetrics : package;
  (* a discovery as a value of the interface [fwkplugin.Plugin] *)
  as_Plugin : discovery -> Plugin }.
Context {P : Packages}.

(** [fwkplugin.StabilityBeta], the only level used. *)
Inductive stability := StabilityBeta.

Inductive registration :=
| RegisterFeatureGate (gate : string) (default : bool)
| Register (typ : string) (s : stability) (f : FactoryFunc)
| RegisterAsDefaultProducer (typ : string) (s : stability) (f : FactoryFunc) (key : string).

(** [clustertable.NewFactory(hub)]: the plugin it builds reads the one hub of the
    process, which Discovery.v keeps apart from the plugin's own state. *)
Definition NewFactory : FactoryFunc := fun _ parameters =>
  match Factory parameters with Ok d => Ok (as_Plugin d) | Err e => Err e end.

Definition register (p : package) : registration := Register (Type_ p) StabilityBeta (Factory_ p).
Definition produces (p : package) (key : string) : registration :=
  RegisterAsDefaultProducer (Type_ p) StabilityBeta (Factory_ p) key.

(** [registerPlugins(hub)] *)
Definition registerPlugins : list registration :=
  [RegisterFeatureGate flowcontrol_FeatureGate false] ++
  (register <$> [utilizationfilter; prefix; kvcacheutilization; queuedepth; runningrequests;
     loadaware; sessionaffinityscorer; maxscore; random; weightedrandom; single]) ++
  (register <$> [globalstrict; roundrobin; fcfs; edf; slodeadline; usagelimits; concurrency;
     utilizationdetector]) ++
  [produces approximateprefix PrefixCacheMatchInfoDataKey;
   produces inflightload InFlightLoadDataKey; produces tokenizer TokenizedPromptDataKey] ++
  (register <$> [openai; passthrough; vllmhttp]) ++
  (register <$> [sourcemetrics; extractormetrics]) ++
  [Register PluginType StabilityBeta NewFactory].

(** What a registry has to promise: a type is looked up under its name, and the
    registration of one type does not change what is found for another. *)
Class Registry (R : Type) := {
  enter : registration -> R -> R;
  find_factory : string -> R -> option FactoryFunc;
  find_entered : forall t s f r, find_factory t (enter (Register t s f) r) = Some f }.
Context {R : Type} `{Registry R}.

Definition registered (r : R) : R := fold_left (fun r x => enter x r) registerPlugins r.

(** An engine whose configuration names the cluster table discovery gets the
    plugin its factory builds from the parameters. *)
Lemma discovery_is_registered r name params d :
  Factory params = Ok d ->
  exists f, find_factory PluginType (registered r) = Some f /\ f name params = Ok (as_Plugin d).
Proof.
  intros Hd. exists NewFactory. split.
  - unfold registered, registerPlugins. rewrite !fold_left_app. apply find_entered.
  - unfold NewFactory. by rewrite Hd.
Qed.
End Registration.
Arguments package : clear implicits.
Arguments Packages : clear implicits.
Arguments registration : clear implicits.
Arguments FactoryFunc : clear implicits.
