(* ===== verification/App.v ===== *)
(** * The process around the cells (cmd/epp/main.go, health.go, config.go)

    The health service and the readiness gate that opens it, the choice of TLS,
    the metrics mux, and the process configuration.  Listening, serving and
    signal handling are not modelled. *)

From S2P Require Import Prelude.
From S2P Require Import GoStd.
From S2P Require Import Role.
From S2P Require Import Llmd.
From S2P Require Import Cell.
From S2P Require Import Manager.
From S2P Require Import ManagerFacts.
From S2P Require Import WellFormed.
From S2P Require Import ManagerSpec.
From S2P Require Import InnerApi.
From S2P Require Import EppData.
Local Open Scope string_scope.
Local Open Scope Z_scope.

(** ** Health *)

Module Health.

(** [HealthCheckResponse_ServingStatus], the two values used. *)
Inductive status := SERVING | NOT_SERVING.

(** [type healthServer struct] and [setReady(v)] *)
Record healthServer := mkHealth { ready : bool }.
Definition setReady (v : bool) (_ : healthServer) : healthServer := mkHealth v.

(** [(h *healthServer) Check(ctx, req)] *)
Definition Check (h : healthServer) (service : string) : status * option error :=
  if decide (service = "liveness") then (SERVING, None)
  else if ready h then (SERVING, None)
  else (NOT_SERVING, None).

(** [(h *healthServer) Watch(req, stream)] *)
Definition Watch : option error := Some (StatusError Unimplemented "watch is not supported").

Section Gate.
Context {L : LlmdRouter} `{MapRange}.

(** [for _, c := range manager.List() { select { case <-c.Ready(): default: allReady = false } }] *)
Fixpoint all_ready (cs : list nat) : St World bool :=
  match cs with
  | [] => mret true
  | c :: cs' => r ← Cell_Ready c; rs ← all_ready cs'; mret (r && rs)
  end.

(** One iteration of the readiness gate: the second [List] runs after the cells
    of the first were looked at, in a world [w2] that may have moved on. *)
Definition gate_check (w1 w2 : World) : bool :=
  (all_ready (List_cells w1).1 w1).1 && (0 <? length (List_cells w2).1)%nat.

(** The goroutine: it waits for the first sync, then samples the cells until the
    check succeeds. [samples] are the worlds it sees; when they run out the
    context is done. *)
Fixpoint gate (samples : list (World * World)) (h : healthServer) : healthServer :=
  match samples with
  | [] => h
  | (w1, w2) :: rest => if gate_check w1 w2 then setReady true h else gate rest h
  end.
Definition readiness (first_sync : bool) (samples : list (World * World)) (h : healthServer) :
    healthServer := if first_sync then gate samples h else h.

(** Every registered cell is ready. *)
Definition cells_ready (w : World) : Prop :=
  forall k c, registry w !! k = Some c -> (0 < from_option readyCloses 0 (cells w !! c))%nat.

Lemma all_ready_spec cs w :
  (all_ready cs w).1 = forallb (fun c => 0 <? from_option readyCloses 0 (cells w !! c))%nat cs /\
  (all_ready cs w).2 = w.
Proof.
  induction cs as [|c cs [IH1 IH2]]; [done|]. cbn [all_ready forallb].
  assert (Hc : Cell_Ready c w = ((0 <? from_option readyCloses 0 (cells w !! c))%nat, w)).
  { unfold Cell_Ready, load. by step gets_run. }
  step Hc. rewrite St_bind_run. simpl. by rewrite IH1, IH2.
Qed.

Lemma gate_check_spec w1 w2 : gate_check w1 w2 = true <-> cells_ready w1 /\ registry w2 <> ∅.
Proof.
  unfold gate_check, List_cells, gets. cbn [fst]. rewrite andb_true_iff.
  rewrite (proj1 (all_ready_spec _ _)), forallb_forall.
  assert (HA : (forall c, In c (range (registry w1)).*2 ->
      (0 <? from_option readyCloses 0 (cells w1 !! c))%nat = true) <-> cells_ready w1).
  { split.
    - intros Hall k c Hk. apply Nat.ltb_lt, Hall, list_elem_of_In, list_elem_of_fmap.
      exists (k, c). split; [done|]. by apply elem_of_range.
    - intros Hr c Hc. apply list_elem_of_In, list_elem_of_fmap in Hc as ([k c'] & -> & Hin).
      apply Nat.ltb_lt, (Hr k). by apply elem_of_range in Hin. }
  assert (HB : (0 <? length (range (registry w2)).*2)%nat = true <-> registry w2 <> ∅).
  { rewrite Nat.ltb_lt. split.
    - intros Hlt He. rewrite He in Hlt.
      assert (Hnil : range (∅ : gmap Key nat) = []).
      { apply Permutation_nil. rewrite range_perm. by rewrite map_to_list_empty. }
      rewrite Hnil in Hlt. simpl in Hlt. lia.
    - intros Hne. destruct (range (registry w2)) as [|x l] eqn:Hr; [|simpl; lia].
      destruct Hne. apply map_eq. intros k. rewrite lookup_empty.
      destruct (registry w2 !! k) as [c|] eqn:Hk; [|done].
      apply elem_of_range in Hk. rewrite Hr in Hk. by apply not_elem_of_nil in Hk. }
  by rewrite HA, HB.
Qed.

End Gate.
End Health.

(** ** Process configuration *)

Module Config.

(** [type Config struct] *)
Record Config := mkConfig {
  InstanceID : string; APIAddr : string; APIToken : string;
  PollInterval : Z; PollTimeout : Z;
  GRPCPort : Z; HealthPort : Z; MetricsPort : Z; EnablePprof : bool;
  GRPCTLSCertFile : string; GRPCTLSKeyFile : string; BindAddress : string;
  DefaultPool : string; EngineDrainTimeout : Z; cfg_PoolNamespace : string;
  cfg_RefreshMetricsInterval : Z; cfg_AllowExperimentalPlugins : bool;
  LocalConfigDir : string; LogLevel : string }.

(** [(c Config) logVerbosity()] *)
Definition logVerbosity (c : Config) : Z :=
  if decide (LogLevel c = "trace") then 5
  else if decide (LogLevel c = "debug") then 2
  else if decide (LogLevel c = "info") then 0
  else 2.

(** What the process starts with: its environment ([os.Getenv], empty when
    unset), the flags given on the command line by type, and [os.Hostname]. *)
Record Start := mkStart {
  Getenv : string -> string;
  string_flag : string -> option string;
  int_flag : string -> option Z;          (* also durations, in nanoseconds *)
  bool_flag : string -> option bool;
  Hostname : result error string }.

(** [getenv(key, def)] *)
Definition getenv (s : Start) (key def : string) : string :=
  if decide (Getenv s key <> "") then Getenv s key else def.

(** [flag.StringVar(&v, name, def, usage)] and the like, once [flag.Parse] has run. *)
Definition StringVar (s : Start) (name def : string) : string := default def (string_flag s name).
Definition IntVar (s : Start) (name : string) (def : Z) : Z := default def (int_flag s name).
Definition BoolVar (s : Start) (name : string) (def : bool) : bool := default def (bool_flag s name).

(** The default of [InstanceID]. *)
Definition with_instance_id (s : Start) (id : string) : string :=
  if decide (id = "") then match Hostname s with Ok h => h | Err _ => "epp" end else id.

(** [parseConfig()] *)
Definition parseConfig (s : Start) : Config := {|
  APIAddr := StringVar s "api-addr" (getenv s "AI_GATEWAY_API_ADDR" "http://127.0.0.1:8181/inner-api/v1");
  APIToken := StringVar s "api-token" (Getenv s "AI_GATEWAY_API_TOKEN");
  InstanceID := with_instance_id s (StringVar s "instance-id" (Getenv s "AI_GATEWAY_EPP_INSTANCE_ID"));
  PollInterval := IntVar s "poll-interval" (5 * Second);
  PollTimeout := IntVar s "poll-timeout" (3 * Second);
  GRPCPort := IntVar s "grpc-port" 9002;
  HealthPort := IntVar s "health-port" 9003;
  MetricsPort := IntVar s "metrics-port" 9090;
  EnablePprof := BoolVar s "enable-pprof" false;
  GRPCTLSCertFile := StringVar s "grpc-tls-cert" (Getenv s "AI_GATEWAY_EPP_TLS_CERT");
  GRPCTLSKeyFile := StringVar s "grpc-tls-key" (Getenv s "AI_GATEWAY_EPP_TLS_KEY");
  BindAddress := StringVar s "bind-address" "";
  DefaultPool := StringVar s "default-pool" "";
  EngineDrainTimeout := IntVar s "engine-drain-timeout" (60 * Second);
  cfg_PoolNamespace := StringVar s "pool-namespace" (getenv s "NAMESPACE" "ai-gateway");
  cfg_RefreshMetricsInterval := IntVar s "refresh-metrics-interval" (50 * Millisecond);
  cfg_AllowExperimentalPlugins := BoolVar s "allow-experimental-plugins" false;
  LocalConfigDir := StringVar s "local-config-dir" (Getenv s "AI_GATEWAY_EPP_LOCAL_CONFIG_DIR");
  LogLevel := StringVar s "log-level" (getenv s "AI_GATEWAY_EPP_LOG_LEVEL" "info") |}.

(** The options [run] gives the manager; [MaxPoolBufferSize] and the number of
    drain workers keep their zero values. *)
Definition manager_options {L : LlmdRouter} (c : Config) : Options :=
  mkOptions (cfg_PoolNamespace c) (cfg_RefreshMetricsInterval c) 0 (cfg_AllowExperimentalPlugins c)
    (EngineDrainTimeout c) 0 None None.

(** The command line beats the environment: for the token and the TLS files,
    whose usage texts say that the environment takes precedence, as for every
    other setting, a flag given on the command line is used whatever the
    environment holds; the instance id is then never empty unless the host has
    an empty name. *)
Theorem flags_take_precedence s :
  (forall v, string_flag s "api-token" = Some v -> APIToken (parseConfig s) = v) /\
  (forall v, string_flag s "grpc-tls-cert" = Some v -> GRPCTLSCertFile (parseConfig s) = v) /\
  (forall v, string_flag s "grpc-tls-key" = Some v -> GRPCTLSKeyFile (parseConfig s) = v) /\
  (forall v, string_flag s "instance-id" = Some v -> v <> "" -> InstanceID (parseConfig s) = v) /\
  (InstanceID (parseConfig s) = "" -> Hostname s = Ok "").
Proof.
  unfold parseConfig, StringVar, with_instance_id. cbn.
  split; [by intros v ->|]. split; [by intros v ->|]. split; [by intros v ->|]. split.
  - intros v -> Hv. cbn. by rewrite decide_False.
  - case_decide; [|done]. destruct (Hostname s) as [h|e]; [by intros ->|done].
Qed.
End Config.

(** ** Servers *)

Module Servers.
Import Config.

(** [serverOptions(cfg)]; [load] is [credentials.NewServerTLSFromFile]. [Ok None]
    is the empty option list, plaintext. *)
Definition serverOptions {Creds} (load : string -> string -> result error Creds) (cfg : Config) :
    result error (option Creds) :=
  if decide (GRPCTLSCertFile cfg = "" /\ GRPCTLSKeyFile cfg = "") then Ok None
  else if decide (GRPCTLSCertFile cfg = "" \/ GRPCTLSKeyFile cfg = "") then
    Err (NewError "grpc-tls-cert and grpc-tls-key must be set together")
  else match load (GRPCTLSCertFile cfg) (GRPCTLSKeyFile cfg) with
       | Ok c => Ok (Some c)
       | Err e => Err (Errorf "load gRPC TLS credentials" e)
       end.

(** [serveGRPC(ctx, srv, bind, port)] for the results of [net.Listen] and of
    [srv.Serve]. *)
Definition serveGRPC (listen serve : option error) (bind : string) (port : Z) : option error :=
  match listen with
  | Some e => Some (Errorf ("listen " +:+ bind +:+ ":" +:+ Itoa port) e)
  | None => match serve with
            | Some e => Some (Errorf ("serve :" +:+ Itoa port) e)
            | None => None
            end
  end.

(** [strings.HasPrefix] *)
Definition HasPrefix (s p : string) : bool := String.prefix p s.

(** The metrics mux: [http.ServeMux] picks the longest matching pattern, one that
    ends in a slash matches the whole subtree, and its path without the slash is
    redirected to it. *)
Inductive response := Metrics | Redirect (location : string) | NotFound.
Definition metricsMux (cfg : Config) (path : string) : response :=
  if decide (path = "/metrics") then Metrics
  else if EnablePprof cfg && HasPrefix path "/debug/pprof/" then Redirect "/debug/pprof/"
  else if EnablePprof cfg && bool_decide (path = "/debug/pprof") then Redirect "/debug/pprof/"
  else NotFound.

(** A client that follows at most [n] redirects. *)
Fixpoint follow (cfg : Config) (n : nat) (path : string) : response :=
  match n, metricsMux cfg path with
  | S n', Redirect location => follow cfg n' location
  | _, r => r
  end.

(** TLS never degrades silently: plaintext is served exactly when neither
    file is configured; one file alone, or files that do not load, is an error,
    so the process does not start. *)
Theorem serverOptions_fail_fast {Creds} (load : string -> string -> result error Creds) cfg :
  match serverOptions load cfg with
  | Ok None => GRPCTLSCertFile cfg = "" /\ GRPCTLSKeyFile cfg = ""
  | Ok (Some c) => GRPCTLSCertFile cfg <> "" /\ GRPCTLSKeyFile cfg <> "" /\
      load (GRPCTLSCertFile cfg) (GRPCTLSKeyFile cfg) = Ok c
  | Err _ => GRPCTLSCertFile cfg <> "" \/ GRPCTLSKeyFile cfg <> ""
  end.
Proof.
  unfold serverOptions. case_decide as H1; [done|]. case_decide as H2.
  - destruct (decide (GRPCTLSCertFile cfg = "")); [right|left]; tauto.
  - destruct (load _ _) eqn:Hl; [|left]; tauto.
Qed.

(** The profiling endpoint redirects to itself: with [-enable-pprof] set, a
    client that asks for any path under /debug/pprof/ is redirected to
    /debug/pprof/ again however many redirects it follows, and no profile is
    ever served. *)
Theorem pprof_redirects_forever cfg n path :
  EnablePprof cfg = true -> HasPrefix path "/debug/pprof/" = true ->
  follow cfg n path = Redirect "/debug/pprof/".
Proof.
  intros He. revert path. induction n as [|n IH]; intros path Hp.
  - simpl. unfold metricsMux. rewrite He, Hp. by case_decide; subst.
  - simpl. unfold metricsMux. rewrite He, Hp. case_decide; [by subst|]. by apply IH.
Qed.
End Servers.

(** ** Witnesses *)

Module ToyApp.
#[local] Existing Instance ToyLlmd.toy.
#[local] Existing Instance list_range.

(** One primary cluster whose configuration has no discovery plugin. *)
Definition ready_world : World := exec (Handle Toy.watcher
  (mkEppData (<["a" := "plain"]> ∅) (<["a" := mkEntry (Some "epp-1") None]> ∅))) Toy.world0.
Definition start : Config.Start :=
  Config.mkStart (fun _ => "from-env") (fun _ => None) (fun _ => None)
    (fun n => if decide (n = "enable-pprof") then Some true else None) (Ok "host-1").
End ToyApp.


Lemma pprof_redirects_forever_witness :
  Servers.follow (Config.parseConfig ToyApp.start) 10 "/debug/pprof/heap" =
  Servers.Redirect "/debug/pprof/".
Proof. apply Servers.pprof_redirects_forever; reflexivity. Defined.

Lemma flags_take_precedence_witness :
  Config.APIToken (Config.parseConfig (Config.mkStart (fun _ => "from-env")
    (fun n => if decide (n = "api-token") then Some "from-flag" else None) (fun _ => None)
    (fun _ => None) (Ok "h"))) = "from-flag".
Proof.
  refine (proj1 (Config.flags_take_precedence (Config.mkStart (fun _ => "from-env")
    (fun n => if decide (n = "api-token") then Some "from-flag" else None) (fun _ => None)
    (fun _ => None) (Ok "h"))) "from-flag" _).
  reflexivity.
Defined.
