(* ===== verification/Control.v ===== *)
(** * The control loops, from the bytes of a response to cells and endpoints

    [Module Server] says what an API server does that publishes one version of a
    configuration; the theorems run the program's two polling loops against it.
    The last part is the choice of the sources in run (cmd/epp/main.go). *)

From S2P Require Import Prelude.
From S2P Require Import GoStd.
From S2P Require Import Role.
From S2P Require Import Llmd.
From S2P Require Import Cell.
From S2P Require Import Manager.
From S2P Require Import WellFormed.
From S2P Require Import ManagerSpec.
From S2P Require Import Json.
From S2P Require Import InnerApi.
From S2P Require Import EppData.
From S2P Require Import Hub.
From S2P Require Import Discovery.
From S2P Require Import ClusterTable.
From S2P Require Import Poller.
From S2P Require Import Sources.
From S2P Require Import Lifecycle.
From S2P Require Import App.
From Stdlib Require Import Ascii String.
Local Open Scope string_scope.
Local Open Scope Z_scope.

Import InnerApi.Api.

Section Server.
Context {Net : Type} `{HTTP Net}.

(** A server that publishes [config] as version [ver] under [path] of the
    client's address: every request there is answered, whole and with status
    200, by an envelope that has no news for a client that says it is at [ver],
    and the configuration for any other. *)
Record publishes (c : Client) (path ver : string) (config : json) (serving : Net -> Prop) : Prop := mkPublishes {
  pub_address : no_version_param (baseURL c ++ path);
  pub_url : forall version, parse_url (request_url c path version) = None;
  pub_answer : forall req n, serving n -> (exists t, url req = (baseURL c ++ path) ++ t) ->
    let '(res, n') := Do (hc_Timeout c) req n in
    serving n' /\ exists r msg wm, res = Ok r /\ StatusCode r = 200 /\ Valid msg /\ Valid wm /\
      arrives r (raw (envelope_doc 200 msg (answer_doc
        (if decide (query_param "version" (url req) = Some ver) then NoNews else News ver config)) wm)) }.

Lemma Get_published {T} c path ver config serving (dec : decoder T) cur d version n :
  publishes c path ver config serving -> ver <> "" -> serving n ->
  Valid ver -> compact d config -> depth_ok (S (S d)) -> (dec cur config).2 = true ->
  let '(g, n') := Get c path version (Some dec) cur n in
  serving n' /\ g = if decide (version = ver) then mkGot false version None cur
                    else mkGot true ver None (dec cur config).1.
Proof.
  intros [Ha Hu Hp] Hver Hs Hv Hc Hd Hdec. unfold Get. rewrite Hu, St_bind_run.
  set (req := setAuth c (mkRequest (request_url c path version) ∅)).
  assert (Hreq : url req = request_url c path version) by apply url_setAuth.
  specialize (Hp req n Hs). rewrite Hreq, request_url_version in Hp by done.
  specialize (Hp (request_url_extends c path version)).
  destruct (Do _ _ _) as [res n']. destruct Hp as (Hs' & r & msg & wm & -> & Hst & Hm & Hw & Harr).
  cbn [fst snd mret St_ret]. split; [done|].
  match type of Harr with context [answer_doc ?a] =>
    replace a with (if decide (version = ver) then NoNews else News ver config) in Harr
      by (repeat case_decide; congruence) end.
  assert (Hok : answer_ok d (if decide (version = ver) then NoNews else News ver config))
    by by case_decide.
  pose proof (get_response_answer path version dec cur r 200 msg _ wm d Harr ltac:(by split) Hm Hw Hok Hd) as Hg.
  cbv zeta in Hg. rewrite Hst, decide_False in Hg by tauto.
  case_decide; [done|]. by rewrite Hdec in Hg.
Qed.

Lemma epp_data_version_server `{MapRange} c ver conf asg serving d :
  publishes c EppDataConfigPath ver (epp_data_doc conf asg) serving ->
  ver <> "" -> Valid ver -> epp_data_ok d conf asg ->
  @Loop.version_server _ _ (EppDataWatcher_Fetch c) serving ver (mkEppData (raw <$> conf) asg).
Proof.
  intros Hp Hver Hv Hok version n Hn. unfold Loop.Fetch, EppDataWatcher_Fetch. rewrite St_bind_run.
  destruct Hok as (Hk & Hc & Hk' & He & Hd1 & Hd).
  pose proof (Get_published c EppDataConfigPath ver _ serving dec_EppDataConfig zero_EppDataConfig
    _ version n Hp Hver Hn Hv (compact_epp_data_doc d conf asg Hk Hc Hk' He Hd1) Hd) as Hg.
  rewrite dec_epp_data_doc in Hg. specialize (Hg eq_refl).
  destruct (Get _ _ _ _ _ _) as [g n']. destruct Hg as [Hn' ->]. cbn [fst snd mret St_ret].
  split; [done|]. by case_decide.
Qed.

Lemma cluster_table_version_server `{MapRange} c ver t serving :
  publishes c ClusterTablePath ver (cluster_table_doc t) serving ->
  ver <> "" -> Valid ver -> valid_table t ->
  @Loop.version_server _ _ (ClusterDiscovery_Fetch c) serving ver (ConvertClusterTableToEndpoints t).
Proof.
  intros Hp Hver Hv Ht version n Hn. unfold Loop.Fetch, ClusterDiscovery_Fetch. rewrite St_bind_run.
  pose proof (Get_published c ClusterTablePath ver _ serving dec_ClusterTableConfig ∅
    _ version n Hp Hver Hn Hv (compact_cluster_table_doc t Ht) ltac:(done)) as Hg.
  rewrite dec_cluster_table_doc in Hg by done. specialize (Hg eq_refl).
  destruct (Get _ _ _ _ _ _) as [g n']. destruct Hg as [Hn' ->]. cbn [fst snd mret St_ret].
  split; [done|]. by case_decide.
Qed.

End Server.

(** ** From the published documents to the program's state *)

(** C11. End to end, for the configuration: an API server that publishes a
    snapshot (a JSON configuration per cluster and the assignments) brings a
    process that is not at its version to exactly the state the snapshot
    prescribes in the first round, whatever order maps are iterated in: every
    cluster goes through the abstract lifecycle for its role and for the very
    text of its configuration, and no later round of the loop changes it. *)
Theorem published_snapshot_reaches_the_cells `{L : LlmdRouter, MapRange, HTTP Net} client wt
    (dp : Key -> DataPlane) ver conf asg d serving now clock c :
  publishes client EppDataConfigPath ver (epp_data_doc conf asg) serving ->
  ver <> "" -> Valid ver -> epp_data_ok d conf asg ->
  (forall k, m_newCell (manager wt) k = Ok (dp k)) -> scope_free (m_compile (manager wt)) ->
  wf (Loop.cons c) -> serving (Loop.src c) -> Loop.version (Loop.poller c) <> ver ->
  let c' := (@Loop.Start _ _ _ (EppDataWatcher_Fetch client) (epp_data_handle wt) (now :: clock) c).2 in
  Loop.version (Loop.poller c') = ver /\ wf (Loop.cons c') /\
  forall k, handle_spec (manager wt) (dp k) k
    (my_role (instance wt) (mkEppData (raw <$> conf) asg) k) (raw <$> conf !! k)
    (view_at (Loop.cons c) k) (view_at (Loop.cons c') k).
Proof.
  intros Hp Hver Hv Hok Hn Hsf Hwf Hs Hne c'.
  pose proof (epp_data_version_server client ver conf asg serving d Hp Hver Hv Hok) as Hsrv.
  set (cfg := mkEppData (raw <$> conf) asg) in *.
  pose proof (Handle_spec wt cfg dp (Loop.cons c) Hn Hsf Hwf) as Hh.
  assert (Hrun : (epp_data_handle wt cfg (Loop.cons c)).1 = None /\
    wf (epp_data_handle wt cfg (Loop.cons c)).2 /\ forall k, handle_spec (manager wt) (dp k) k
      (my_role (instance wt) cfg k) (EppConfig cfg !! k) (view_at (Loop.cons c) k)
      (view_at (epp_data_handle wt cfg (Loop.cons c)).2 k)).
  { unfold epp_data_handle. by destruct (EppData.Handle wt cfg (Loop.cons c)). }
  clear Hh. destruct Hrun as (He & Hwf' & Hk).
  destruct (@Loop.one_round_catches_up _ _ _ (EppDataWatcher_Fetch client) (epp_data_handle wt)
    serving ver cfg now clock c Hsrv Hs He Hne) as [Hc' Hv'].
  unfold c'. rewrite Hc'. split; [done|]. split; [done|]. intros k. specialize (Hk k).
  cbn [EppConfig cfg] in Hk. by rewrite lookup_fmap in Hk.
Qed.

(** C21. End to end, for the endpoints: an API server that publishes a cluster
    table brings the hub of a process that is not at its version to exactly the
    converted table in the first round, for every cluster, whoever holds it. *)
Theorem published_table_reaches_the_hub `{MapRange, HTTP Net} client assigned ver t serving now clock c :
  publishes client ClusterTablePath ver (cluster_table_doc t) serving ->
  ver <> "" -> Valid ver -> valid_table t ->
  serving (Loop.src c) -> Loop.version (Loop.poller c) <> ver ->
  let c' := (@Loop.Start _ _ _ (ClusterDiscovery_Fetch client) (ClusterTable.Handle assigned) (now :: clock) c).2 in
  Loop.version (Loop.poller c') = ver /\
  cd_hub (Loop.cons c') = ReplaceAll (ConvertClusterTableToEndpoints t) (cd_hub (Loop.cons c)).
Proof.
  intros Hp Hver Hv Ht Hs Hne c'.
  pose proof (cluster_table_version_server client ver t serving Hp Hver Hv Ht) as Hsrv.
  set (desired := ConvertClusterTableToEndpoints t) in *.
  destruct (ClusterTable.Handle_run assigned desired (Loop.cons c)) as [counter Hrun].
  destruct (@Loop.one_round_catches_up _ _ _ (ClusterDiscovery_Fetch client) (ClusterTable.Handle assigned)
    serving ver desired now clock c Hsrv Hs) as [Hc' Hv']; [by rewrite Hrun|done|].
  unfold c'. by rewrite Hc', Hrun.
Qed.

(** ** The sources of the process (cmd/epp/main.go, run) *)

Section Run.
Context {Net FS : Type} `{MapRange, HTTP Net, FileSystem FS}.

(** The outside of the process: the network and the local files. *)
Definition on_net {A} (m : St Net A) : St (Net * FS) A := fun x =>
  let '(a, n) := m x.1 in (a, (n, x.2)).
Definition on_files {A} (m : St FS A) : St (Net * FS) A := fun x =>
  let '(a, f) := m x.2 in (a, (x.1, f)).

Definition local_mode (cfg : Config.Config) : bool := bool_decide (Config.LocalConfigDir cfg <> "").
Definition api_client (cfg : Config.Config) : Client :=
  NewClient (Config.APIAddr cfg) (Config.APIToken cfg) (Config.PollTimeout cfg).

(** [eppDataSrc] and [discoverySrc] *)
Definition eppDataSrc (cfg : Config.Config) : Loop.Source (Net * FS) EppDataConfig := fun version =>
  if local_mode cfg then
    on_files (LocalFileSource_Fetch dec_EppDataConfig zero_EppDataConfig
      (NewLocalFileSource (Config.LocalConfigDir cfg) "epp_data_config.json") version)
  else on_net (EppDataWatcher_Fetch (api_client cfg) version).
Definition discoverySrc (cfg : Config.Config) :
    Loop.Source (Net * FS) (gmap string (list EndpointMetadata)) := fun version =>
  if local_mode cfg then
    on_files (localClusterTableSource_Fetch
      (NewLocalClusterTableSource (Config.LocalConfigDir cfg) "cluster_table.json") version)
  else on_net (ClusterDiscovery_Fetch (api_client cfg) version).

(** The consumers: the manager decides which clusters count as assigned, the
    counter is nil. *)
Definition discoveryHandle {L : LlmdRouter} (W : World) :
    Loop.Handle ClusterDiscovery (gmap string (list EndpointMetadata)) :=
  ClusterTable.Handle (Some (fun cluster => bool_decide (is_Some (registry W !! cluster)))).

(** The poller's options in [run]. *)
Definition poller_options (cfg : Config.Config) : Loop.Options := Loop.mkOptions (Config.PollInterval cfg) (Config.PollTimeout cfg).

Lemma local_round {Cons} cfg (handle : Loop.Handle Cons EppDataConfig) now (c : @Loop.config (Net * FS) Cons) f fs conf asg d :
  local_mode cfg = true -> epp_data_ok d conf asg ->
  ReadFile (Join (Config.LocalConfigDir cfg) "epp_data_config.json") (Loop.src c).2 = (f, fs) ->
  let c' := (@Loop.round _ _ _ (eppDataSrc cfg) handle now c).2 in
  (Loop.src c').1 = (Loop.src c).1 /\
  match f with
  | Err _ => Loop.cons c' = Loop.cons c /\ Loop.version (Loop.poller c') = Loop.version (Loop.poller c)
  | Ok text => text = raw (epp_data_doc conf asg) ->
      Loop.cons c' = (handle (mkEppData (raw <$> conf) asg) (Loop.cons c)).2
  end.
Proof.
  intros Hl (Hk & Hc & Hk' & He & Hd1 & Hd) Hf c'. unfold c', Loop.round, Loop.Fetch, eppDataSrc, on_files. rewrite Hl.
  unfold LocalFileSource_Fetch, NewLocalFileSource. cbn [path]. rewrite St_bind_run, Hf. cbn [fst snd mret St_ret].
  destruct f as [text|e].
  - assert (Hdoc : text = raw (epp_data_doc conf asg) ->
      Unmarshal dec_EppDataConfig zero_EppDataConfig text = (mkEppData (raw <$> conf) asg, None)).
    { intros ->. rewrite (Unmarshal_compact _ _ (S (S d)) _ (compact_epp_data_doc d conf asg Hk Hc Hk' He Hd1)),
        dec_epp_data_doc by (unfold depth_ok in *; lia). done. }
    destruct (Unmarshal _ _ text) as [v er]. generalize (text = raw (epp_data_doc conf asg)) Hdoc.
    intros P HP. destruct er as [e|]; cbn.
    + destruct (Backoff.next _). split; [done|]. intros Hp. by specialize (HP Hp).
    + unfold Loop.mark_first_sync. destruct (handle v (Loop.cons c)) as [er k] eqn:Hh.
      destruct (Loop.syncOnce_do _ _ _), er; (split; [done|]); intros Hp; specialize (HP Hp);
        injection HP as ->; by rewrite Hh.
  - cbn. by destruct (Backoff.next _).
Qed.
End Run.

(** Local mode: with a local configuration directory the network is never
    used, and every round of the epp_data loop applies what the file then says,
    whatever was applied before, so that a cluster whose drain swallowed an
    earlier assignment comes back with the next round; a file that cannot be
    read changes nothing. *)
Theorem local_mode_applies_every_round {Net FS} `{L : LlmdRouter, MapRange, HTTP Net, FileSystem FS} cfg wt
    (dp : Key -> DataPlane) now (c : @Loop.config (Net * FS) World) f fs conf asg d :
  local_mode cfg = true -> epp_data_ok d conf asg ->
  ReadFile (Join (Config.LocalConfigDir cfg) "epp_data_config.json") (Loop.src c).2 = (f, fs) ->
  (forall k, m_newCell (manager wt) k = Ok (dp k)) -> scope_free (m_compile (manager wt)) ->
  wf (Loop.cons c) ->
  let c' := (@Loop.round _ _ _ (eppDataSrc cfg) (epp_data_handle wt) now c).2 in
  (Loop.src c').1 = (Loop.src c).1 /\
  match f with
  | Err _ => Loop.cons c' = Loop.cons c
  | Ok text => text = raw (epp_data_doc conf asg) ->
      wf (Loop.cons c') /\
      forall k, handle_spec (manager wt) (dp k) k
        (my_role (instance wt) (mkEppData (raw <$> conf) asg) k) (raw <$> conf !! k)
        (view_at (Loop.cons c) k) (view_at (Loop.cons c') k)
  end.
Proof.
  intros Hl Hok Hf Hn Hsf Hwf c'.
  destruct (local_round cfg (epp_data_handle wt) now c f fs conf asg d Hl Hok Hf) as [Hnet Hr]. fold c' in Hnet, Hr.
  split; [done|]. destruct f as [text|e]; [|by destruct Hr]. intros Ht. rewrite (Hr Ht).
  set (cfg' := mkEppData (raw <$> conf) asg).
  pose proof (Handle_spec wt cfg' dp (Loop.cons c) Hn Hsf Hwf) as Hh. unfold epp_data_handle.
  destruct (EppData.Handle wt cfg' (Loop.cons c)) as [er W]. destruct Hh as (_ & Hwf' & Hk). split; [done|].
  intros k. specialize (Hk k). cbn [EppConfig cfg'] in Hk. by rewrite lookup_fmap in Hk.
Qed.

(** ** Witnesses *)

Module ToyControl.
#[local] Existing Instance ToyLlmd.toy.
#[local] Existing Instance list_range.
#[local] Existing Instance ToyApi.net.

(** A snapshot for the instance ["epp-1"], and a table with one backend. *)
Definition conf : gmap string json := <["a" := mkString "weights"]> ∅.
Definition asg : gmap string AssignmentEntry := <["a" := mkEntry (Some "epp-1") None]> ∅.
Definition table : ClusterTableConfig := <["a" := <["sub" := [mkBackend "vllm-0" "10.0.0.1" 8000 100]]> ∅]> ∅.

(** A server for one document. *)
Definition respond (doc : json) (version : option string) : Response :=
  mkResponse 200 (raw (envelope_doc 200 "ok" (answer_doc
    (if decide (version = Some "v2") then NoNews else News "v2" doc)) "")) None.
Definition server (doc : json) : HTTP unit :=
  {| parse_url _ := None; Do _ req n := (Ok (respond doc (query_param "version" (url req))), n) |}.

Lemma server_publishes path doc :
  after_first "?" (baseURL ToyApi.client ++ path) = None ->
  Z.of_nat (String.length (raw (envelope_doc 200 "ok" (versioned_doc "v2" doc) ""))) <= max_body ->
  @publishes unit (server doc) ToyApi.client path "v2" doc (fun _ => True).
Proof.
  intros Hq Hlen. split.
  - intros q Hq'. by rewrite Hq in Hq'.
  - done.
  - intros req n _ _. cbn. split; [done|].
    exists (respond doc (query_param "version" (url req))), "ok", "".
    do 4 (split; [done|]). split; [done|]. split; [|done].
    destruct (decide _); [by vm_compute|exact Hlen].
Qed.

Lemma snapshot_ok : epp_data_ok 1 conf asg.
Proof.
  do 4 (split; [by apply map_Forall_insert_2|]). split; [done|by vm_compute].
Qed.

Lemma table_ok : valid_table table.
Proof.
  split; [by apply map_Forall_insert_2|]. apply map_Forall_insert_2; [|done].
  split; [by apply map_Forall_insert_2|]. apply map_Forall_insert_2; [|done].
  apply Forall_singleton. by repeat split.
Qed.
End ToyControl.

Lemma published_snapshot_reaches_the_cells_witness :
  let c' := (@Loop.Start _ _ _
    (@EppDataWatcher_Fetch unit (ToyControl.server (@epp_data_doc list_range ToyControl.conf ToyControl.asg)) ToyApi.client)
    (@epp_data_handle ToyLlmd.toy list_range Toy.watcher) [0; 5; 10]
    (Loop.mkConfig (Loop.New (Loop.mkOptions 0 0)) tt Toy.world0)).2 in
  Loop.version (Loop.poller c') = "v2" /\
  exists l, view_at (Loop.cons c') "a" = Live l /\ l_role l = RolePrimary.
Proof.
  intros c'.
  destruct (@published_snapshot_reaches_the_cells ToyLlmd.toy list_range unit
    (ToyControl.server (@epp_data_doc list_range ToyControl.conf ToyControl.asg)) ToyApi.client Toy.watcher Toy.data0
    "v2" ToyControl.conf ToyControl.asg 1 (fun _ => True) 0 [5; 10]
    (Loop.mkConfig (Loop.New (Loop.mkOptions 0 0)) tt Toy.world0)) as (Hv & _ & Hk).
  - apply ToyControl.server_publishes; [reflexivity|vm_compute; discriminate].
  - discriminate.
  - exact I.
  - exact ToyControl.snapshot_ok.
  - exact Toy.newCell_ok.
  - exact Toy.mgr_scope_free.
  - exact (@wf_empty ToyLlmd.toy 0%nat).
  - exact I.
  - discriminate.
  - split; [exact Hv|]. pose proof (Hk "a" 0%nat) as Ha. fold c' in Ha.
    rewrite Ha. vm_compute. eexists. split; reflexivity.
Defined.

Lemma published_table_reaches_the_hub_witness :
  let c' := (@Loop.Start _ _ _
    (@ClusterDiscovery_Fetch unit (ToyControl.server (@cluster_table_doc list_range ToyControl.table)) list_range ToyApi.client)
    (@ClusterTable.Handle list_range None) [0; 5; 10]
    (Loop.mkConfig (Loop.New (Loop.mkOptions 0 0)) tt (mkClusterDiscovery NewHub None))).2 in
  Loop.version (Loop.poller c') = "v2" /\ List.length (Snapshot "a" (cd_hub (Loop.cons c'))).1 = 1%nat.
Proof.
  intros c'.
  destruct (@published_table_reaches_the_hub list_range unit
    (ToyControl.server (@cluster_table_doc list_range ToyControl.table)) ToyApi.client None
    "v2" ToyControl.table (fun _ => True) 0 [5; 10]
    (Loop.mkConfig (Loop.New (Loop.mkOptions 0 0)) tt (mkClusterDiscovery NewHub None))) as (Hv & Hh).
  - apply ToyControl.server_publishes; [reflexivity|vm_compute; discriminate].
  - discriminate.
  - exact I.
  - exact ToyControl.table_ok.
  - exact I.
  - discriminate.
  - split; [exact Hv|]. fold c' in Hh. rewrite Hh. vm_compute. reflexivity.
Defined.

Module ToyLocal.
#[local] Existing Instance ToyLlmd.toy.
#[local] Existing Instance list_range.

Definition config : Config.Config := Config.parseConfig (Config.mkStart (fun _ => "")
  (fun n => if decide (n = "local-config-dir") then Some "/etc/epp/" else None) (fun _ => None) (fun _ => None) (Ok "h")).
(** One file, which never changes. *)
Definition files : FileSystem unit := fun p s =>
  (if decide (p = "/etc/epp/epp_data_config.json")
   then Ok (raw (epp_data_doc ToyControl.conf ToyControl.asg)) else Err (NewError "no such file"), s).
End ToyLocal.

Lemma local_mode_applies_every_round_witness :
  exists l, view_at (Loop.cons (@Loop.round _ _ _
    (@eppDataSrc unit unit ToyApi.net ToyLocal.files ToyLocal.config)
    (@epp_data_handle ToyLlmd.toy list_range Toy.watcher) 7
    (Loop.mkConfig (Loop.New (Loop.mkOptions 0 0)) (tt, tt) Toy.world0)).2) "a" = Live l /\ l_role l = RolePrimary.
Proof.
  destruct (@local_mode_applies_every_round unit unit ToyLlmd.toy list_range ToyApi.net ToyLocal.files
    ToyLocal.config Toy.watcher Toy.data0 7 (Loop.mkConfig (Loop.New (Loop.mkOptions 0 0)) (tt, tt) Toy.world0)
    (Ok (raw (@epp_data_doc list_range ToyControl.conf ToyControl.asg))) tt ToyControl.conf ToyControl.asg 1)
    as (_ & Hr).
  - reflexivity.
  - exact ToyControl.snapshot_ok.
  - reflexivity.
  - exact Toy.newCell_ok.
  - exact Toy.mgr_scope_free.
  - exact (@wf_empty ToyLlmd.toy 0%nat).
  - destruct (Hr eq_refl) as [_ Hk]. pose proof (Hk "a" 0%nat) as Ha. rewrite Ha.
    vm_compute. eexists. split; reflexivity.
Defined.
