(* ===== verification/Run.v ===== *)
(** * The process: start-up, the group of goroutines, shutdown (cmd/epp/main.go, run)

    [run] starts six goroutines in an error group and waits for all of them.
    The group is a transition system: a signal or the first error cancels the
    context they share, and each goroutine returns once, with a result its own
    code allows at that moment. *)

From S2P Require Import Prelude.
From S2P Require Import GoStd.
From S2P Require Import App.
Local Open Scope string_scope.
Local Open Scope Z_scope.
Import App.Config App.Servers.

(** ** The goroutines *)

(** The functions given to [g.Go], in source order. *)
Inductive task := ExtProcServer | HealthServer | MetricsServer | DiscoveryPoller | EppDataPoller | ReadinessGate.
#[export] Instance task_eq_dec : EqDecision task.
Proof. solve_decision. Defined.
Definition tasks : list task :=
  [ExtProcServer; HealthServer; MetricsServer; DiscoveryPoller; EppDataPoller; ReadinessGate].

(** [golang.org/x/sync/errgroup] is a dependency: what its documentation says of
    [WithContext], of a function passed to [Go] that returns, of the parent
    context's end, and of the result of [Wait]. *)
Class ErrGroup := {
  Group : Type;
  WithContext : Group;
  parent_done : Group -> Group;
  returned : option error -> Group -> Group;
  ctx_is_done : Group -> bool;
  Wait_err : Group -> option error;
  new_done : ctx_is_done WithContext = false;
  new_err : Wait_err WithContext = None;
  parent_is_done : forall g, ctx_is_done (parent_done g) = true;
  parent_err : forall g, Wait_err (parent_done g) = Wait_err g;
  returned_done : forall r g,
    ctx_is_done (returned r g) = ctx_is_done g || match r with Some _ => true | None => false end;
  returned_err : forall r g,
    Wait_err (returned r g) = match Wait_err g with Some e => Some e | None => r end }.

(** The error group and the process around it. [log] lists what was returned,
    oldest first. *)
Record group `{ErrGroup} := mkGroup {
  running : list task;
  eg : Group;
  signaled : bool;                 (* SIGINT or SIGTERM arrived *)
  log : list (task * option error) }.
(** [gctx] is done. *)
Definition done `{ErrGroup} (g : group) : bool := ctx_is_done (eg g).
Definition g_err `{ErrGroup} (g : group) : option error := Wait_err (eg g).

Section Run.
Context `{ErrGroup} (cfg : Config).

(** What a goroutine may return, given whether [gctx] is done and whether the
    readiness check has succeeded. A gRPC server returns [serveGRPC] of what
    [net.Listen] and [Serve] do, and [Serve] returns nil only once the server
    was stopped, which happens when [gctx] is done; the metrics server likewise
    ([http.ErrServerClosed] counts as nil); a poller returns nil when [gctx] is
    done and never otherwise; the gate returns nil in both cases. *)
Inductive returns (ctx_done open : bool) : task -> option error -> Prop :=
| ret_grpc t port listen serve :
    (t = ExtProcServer /\ port = GRPCPort cfg) \/ (t = HealthServer /\ port = HealthPort cfg) ->
    (listen = None -> serve = None -> ctx_done = true) ->
    returns ctx_done open t (serveGRPC listen serve (BindAddress cfg) port)
| ret_metrics e : (e = None -> ctx_done = true) -> returns ctx_done open MetricsServer e
| ret_poller t : t = DiscoveryPoller \/ t = EppDataPoller -> ctx_done = true -> returns ctx_done open t None
| ret_gate : ctx_done = true \/ open = true -> returns ctx_done open ReadinessGate None.

(** [f] of a [g.Go(f)] has returned [r]. *)
Definition return_of (t : task) (r : option error) (g : group) : group :=
  mkGroup _ (filter (fun t' => t' <> t) (running g)) (returned r (eg g)) (signaled g) (log g ++ [(t, r)]).

(** A goroutine returns. *)
Inductive finish : group -> group -> Prop :=
| finish_task t r open g : t ∈ running g -> returns (done g) open t r -> finish g (return_of t r g).

(** [signal.NotifyContext]: the parent of [gctx] is canceled. *)
Definition on_signal (g : group) : group := mkGroup _ (running g) (parent_done (eg g)) true (log g).

Inductive group_step : group -> group -> Prop :=
| step_signal g : group_step g (on_signal g)
| step_finish g g' : finish g g' -> group_step g g'.

(** Before the group: the version flags end the process, a TLS configuration
    that is incomplete or does not load is an error, and no goroutine of the
    group runs. [None] is the start of the group. *)
Definition start_up {Creds} (load : string -> string -> result error Creds) (showVersion showVerbose : bool) :
    option (option error) :=
  if showVersion then Some None
  else if showVerbose then Some None
  else match serverOptions load cfg with Err e => Some (Some e) | Ok _ => None end.

Definition group0 : group := mkGroup _ tasks WithContext false [].

(** [g.Wait()] returns, and with what. *)
Definition wait (g : group) : option (option error) :=
  match running g with [] => Some (g_err g) | _ => None end.

(** ** Invariant *)

Definition first_error (l : list (task * option error)) : option error :=
  fold_left (fun e tr => match e with Some _ => e | None => tr.2 end) l None.

Record group_ok (g : group) : Prop := mkOk {
  ok_done : done g = true <-> signaled g = true \/ g_err g <> None;
  ok_err : g_err g = first_error (log g);
  ok_split : running g ++ (log g).*1 ≡ₚ tasks;
  ok_pollers : done g = false -> DiscoveryPoller ∈ running g /\ EppDataPoller ∈ running g }.

Lemma first_error_snoc l t r :
  first_error (l ++ [(t, r)]) = match first_error l with Some e => Some e | None => r end.
Proof. unfold first_error. rewrite fold_left_app. simpl. by destruct (fold_left _ _ _). Qed.

Lemma group0_ok : group_ok group0.
Proof.
  split; unfold done, g_err; simpl; rewrite ?new_done, ?new_err; [naive_solver|done|done|].
  intros _. unfold tasks. split; set_solver.
Qed.

Lemma NoDup_tasks : NoDup tasks.
Proof. unfold tasks. repeat constructor; set_solver. Qed.

Lemma remove_split (t : task) l k :
  t ∈ l -> l ++ k ≡ₚ tasks -> filter (fun t' => t' <> t) l ++ k ++ [t] ≡ₚ tasks.
Proof.
  intros Ht Hp. rewrite <- Hp.
  assert (Hn : NoDup l).
  { apply (NoDup_app l k). rewrite Hp. apply NoDup_tasks. }
  apply list_elem_of_split in Ht as (l1 & l2 & ->).
  apply NoDup_app in Hn as (Hn1 & Hd & Hn2). apply NoDup_cons in Hn2 as [Hn2 _].
  assert (Hf : forall m : list task, t ∉ m -> filter (fun x : task => x <> t) m = m).
  { induction m as [|x m IH]; [done|]. intros [Hx Hm]%not_elem_of_cons.
    by rewrite filter_cons, decide_True, IH by (done || congruence). }
  rewrite filter_app, filter_cons, decide_False by tauto.
  rewrite !Hf; [|done|intros H1; apply (Hd t H1); left]. solve_Permutation.
Qed.

Lemma returns_error_or_done g open t r :
  returns (done g) open t r -> done g = false -> r = None -> t = ReadinessGate.
Proof.
  intros Hr Hd Hn. destruct Hr as [t port listen serve _ Hs|e He|t _ Hc|_]; [| | |done].
  - unfold serveGRPC in Hn. destruct listen, serve; try done.
    specialize (Hs eq_refl eq_refl). congruence.
  - specialize (He Hn). congruence.
  - congruence.
Qed.

Lemma group_step_ok g g' : group_ok g -> group_step g g' -> group_ok g'.
Proof.
  intros [H1 H2 H3 H4] Hs. destruct Hs as [g|g g' Hf].
  - unfold done, g_err in *. split; simpl; unfold done, g_err; simpl;
      rewrite ?parent_is_done, ?parent_err; [|done|done|done]. split; [by left|done].
  - destruct Hf as [t r open g Ht Hr].
    assert (Hd : done (return_of t r g) = done g || match r with Some _ => true | None => false end)
      by apply returned_done.
    assert (He : g_err (return_of t r g) = match g_err g with Some e => Some e | None => r end)
      by apply returned_err.
    split; rewrite ?Hd, ?He; simpl.
    + rewrite orb_true_iff, H1. destruct (g_err g), r; intuition congruence.
    + by rewrite first_error_snoc, <- H2.
    + rewrite fmap_app. by apply remove_split.
    + intros [Hd' Hn]%orb_false_iff. pose proof (H4 Hd') as [? ?].
      assert (t = ReadinessGate) as -> by (eapply returns_error_or_done; [done|done|by destruct r]).
      split; by apply list_elem_of_filter.
Qed.

Lemma group_reach_ok g : reach group_step group0 g -> group_ok g.
Proof. apply reach_invariant; [apply group_step_ok|apply group0_ok]. Qed.

(** C34. Why and with what the process ends: when [g.Wait] returns, each of the
    six goroutines has returned exactly once, and the result is the first
    non-nil error in the order of their returns; it is nil, a clean exit, only
    after a signal, and as long as nothing failed and no signal came, both
    pollers run. *)
Theorem run_ends_with_the_first_failure g :
  reach group_step group0 g ->
  (forall r, wait g = Some r ->
    (log g).*1 ≡ₚ tasks /\ r = first_error (log g) /\ (r = None -> signaled g = true)) /\
  (signaled g = false -> first_error (log g) = None ->
    DiscoveryPoller ∈ running g /\ EppDataPoller ∈ running g).
Proof.
  intros Hr. destruct (group_reach_ok g Hr) as [H1 H2 H3 H4]. split.
  - intros r Hw. unfold wait in Hw. destruct (running g) as [|t l] eqn:Hrun; [|done]. simplify_eq.
    split; [done|]. split; [done|]. intros Hn. destruct (done g) eqn:Hd.
    + by destruct (proj1 H1 eq_refl).
    + destruct (H4 eq_refl) as [Hin _]. by apply not_elem_of_nil in Hin.
  - intros Hs Hn. apply H4. destruct (done g); [|done].
    destruct (proj1 H1 eq_refl); congruence.
Qed.

(** ** Shutdown *)

Lemma finish_shrinks g g' : finish g g' -> (length (running g') < length (running g))%nat.
Proof.
  intros [t r open g1 Ht _]. simpl. apply (length_filter_lt _ _ t Ht). tauto.
Qed.

(** Once [gctx] is done every goroutine can return nil. *)
Lemma can_return g t : done g = true -> t ∈ running g -> finish g (return_of t None g).
Proof.
  intros Hd Ht. apply (finish_task t None false); [done|]. rewrite Hd. destruct t.
  - apply (ret_grpc true false ExtProcServer (GRPCPort cfg) None None); auto.
  - apply (ret_grpc true false HealthServer (HealthPort cfg) None None); auto.
  - by apply ret_metrics.
  - apply ret_poller; auto.
  - apply ret_poller; auto.
  - apply ret_gate. by left.
Qed.


(** A process that cannot start its servers safely starts nothing. *)
Lemma start_up_fails_fast {Creds} (load : string -> string -> result error Creds) e :
  start_up load false false = Some (Some e) <-> serverOptions load cfg = Err e.
Proof. unfold start_up. destruct (serverOptions load cfg); naive_solver. Qed.
End Run.

(** ** Witness: a signal, then the six goroutines return in order. *)

Module ToyRun.
(** The two fields of [errgroup.Group] that matter. *)
#[export] Instance errgroup : ErrGroup := {|
  Group := bool * option error; WithContext := (false, None); parent_done g := (true, g.2);
  returned r g := (g.1 || match r with Some _ => true | None => false end,
                   match g.2 with Some e => Some e | None => r end);
  ctx_is_done := fst; Wait_err := snd;
  new_done := eq_refl; new_err := eq_refl;
  parent_is_done _ := eq_refl; parent_err _ := eq_refl;
  returned_done _ _ := eq_refl; returned_err _ _ := eq_refl |}.
Definition cfg : Config := parseConfig ToyApp.start.
Definition stopped : group := fold_left (fun g t => return_of t None g) tasks (on_signal group0).

Lemma stopped_reached : reach (group_step cfg) group0 stopped.
Proof.
  unfold stopped, tasks. cbn [fold_left].
  do 6 (eapply reach_snoc; [|apply step_finish, can_return; [reflexivity|vm_compute; set_solver]]).
  apply reach_one, step_signal.
Qed.
End ToyRun.
#[local] Existing Instance ToyRun.errgroup.

Lemma run_ends_with_the_first_failure_witness :
  wait ToyRun.stopped = Some None /\ signaled ToyRun.stopped = true.
Proof.
  split; [reflexivity|].
  destruct (run_ends_with_the_first_failure ToyRun.cfg ToyRun.stopped ToyRun.stopped_reached) as [Hw _].
  destruct (Hw None eq_refl) as (_ & _ & Hs). exact (Hs eq_refl).
Defined.

