(* ===== verification/Process.v ===== *)
(** * The process: every goroutine of run at once (cmd/epp/main.go)

    The other files take the program apart; here its goroutines share one state:
    the two polling loops, the manager with its drain workers and waiters, the
    request streams, the discovery plugins of every engine on the one hub, and
    the readiness gate.  [pstep] lets any of them take its next action.  The
    theorems say that the whole refines the parts, and what a snapshot does. *)

From S2P Require Import Prelude.
From S2P Require Import Threads.
From S2P Require Import GoStd.
From S2P Require Import Sha256.
From S2P Require Import Role.
From S2P Require Import Llmd.
From S2P Require Import Cell.
From S2P Require Import Compile.
From S2P Require Import Manager.
From S2P Require Import ManagerSpec.
From S2P Require Import Json.
From S2P Require Import InnerApi.
From S2P Require Import EppData.
From S2P Require Import Hub.
From S2P Require Import Discovery.
From S2P Require Import DiscoveryLoop.
From S2P Require Import ClusterTable.
From S2P Require Import Poller.
From S2P Require Import Sources.
From S2P Require Import App.
From S2P Require Import Control.
From S2P Require Import System.
From S2P Require Import Interleaved.
From S2P Require Import Readiness.
Local Open Scope Z_scope.

(** ** A polling round in two halves

    [Handle] of the epp_data loop is not atomic: what the loop does before and
    after it. *)
Section Halves.
Context {T : Type}.
Import Loop.

(** The poller after [Fetch], up to the call of [Handle] if there is one. *)
Definition fetched (now : Z) (r : FetchResult T) (p : Poller) : Poller :=
  match err r with
  | Some _ => emit (BackoffState 1) (set_bo (Backoff.next (bo p)).2 (fail p))
  | None =>
      let p1 := emit (BackoffState 0) (set_bo (Backoff.reset (bo p))
                  (emit (Fetched (changed r) (newVersion r)) p)) in
      if changed r then p1 else mark_first_sync (emit (LastSync now) p1)
  end.

(** What is handed to [Handle]. *)
Definition to_handle (r : FetchResult T) : option T :=
  match err r with Some _ => None | None => if changed r then Some (data r) else None end.

(** The poller after [Handle] has returned. *)
Definition finished (now : Z) (ver : string) (e : option error) (p : Poller) : Poller :=
  match e with
  | Some _ => fail p
  | None => mark_first_sync (emit (LastSync now) (set_version ver (emit (Applied ver) p)))
  end.

(** Together, with an atomic [Handle] between them, they are a round of the loop. *)
Lemma round_in_halves {Src Cons} (source : Source Src T) (handle : Handle Cons T) now (c : @config Src Cons) :
  let '(r, s') := source (version (poller c)) (src c) in
  (@round Src Cons T source handle now c).2 =
  match to_handle r with
  | None => mkConfig (fetched now r (poller c)) s' (cons c)
  | Some d => let '(e, k) := handle d (cons c) in
              mkConfig (finished now (newVersion r) e (fetched now r (poller c))) s' k
  end.
Proof.
  unfold round, Fetch, to_handle, fetched, finished. destruct (source _ _) as [r s'].
  destruct (err r) as [er|]; [by destruct (Backoff.next _)|]. destruct (changed r); [|done].
  by destruct (handle _ _) as [[er|] k].
Qed.
End Halves.

(** ** The state *)

Section Process.
Context {L : LlmdRouter} `{MapRange} {Out : Type}.

(** Where the epp_data loop stands: between two rounds, or with the rest of the
    [Handle] of a snapshot that came with version [v] still to run. *)
Inductive epp_pc :=
| Idle
| Handling (v : string) (cfg : EppDataConfig) (rest : prog sys (option error)).

(** The readiness gate: waiting for the first sync; about to list the cells;
    [all] tells whether those looked at so far are ready; about to list again. *)
Inductive gate_pc :=
| AwaitSync
| Listing
| Looking (cs : list nat) (all : bool)
| Counting (all : bool)
| Opened.

(** The discovery plugin [i] of engine [e] and where its goroutine stands. *)
Record plugin := mkPlugin { pl_disc : Discovery.discovery; pl_at : DiscoveryLoop.pc }.

(** [p_out] is the network and the files, [p_dir] the consumer of the cluster
    table with the hub, [p_stores] what the notifiers of a cell's plugins have
    left in its datastore. *)
Record process := mkProcess {
  p_sys : sys; p_out : Out;
  p_epp : Loop.Poller; p_epp_at : epp_pc;
  p_tab : Loop.Poller; p_dir : ClusterDiscovery;
  p_plugins : gmap (nat * nat) plugin; p_stores : gmap nat store;
  p_gate : gate_pc; p_health : Health.healthServer }.

Definition p_world (p : process) : World := W (p_sys p).
Definition p_hub (p : process) : Hub := cd_hub (p_dir p).

Definition on_epp o l a p := mkProcess (p_sys p) o l a (p_tab p) (p_dir p) (p_plugins p) (p_stores p) (p_gate p) (p_health p).
Definition set_sys s p := mkProcess s (p_out p) (p_epp p) (p_epp_at p) (p_tab p) (p_dir p) (p_plugins p) (p_stores p) (p_gate p) (p_health p).
Definition set_epp_at a p := on_epp (p_out p) (p_epp p) a p.
Definition on_table o l d p := mkProcess (p_sys p) o (p_epp p) (p_epp_at p) l d (p_plugins p) (p_stores p) (p_gate p) (p_health p).
Definition on_plugins l st p := mkProcess (p_sys p) (p_out p) (p_epp p) (p_epp_at p) (p_tab p) (p_dir p) l st (p_gate p) (p_health p).
Definition on_gate g h p := mkProcess (p_sys p) (p_out p) (p_epp p) (p_epp_at p) (p_tab p) (p_dir p) (p_plugins p) (p_stores p) g h.

(** [run] has built everything and starts its goroutines. *)
Definition boot (sc : Scopes) (o : Out) (opts : Loop.Options) : process :=
  mkProcess (init sc) o (Loop.New opts) Idle (Loop.New opts) (NewClusterDiscovery NewHub None) ∅ ∅
    AwaitSync (Health.mkHealth false).

(** ** The actions *)

(** The watcher and the two sources of [run]; [EndpointMetadata.Equal]; the
    cluster-table plugin a discovery plugin of an engine is, if it is one. *)
Context (wt : EppDataWatcher).
Context (epp_source : Loop.Source Out EppDataConfig).
Context (table_source : Loop.Source Out (gmap string (list EndpointMetadata))).
Context (Equal : EndpointMetadata -> EndpointMetadata -> bool).
Context (plugin_of : Llmd.Discovery -> option Discovery.discovery).

(** The epp_data loop fetches at time [now]. *)
Definition epp_fetch (now : Z) (p : process) : process :=
  let '(r, o) := epp_source (Loop.version (p_epp p)) (p_out p) in
  on_epp o (fetched now r (p_epp p))
    (match to_handle r with
     | None => Idle
     | Some cfg => Handling (Loop.newVersion r) cfg (Handle_prog wt cfg)
     end) p.

(** A round of the discovery loop. *)
Definition table_round (now : Z) (p : process) : process :=
  let c := (@Loop.round _ _ _ table_source (discoveryHandle (p_world p)) now
              (Loop.mkConfig (p_tab p) (p_out p) (p_dir p))).2 in
  on_table (Loop.src c) (Loop.poller c) (Loop.cons c) p.

(** Discovery plugin [i] of engine [e], and the cell whose datastore it feeds. *)
Definition discovery_at (w : World) (e i : nat) : option (Llmd.Discovery * nat) :=
  x ← engines w !! e; d ← Cell.discovery (eng x) !! i; Some (d, parent x).

(** [close(d.ready)] as the waiters see it. *)
Definition signal (e i : nat) (s : sys) : sys := set_W (on_readies (fun r => {[(e, i)]} ∪ r) (W s)) s.

(** The plugin's goroutine takes its next action; its context is the engine's. *)
Definition plugin_turn (prefer_ctx : bool) (e i c : nat) (pl : plugin) (p : process) : process :=
  let s := DiscoveryLoop.turn Equal (ctx_done (p_world p) e) prefer_ctx
    (DiscoveryLoop.mkSys (p_hub p) (pl_disc pl) (default ∅ (p_stores p !! c)) (pl_at pl) 0 0) in
  set_sys (if once (disc s) then signal e i (p_sys p) else p_sys p)
    (on_plugins (<[(e, i) := mkPlugin (disc s) (at_pc s)]> (p_plugins p)) (<[c := endpoints s]> (p_stores p)) p).

(** The next action of the gate. *)
Definition gate_turn (p : process) : process :=
  match p_gate p with
  | AwaitSync => if Loop.FirstSync (p_epp p) then on_gate Listing (p_health p) p else p
  | Listing => on_gate (Looking (List_cells (p_world p)).1 true) (p_health p) p
  | Looking [] all => on_gate (Counting all) (p_health p) p
  | Looking (c :: cs) all =>
      on_gate (Looking cs (if (Cell_Ready c (p_world p)).1 then all else false)) (p_health p) p
  | Counting all =>
      if all && (0 <? length (List_cells (p_world p)).1)%nat
      then on_gate Opened (Health.setReady true (p_health p)) p
      else on_gate Listing (p_health p) p
  | Opened => p
  end.

Inductive pstep : process -> process -> Prop :=
(* the epp_data loop: fetch, the next call of [Handle], its return *)
| go_fetch now p : p_epp_at p = Idle -> pstep p (epp_fetch now p)
| go_call v cfg X (f : St sys X) k p :
    p_epp_at p = Handling v cfg (Act f k) ->
    pstep p (set_epp_at (Handling v cfg (k (f (p_sys p)).1)) (set_sys (exec f (p_sys p)) p))
| go_return now v cfg e p :
    p_epp_at p = Handling v cfg (Done e) ->
    pstep p (on_epp (p_out p) (finished now v e (p_epp p)) Idle p)
(* the discovery loop *)
| go_table now p : pstep p (table_round now p)
(* [go disc.Start(e.ctx, ...)]: a cluster-table plugin comes to life and runs *)
| go_launch e i d c x p :
    (e, i) ∈ started (p_world p) -> p_plugins p !! (e, i) = None ->
    discovery_at (p_world p) e i = Some (d, c) -> plugin_of d = Some x ->
    pstep p (on_plugins (<[(e, i) := mkPlugin x Snapshotting]> (p_plugins p)) (p_stores p) p)
| go_plugin b e i d c pl p :
    p_plugins p !! (e, i) = Some pl -> discovery_at (p_world p) e i = Some (d, c) ->
    pstep p (plugin_turn b e i c pl p)
(* a plugin of another type reports its initial sync *)
| go_foreign e i d c p :
    discovery_at (p_world p) e i = Some (d, c) -> plugin_of d = None ->
    pstep p (set_sys (signal e i (p_sys p)) p)
(* drain workers, waiters, request streams, the clock *)
| go_background s p :
    background (manager wt) (p_sys p) s -> readies (W s) = readies (p_world p) -> pstep p (set_sys s p)
(* the readiness gate *)
| go_gate p : pstep p (gate_turn p).

(** ** The epp_data loop and the others *)

Abbreviation others := (background (manager wt)).

(** What a step is for the manager's system: nothing, a step of [background], or
    one action of the epp_data goroutine. *)
Inductive epp_view (p p' : process) : Prop :=
| ev_others : p_epp_at p' = p_epp_at p -> reach others (p_sys p) (p_sys p') -> epp_view p p'
| ev_fetch : p_epp_at p = Idle -> p_sys p' = p_sys p ->
    (p_epp_at p' = Idle \/ exists v cfg, p_epp_at p' = Handling v cfg (Handle_prog wt cfg) /\
       exists version o, cfg = Loop.data (epp_source version o).1) -> epp_view p p'
| ev_call v cfg X (f : St sys X) k : p_epp_at p = Handling v cfg (Act f k) ->
    p_epp_at p' = Handling v cfg (k (f (p_sys p)).1) -> p_sys p' = exec f (p_sys p) -> epp_view p p'
| ev_return v cfg e : p_epp_at p = Handling v cfg (Done e) -> p_epp_at p' = Idle -> p_sys p' = p_sys p ->
    epp_view p p'.

Lemma signal_others e i s : reach others s (signal e i s).
Proof. apply reach_one, st_ready. Qed.

Lemma gate_turn_frame p : p_sys (gate_turn p) = p_sys p /\ p_epp_at (gate_turn p) = p_epp_at p /\
  p_plugins (gate_turn p) = p_plugins p /\ p_stores (gate_turn p) = p_stores p /\ p_dir (gate_turn p) = p_dir p /\
  p_epp (gate_turn p) = p_epp p.
Proof. unfold gate_turn. destruct (p_gate p) as [| |[|c cs]|a|]; try done; [by destruct (Loop.FirstSync _)|by destruct (a && _)]. Qed.

Lemma pstep_epp p p' : pstep p p' -> epp_view p p'.
Proof.
  intros Hs. destruct Hs as [now p Hi|v cfg X f k p Hc|now v cfg e p Hc|now p|e i d c x p _ _ _ _|b e i d c pl p _ _|
    e i d c p _ _|s p Hb _|p].
  - apply ev_fetch; [done|unfold epp_fetch; by destruct (epp_source _ _)|]. unfold epp_fetch.
    destruct (epp_source (Loop.version (p_epp p)) (p_out p)) as [r o] eqn:Hf. simpl.
    destruct (to_handle r) as [cfg|] eqn:Hr; [right|by left]. exists (Loop.newVersion r), cfg. split; [done|].
    exists (Loop.version (p_epp p)), (p_out p). rewrite Hf. unfold to_handle in Hr.
    destruct (Loop.err r); [done|]. destruct (Loop.changed r); by simplify_eq.
  - by eapply ev_call.
  - by eapply ev_return.
  - apply ev_others; [done|constructor].
  - apply ev_others; [done|constructor].
  - apply ev_others; [done|]. unfold plugin_turn. simpl. case_match; [apply signal_others|constructor].
  - apply ev_others; [done|apply signal_others].
  - apply ev_others; [done|by apply reach_one].
  - destruct (gate_turn_frame p) as (Hs & He & _). apply ev_others; [done|]. rewrite Hs. constructor.
Qed.

(** The rest of a [Handle] consists of manager calls. *)
Definition calls_manager (p : process) : Prop :=
  match p_epp_at p with Handling _ _ q => all_steps (System.step (manager wt)) q | Idle => True end.

Lemma calls_manager_step p p' : pstep p p' -> calls_manager p -> calls_manager p'.
Proof.
  intros Hs Hc. unfold calls_manager in *.
  destruct (pstep_epp p p' Hs) as [-> _|_ _ [->|(v & cfg & -> & _)]|v cfg X f k Hp -> _|v cfg e _ -> _]; try done.
  - apply Handle_prog_steps.
  - rewrite Hp in Hc. apply Hc.
Qed.

Lemma system_of_step p p' : pstep p p' -> calls_manager p -> reach (System.step (manager wt)) (p_sys p) (p_sys p').
Proof.
  intros Hs Hc. unfold calls_manager in Hc.
  destruct (pstep_epp p p' Hs) as [_ Hr|_ -> _|v cfg X f k Hp _ ->|v cfg e _ _ ->]; try constructor.
  - by apply reach_background.
  - rewrite Hp in Hc. apply Hc.
Qed.

Lemma system_of_reach p p' : reach pstep p p' -> calls_manager p ->
  calls_manager p' /\ reach (System.step (manager wt)) (p_sys p) (p_sys p').
Proof.
  intros Hr Hc. induction Hr as [|p1 p2 _ [Hc1 Hr1] Hs]; [split; [done|constructor]|].
  split; [by eapply calls_manager_step|]. eapply reach_trans; [done|by apply system_of_step].
Qed.

Context (sc : Scopes) (out : Out) (opts : Loop.Options).
Abbreviation start := (boot sc out opts).

Lemma system_reached p : reach pstep start p -> reach (System.step (manager wt)) (init sc) (p_sys p).
Proof. intros Hr. by apply (system_of_reach start p Hr). Qed.


(** ** What a snapshot does *)

(** [q'] at [s'] is what is left of [q] started at [s]. *)
Definition left_over (R : sys -> sys -> Prop) {A} (q : prog sys A) (s : sys) (q' : prog sys A) (s' : sys) : Prop :=
  forall a s2, interleaved R q' s' a s2 -> interleaved R q s a s2.

Lemma left_over_call R {A X} (q : prog sys A) s (f : St sys X) (k : X -> prog sys A) s' :
  left_over R q s (Act f k) s' -> left_over R q s (k (f s').1) (exec f s').
Proof. intros Hl a s2 Hi. apply Hl. exists s'. split; [constructor|done]. Qed.

Lemma left_over_others R {A} (q : prog sys A) s q' s1 s2 :
  reach R s1 s2 -> left_over R q s q' s1 -> left_over R q s q' s2.
Proof. intros Hr Hl a s3 Hi. apply Hl. by eapply interleaved_later. Qed.

Definition round_started (p : process) : Prop :=
  match p_epp_at p with
  | Handling _ cfg q => exists p0, reach pstep start p0 /\ reach pstep p0 p /\ p_epp_at p0 = Idle /\
      left_over others (Handle_prog wt cfg) (p_sys p0) q (p_sys p)
  | Idle => True
  end.

Lemma rounds_started p : reach pstep start p -> round_started p.
Proof.
  induction 1 as [|p1 p2 Hr IH Hs]; [done|]. unfold round_started in *.
  pose proof (reach_one pstep p1 p2 Hs) as H12.
  destruct (pstep_epp p1 p2 Hs) as [-> Hb|Hi Heq [->|(v & cfg & -> & _)]|v cfg X f k Hp -> ->|v cfg e _ -> _]; try done.
  - destruct (p_epp_at p1); [done|]. destruct IH as (p0 & H0 & H1 & Hi & Hl). exists p0.
    do 3 (split; [done || by eapply reach_trans|]). by eapply left_over_others.
  - exists p1. split; [done|]. split; [done|]. split; [done|]. rewrite Heq. by intros a s2.
  - rewrite Hp in IH. destruct IH as (p0 & H0 & H1 & Hi & Hl). exists p0.
    do 3 (split; [done || by eapply reach_trans|]). by apply left_over_call.
Qed.


End Process.

(** The watcher of [run]: the instance id and the manager built from its
    configuration. *)
Definition program_watcher {L : LlmdRouter} (cfg : Config.Config) : EppDataWatcher :=
  NewEppDataWatcher (Config.InstanceID cfg) (NewManager (Config.manager_options cfg)).

(** ** Witnesses

    A process in local mode that is the primary of ["a"], whose configuration
    asks for the discovery plugin; the table lists one backend. *)

Module ToyProcess.
#[local] Existing Instance ToyLlmd.toy.
#[local] Existing Instance list_range.
#[local] Existing Instance ToyApi.net.
Local Open Scope string_scope.

Definition config : Config.Config := Config.parseConfig (Config.mkStart (fun _ => "")
  (fun n => if decide (n = "local-config-dir") then Some "/etc/epp/"
            else if decide (n = "instance-id") then Some "epp-1" else None)
  (fun _ => None) (fun _ => None) (Ok "h")).
Definition conf : gmap string json := <["a" := mkString "disc"]> ∅.
#[local] Instance files : Sources.FileSystem unit := fun p s =>
  (if decide (p = "/etc/epp/epp_data_config.json") then Ok (raw (epp_data_doc conf ToyControl.asg))
   else if decide (p = "/etc/epp/cluster_table.json") then Ok (raw (cluster_table_doc ToyControl.table))
   else Err (NewError "no such file"), s).

Definition wt : EppDataWatcher := program_watcher config.
Definition data0 (k : Key) : DataPlane := mkData [k] [] false.
Definition same (x y : EndpointMetadata) : bool := bool_decide (x = y).
Definition plugin_of (d : string) : option Discovery.discovery :=
  if decide (d = "ep") then Some (mkDiscovery "a" ∅ 0 false) else None.
Definition epp_source : Loop.Source (unit * unit) EppDataConfig := eppDataSrc config.
Definition table_source : Loop.Source (unit * unit) (gmap string (list EndpointMetadata)) := discoverySrc config.
Definition go := pstep wt epp_source table_source same plugin_of.
Abbreviation state := (process (Out := unit * unit)).

Lemma program_newCell_ok k : m_newCell (manager wt) k = Ok (data0 k).
Proof. reflexivity. Qed.
Lemma compile_scope_free : scope_free (m_compile (manager wt)).
Proof. by apply default_scope_free. Qed.
Lemma same_is_equal x y : same x y = true -> x = y.
Proof. apply bool_decide_eq_true. Qed.
Lemma plugin_built d x : plugin_of d = Some x -> exists params, Factory params = Ok x.
Proof. unfold plugin_of. case_decide; intros [= <-]. exists (Some (raw (mkObject [("clusterName", mkString "a")]))). vm_compute. reflexivity. Qed.

(** The next action of the epp_data loop. *)
Definition epp_turn (p : state) : state :=
  match p_epp_at p with
  | Idle => epp_fetch wt epp_source 0 p
  | Handling v cfg (Act f k) => set_epp_at (Handling v cfg (k (f (p_sys p)).1)) (set_sys (exec f (p_sys p)) p)
  | Handling v cfg (Done e) => on_epp (p_out p) (finished 0 v e (p_epp p)) Idle p
  end.
Lemma epp_turn_step p : go p (epp_turn p).
Proof.
  unfold epp_turn, go. destruct (p_epp_at p) as [|v cfg [e|X f k]] eqn:Hp.
  - by apply go_fetch.
  - by eapply go_return.
  - by eapply go_call.
Qed.
Lemma iter_steps (f : state -> state) n p : (forall p, go p (f p)) -> reach go p (Nat.iter n f p).
Proof. intros Hf. induction n; [constructor|]. by eapply reach_snoc. Qed.

Definition booted : state := boot 0%nat (tt, tt) (poller_options config).
(** The snapshot has been fetched and every call of its [Handle] made. *)
Definition handled : state := Nat.iter 6 epp_turn booted.
Definition idle : state := epp_turn handled.
Lemma handled_reached : reach go booted handled.
Proof. apply iter_steps, epp_turn_step. Qed.
Lemma handled_idle : reach go handled idle.
Proof. apply reach_one, epp_turn_step. Qed.
Lemma idle_reached : reach go booted idle.
Proof. eapply reach_trans; [apply handled_reached|apply handled_idle]. Qed.

Definition snapshot : EppDataConfig := mkEppData (<["a" := Quote "disc"]> ∅) ToyControl.asg.
Lemma handled_at : p_epp_at handled = Handling "" snapshot (Done None).
Proof. vm_compute. reflexivity. Qed.
End ToyProcess.


