(* ===== verification/Serving.v ===== *)
(** * What SERVING means: from the readiness probe down to the endpoint hub

    On the process of Process.v: what the readiness gate has seen when it opens,
    what a closed ready channel of a plugin tells about the hub, and where the
    endpoints in the datastore of a cell come from. *)

From S2P Require Import Prelude.
From S2P Require Import Threads.
From S2P Require Import GoStd.
From S2P Require Import Role.
From S2P Require Import Llmd.
From S2P Require Import Cell.
From S2P Require Import Compile.
From S2P Require Import Manager.
From S2P Require Import WellFormed.
From S2P Require Import ManagerSpec.
From S2P Require Import InnerApi.
From S2P Require Import EppData.
From S2P Require Import Frame.
From S2P Require Import Hub.
From S2P Require Import Discovery.
From S2P Require Import DiscoveryLoop.
From S2P Require Import ClusterTable.
From S2P Require Import Poller.
From S2P Require Import Sources.
From S2P Require Import Typing.
From S2P Require Import App.
From S2P Require Import Control.
From S2P Require Import System.
From S2P Require Import Interleaved.
From S2P Require Import Readiness.
From S2P Require Import Process.
Local Open Scope Z_scope.

(** ** What only grows *)

Section Growth.
Context {L : LlmdRouter}.

(** Engines stay, with their plugins and their cell; cells stay, and a ready one
    stays ready. *)
Definition grows (w w' : World) : Prop := bounded w ->
  bounded w' /\ engines_kept w w' /\
  (forall c o, cells w !! c = Some o -> exists o', cells w' !! c = Some o' /\ (readyCloses o <= readyCloses o')%nat) /\
  readies w ⊆ readies w'.

Lemma grows_id w w' : cells w' = cells w -> engines w' = engines w -> readies w ⊆ readies w' ->
  next_cell w' = next_cell w -> next_eng w' = next_eng w -> grows w w'.
Proof.
  intros Hc He Hr Hnc Hne Hb. split; [by unfold bounded; rewrite Hc, He, Hnc, Hne|].
  split; [by apply engines_kept_id|]. split; [|done]. intros c o Ho. exists o. by rewrite Hc.
Qed.

Lemma grows_trans w1 w2 w3 : grows w1 w2 -> grows w2 w3 -> grows w1 w3.
Proof.
  intros H12 H23 Hb1. destruct (H12 Hb1) as (Hb2 & He2 & Hc2 & Hr2). destruct (H23 Hb2) as (Hb3 & He3 & Hc3 & Hr3).
  split; [done|]. split; [|split; [|by etransitivity]].
  - intros e x Hx. destruct (He2 e x Hx) as (x2 & Hx2 & E2 & P2 & C2).
    destruct (He3 e x2 Hx2) as (x3 & Hx3 & E3 & P3 & C3). exists x3. rewrite E3, P3. split_and!; auto.
  - intros c o Ho. destruct (Hc2 c o Ho) as (o2 & Ho2 & N2). destruct (Hc3 c o2 Ho2) as (o3 & Ho3 & N3).
    exists o3. split; [done|lia].
Qed.

(** An update of a cell that does not take readiness back. *)
Lemma grows_alter f c w : (forall o, (readyCloses o <= readyCloses (f o))%nat) -> grows w (on_cells (alter f c) w).
Proof.
  intros Hf [Hb1 Hb2].
  assert (Hl : forall c', cells (on_cells (alter f c) w) !! c' =
    (if decide (c' = c) then f <$> cells w !! c' else cells w !! c')).
  { intros c'. simpl. case_decide; [subst; by rewrite lookup_alter_eq|by rewrite lookup_alter_ne]. }
  split; [|split; [by apply engines_kept_id|split; [|done]]].
  - split; [|done]. intros c'. rewrite Hl. case_decide; [rewrite fmap_is_Some|]; apply Hb1.
  - intros c' o Ho. rewrite Hl, Ho. case_decide; simpl; eauto.
Qed.

Lemma grows_alter_engine g e w :
  (forall x, eng (g x) = eng x /\ parent (g x) = parent x /\ (canceled x = true -> canceled (g x) = true)) ->
  grows w (on_engines (alter g e) w).
Proof.
  intros Hg Hb. destruct (calm_alter_engine g e w Hg Hb) as (Hb' & Hr & _ & He & _ & _).
  split; [done|]. split; [done|]. split; [|by rewrite Hr]. intros c o Ho. by exists o.
Qed.

Lemma frame_grows : frame grows.
Proof.
  split; try (intros; by apply grows_id).
  - apply grows_trans.
  - intros f c w Hf. apply grows_alter. intros o. by rewrite (gentle_ready f Hf).
  - intros e w. apply grows_alter_engine, cancel_obj_gentle.
  - intros o w Ho Hr Hb. destruct (fr_new_cell calm frame_calm o w Ho Hr Hb) as (Hb' & Hrd & _ & He & _ & _).
    split; [done|]. split; [done|]. split; [|by rewrite Hrd]. intros c o1 Ho1. exists o1. split; [|done].
    destruct Hb as [Hb _]. specialize (Hb c (mk_is_Some _ _ Ho1)). simpl. rewrite lookup_insert_ne; [done|lia].
  - intros x w Hx Hb. destruct (fr_new_engine calm frame_calm x w Hx Hb) as (Hb' & Hrd & _ & He & _ & _).
    split; [done|]. split; [done|]. split; [|by rewrite Hrd]. intros c o Ho. by exists o.
Qed.

Lemma starts_grows : Frame.starts grows.
Proof. split; intros; try by apply grows_id. apply grows_alter. intros o. simpl. lia. Qed.

Lemma swap_grows : allows_swap grows.
Proof. intros e c w. by apply grows_alter. Qed.

Lemma grows_step m s s' : System.step m s s' -> grows (W s) (W s').
Proof.
  pose proof frame_grows as F. pose proof starts_grows as S0.
  destruct 1 as [k r s|k s|k raw s|x s|s s' Hb]; simpl.
  - by apply moves_Ensure.
  - by apply moves_Drop.
  - apply moves_ApplyConfig; [done..|apply swap_grows].
  - by apply grows_id.
  - destruct Hb as [t w s Hn _|j t s _ _|j t s _|j x p r w s _ Hr|e j s|t s|c e s _|j c e s _|j c e s _|j c e s _];
      simpl; try by apply grows_id.
    + unfold drain_next in Hn. destruct (drainCh (W s)) as [|t' q]; simplify_eq.
      apply (grows_trans _ (on_drainCh (fun _ => q) (W s))); [by apply grows_id|]. apply F.
    + by apply moves_drain_end.
    + by apply moves_drain_end.
    + pose proof (moves_waiter_step grows F S0 p x (W s)) as Hg. rewrite Hr in Hg. simpl in Hg.
      eapply grows_trans; [exact Hg|by apply grows_id].
    + apply grows_id; try done. simpl. set_solver.
    + by apply grows_alter_engine.
    + by apply grows_alter_engine.
Qed.

Lemma grows_reach m s s' : reach (System.step m) s s' -> grows (W s) (W s').
Proof.
  induction 1 as [|s1 s2 _ IH Hs]; [by apply grows_id|]. eapply grows_trans; [exact IH|by eapply grows_step].
Qed.

(** [Cell_Ready] as a property of the world. *)
Definition is_ready (w : World) (c : nat) : Prop := (Cell_Ready c w).1 = true.

Lemma is_ready_spec w c : is_ready w c <-> exists o, cells w !! c = Some o /\ (0 < readyCloses o)%nat.
Proof.
  unfold is_ready, Cell_Ready. rewrite St_bind_run. unfold load, gets. cbn [fst snd]. 
  destruct (cells w !! c) as [o|] eqn:Ho; simpl.
  - rewrite Nat.ltb_lt. naive_solver.
  - split; [done|]. by intros (o & ? & _).
Qed.

Lemma is_ready_grows w w' c : bounded w -> grows w w' -> is_ready w c -> is_ready w' c.
Proof.
  intros Hb Hg (o & Ho & Hr)%is_ready_spec. destruct (Hg Hb) as (_ & _ & Hc & _).
  destruct (Hc c o Ho) as (o' & Ho' & Hle). apply is_ready_spec. exists o'. split; [done|lia].
Qed.

Lemma discovery_at_grows w w' e i d c : bounded w -> grows w w' ->
  discovery_at w e i = Some (d, c) -> discovery_at w' e i = Some (d, c).
Proof.
  intros Hb Hg. destruct (Hg Hb) as (_ & He & _). unfold discovery_at.
  destruct (engines w !! e) as [x|] eqn:Hx; [|done]. destruct (He e x Hx) as (x' & -> & Hex & Hpx & _). simpl.
  by rewrite Hex, Hpx.
Qed.
End Growth.

(** ** One turn of a plugin *)

Section Turns.
Context `{MapRange} (Equal : EndpointMetadata -> EndpointMetadata -> bool).
Context (Equal_sound : forall x y, Equal x y = true -> x = y).

Lemma replay_deletes ids s id ep : replay (Delete <$> ids) s !! id = Some ep -> s !! id = Some ep.
Proof.
  revert s. induction ids as [|i ids IH]; intros s; [done|]. intros Hr. apply IH in Hr.
  by apply lookup_delete_Some in Hr as [_ ?].
Qed.

Lemma replay_upserts ms s id ep :
  replay (Upsert <$> ms) s !! id = Some ep -> s !! id = Some ep \/ ID ep = id /\ ep ∈ ms.
Proof.
  revert s. induction ms as [|m ms IH]; intros s; [by left|]. intros Hr.
  destruct (IH (<[ID m := m]> s) Hr) as [Hm|[? ?]]; [|right; by split; [|right]].
  apply lookup_insert_Some in Hm as [[? ->]|[_ ?]]; [right; by split; [|left]|by left].
Qed.

(** The first half of an iteration takes the hub's list, the second applies it;
    everything else leaves plugin and datastore alone. *)
Lemma turn_cases c b s : let s' := DiscoveryLoop.turn Equal c b s in
  (disc s' = disc s /\ endpoints s' = endpoints s /\
   forall des v, at_pc s' = Applying des v -> des = default [] (Hub.data (hub s) !! clusterName (disc s))) \/
  (exists des v, at_pc s = Applying des v /\ once (disc s') = true /\ clusterName (disc s') = clusterName (disc s) /\
     applied (disc s') = table des /\ (forall des v, at_pc s' <> Applying des v) /\
     forall id ep, endpoints s' !! id = Some ep -> endpoints s !! id = Some ep \/ ID ep = id /\ ep ∈ des).
Proof.
  intros s'. unfold s', DiscoveryLoop.turn. destruct (at_pc s) as [|des v|v w|] eqn:Hat.
  - left. split; [done|]. split; [done|]. simpl. by intros des v [= <- _].
  - right. exists des, v. split; [done|]. pose proof (apply_run Equal des (applied (disc s)) Equal_sound) as Hr.
    destruct (apply Equal des (applied (disc s))) as [a calls]. destruct Hr as (-> & _ & ids & ms & -> & _ & _ & Hms).
    cbn [disc endpoints at_pc]. split; [unfold close_ready; cbn; by destruct (once (disc s)) eqn:?|].
    split; [unfold close_ready; cbn; by destruct (once (disc s))|].
    split; [unfold close_ready; cbn; by destruct (once (disc s))|]. split; [done|].
    intros id ep. rewrite replay_app. intros [Hd|[Hid Hin]]%replay_upserts; [left; by eapply replay_deletes|].
    right. split; [done|]. by eapply elem_of_sublist.
  - left. destruct w; split_and!; try done; by simpl; try case_decide.
  - left. split_and!; try done. intros des v. by rewrite Hat.
Qed.
End Turns.

(** ** The invariants of the process *)

Section Serving.
Context {L : LlmdRouter} `{MapRange} {Out : Type} (wt : EppDataWatcher).
Context (epp_source : Loop.Source Out EppDataConfig).
Context (table_source : Loop.Source Out (gmap string (list EndpointMetadata))).
Context (Equal : EndpointMetadata -> EndpointMetadata -> bool).
Context (Equal_sound : forall x y, Equal x y = true -> x = y).
(** A discovery plugin of the type registered by [NewFactory] was built by it. *)
Context (plugin_of : Llmd.Discovery -> option Discovery.discovery).
Context (plugin_built : forall d x, plugin_of d = Some x -> exists params, Factory params = Ok x).
Context (sc : Scopes) (out : Out) (opts : Loop.Options).
Abbreviation go := (pstep wt epp_source table_source Equal plugin_of).
Abbreviation start := (boot sc out opts).
Abbreviation state := (process (Out := Out)).

Lemma built_fresh d x : plugin_of d = Some x -> applied x = ∅ /\ once x = false.
Proof.
  intros [params Hf]%plugin_built. by rewrite (Factory_fresh params x Hf).
Qed.

(** *** The calls of [Handle] and the worlds *)

(** Every call of [Handle] is a step along a relation the manager respects. *)
Lemma Handle_prog_frame (R : World -> World -> Prop) cfg : frame R -> Frame.starts R -> allows_swap R ->
  all_steps (fun s s' => R (W s) (W s')) (Handle_prog wt cfg).
Proof.
  intros F S0 X.
  assert (Hinv : forall Y (f : St World Y), moves R f -> all_steps (fun s s' => R (W s) (W s')) (invoke f)).
  { intros Y f Hf. apply all_steps_act. intros s. apply reach_one. apply Hf. }
  assert (Hens : forall l, all_steps (fun s s' => R (W s) (W s')) (ensure_all_prog (manager wt) l)).
  { induction l as [|[k r] l IH]; [done|]. apply all_steps_bind; [by apply Hinv, moves_Ensure|]. by intros [c|e]. }
  unfold Handle_prog. apply all_steps_bind; [apply Hinv; by apply moves_metric|]. intros _.
  apply all_steps_bind; [apply Hens|]. intros [e|]; [done|].
  apply all_steps_bind; [by apply Hinv, moves_gets|]. intros live.
  apply all_steps_bind; [|intros _; apply all_steps_bind; [|done]]; apply all_steps_for_each.
  - intros c. apply all_steps_bind; [by apply Hinv, moves_gets|]. intros k. case_match; [done|].
    by apply Hinv, moves_Drop.
  - intros ce. unfold apply_assigned_prog. case_match; [|done]. apply all_steps_bind; [|done].
    by apply Hinv, moves_ApplyConfig.
Qed.

(** What is left of a [Handle] signals for no plugin. *)
Definition same_readies (w w' : World) : Prop := readies w' = readies w.
Definition silent (p : state) : Prop :=
  match p_epp_at p with
  | Handling _ _ q => all_steps (fun s s' => same_readies (W s) (W s')) q
  | Idle => True
  end.

Lemma silent_reach p : reach go start p -> silent p.
Proof.
  apply (reach_invariant go silent); [|done]. intros p1 p2 Hs Hst. unfold silent in *.
  destruct (pstep_epp wt epp_source table_source Equal plugin_of p1 p2 Hst)
    as [-> _|_ _ [->|(v & cfg & -> & _)]|v cfg X f k Hp -> _|v cfg e _ -> _]; try done.
  - apply Handle_prog_frame; unfold same_readies; [split; intros; congruence || done|by split|done].
  - rewrite Hp in Hs. apply Hs.
Qed.

Lemma call_silent p v cfg X (f : St sys X) k : silent p -> p_epp_at p = Handling v cfg (Act f k) ->
  readies (W (exec f (p_sys p))) = readies (p_world p).
Proof.
  unfold silent. intros Hs Hp. rewrite Hp in Hs. destruct Hs as [Hf _]. specialize (Hf (p_sys p)).
  revert Hf. generalize (exec f (p_sys p)). intros s Hr. unfold p_world.
  induction Hr as [|s1 s2 _ IH Hs]; [done|]. unfold same_readies in Hs. congruence.
Qed.

Lemma world_bounded p : reach go start p -> bounded (p_world p).
Proof. intros Hr. eapply wf_bounded, i_wf, inv_reach. by eapply system_reached. Qed.

Lemma world_grows p p' : reach go start p -> reach go p p' -> grows (p_world p) (p_world p').
Proof.
  intros Hr Hr'. eapply grows_reach.
  apply (proj2 (system_of_reach wt epp_source table_source Equal plugin_of p p' Hr'
    (proj1 (system_of_reach wt epp_source table_source Equal plugin_of start p Hr I)))).
Qed.

(** *** Plugins, signals and datastores *)

(** [eps] is what the hub listed for the cluster at some moment so far. *)
Definition was_listed (p : state) (cluster : string) (eps : list EndpointMetadata) : Prop :=
  exists p0, reach go start p0 /\ reach go p0 p /\ eps = default [] (Hub.data (p_hub p0) !! cluster).

(** Plugin [i] of engine [e] is the cluster-table plugin [x], and [c] its cell. *)
Definition our_plugin (p : state) (e i c : nat) (x : Discovery.discovery) : Prop :=
  exists d, discovery_at (p_world p) e i = Some (d, c) /\ plugin_of d = Some x.

Definition plugin_ok (p : state) (e i : nat) (pl : plugin) : Prop :=
  exists c x, our_plugin p e i c x /\ clusterName (pl_disc pl) = clusterName x /\
    (if once (pl_disc pl) then exists eps, was_listed p (clusterName x) eps /\ applied (pl_disc pl) = table eps
     else applied (pl_disc pl) = ∅) /\
    forall des v, pl_at pl = Applying des v -> was_listed p (clusterName x) des.

Definition endpoint_ok (p : state) (c : nat) (ep : EndpointMetadata) : Prop :=
  exists e i x eps, our_plugin p e i c x /\ was_listed p (clusterName x) eps /\ ep ∈ eps.

Definition signal_ok (p : state) (e i : nat) : Prop :=
  exists d c, discovery_at (p_world p) e i = Some (d, c) /\ forall x, plugin_of d = Some x ->
    exists pl, p_plugins p !! (e, i) = Some pl /\ once (pl_disc pl) = true.

Record plugins_ok (p : state) : Prop := mkPluginsOk {
  po_plugins : forall e i pl, p_plugins p !! (e, i) = Some pl -> plugin_ok p e i pl;
  po_stores : forall c st id ep, p_stores p !! c = Some st -> st !! id = Some ep -> ID ep = id /\ endpoint_ok p c ep;
  po_signals : forall e i, (e, i) ∈ readies (p_world p) -> signal_ok p e i }.

Section Later.
Context (p p' : state) (Hr : reach go start p) (Hr' : reach go p p').

Lemma was_listed_later cluster eps : was_listed p cluster eps -> was_listed p' cluster eps.
Proof. intros (p0 & H0 & H1 & ->). exists p0. split; [done|]. split; [by eapply reach_trans|done]. Qed.

Lemma discovery_at_later e i d c :
  discovery_at (p_world p) e i = Some (d, c) -> discovery_at (p_world p') e i = Some (d, c).
Proof. apply discovery_at_grows; [by apply world_bounded|by apply world_grows]. Qed.

Lemma our_plugin_later e i c x : our_plugin p e i c x -> our_plugin p' e i c x.
Proof. intros (d & Hd & Hx). exists d. split; [by apply discovery_at_later|done]. Qed.

Lemma plugin_ok_later e i pl : plugin_ok p e i pl -> plugin_ok p' e i pl.
Proof.
  intros (c & x & Hx & Hn & Ho & Ha). exists c, x. split; [by apply our_plugin_later|]. split; [done|]. split.
  - destruct (once _); [|done]. destruct Ho as (eps & He & ?). exists eps. split; [by apply was_listed_later|done].
  - intros des v Hat. by eapply was_listed_later, Ha.
Qed.

Lemma endpoint_ok_later c ep : endpoint_ok p c ep -> endpoint_ok p' c ep.
Proof.
  intros (e & i & x & eps & Hx & Hl & Hin). exists e, i, x, eps.
  split; [by apply our_plugin_later|]. split; [by apply was_listed_later|done].
Qed.

(** A plugin keeps its signal when it stays or moves on with its channel closed. *)
Lemma signal_ok_later e i :
  (forall pl, p_plugins p !! (e, i) = Some pl -> once (pl_disc pl) = true ->
     exists pl', p_plugins p' !! (e, i) = Some pl' /\ once (pl_disc pl') = true) ->
  signal_ok p e i -> signal_ok p' e i.
Proof.
  intros Hpl (d & c & Hd & Hx). exists d, c. split; [by apply discovery_at_later|]. intros x Hpx.
  destruct (Hx x Hpx) as (pl & ? & ?). by apply (Hpl pl).
Qed.

(** Nothing changed but the world, whose signals are the same. *)
Lemma plugins_ok_same : p_plugins p' = p_plugins p -> p_stores p' = p_stores p ->
  readies (p_world p') = readies (p_world p) -> plugins_ok p -> plugins_ok p'.
Proof.
  intros Hp Hs Hrd [H1 H2 H3]. split.
  - intros e i pl. rewrite Hp. intros Hpl. by apply plugin_ok_later, H1.
  - intros c st id ep. rewrite Hs. intros Hst Hid. destruct (H2 c st id ep Hst Hid). split; [done|by apply endpoint_ok_later].
  - intros e i. rewrite Hrd. intros Hin. apply signal_ok_later; [rewrite Hp; eauto|by apply H3].
Qed.
End Later.

(** A plugin comes to life with nothing applied. *)
Lemma plugins_ok_launch p e i d c x : reach go start p -> plugins_ok p ->
  p_plugins p !! (e, i) = None -> discovery_at (p_world p) e i = Some (d, c) -> plugin_of d = Some x ->
  let p' := on_plugins (<[(e, i) := mkPlugin x Snapshotting]> (p_plugins p)) (p_stores p) p in
  reach go p p' -> plugins_ok p'.
Proof.
  intros Hr [H1 H2 H3] Hnew Hd Hx p' Hr'. destruct (built_fresh d x Hx) as [Hap Hon].
  assert (Hp : p_plugins p' = <[(e, i) := mkPlugin x Snapshotting]> (p_plugins p)) by done. split.
  - intros e' i' pl. rewrite Hp. intros [[[= <- <-] <-]|[_ Hpl]]%lookup_insert_Some; [|by apply (plugin_ok_later p p'); auto].
    exists c, x. split; [by exists d|]. split; [done|]. simpl. by rewrite Hon.
  - intros c' st id ep Hst Hid. destruct (H2 c' st id ep Hst Hid). split; [done|by apply (endpoint_ok_later p p')].
  - intros e' i' Hin. apply (signal_ok_later p p' Hr Hr' e' i'); [|by apply H3]. intros pl Hpl Ho.
    exists pl. split; [|done]. rewrite Hp, lookup_insert_ne; [done|congruence].
Qed.

(** A plugin takes a turn. *)
Lemma plugins_ok_turn p b e i d c pl : reach go start p -> plugins_ok p ->
  p_plugins p !! (e, i) = Some pl -> discovery_at (p_world p) e i = Some (d, c) ->
  let p' := plugin_turn Equal b e i c pl p in
  reach go p p' -> plugins_ok p'.
Proof.
  intros Hr [H1 H2 H3] Hpl Hd p' Hr'. pose proof (H1 e i pl Hpl) as Hok.
  destruct Hok as (c' & x & (d' & Hd' & Hx) & Hname & Hap & Hat). assert (c' = c) as -> by congruence.
  assert (Hour : our_plugin p' e i c x) by (apply (our_plugin_later p p'); [done..|by exists d']).
  set (s := DiscoveryLoop.mkSys (p_hub p) (pl_disc pl) (default ∅ (p_stores p !! c)) (pl_at pl) 0 0).
  pose proof (turn_cases Equal Equal_sound (ctx_done (p_world p) e) b s) as Ht. cbv zeta in Ht.
  set (s' := DiscoveryLoop.turn Equal (ctx_done (p_world p) e) b s) in *.
  assert (Hp : p_plugins p' = <[(e, i) := mkPlugin (disc s') (at_pc s')]> (p_plugins p)) by done.
  assert (Hst : p_stores p' = <[c := endpoints s']> (p_stores p)) by done.
  assert (Hrd : forall k, k ∈ readies (p_world p') -> k ∈ readies (p_world p) \/ k = (e, i) /\ once (disc s') = true).
  { assert (Hsys : p_sys p' = if once (disc s') then signal e i (p_sys p) else p_sys p) by done.
    intros k. unfold p_world. rewrite Hsys. destruct (once (disc s')); [|by left].
    simpl. intros [->%elem_of_singleton|?]%elem_of_union; auto. }
  assert (Hkeep : once (pl_disc pl) = true -> once (disc s') = true)
    by (destruct Ht as [(-> & _ & _)|(des & v & _ & -> & _)]; done).
  clearbody s'. split.
  - intros e' i' pl'. rewrite Hp. intros [[[= <- <-] <-]|[_ Hpl']]%lookup_insert_Some;
      [|by apply (plugin_ok_later p p'); auto].
    exists c, x. split; [done|]. destruct Ht as [(Hdisc & _ & Hnew)|(des & v & Hold & Ho & Hn & Ha & Hnew & _)]; simpl in *.
    + rewrite Hdisc. split; [done|]. split.
      * destruct (once (pl_disc pl)); [|done]. destruct Hap as (eps & Hl & ?). exists eps.
        split; [by apply (was_listed_later p p')|done].
      * intros des v Hs. rewrite (Hnew des v Hs), Hname. exists p. by split.
    + split; [congruence|]. split; [|intros ? ? Hs; by destruct (Hnew _ _ Hs)].
      rewrite Ho, Ha. exists des. split; [|done]. by eapply (was_listed_later p p'), Hat.
  - intros c1 st id ep. rewrite Hst. intros [[<- <-]|[_ Hold]]%lookup_insert_Some Hid.
    + assert (Hbefore : default ∅ (p_stores p !! c) !! id = Some ep -> ID ep = id /\ endpoint_ok p' c ep).
      { destruct (p_stores p !! c) as [st|] eqn:Hs; [|done]. simpl. intros Hin.
        destruct (H2 c st id ep Hs Hin). split; [done|by apply (endpoint_ok_later p p')]. }
      destruct Ht as [(_ & Heq & _)|(des & v & Hold & _ & _ & _ & _ & Hin)]; [rewrite Heq in Hid; by apply Hbefore|].
      destruct (Hin id ep Hid) as [?|[Hide Hindes]]; [by apply Hbefore|]. split; [done|].
      exists e, i, x, des. split; [done|]. split; [|done]. by eapply (was_listed_later p p'), Hat.
    + destruct (H2 c1 st id ep Hold Hid). split; [done|by apply (endpoint_ok_later p p')].
  - intros e' i' [Hin|[[= -> ->] Ho]]%Hrd.
    + apply (signal_ok_later p p' Hr Hr' e' i'); [|by apply H3]. intros pl' Hpl' Ho. rewrite Hp.
      destruct (decide ((e', i') = (e, i))) as [[= -> ->]|Hne].
      * rewrite lookup_insert_eq. eexists. split; [done|]. apply Hkeep. congruence.
      * rewrite lookup_insert_ne by congruence. by exists pl'.
    + exists d, c. split; [by apply (discovery_at_later p p')|]. intros x' Hx'. rewrite Hp, lookup_insert_eq. eauto.
Qed.

(** A plugin of another type signals. *)
Lemma plugins_ok_foreign p e i d c : reach go start p -> plugins_ok p ->
  discovery_at (p_world p) e i = Some (d, c) -> plugin_of d = None ->
  let p' := set_sys (signal e i (p_sys p)) p in
  reach go p p' -> plugins_ok p'.
Proof.
  intros Hr [H1 H2 H3] Hd Hx p' Hr'. split.
  - intros e' i' pl Hpl. by apply (plugin_ok_later p p'), H1.
  - intros c' st id ep Hst Hid. destruct (H2 c' st id ep Hst Hid). split; [done|by apply (endpoint_ok_later p p')].
  - intros e' i'. change (readies (p_world p')) with ({[(e, i)]} ∪ readies (p_world p)).
    intros [[= -> ->]%elem_of_singleton|Hin]%elem_of_union.
    + exists d, c. split; [by apply (discovery_at_later p p')|]. intros x. congruence.
    + apply (signal_ok_later p p' Hr Hr' e' i'); [eauto|by apply H3].
Qed.

Lemma plugins_ok_step p p' : reach go start p -> plugins_ok p -> go p p' -> plugins_ok p'.
Proof.
  intros Hr Hok Hs. pose proof (reach_one go p p' Hs) as Hr'. pose proof (silent_reach p Hr) as Hsil.
  destruct Hs as [now p Hi|v cfg X f k p Hc|now v cfg e p Hc|now p|e i d c x p _ Hnew Hd Hx|b e i d c pl p Hpl Hd|
    e i d c p Hd Hx|s p Hb Hrd|p].
  - apply (plugins_ok_same p _ Hr Hr'); unfold epp_fetch; by destruct (epp_source (Loop.version (p_epp p)) (p_out p)).
  - apply (plugins_ok_same p _ Hr Hr'); [done|done|by eapply call_silent|done].
  - by apply (plugins_ok_same p _ Hr Hr').
  - by apply (plugins_ok_same p _ Hr Hr').
  - by eapply plugins_ok_launch.
  - by eapply plugins_ok_turn.
  - by eapply plugins_ok_foreign.
  - by apply (plugins_ok_same p _ Hr Hr').
  - destruct (gate_turn_frame p) as (Hs & _ & Hp & Hst & _). apply (plugins_ok_same p _ Hr Hr'); [done|done| |done].
    unfold p_world. by rewrite Hs.
Qed.

Lemma plugins_ok_reach p : reach go start p -> plugins_ok p.
Proof.
  induction 1 as [|p1 p2 Hr IH Hs]; [|by eapply plugins_ok_step].
  split; [done|done|]. intros e i. simpl. set_solver.
Qed.

(** *** The gate *)

Definition all_were_ready (p1 p2 : state) : Prop := Forall (is_ready (p_world p2)) (List_cells (p_world p1)).1.

Definition gate_ok (p : state) : Prop :=
  match p_gate p with
  | Looking cs true => exists p1 pre, reach go start p1 /\ reach go p1 p /\
      (List_cells (p_world p1)).1 = pre ++ cs /\ Forall (is_ready (p_world p)) pre
  | Counting true => exists p1, reach go start p1 /\ reach go p1 p /\ all_were_ready p1 p
  | Opened => exists p1 p2, reach go start p1 /\ reach go p1 p2 /\ reach go p2 p /\
      all_were_ready p1 p2 /\ (List_cells (p_world p2)).1 <> []
  | _ => True
  end.

Lemma is_ready_later p p' c : reach go start p -> reach go p p' -> is_ready (p_world p) c -> is_ready (p_world p') c.
Proof. intros Hr Hr'. apply is_ready_grows; [by apply world_bounded|by apply world_grows]. Qed.

Lemma gate_ok_later p p' : reach go start p -> reach go p p' -> p_gate p' = p_gate p -> gate_ok p -> gate_ok p'.
Proof.
  intros Hr Hr' Hg. unfold gate_ok. rewrite Hg.
  assert (Hl : forall cs, Forall (is_ready (p_world p)) cs -> Forall (is_ready (p_world p')) cs).
  { intros cs Hcs. eapply Forall_impl; [exact Hcs|]. intros c. by apply is_ready_later. }
  destruct (p_gate p) as [| |cs []|[]|]; try done.
  - intros (p1 & pre & H0 & H1 & Heq & Hp). exists p1, pre. split_and!; [done|by eapply reach_trans|done|by apply Hl].
  - intros (p1 & H0 & H1 & Hp). exists p1. split_and!; [done|by eapply reach_trans|by apply Hl].
  - intros (p1 & p2 & H0 & H1 & H2 & Hp). exists p1, p2. split_and!; [done..|by eapply reach_trans|apply Hp|apply Hp].
Qed.

Lemma gate_ok_turn p : reach go start p -> gate_ok p -> gate_ok (gate_turn p).
Proof.
  intros Hr Hg. pose proof (reach_one go p _ (go_gate wt epp_source table_source Equal plugin_of p)) as Hr'.
  destruct (gate_turn_frame p) as (Hs & _).
  assert (Hw : p_world (gate_turn p) = p_world p) by (unfold p_world; by rewrite Hs).
  revert Hr' Hw. unfold gate_ok in Hg. unfold gate_turn. destruct (p_gate p) as [| |[|c cs] a|a|] eqn:Hp; intros Hr' Hw.
  - unfold gate_ok. destruct (Loop.FirstSync _); [done|by rewrite Hp].
  - exists p, []. split_and!; [done..|by constructor].
  - destruct a; [|done]. destruct Hg as (p1 & pre & H0 & H1 & Heq & Hpre). exists p1.
    split_and!; [done|by eapply reach_trans|]. unfold all_were_ready. by rewrite Hw, Heq, app_nil_r.
  - unfold gate_ok. cbn [p_gate on_gate]. destruct ((Cell_Ready c (p_world p)).1) eqn:Hc; [|done]. destruct a; [|done].
    destruct Hg as (p1 & pre & H0 & H1 & Heq & Hpre). exists p1, (pre ++ [c]).
    split_and!; [done|by eapply reach_trans|by rewrite <- app_assoc|]. rewrite Hw.
    apply Forall_app. split; [done|by apply Forall_singleton].
  - unfold gate_ok. destruct a; [|done].
    destruct (Nat.ltb_spec 0 (length (List_cells (p_world p)).1)) as [Hlt|]; [|done]. cbn [andb p_gate on_gate].
    destruct Hg as (p1 & H0 & H1 & Hall). exists p1, p. split_and!; [done..|]. intros Hnil. rewrite Hnil in Hlt. simpl in Hlt. lia.
  - unfold gate_ok. by rewrite Hp.
Qed.

(** The first sync is signalled once and for all, and SERVING follows it. *)
Record gated (p : state) : Prop := mkGated {
  gd_ok : gate_ok p;
  gd_serving : Health.ready (p_health p) = true <-> p_gate p = Opened;
  gd_synced : p_gate p <> AwaitSync -> Loop.firstSync (p_epp p) <> 0%nat }.

Lemma first_sync_stays (l : Loop.Poller) : Loop.firstSync l <> 0%nat -> Loop.firstSync (Loop.mark_first_sync l) <> 0%nat.
Proof. unfold Loop.mark_first_sync, Loop.syncOnce_do. by destruct (Loop.once l). Qed.

Lemma fetched_first_sync now (r : Loop.FetchResult EppDataConfig) l :
  Loop.firstSync l <> 0%nat -> Loop.firstSync (fetched now r l) <> 0%nat.
Proof.
  intros Hl. unfold fetched. destruct (Loop.err r); [done|]. destruct (Loop.changed r); [done|].
  by apply first_sync_stays.
Qed.

Lemma finished_first_sync now v e l : Loop.firstSync l <> 0%nat -> Loop.firstSync (finished now v e l) <> 0%nat.
Proof. intros Hl. destruct e; [done|]. by apply first_sync_stays. Qed.

Lemma fetch_frame now (p : state) : let p' := epp_fetch wt epp_source now p in
  p_gate p' = p_gate p /\ p_health p' = p_health p /\
  exists r : Loop.FetchResult EppDataConfig, p_epp p' = fetched now r (p_epp p).
Proof. intros p'. unfold p', epp_fetch. destruct (epp_source _ _) as [r o]. split_and!; [done..|]. by exists r. Qed.

Lemma gate_turn_synced (p : state) : Loop.firstSync (p_epp p) <> 0%nat \/ p_gate p = AwaitSync ->
  p_gate (gate_turn p) <> AwaitSync -> Loop.firstSync (p_epp p) <> 0%nat.
Proof. intros [?|Hg]; [done|]. unfold gate_turn. rewrite Hg. unfold Loop.FirstSync.
  destruct (Nat.ltb_spec 0 (Loop.firstSync (p_epp p))); [lia|by rewrite Hg]. Qed.

Lemma gate_turn_opens (p : state) : (Health.ready (p_health p) = true <-> p_gate p = Opened) ->
  (Health.ready (p_health (gate_turn p)) = true <-> p_gate (gate_turn p) = Opened).
Proof.
  unfold gate_turn. intros [H1 H2]. destruct (p_gate p) as [| |[|c cs] a|a|] eqn:Hp; try (rewrite Hp; tauto);
    try (split; [intros Hh; by apply H1 in Hh|done]).
  - destruct (Loop.FirstSync _); [|rewrite Hp]; split; try done; intros Hh; by apply H1 in Hh.
  - destruct (a && _); split; try done. intros Hh; by apply H1 in Hh.
Qed.

Lemma gated_step p p' : reach go start p -> gated p -> go p p' -> gated p'.
Proof.
  intros Hr [H1 H2 H3] Hs. pose proof (reach_one go p p' Hs) as Hr'.
  destruct Hs as [now p Hi|v cfg X f k p Hc|now v cfg e p Hc|now p|e i d c x p _ Hnew Hd Hx|b e i d c pl p Hpl Hd|
    e i d c p Hd Hx|s p Hb Hrd|p].
  9: { destruct (gate_turn_frame p) as (_ & _ & _ & _ & _ & He). split; [by apply gate_ok_turn|by apply gate_turn_opens|].
       rewrite He. apply gate_turn_synced. destruct (p_gate p); [by right|left; by apply H3..]. }
  1: { destruct (fetch_frame now p) as (Hg & Hh & r & Hl).
       split; [by apply (gate_ok_later p)|by rewrite Hg, Hh|]. rewrite Hg, Hl. intros Hn. by apply fetched_first_sync, H3. }
  all: split; [by apply (gate_ok_later p)|..]; try exact H2; try exact H3.
  intros Hg. by apply finished_first_sync, H3.
Qed.

Lemma gated_reach p : reach go start p -> gated p.
Proof. induction 1 as [|p1 p2 Hr IH Hs]; [by split|by eapply gated_step]. Qed.

(** *** The gate opens *)

(** The turns of a sweep over [n] cells that finds them all ready. *)
Lemma sweep (p : state) cs : p_gate p = Looking cs true -> Forall (is_ready (p_world p)) cs -> (List_cells (p_world p)).1 <> [] ->
  Health.ready (p_health (Nat.iter (length cs + 2) gate_turn p)) = true.
Proof.
  revert p. induction cs as [|c cs IH]; intros p Hg Hall Hne.
  - assert (Ht : gate_turn p = on_gate (Counting true) (p_health p) p) by (unfold gate_turn; by rewrite Hg).
    change (Nat.iter (length [] + 2) gate_turn p) with (gate_turn (gate_turn p)).
    rewrite Ht. set (q := on_gate (Counting true) (p_health p) p).
    change ((List_cells (p_world q)).1 <> []) in Hne. unfold gate_turn. change (p_gate q) with (Counting true).
    cbn [andb]. by destruct (List_cells (p_world q)).1.
  - apply Forall_cons in Hall as [Hc Hcs]. cbn [length Nat.add]. rewrite Nat.iter_succ_r.
    assert (Ht : gate_turn p = on_gate (Looking cs true) (p_health p) p).
    { unfold gate_turn. rewrite Hg. unfold is_ready in Hc. by rewrite Hc. }
    rewrite Ht. by apply IH.
Qed.

(** Turns until the gate lists the cells again. *)
Definition until_listing (p : state) : nat :=
  match p_gate p with AwaitSync => 1 | Listing => 0 | Looking cs _ => length cs + 2 | Counting _ => 1 | Opened => 0 end.

Lemma reach_listing (p : state) : Loop.firstSync (p_epp p) <> 0%nat -> (Health.ready (p_health p) = true <-> p_gate p = Opened) ->
  exists k, (k <= until_listing p)%nat /\ let p' := Nat.iter k gate_turn p in
    p_world p' = p_world p /\ (p_gate p' = Listing \/ Health.ready (p_health p') = true).
Proof.
  intros Hs Ho. unfold until_listing. destruct (p_gate p) as [| |cs all|all|] eqn:Hg.
  - exists 1%nat. split; [lia|]. simpl. unfold gate_turn, Loop.FirstSync. rewrite Hg.
    destruct (Nat.ltb_spec 0 (Loop.firstSync (p_epp p))); [by split; [|left]|lia].
  - exists 0%nat. split; [lia|]. by split; [|left].
  - clear Ho. revert p all Hg Hs. induction cs as [|c cs IH]; intros p all Hg Hs.
    + exists 2%nat. split; [simpl; lia|]. simpl. unfold gate_turn at 2 4 6. rewrite Hg. unfold gate_turn. simpl.
      by destruct (all && _); (split; [|auto]).
    + set (q := on_gate (Looking cs (if (Cell_Ready c (p_world p)).1 then all else false)) (p_health p) p).
      destruct (IH q _ eq_refl Hs) as (k & Hk & Hw & Hd). exists (S k). split; [simpl; lia|]. cbv zeta. rewrite Nat.iter_succ_r.
      assert (Ht : gate_turn p = q) by (unfold gate_turn; by rewrite Hg). by rewrite Ht.
  - exists 1%nat. split; [lia|]. simpl. unfold gate_turn. rewrite Hg. by destruct (all && _); (split; [|auto]).
  - exists 0%nat. split; [lia|]. split; [done|]. right. by apply Ho.
Qed.

(** ** The theorems *)

Lemma listed_cells w k c : registry w !! k = Some c -> c ∈ (List_cells w).1.
Proof.
  intros Hk. unfold List_cells, gets. cbn [fst]. apply list_elem_of_fmap. exists (k, c). split; [done|].
  by apply elem_of_range.
Qed.

Lemma all_listed_ready w : forallb (fun c => (Cell_Ready c w).1) (List_cells w).1 = true ->
  forall k c, registry w !! k = Some c -> (Cell_Ready c w).1 = true.
Proof.
  intros Hall k c Hk. apply (proj1 (forallb_forall _ _) Hall), list_elem_of_In. by eapply listed_cells.
Qed.

Lemma no_cells w : (List_cells w).1 <> [] -> registry w <> ∅.
Proof.
  unfold List_cells, gets. cbn [fst]. intros Hne He. destruct Hne. rewrite He.
  assert (Hnil : range (∅ : gmap Key nat) = []); [|by rewrite Hnil].
  apply Permutation_nil. by rewrite range_perm, map_to_list_empty.
Qed.


(** C7. Readiness is granted: once the first epp_data round was clean, at least one
    cell exists and every cell is ready, the gate answers SERVING after so many of
    its own turns (what is left of the sweep it is in, and one sweep over the cells
    of now), if nothing else moves. *)
Theorem gate_opens p service :
  reach go start p -> Loop.firstSync (p_epp p) <> 0%nat -> registry (p_world p) <> ∅ ->
  (forall k c, registry (p_world p) !! k = Some c -> (Cell_Ready c (p_world p)).1 = true) ->
  exists k, (k <= until_listing p + length (List_cells (p_world p)).1 + 3)%nat /\
    reach go p (Nat.iter k gate_turn p) /\
    Health.Check (p_health (Nat.iter k gate_turn p)) service = (Health.SERVING, None).
Proof.
  intros Hr Hs Hne Hall. destruct (gated_reach p Hr) as [_ Ho _].
  assert (Hserve : forall q, Health.ready (p_health q) = true -> Health.Check (p_health (Out := Out) q) service = (Health.SERVING, None)).
  { intros q Hq. unfold Health.Check. rewrite Hq. by case_decide. }
  assert (Hgo : forall k, reach go p (Nat.iter k gate_turn p)).
  { induction k; [constructor|]. eapply reach_snoc; [done|apply go_gate]. }
  destruct (reach_listing p Hs Ho) as (k & Hk & Hw & [Hl|Hd]).
  2: { exists k. split; [lia|]. split; [done|by apply Hserve]. }
  set (q := Nat.iter k gate_turn p) in *. cbv zeta in Hw, Hl. set (l := (List_cells (p_world p)).1).
  exists (length l + 2 + S k)%nat. split; [lia|]. split; [done|]. apply Hserve.
  rewrite Nat.iter_add. change (Nat.iter (S k) gate_turn p) with (gate_turn q).
  assert (Ht : gate_turn q = on_gate (Looking l true) (p_health q) q).
  { unfold gate_turn. rewrite Hl. unfold l. by rewrite Hw. }
  rewrite Ht. apply sweep; [done| |].
  - change (p_world (on_gate _ _ q)) with (p_world q). rewrite Hw. apply Forall_forall. intros c Hc. unfold l in Hc.
    unfold List_cells, gets in Hc. cbn [fst] in Hc. apply list_elem_of_fmap in Hc as ([k' c'] & -> & Hin).
    apply (Hall k'). by apply elem_of_range in Hin.
  - change (p_world (on_gate _ _ q)) with (p_world q). rewrite Hw. fold l. intros Hnil. destruct Hne.
    apply map_eq. intros k'. rewrite lookup_empty. destruct (registry (p_world p) !! k') as [c|] eqn:Hk'; [|done].
    apply listed_cells in Hk'. fold l in Hk'. rewrite Hnil in Hk'. by apply not_elem_of_nil in Hk'.
Qed.

(** The hub only ever holds what a well-typed source fetched. *)
Lemma hub_typed p : (forall v o, endpoints_typed (Loop.data (table_source v o).1)) ->
  reach go start p -> endpoints_typed (Hub.data (p_hub p)).
Proof.
  intros Hsrc. apply (reach_invariant go (fun p => endpoints_typed (Hub.data (p_hub p)))); [|apply endpoints_typed_empty].
  intros p1 p2 Hok Hs. destruct Hs as [now p1 Hi|v cfg X f k p1 Hc|now v cfg e p1 Hc|now p1|e i d c x p1 _ Hnew Hd Hx|
    b e i d c pl p1 Hpl Hd|e i d c p1 Hd Hx|s p1 Hb Hrd|p1]; try done; unfold p_hub in *.
  - unfold epp_fetch. by destruct (epp_source _ _).
  - unfold table_round, on_table. simpl. unfold Loop.round, Loop.Fetch.
    pose proof (Hsrc (Loop.version (p_tab p1)) (p_out p1)) as Ht.
    destruct (table_source _ _) as [r o]. destruct (Loop.err r); [by destruct (Backoff.next _)|].
    destruct (Loop.changed r); [|done]. unfold discoveryHandle.
    match goal with |- context [ClusterTable.Handle ?a ?d ?x] => destruct (Handle_run a d x) as [n ->] end. done.
  - by destruct (gate_turn_frame p1) as (_ & _ & _ & _ & -> & _).
Qed.

Lemma endpoints_scoped p c st id ep : (forall v o, endpoints_typed (Loop.data (table_source v o).1)) ->
  reach go start p -> p_stores p !! c = Some st -> st !! id = Some ep ->
  exists e i x eps, our_plugin p e i c x /\ was_listed p (clusterName x) eps /\ ep ∈ eps /\
    id = ID ep /\ endpoint_typed (clusterName x) ep.
Proof.
  intros Hsrc Hr Hst Hid. destruct (plugins_ok_reach p Hr) as [_ P2 _].
  destruct (P2 c st id ep Hst Hid) as (<- & e & i & x & eps & Hx & Hl & Hin). exists e, i, x, eps. split_and!; [done..|].
  destruct Hl as (p0 & H0 & _ & ->). pose proof (hub_typed p0 Hsrc H0) as Ht.
  destruct (Hub.data (p_hub p0) !! clusterName x) as [l|] eqn:Hl; [|by apply not_elem_of_nil in Hin]. simpl in Hin.
  destruct (Ht _ _ Hl) as [_ Hall]. rewrite Forall_forall in Hall. by apply Hall.
Qed.
End Serving.

(** ** The program's own sources *)

Section Program.
Import InnerApi.Api.
Context {L : LlmdRouter} {Net FS : Type} `{HTTP Net, FileSystem FS, MapRange}.

Lemma eppDataSrc_typed cfg v (o : Net * FS) : epp_data_typed (Loop.data (eppDataSrc cfg v o).1).
Proof.
  unfold eppDataSrc, on_files, on_net. destruct (local_mode cfg).
  - pose proof (LocalFileSource_Fetch_typed (NewLocalFileSource (Config.LocalConfigDir cfg) "epp_data_config.json") v o.2) as Ht.
    by destruct (LocalFileSource_Fetch _ _ _ _ _).
  - pose proof (EppDataWatcher_Fetch_typed (api_client cfg) v o.1) as Ht. by destruct (EppDataWatcher_Fetch _ _ _).
Qed.

Lemma discoverySrc_typed cfg v (o : Net * FS) : endpoints_typed (Loop.data (discoverySrc cfg v o).1).
Proof.
  unfold discoverySrc, on_files, on_net. destruct (local_mode cfg).
  - pose proof (localClusterTableSource_Fetch_typed (NewLocalClusterTableSource (Config.LocalConfigDir cfg) "cluster_table.json") v o.2) as Ht.
    by destruct (localClusterTableSource_Fetch _ _ _).
  - pose proof (ClusterDiscovery_Fetch_typed (api_client cfg) v o.1) as Ht. by destruct (ClusterDiscovery_Fetch _ _ _).
Qed.

(** C4. Isolation of the cells, in the whole process with its own sources: every
    endpoint that cluster-table plugins have left in the datastore of a cell was,
    at some moment so far, listed by the hub for the cluster that the
    configuration of one of the engines of that very cell names; it carries that
    cluster's name as its namespace, is stored under its own identity, and is
    well typed.  No cell ever holds an endpoint of a cluster none of its
    configurations named, whatever the sources answered and however the
    goroutines were scheduled. *)
Theorem endpoints_stay_in_their_cell cfg wt Equal plugin_of sc (out : Net * FS) opts p c st id ep :
  (forall x y, Equal x y = true -> x = y) ->
  (forall d x, plugin_of d = Some x -> exists params, Factory params = Ok x) ->
  let go := pstep wt (eppDataSrc cfg) (discoverySrc cfg) Equal plugin_of in
  reach go (boot sc out opts) p -> p_stores p !! c = Some st -> st !! id = Some ep ->
  exists e x i d y, engines (p_world p) !! e = Some x /\ parent x = c /\
    Cell.discovery (eng x) !! i = Some d /\ plugin_of d = Some y /\
    id = ID ep /\ endpoint_typed (clusterName y) ep /\
    exists p0, reach go (boot sc out opts) p0 /\ reach go p0 p /\
      ep ∈ default [] (Hub.data (p_hub p0) !! clusterName y).
Proof.
  intros HE Hb go Hr Hst Hid.
  destruct (endpoints_scoped wt _ _ Equal HE plugin_of Hb sc out opts p c st id ep (discoverySrc_typed cfg) Hr Hst Hid)
    as (e & i & y & eps & (d & Hd & Hy) & (p0 & Hp0 & Hp1 & ->) & Hin & Hi & Ht).
  unfold discovery_at in Hd. destruct (engines (p_world p) !! e) as [x|] eqn:Hx; [|done]. simpl in Hd.
  destruct (Cell.discovery (eng x) !! i) as [d'|] eqn:Hdi; [|done]. simplify_eq/=.
  exists e, x, i, d, y. split_and!; [done..|]. by exists p0.
Qed.
End Program.

(** ** Witnesses

    The run of Process.v goes on: the plugin is launched, the table arrives, the
    plugin applies it, the waiter marks the cell ready, the gate opens. *)

Module ToyServing.
Import ToyProcess.
#[local] Existing Instance ToyLlmd.toy.
#[local] Existing Instance list_range.

Definition ep : @Llmd.Discovery ToyLlmd.toy := "ep"%string.
Definition fresh : Discovery.discovery := mkDiscovery "a" ∅ 0 false.
Definition launched : state := on_plugins (<[(0, 0)%nat := mkPlugin fresh Snapshotting]> (p_plugins idle)) (p_stores idle) idle.
Definition tabled : state := table_round table_source 0 launched.

(** The plugin takes a turn, if it exists; the oldest waiter takes a turn. *)
Definition plug (p : state) : state :=
  match p_plugins p !! (0, 0)%nat with Some pl => plugin_turn same false 0 0 0 pl p | None => p end.
Definition waiter_turns (p : state) : state :=
  match waiters (p_world p) with x :: _ => set_sys (ToyReadiness.take_turn x (p_sys p)) p | [] => p end.

Definition applied_table : state := plug (plug tabled).
Definition ready_cell : state := waiter_turns (waiter_turns applied_table).
Definition serving : state := Nat.iter 5 gate_turn ready_cell.

Lemma plug_reach p : discovery_at (p_world p) 0 0 = Some (ep, 0%nat) -> reach go p (plug p).
Proof.
  intros Hd. unfold plug. destruct (p_plugins p !! (0, 0)%nat) as [pl|] eqn:Hpl; [|constructor].
  apply reach_one. unfold go. by eapply go_plugin.
Qed.

Lemma waiter_reach p : readies (p_world (waiter_turns p)) = readies (p_world p) -> reach go p (waiter_turns p).
Proof.
  unfold waiter_turns. destruct (waiters (p_world p)) as [|x l] eqn:Hw; [constructor|]. intros Hr.
  apply reach_one. unfold go. apply go_background; [|exact Hr].
  apply (st_waiter _ 0 x false _ _ (p_sys p)); [|apply surjective_pairing]. unfold p_world in Hw. by rewrite Hw.
Qed.

Lemma idle_launches : go idle launched.
Proof.
  assert (Hs : started (p_world idle) = [(0, 0)%nat]) by (vm_compute; reflexivity).
  unfold go, launched. eapply (go_launch wt epp_source table_source same plugin_of 0 0 ep 0 fresh idle).
  - rewrite Hs. left.
  - vm_compute. reflexivity.
  - vm_compute. reflexivity.
  - reflexivity.
Qed.

Lemma launched_reached : reach go booted launched.
Proof. exact (reach_snoc go booted idle launched idle_reached idle_launches). Qed.

Lemma tabled_reached : reach go booted tabled.
Proof.
  exact (reach_snoc go booted launched tabled launched_reached
    (go_table wt epp_source table_source same plugin_of 0 launched)).
Qed.

Lemma applied_reached : reach go booted applied_table.
Proof.
  assert (H1 : reach go tabled (plug tabled)) by (apply plug_reach; vm_compute; reflexivity).
  assert (H2 : reach go (plug tabled) applied_table) by (apply (plug_reach (plug tabled)); vm_compute; reflexivity).
  exact (reach_trans go _ _ _ tabled_reached (reach_trans go _ _ _ H1 H2)).
Qed.

Lemma ready_reached : reach go booted ready_cell.
Proof.
  assert (H1 : reach go applied_table (waiter_turns applied_table)) by (apply waiter_reach; vm_compute; reflexivity).
  assert (H2 : reach go (waiter_turns applied_table) ready_cell)
    by (apply (waiter_reach (waiter_turns applied_table)); vm_compute; reflexivity).
  exact (reach_trans go _ _ _ applied_reached (reach_trans go _ _ _ H1 H2)).
Qed.

Lemma gating n : reach go booted (Nat.iter n gate_turn ready_cell).
Proof. eapply reach_trans; [apply ready_reached|]. apply iter_steps. intros p. apply go_gate. Qed.
Definition asked : state := gate_turn ready_cell.
Lemma asked_reached : reach go booted asked.
Proof. exact (reach_snoc go booted ready_cell asked ready_reached (go_gate wt epp_source table_source same plugin_of ready_cell)). Qed.
Lemma serving_reached : reach go booted serving.
Proof. apply (gating 5). Qed.
End ToyServing.


Lemma endpoints_stay_in_their_cell_witness :
  exists st id ep, p_stores ToyServing.applied_table !! 0%nat = Some st /\ st !! id = Some ep /\
    endpoint_typed "a" ep.
Proof.
  assert (Hst : p_stores ToyServing.applied_table !! 0%nat =
    Some (table (@ConvertClusterTableToEndpoints list_range ToyControl.table !!! "a"%string))) by (vm_compute; reflexivity).
  assert (Hid : table (@ConvertClusterTableToEndpoints list_range ToyControl.table !!! "a"%string) !!
    mkName "a" "vllm-0" = Some (endpoint_of "a" (mkBackend "vllm-0" "10.0.0.1" 8000 100))) by (vm_compute; reflexivity).
  destruct (@endpoints_stay_in_their_cell ToyLlmd.toy unit unit ToyApi.net ToyProcess.files list_range ToyProcess.config
    ToyProcess.wt ToyProcess.same ToyProcess.plugin_of 0%nat (tt, tt) (poller_options ToyProcess.config)
    ToyServing.applied_table 0 _ _ _ ToyProcess.same_is_equal ToyProcess.plugin_built ToyServing.applied_reached Hst Hid)
    as (e & x & i & d & y & _ & _ & _ & Hy & _ & Ht & _).
  exists (table (@ConvertClusterTableToEndpoints list_range ToyControl.table !!! "a"%string)), (mkName "a" "vllm-0"),
    (endpoint_of "a" (mkBackend "vllm-0" "10.0.0.1" 8000 100)).
  split; [exact Hst|]. split; [exact Hid|]. destruct Ht as [Hn Ht]. exact (conj eq_refl Ht).
Defined.

#[local] Existing Instance list_range.
Lemma gate_opens_witness :
  exists k, (k <= 4)%nat /\ Health.Check (p_health (Nat.iter k gate_turn ToyServing.asked)) ""%string =
    (Health.SERVING, None).
Proof.
  destruct (@gate_opens ToyLlmd.toy list_range (unit * unit) ToyProcess.wt ToyProcess.epp_source
    ToyProcess.table_source ToyProcess.same ToyProcess.plugin_of
    0%nat (tt, tt) (poller_options ToyProcess.config) ToyServing.asked ""%string) as (k & Hk & _ & Hc).
  - exact ToyServing.asked_reached.
  - vm_compute. discriminate.
  - vm_compute. discriminate.
  - apply all_listed_ready. vm_compute. reflexivity.
  - exists k. split; [|exact Hc]. refine (Nat.le_trans _ _ _ Hk _). vm_compute. repeat constructor.
Defined.
