(* ===== verification/Freshness.v ===== *)
(** * How current the datastores are, in the whole process

    The theorems of DiscoveryLoop.v about one plugin on the hub, lifted to the
    process of Process.v, where any number of plugins share the hub and those of
    one cell share its datastore: every blocked plugin is up to date; the
    datastore of a cell with one generation holds exactly the hub's list; with two
    generations the outgoing one can take an endpoint away from the new one. *)

From S2P Require Import Prelude.
From S2P Require Import Threads.
From S2P Require Import GoStd.
From S2P Require Import Llmd.
From S2P Require Import Json.
From S2P Require Import Cell.
From S2P Require Import Manager.
From S2P Require Import InnerApi.
From S2P Require Import EppData.
From S2P Require Import Hub.
From S2P Require Import Discovery.
From S2P Require Import DiscoveryLoop.
From S2P Require Import ClusterTable.
From S2P Require Import Poller.
From S2P Require Import App.
From S2P Require Import Control.
From S2P Require Import System.
From S2P Require Import Process.
From S2P Require Import Serving.
Local Open Scope Z_scope.

Section Freshness.
Context {L : LlmdRouter} `{MapRange} {Out : Type} (wt : EppDataWatcher).
Context (epp_source : Loop.Source Out EppDataConfig).
Context (table_source : Loop.Source Out (gmap string (list EndpointMetadata))).
Context (Equal : EndpointMetadata -> EndpointMetadata -> bool).
Context (Equal_sound : forall x y, Equal x y = true -> x = y).
Context (plugin_of : Llmd.Discovery -> option Discovery.discovery).
Context (plugin_built : forall d x, plugin_of d = Some x -> exists params, Factory params = Ok x).
Context (sc : Scopes) (out : Out) (opts : Loop.Options).
Abbreviation go := (pstep wt epp_source table_source Equal plugin_of).
Abbreviation start := (boot sc out opts).
Abbreviation state := (process (Out := Out)).

(** ** Each plugin alone with the hub

    The hub numbers its channels, so their number is that of the writes. *)

Definition alone (h : Hub) (pl : plugin) (n : nat) : DiscoveryLoop.sys :=
  DiscoveryLoop.mkSys h (pl_disc pl) (applied (pl_disc pl)) (pl_at pl) (Hub.ch h) n.
Definition fresh (h : Hub) (pl : plugin) : Prop := exists n, DiscoveryLoop.inv (alone h pl n).
Definition counted (h : Hub) : Prop := hub_ok h /\ Hub.version h = uint64 (Z.of_nat (Hub.ch h)).

Lemma counted_replace t h : counted h -> counted (ReplaceAll t h).
Proof. intros [Hok Hv]. split; [by apply ReplaceAll_ok|]. cbn [ReplaceAll Hub.version Hub.ch]. by rewrite Hv, uint64_succ. Qed.

Lemma fresh_replace t h pl : fresh h pl -> fresh (ReplaceAll t h) pl.
Proof. intros [n Hi]. exists n. exact (inv_replaced t _ Hi). Qed.

Lemma fresh_launched h d x : counted h -> plugin_of d = Some x -> fresh h (mkPlugin x Snapshotting).
Proof.
  intros [Hok Hv] Hx. exists 0%nat. destruct (plugin_built d x Hx) as [params Hf]. pose proof (Factory_fresh params x Hf) as Hn.
  split; [done|done|done| |done]. simpl. by rewrite Hn.
Qed.

(** A turn does to plugin and program counter what it does alone. *)
Lemma turn_alone c b h pl n st w k : let s := DiscoveryLoop.turn Equal c b (DiscoveryLoop.mkSys h (pl_disc pl) st (pl_at pl) w k) in
  let s' := DiscoveryLoop.turn Equal c b (alone h pl n) in
  disc s = disc s' /\ at_pc s = at_pc s' /\ hub s' = h /\ DiscoveryLoop.writes s' = Hub.ch h /\
  (st = applied (pl_disc pl) -> endpoints s = endpoints s').
Proof.
  unfold alone, DiscoveryLoop.turn. cbn [at_pc disc hub DiscoveryLoop.writes].
  destruct (pl_at pl) as [|des v|v []|]; try done. destruct (apply _ _ _). do 4 (split; [done|]). by intros ->.
Qed.

Lemma fresh_turn c b h pl st w k : fresh h pl ->
  let s := DiscoveryLoop.turn Equal c b (DiscoveryLoop.mkSys h (pl_disc pl) st (pl_at pl) w k) in
  fresh h (mkPlugin (disc s) (at_pc s)).
Proof.
  intros [n Hi] s. pose proof (inv_turn Equal Equal_sound c b _ Hi) as Hi'.
  destruct (turn_alone c b h pl n st w k) as (Hd & Ha & Hh & Hw & _). fold s in Hd, Ha.
  set (s' := DiscoveryLoop.turn Equal c b (alone h pl n)) in *. exists (seen s'). unfold alone. cbn [pl_disc pl_at].
  rewrite Hd, Ha, <- (inv_mirror s' Hi'), <- Hw. rewrite <- Hh at 1. by destruct s'.
Qed.

(** ** What a step does to the hub and to the plugins *)

Inductive hub_view (p p' : state) : Prop :=
| hv_same : p_hub p' = p_hub p -> p_plugins p' = p_plugins p -> p_stores p' = p_stores p -> hub_view p p'
| hv_write t : p_hub p' = ReplaceAll t (p_hub p) -> p_plugins p' = p_plugins p -> p_stores p' = p_stores p -> hub_view p p'
| hv_launch e i d c x : p_plugins p !! (e, i) = None -> discovery_at (p_world p) e i = Some (d, c) -> plugin_of d = Some x ->
    p_hub p' = p_hub p -> p_plugins p' = <[(e, i) := mkPlugin x Snapshotting]> (p_plugins p) -> p_stores p' = p_stores p ->
    hub_view p p'
| hv_turn b e i d c pl : p_plugins p !! (e, i) = Some pl -> discovery_at (p_world p) e i = Some (d, c) ->
    p_hub p' = p_hub p ->
    (let s := DiscoveryLoop.turn Equal (ctx_done (p_world p) e) b
       (DiscoveryLoop.mkSys (p_hub p) (pl_disc pl) (default ∅ (p_stores p !! c)) (pl_at pl) 0 0) in
     p_plugins p' = <[(e, i) := mkPlugin (disc s) (at_pc s)]> (p_plugins p) /\ p_stores p' = <[c := endpoints s]> (p_stores p)) ->
    hub_view p p'.

Lemma pstep_hub p p' : go p p' -> hub_view p p'.
Proof.
  intros Hs. destruct Hs as [now p Hi|v cfg X f k p Hc|now v cfg e p Hc|now p|e i d c x p _ Hnew Hd Hx|b e i d c pl p Hpl Hd|
    e i d c p Hd Hx|s p Hb Hrd|p].
  - apply hv_same; unfold p_hub, epp_fetch; by destruct (epp_source (Loop.version (p_epp p)) (p_out p)).
  - by apply hv_same.
  - by apply hv_same.
  - assert (Ht : p_hub (table_round table_source now p) = p_hub p \/
      exists t, p_hub (table_round table_source now p) = ReplaceAll t (p_hub p)); [|destruct Ht as [?|[t ?]]; [by apply hv_same|by eapply hv_write]].
    unfold table_round, p_hub, on_table. cbn [p_dir]. unfold Loop.round, Loop.Fetch.
    destruct (table_source _ _) as [r o]. destruct (Loop.err r); [destruct (Backoff.next _); by left|].
    destruct (Loop.changed r); [|by left]. unfold discoveryHandle.
    match goal with |- context [ClusterTable.Handle ?a ?d ?x] => destruct (Handle_run a d x) as [n ->] end.
    right. by eexists.
  - by apply (hv_launch p _ e i d c x).
  - by apply (hv_turn p _ b e i d c pl).
  - by apply hv_same.
  - by apply hv_same.
  - destruct (gate_turn_frame p) as (_ & _ & Hp & Hst & Hd & _). apply hv_same; [unfold p_hub; by rewrite Hd|done..].
Qed.

Definition all_fresh (p : state) : Prop :=
  counted (p_hub p) /\ forall k pl, p_plugins p !! k = Some pl -> fresh (p_hub p) pl.

Lemma all_fresh_reach p : reach go start p -> all_fresh p.
Proof.
  apply (reach_invariant go all_fresh); [|by repeat split; try apply NewHub_ok]. 
  intros p1 p2 [Hc Hf] Hs. destruct (pstep_hub p1 p2 Hs) as [Hh Hp _|t Hh Hp _|e i d c x _ _ Hx Hh Hp _|b e i d c pl Hpl _ Hh [Hp _]];
    unfold all_fresh; rewrite Hh, Hp.
  - done.
  - split; [by apply counted_replace|]. intros k pl Hpl. by eapply fresh_replace, Hf.
  - split; [done|]. intros k pl [[_ <-]|[_ Hpl]]%lookup_insert_Some; [by eapply fresh_launched|by eapply Hf].
  - split; [done|]. intros k pl' [[_ <-]|[_ Hpl']]%lookup_insert_Some; [by eapply fresh_turn, Hf|by eapply Hf].
Qed.

(** ** The datastore of a cell with one plugin *)

Definition cell_of (p : state) (k : nat * nat) (c : nat) : Prop :=
  exists d, discovery_at (p_world p) k.1 k.2 = Some (d, c).
(** [k] is the only plugin ever launched for cell [c]. *)
Definition sole (p : state) (k : nat * nat) (c : nat) : Prop :=
  forall k' pl, p_plugins p !! k' = Some pl -> cell_of p k' c -> k' = k.
Record mirrored (p : state) : Prop := mkMirrored {
  mi_sole : forall k pl c, p_plugins p !! k = Some pl -> cell_of p k c -> sole p k c ->
    default ∅ (p_stores p !! c) = applied (pl_disc pl);
  mi_none : forall c, (forall k pl, p_plugins p !! k = Some pl -> ~ cell_of p k c) -> default ∅ (p_stores p !! c) = ∅ }.

Lemma cell_of_fun p k c c' : cell_of p k c -> cell_of p k c' -> c = c'.
Proof. intros [d Hd] [d' Hd']. congruence. Qed.

Section Step.
Context (p p' : state) (Hr : reach go start p) (Hr' : reach go p p').

Lemma cell_of_later k c : cell_of p k c -> cell_of p' k c.
Proof. intros [d Hd]. exists d. by eapply discovery_at_later. Qed.

Lemma cell_of_before k pl c : p_plugins p !! k = Some pl -> cell_of p' k c -> cell_of p k c.
Proof.
  destruct k as [e i]. intros Hpl Hc.
  destruct (po_plugins _ _ _ _ _ _ _ _ _ (plugins_ok_reach wt epp_source table_source Equal Equal_sound plugin_of plugin_built sc out opts p Hr)
    e i pl Hpl) as (c0 & x & (d & Hd & _) & _).
  assert (H0 : cell_of p (e, i) c0) by by exists d. by rewrite (cell_of_fun p' (e, i) c c0 Hc (cell_of_later _ _ H0)).
Qed.

Lemma sole_before k c : (forall k' pl, p_plugins p !! k' = Some pl -> is_Some (p_plugins p' !! k')) -> sole p' k c -> sole p k c.
Proof. intros Hk Hs k' pl Hpl Hc. destruct (Hk k' pl Hpl) as [pl' Hpl']. eapply Hs; [done|by apply cell_of_later]. Qed.

Lemma mirrored_same : p_plugins p' = p_plugins p -> p_stores p' = p_stores p -> mirrored p -> mirrored p'.
Proof.
  intros Hp Hs [H1 H2]. split; rewrite Hs.
  - intros k pl c. rewrite Hp. intros Hpl Hc Hso. apply (H1 k); [done|by eapply cell_of_before|].
    apply sole_before; [|done]. intros k' pl' Hk'. rewrite Hp. by exists pl'.
  - intros c Hno. apply H2. intros k pl Hpl Hc. eapply Hno; [by rewrite Hp|by apply cell_of_later].
Qed.

Lemma mirrored_launch k d c x : p_plugins p !! k = None -> discovery_at (p_world p) k.1 k.2 = Some (d, c) ->
  plugin_of d = Some x -> p_plugins p' = <[k := mkPlugin x Snapshotting]> (p_plugins p) -> p_stores p' = p_stores p ->
  mirrored p -> mirrored p'.
Proof.
  intros Hnew Hd Hx Hp Hs [H1 H2].
  assert (Hkeep : forall k' pl, p_plugins p !! k' = Some pl -> p_plugins p' !! k' = Some pl).
  { intros k' pl Hpl. rewrite Hp, lookup_insert_ne; [done|congruence]. }
  split; rewrite Hs.
  - intros k' pl c'. rewrite Hp. intros [[<- <-]|[Hne Hpl]]%lookup_insert_Some Hc Hso.
    + destruct (plugin_built d x Hx) as [params Hf]. rewrite (Factory_fresh params x Hf). apply H2.
      intros k' pl Hpl Hc'. assert (k' = k) as -> by (eapply Hso; [by apply Hkeep|by apply cell_of_later]). congruence.
    + apply (H1 k'); [done|by eapply cell_of_before|]. apply sole_before; [|done]. intros k2 pl2 Hk2. exists pl2. by apply Hkeep.
  - intros c' Hno. apply H2. intros k' pl Hpl Hc'. eapply Hno; [by apply Hkeep|by apply cell_of_later].
Qed.

Lemma mirrored_turn b k d c pl s : p_plugins p !! k = Some pl -> discovery_at (p_world p) k.1 k.2 = Some (d, c) ->
  fresh (p_hub p) pl ->
  s = DiscoveryLoop.turn Equal (ctx_done (p_world p) k.1) b
    (DiscoveryLoop.mkSys (p_hub p) (pl_disc pl) (default ∅ (p_stores p !! c)) (pl_at pl) 0 0) ->
  p_plugins p' = <[k := mkPlugin (disc s) (at_pc s)]> (p_plugins p) -> p_stores p' = <[c := endpoints s]> (p_stores p) ->
  mirrored p -> mirrored p'.
Proof.
  intros Hpl Hd [n Hf] Heq Hp Hs [H1 H2].
  assert (Hck : cell_of p k c) by by exists d. 
  assert (Hin : forall k' pl', p_plugins p !! k' = Some pl' -> is_Some (p_plugins p' !! k')).
  { intros k' pl' Hk'. rewrite Hp. destruct (decide (k' = k)) as [->|]; [rewrite lookup_insert_eq|rewrite lookup_insert_ne by done]; by eexists. }
  destruct (Hin k pl Hpl) as [plk Hk].
  split; rewrite Hs.
  - intros k' pl' c'. rewrite Hp. intros [[<- <-]|[Hne Hpl']]%lookup_insert_Some Hc Hso.
    + assert (c' = c) as -> by (eapply cell_of_fun; [exact Hc|by apply cell_of_later]).
      rewrite lookup_insert_eq. cbn [pl_disc]. change (endpoints s = applied (disc s)).
      assert (Hst : default ∅ (p_stores p !! c) = applied (pl_disc pl)) by (by apply (H1 k); [..|apply sole_before]).
      destruct (turn_alone (ctx_done (p_world p) k.1) b (p_hub p) pl n (default ∅ (p_stores p !! c)) 0 0) as (Hdd & _ & _ & _ & He).
      rewrite <- Heq in Hdd, He. rewrite (He Hst), Hdd. apply inv_mirror. by apply inv_turn.
    + assert (Hcc : c' <> c). { intros ->. apply Hne. by apply (Hso k plk); [|apply cell_of_later]. }
      rewrite lookup_insert_ne by done. apply (H1 k'); [done|by eapply cell_of_before|by apply sole_before].
  - intros c' Hno. assert (Hcc : c' <> c) by (intros ->; by apply (Hno k plk Hk), cell_of_later).
    rewrite lookup_insert_ne by done. apply H2. intros k' pl' Hpl' Hc'. destruct (Hin k' pl' Hpl') as [pl2 Hpl2].
    by apply (Hno k' pl2 Hpl2), cell_of_later.
Qed.
End Step.

Lemma mirrored_reach p : reach go start p -> mirrored p.
Proof.
  induction 1 as [|p1 p2 Hr IH Hs]; [by split|]. pose proof (reach_one go p1 p2 Hs) as Hr'.
  destruct (pstep_hub p1 p2 Hs) as [_ Hp Hst|t _ Hp Hst|e i d c x Hnew Hd Hx _ Hp Hst|b e i d c pl Hpl Hd _ Hps].
  - by apply (mirrored_same p1 p2).
  - by apply (mirrored_same p1 p2).
  - by apply (mirrored_launch p1 p2 Hr Hr' (e, i) d c x).
  - destruct Hps as [Hp Hst]. eapply (mirrored_turn p1 p2 Hr Hr' b (e, i) d c pl); eauto. by eapply all_fresh_reach.
Qed.

(** C5. A quiet plugin is up to date, in the whole process: with fewer than 2^64
    writes in the hub's life, whenever the goroutine of a plugin waits on an open
    channel, what it has applied is exactly what the hub lists now for its
    cluster, and it has reported ready, once; and if it is the only plugin ever
    launched for its cell, the datastore of the cell holds exactly that list, no
    endpoint missing and none left over. *)
Theorem quiet_plugin_is_current p e i d c pl v ch :
  reach go start p -> Z.of_nat (Hub.ch (p_hub p)) < 2 ^ 64 ->
  p_plugins p !! (e, i) = Some pl -> discovery_at (p_world p) e i = Some (d, c) ->
  pl_at pl = Waiting v (Selecting ch) -> ch ∉ closed (p_hub p) ->
  let listed := table (default [] (Hub.data (p_hub p) !! clusterName (pl_disc pl))) in
  applied (pl_disc pl) = listed /\ ready (pl_disc pl) = 1%nat /\
  (sole p (e, i) c -> default ∅ (p_stores p !! c) = listed).
Proof.
  intros Hr Hb Hpl Hd Hat Hch listed. destruct (all_fresh_reach p Hr) as [_ Hf]. destruct (Hf (e, i) pl Hpl) as [n Hi].
  pose proof (blocked_mirror (alone (p_hub p) pl n) Hi Hb) as Hm.
  assert (Ha : applied (pl_disc pl) = listed) by (apply Hm; by exists v, ch).
  split; [done|]. split.
  - pose proof (inv_ready _ Hi) as Hrd. destruct Hi as [_ _ _ _ Hpc]. unfold pc_ok in Hpc. cbn [at_pc alone] in Hpc.
    rewrite Hat in Hpc. destruct Hpc as (_ & _ & _ & _ & Ho). cbn [disc alone] in Hrd, Ho. by rewrite Ho in Hrd.
  - intros Hs. rewrite <- Ha. apply (mi_sole p (mirrored_reach p Hr) (e, i)); [done|by exists d|done].
Qed.
End Freshness.

(** ** Two generations on one datastore *)

Module ToyFlap.
Import ToyProcess ToyServing.
#[local] Existing Instance ToyLlmd.toy.
#[local] Existing Instance list_range.

(** The configuration of ["a"] changes once; its only endpoint leaves the table
    and comes back. *)
Definition x : EndpointMetadata := mkEndpoint (mkName "a" "x") "x" "10.0.0.1" "80" "10.0.0.1:80".
Definition snapshots (n : nat) : EppDataConfig :=
  mkEppData (<["a" := if decide (n = 0%nat) then "disc" else Quote "disc"]> ∅)%string ToyControl.asg.
Definition tables (n : nat) : gmap string (list EndpointMetadata) :=
  if decide (n = 1%nat) then ∅ else <["a"%string := [x]]> ∅.
Abbreviation Out := (nat * nat)%type.
Definition epp_source : Loop.Source Out EppDataConfig := fun _ o =>
  (Loop.mkFetch true "" (snapshots o.1) None, (S o.1, o.2)).
Definition table_source : Loop.Source Out (gmap string (list EndpointMetadata)) := fun _ o =>
  (Loop.mkFetch true "" (tables o.2) None, (o.1, S o.2)).
Abbreviation state := (process (Out := Out)).
Definition go : state -> state -> Prop := pstep wt epp_source table_source same plugin_of.
Definition booted : state := boot 0%nat (0, 0)%nat (Loop.mkOptions 0 0).

(** The actions of the run, each a step or none. *)
Definition epp (p : state) : state :=
  match p_epp_at p with
  | Idle => epp_fetch wt epp_source 0 p
  | Handling v cfg (Act f k) => set_epp_at (Handling v cfg (k (f (p_sys p)).1)) (set_sys (exec f (p_sys p)) p)
  | Handling v cfg (Done e) => on_epp (p_out p) (finished 0 v e (p_epp p)) Idle p
  end.
Definition table_arrives (p : state) : state := table_round table_source 0 p.
Definition launch (e : nat) (p : state) : state :=
  on_plugins (<[(e, 0%nat) := mkPlugin fresh Snapshotting]> (p_plugins p)) (p_stores p) p.
Definition turns (e : nat) (p : state) : state :=
  match p_plugins p !! (e, 0%nat) with Some pl => plugin_turn same true e 0 0 pl p | None => p end.
Definition drain_starts (p : state) : state :=
  match drainCh (p_world p) with
  | t :: q => set_sys (mkSys (exec (drain_begin t) (on_drainCh (fun _ => q) (p_world p))) (streams (p_sys p))
                (s_busy (p_sys p) ++ [t]) (quiesced (p_sys p)) (retired_clean (p_sys p))) p
  | [] => p
  end.

Lemma epp_reach n p : reach go p (Nat.iter n epp p).
Proof.
  induction n as [|n IH]; [constructor|]. eapply reach_snoc; [exact IH|]. change (Nat.iter (S n) epp p) with (epp (Nat.iter n epp p)).
  generalize (Nat.iter n epp p). intros q. unfold epp, go.
  destruct (p_epp_at q) as [|v cfg [e|X f k]] eqn:Hp; [by apply go_fetch|by eapply go_return|by eapply go_call].
Qed.
Lemma launch_reach e p : (e, 0)%nat ∈ started (p_world p) -> p_plugins p !! (e, 0%nat) = None ->
  discovery_at (p_world p) e 0 = Some (ep, 0%nat) -> reach go p (launch e p).
Proof. intros H1 H2 H3. apply reach_one. unfold go, launch. by apply (go_launch _ _ _ _ _ e 0 ep 0 fresh). Qed.
Lemma turns_reach n e p : discovery_at (p_world p) e 0 = Some (ep, 0%nat) -> reach go p (Nat.iter n (turns e) p).
Proof.
  intros Hd. assert (H : reach go p (Nat.iter n (turns e) p) /\ discovery_at (p_world (Nat.iter n (turns e) p)) e 0 = Some (ep, 0%nat));
    [|apply H]. induction n as [|n [IH1 IH2]]; [by split; [constructor|]|].
  change (Nat.iter (S n) (turns e) p) with (turns e (Nat.iter n (turns e) p)).
  revert IH1 IH2. generalize (Nat.iter n (turns e) p). intros q IH1 IH2. unfold turns.
  destruct (p_plugins q !! (e, 0%nat)) as [pl|] eqn:Hpl; [|done]. split.
  - eapply reach_snoc; [exact IH1|]. unfold go. by eapply go_plugin.
  - unfold plugin_turn, p_world in *. simpl. by case_match.
Qed.
Lemma drain_reach p : s_busy (p_sys p) = [] -> reach go p (drain_starts p).
Proof.
  intros Hb. unfold drain_starts. destruct (drainCh (p_world p)) as [|t q] eqn:Hq; [constructor|]. apply reach_one. unfold go.
  apply go_background; [|done]. apply st_take; [unfold drain_next, p_world in *; by rewrite Hq|by rewrite Hb].
Qed.

(** Both generations have applied the first table; the outgoing one applies the
    second and is then canceled; the new one wakes up after the third. *)
Definition s1 : state := table_arrives (Nat.iter 7 epp booted).
Definition s2 : state := launch 0 s1.
Definition s3 : state := Nat.iter 7 epp (Nat.iter 3 (turns 0) s2).
Definition s4 : state := launch 1 s3.
Definition s5 : state := table_arrives (Nat.iter 3 (turns 1) s4).
Definition s6 : state := drain_starts (Nat.iter 6 (turns 0) s5).
Definition s7 : state := Nat.iter 6 (turns 1) (table_arrives s6).
Definition lost : state := Nat.iter 2 (turns 0) s7.

Lemma table_reach p : reach go p (table_arrives p).
Proof. apply reach_one. apply go_table. Qed.

Lemma reach_s3 : reach go booted s3.
Proof.
  assert (H1 : reach go booted s1) by exact (reach_trans go _ _ _ (epp_reach 7 booted) (table_reach _)).
  assert (Hs : started (p_world s1) = [(0, 0)%nat]) by (vm_compute; reflexivity).
  assert (H2 : reach go s1 s2) by (apply launch_reach; [rewrite Hs; left|vm_compute; reflexivity..]).
  assert (H3 : reach go s2 (Nat.iter 3 (turns 0) s2)) by (apply turns_reach; vm_compute; reflexivity).
  exact (reach_trans go _ _ _ H1 (reach_trans go _ _ _ H2 (reach_trans go _ _ _ H3 (epp_reach 7 _)))).
Qed.

Lemma reach_s6 : reach go s3 s6.
Proof.
  assert (Hs : started (p_world s3) = [(0, 0)%nat; (1, 0)%nat]) by (vm_compute; reflexivity).
  assert (H1 : reach go s3 s4) by (apply launch_reach; [rewrite Hs; right; left|vm_compute; reflexivity..]).
  assert (H2 : reach go s4 (Nat.iter 3 (turns 1) s4)) by (apply turns_reach; vm_compute; reflexivity).
  assert (H3 : reach go s5 (Nat.iter 6 (turns 0) s5)) by (apply turns_reach; vm_compute; reflexivity).
  assert (H4 : reach go (Nat.iter 6 (turns 0) s5) s6) by (apply drain_reach; vm_compute; reflexivity).
  exact (reach_trans go _ _ _ H1 (reach_trans go _ _ _ H2
    (reach_trans go _ _ _ (table_reach _) (reach_trans go _ _ _ H3 H4)))).
Qed.

Lemma reach_lost : reach go booted lost.
Proof.
  assert (H1 : reach go (table_arrives s6) s7) by (apply (turns_reach 6 1 (table_arrives s6)); vm_compute; reflexivity).
  assert (H2 : reach go s7 lost) by (apply turns_reach; vm_compute; reflexivity).
  exact (reach_trans go _ _ _ reach_s3 (reach_trans go _ _ _ reach_s6
    (reach_trans go _ _ _ (table_reach s6) (reach_trans go _ _ _ H1 H2)))).
Qed.

End ToyFlap.

(** C37. Two generations can lose an endpoint: in a run of the process the outgoing
    generation, not yet canceled, applies a table without the endpoint and deletes
    it from the datastore they share; the new generation wakes up only when the
    endpoint is back in the table, sees no difference to what it has applied and
    upserts nothing; the outgoing one is canceled and stops.  In the state reached,
    the hub lists the endpoint, the only plugin left is blocked and has it applied,
    and the datastore of the cell does not have it. *)
Theorem generations_lose_an_endpoint :
  exists p, reach ToyFlap.go ToyFlap.booted p /\
    Hub.data (p_hub p) !! "a"%string = Some [ToyFlap.x] /\
    (exists pl v c, p_plugins p !! (1, 0)%nat = Some pl /\ applied (pl_disc pl) !! ID ToyFlap.x = Some ToyFlap.x /\
       pl_at pl = Waiting v (Selecting c) /\ c ∉ closed (p_hub p)) /\
    (exists pl, p_plugins p !! (0, 0)%nat = Some pl /\ pl_at pl = Stopped) /\
    default ∅ (p_stores p !! 0%nat) !! ID ToyFlap.x = None.
Proof.
  exists ToyFlap.lost. split; [exact ToyFlap.reach_lost|]. split; [vm_compute; reflexivity|]. split; [|split].
  - vm_compute. do 3 eexists. split; [reflexivity|]. split; [reflexivity|]. split; [reflexivity|]. discriminate.
  - vm_compute. eexists. by split.
  - vm_compute. reflexivity.
Qed.

(** ** Witness: the plugin of the run of Serving.v, one turn later *)

Definition quiet : process (Out := unit * unit) := ToyServing.plug ToyServing.applied_table.

Lemma quiet_reached : reach ToyProcess.go ToyProcess.booted quiet.
Proof.
  eapply reach_trans; [exact ToyServing.applied_reached|]. apply ToyServing.plug_reach. vm_compute. reflexivity.
Qed.

Lemma quiet_plugin_is_current_witness :
  exists pl, p_plugins quiet !! (0, 0)%nat = Some pl /\ ready (pl_disc pl) = 1%nat /\
    applied (pl_disc pl) = table (@ConvertClusterTableToEndpoints list_range ToyControl.table !!! "a"%string).
Proof.
  destruct (p_plugins quiet !! (0, 0)%nat) as [pl|] eqn:Hpl; [|exfalso; revert Hpl; vm_compute; discriminate].
  assert (Hat : pl_at pl = Waiting 1 (Selecting 1) /\ clusterName (pl_disc pl) = "a"%string).
  { assert (Hv : (fun q => (pl_at q, clusterName (pl_disc q))) <$> p_plugins quiet !! (0, 0)%nat =
      Some (Waiting 1 (Selecting 1), "a"%string)) by (vm_compute; reflexivity).
    rewrite Hpl in Hv. injection Hv as H1 H2. exact (conj H1 H2). }
  assert (Hh : default [] (Hub.data (p_hub quiet) !! "a"%string) =
    @ConvertClusterTableToEndpoints list_range ToyControl.table !!! "a"%string) by (vm_compute; reflexivity).
  destruct (@quiet_plugin_is_current ToyLlmd.toy list_range (unit * unit) ToyProcess.wt ToyProcess.epp_source
    ToyProcess.table_source ToyProcess.same ToyProcess.same_is_equal ToyProcess.plugin_of ToyProcess.plugin_built
    0%nat (tt, tt) (poller_options ToyProcess.config) quiet 0 0 ToyServing.ep 0 pl 1 1) as (Ha & Hr & _).
  - exact quiet_reached.
  - vm_compute. reflexivity.
  - exact Hpl.
  - vm_compute. reflexivity.
  - exact (proj1 Hat).
  - vm_compute. discriminate.
  - exists pl. split; [reflexivity|]. split; [exact Hr|]. rewrite Ha, (proj2 Hat), Hh. reflexivity.
Defined.
