(* ===== verification/Labels.v ===== *)
(** * The labels of the metrics

    Prometheus' [WithLabelValues] panics on a label value that is not valid
    UTF-8.  A small logic of postconditions for the manager's methods, on worlds
    whose cells carry valid keys; with it, that no run of the process makes such a
    call, whatever bytes its sources read. *)

From S2P Require Import Prelude.
From S2P Require Import Threads.
From S2P Require Import GoStd.
From S2P Require Import Sha256.
From S2P Require Import Role.
From S2P Require Import Llmd.
From S2P Require Import Cell.
From S2P Require Import Compile.
From S2P Require Import Manager.
From S2P Require Import Json.
From S2P Require Import InnerApi.
From S2P Require Import EppData.
From S2P Require Import Discovery.
From S2P Require Import Poller.
From S2P Require Import Sources.
From S2P Require Import Typing.
From S2P Require Import App.
From S2P Require Import Control.
From S2P Require Import System.
From S2P Require Import Interleaved.
From S2P Require Import Process.
From S2P Require Import Serving.

(** The label values a call passes to [WithLabelValues]; [DeletePartialMatch]
    takes any labels. *)
Definition labels_of (m : metric_call) : list string :=
  match m with
  | CellState_Set cluster role state _ => [cluster; role; state]
  | EngineReloads_Inc cluster result => [cluster; result]
  | CurrentVersion_DeletePartialMatch _ => []
  | CurrentVersion_Set cluster version _ => [cluster; version]
  | DrainDuration_Observe cluster => [cluster]
  | AssignmentNoMatch_Set _ => []
  end.
Definition accepted (m : metric_call) : Prop := Forall valid_string (labels_of m).

(** Hexadecimal digits are ASCII. *)
Lemma lower_hex_valid s : string_forallb is_lower_hex s = true -> valid_string s.
Proof.
  unfold valid_string. induction s as [|c s IH]; [done|]. cbn [string_forallb]. intros [Hc Hs]%andb_true_iff.
  rewrite Valid_ascii; [by apply IH|]. unfold is_lower_hex in Hc.
  apply Z.ltb_lt. unfold code. apply orb_true_iff in Hc as [[_ Hc%N.leb_le]%andb_true_iff|[_ Hc%N.leb_le]%andb_true_iff]; lia.
Qed.

Lemma HashConfig_valid raw : valid_string (HashConfig raw).
Proof. apply lower_hex_valid, EncodeToString_lower, Sum256_bytes. Qed.

(** ** Postconditions on labelled worlds *)

Section Logic.
Context {L : LlmdRouter}.

Record labelled (w : World) : Prop := mkLabelled {
  lb_keys : forall c o, cells w !! c = Some o -> valid_string (c_key o);
  lb_metrics : Forall accepted (metrics w) }.

(** [m] keeps the world labelled and answers something that satisfies [Q]. *)
Definition ensures {A} (Q : A -> Prop) (m : St World A) : Prop :=
  forall w, labelled w -> labelled (m w).2 /\ Q (m w).1.
Definition any {A} (_ : A) : Prop := True.
Abbreviation quietly := (ensures any).

Lemma ensures_ret {A} (Q : A -> Prop) a : Q a -> ensures Q (mret a).
Proof. by split. Qed.
Lemma ensures_bind {A B} (P : A -> Prop) (Q : B -> Prop) m (f : A -> St World B) :
  ensures P m -> (forall a, P a -> ensures Q (f a)) -> ensures Q (m ≫= f).
Proof. intros Hm Hf w Hw. rewrite St_bind_run. destruct (Hm w Hw) as [Hw' HP]. by apply Hf. Qed.
Lemma ensures_weaken {A} (P Q : A -> Prop) m : (forall a, P a -> Q a) -> ensures P m -> ensures Q m.
Proof. intros HPQ Hm w Hw. destruct (Hm w Hw) as [? ?]. auto. Qed.
Lemma ensures_gets {A} (f : World -> A) : quietly (gets f).
Proof. by split. Qed.
Lemma ensures_get_st : quietly get_st.
Proof. by split. Qed.
Lemma ensures_modify (f : World -> World) : (forall w, labelled w -> labelled (f w)) -> quietly (modify f).
Proof. intros Hf w Hw. split; [by apply Hf|done]. Qed.
Lemma ensures_for_each {A} (xs : list A) f : (forall x, quietly (f x)) -> quietly (for_each xs f).
Proof.
  intros Hf. induction xs as [|x xs IH]; simpl; [by apply ensures_ret|]. by eapply ensures_bind; [apply Hf|].
Qed.

Lemma labelled_same w w' : cells w' = cells w -> metrics w' = metrics w -> labelled w -> labelled w'.
Proof. intros Hc Hm [H1 H2]. split; [by rewrite Hc|by rewrite Hm]. Qed.

Lemma ensures_key c : ensures valid_string (Cell_Key c).
Proof.
  intros w Hw. split; [done|]. unfold Cell_Key, load, gets. cbn [fst].
  destruct (cells w !! c) as [o|] eqn:Ho; [|done]. by apply (lb_keys w Hw c o).
Qed.
Lemma ensures_load {A} (f : Cell -> A) d c : quietly (load f d c).
Proof. apply ensures_gets. Qed.
Lemma ensures_on_cell f c : (forall o, c_key (f o) = c_key o) -> quietly (on_cell f c).
Proof.
  intros Hf. apply ensures_modify. intros w [H1 H2]. split; [|done]. intros c' o'. simpl.
  intros [(-> & o & Ho & ->)|[_ Ho]]%lookup_alter_Some; [rewrite Hf|]; by eapply H1.
Qed.
Lemma ensures_metric m : accepted m -> quietly (metric m).
Proof.
  intros Hm. apply ensures_modify. intros w [H1 H2]. split; [done|]. simpl. apply Forall_app. by split; [|constructor].
Qed.
Lemma ensures_new_cell o : valid_string (c_key o) -> quietly (new_cell o).
Proof.
  intros Ho w [H1 H2]. split; [|done]. split; [|done]. intros c o'. simpl.
  intros [[_ <-]|[_ Hc]]%lookup_insert_Some; [done|by eapply H1].
Qed.
Lemma ensures_new_engine x : quietly (new_engine x).
Proof. intros w Hw. split; [|done]. by apply (labelled_same w). Qed.
Lemma ensures_on_engine f e : quietly (on_engine f e).
Proof. apply ensures_modify. intros w. by apply labelled_same. Qed.

Lemma role_valid r : valid_string (Role_String r).
Proof. by destruct r. Qed.
Lemma state_valid s : valid_string (State_String s).
Proof. by destruct s. Qed.
Lemma accepted_state k r s v : valid_string k -> accepted (CellState_Set k (Role_String r) (State_String s) v).
Proof. intros Hk. repeat constructor; [done|apply role_valid|apply state_valid]. Qed.

(** A tactic to try on every goal before the rules. *)
Ltac quiet_with first_tac := repeat first
  [ first_tac | (simple apply ensures_ret; exact I) | simple apply ensures_gets | simple apply ensures_get_st | simple apply ensures_load
  | (simple apply ensures_on_cell; reflexivity) | simple apply ensures_new_engine | simple apply ensures_on_engine
  | assumption | (simple apply ensures_for_each; intros ?)
  | (simple apply ensures_modify; intros w Hw; apply (labelled_same w); [reflexivity|reflexivity|exact Hw])
  | (simple eapply ensures_bind; [simple apply ensures_key|intros ? ?])
  | (simple apply (ensures_bind any); [|intros ? _])
  | match goal with |- ensures _ (if ?x then _ else _) => destruct x end
  | match goal with |- ensures _ (match ?x with _ => _ end) => destruct x end ].
Ltac quiet := quiet_with fail.

Lemma ensures_setRole c r : quietly (setRole c r).
Proof. unfold setRole, Cell_State. quiet. by apply ensures_metric, accepted_state. Qed.
Lemma ensures_setState c s : quietly (setState c s).
Proof. unfold setState, Cell_Role. quiet. by apply ensures_metric, accepted_state. Qed.
Lemma ensures_Close c : quietly (Close c).
Proof. by apply ensures_on_cell. Qed.
Lemma ensures_drain_end t : quietly (drain_end t).
Proof.
  unfold drain_end, CompareAndDelete. quiet; [|apply ensures_Close].
  apply ensures_metric. by repeat constructor.
Qed.
Lemma ensures_scheduleDrain c e td : quietly (scheduleDrain c e td).
Proof. unfold scheduleDrain, drain, drain_begin, Engine_drain. quiet. apply ensures_drain_end. Qed.
Lemma ensures_markReady c : quietly (markReady c).
Proof. unfold markReady, Cell_State. quiet. apply ensures_setState. Qed.
Lemma ensures_start e c : quietly (start e c).
Proof. unfold start. quiet. apply ensures_markReady. Qed.
Lemma ensures_Promote k : quietly (Promote k).
Proof. unfold Promote, Get, Cell_State. quiet; auto using ensures_setRole, ensures_setState. Qed.
Lemma ensures_Demote k : quietly (Demote k).
Proof.
  unfold Demote, Get, Cell_State, Cell_Engine.
  quiet; auto using ensures_setRole, ensures_setState, ensures_scheduleDrain.
Qed.
Lemma ensures_Drop k : quietly (Drop k).
Proof.
  unfold Drop, Get, Cell_Engine, CompareAndDelete.
  quiet; auto using ensures_setState, ensures_scheduleDrain, ensures_Close.
Qed.
Lemma ensures_apply_role k c r : quietly (apply_role k c r).
Proof.
  unfold apply_role, Cell_Role. quiet; auto using ensures_setRole, ensures_Promote, ensures_Demote.
Qed.
Lemma ensures_publish k c : quietly (publish k c).
Proof.
  unfold publish, LoadOrStore, Get. quiet; auto using ensures_setState, ensures_Close.
Qed.

(** The key a cell is created with must be valid. *)
Lemma ensures_Ensure m k r : valid_string k -> quietly (Ensure m k r).
Proof.
  intros Hk. unfold Ensure, Get.
  quiet; auto using ensures_publish, ensures_apply_role. by apply ensures_new_cell.
Qed.
Lemma ensures_waiter_step p x : quietly (waiter_step p x).
Proof. unfold waiter_step. quiet. apply ensures_markReady. Qed.

(** [ApplyConfig] labels with its key and with the version of the compiled engine. *)
Definition versions_valid (f : CompileFunc) : Prop :=
  forall k raw s e, (f k raw s).1 = Ok e -> valid_string (Version e).
Lemma ensures_run_compile f k raw c : versions_valid f ->
  ensures (fun r => forall e, r = Ok e -> valid_string (Version e)) (run_compile c (f k raw)).
Proof.
  intros Hf w Hw. unfold run_compile. destruct (cells w !! c) as [o|] eqn:Ho; [|by split].
  pose proof (Hf k raw (mkCompile (c_data o) (scopes w) None)) as Hv.
  destruct (f k raw _) as [r s]. split; [|exact Hv].
  assert (Hs : labelled (on_cells (alter (set_data (cs_data s)) c) w)).
  { exact (proj1 (ensures_on_cell (set_data (cs_data s)) c (fun _ => eq_refl) w Hw)). }
  by apply (labelled_same (on_cells (alter (set_data (cs_data s)) c) w)).
Qed.
Lemma ensures_ApplyConfig m k raw : versions_valid (m_compile m) -> valid_string k -> quietly (ApplyConfig m k raw).
Proof.
  intros Hv Hk. unfold ApplyConfig, Get, Cell_State, Cell_Engine.
  quiet_with ltac:(simple eapply ensures_bind; [by apply ensures_run_compile|intros [en|er] Hen]);
    auto using ensures_start, ensures_scheduleDrain; apply ensures_metric; repeat constructor; auto.
Qed.
End Logic.

(** ** The whole process *)

Section Process.
Context {L : LlmdRouter} `{MapRange} {Out : Type} (wt : EppDataWatcher).

Definition keeps_labels (s s' : sys) : Prop := labelled (W s) -> labelled (W s').

Lemma invoke_labels {X} (f : St World X) : ensures any f -> all_steps keeps_labels (invoke f).
Proof. intros Hf. apply all_steps_act. intros s. apply reach_one. intros Hw. by apply (Hf (W s)). Qed.

(** The clusters a typed snapshot assigns have valid names. *)
Lemma mine_valid self cfg k r : epp_data_typed cfg -> resolve_mine self cfg !! k = Some r -> valid_string k.
Proof.
  intros [_ Ha]. rewrite resolve_mine_lookup. unfold my_role.
  destruct (Assignment cfg !! k) as [e|] eqn:He; [|done]. intros _. by apply (Ha k e He).
Qed.

Lemma Handle_prog_labels cfg : versions_valid (m_compile (manager wt)) -> epp_data_typed cfg ->
  all_steps keeps_labels (Handle_prog wt cfg).
Proof.
  intros Hv Hc. unfold Handle_prog. set (mine := resolve_mine (instance wt) cfg).
  assert (Hmine : forall k r, mine !! k = Some r -> valid_string k) by (intros k r; by apply mine_valid).
  assert (Hens : forall l, Forall (fun kr => valid_string kr.1) l -> all_steps keeps_labels (ensure_all_prog (manager wt) l)).
  { induction 1 as [|[k r] l Hk _ IH]; [done|]. apply all_steps_bind; [by apply invoke_labels, ensures_Ensure|].
    by intros [c|e]. }
  apply all_steps_bind; [apply invoke_labels, ensures_metric; constructor|]. intros _.
  apply all_steps_bind.
  { apply Hens, Forall_forall. intros [k r] Hin. by apply (Hmine k r), elem_of_range. }
  intros [e|]; [done|]. apply all_steps_bind; [by apply invoke_labels, ensures_gets|]. intros live.
  apply all_steps_bind; [|intros _; apply all_steps_bind; [|done]]; apply all_steps_for_each.
  - intros c. apply all_steps_bind; [apply invoke_labels; eapply ensures_weaken; [|apply ensures_key]; done|].
    intros k. case_match; [done|]. by apply invoke_labels, ensures_Drop.
  - intros ce. unfold apply_assigned_prog. destruct (mine !! ce.1) as [r|] eqn:Hm; [|done].
    apply all_steps_bind; [|done]. apply invoke_labels, ensures_ApplyConfig; [done|by eapply Hmine].
Qed.

Lemma background_labels m s s' : background m s s' -> keeps_labels s s'.
Proof.
  unfold keeps_labels.
  destruct 1 as [t w s Hn _|j t s _ _|j t s _|j x p r w s _ Hr|e j s|t s|c e s _|j c e s _|j c e s _|j c e s _];
    simpl; intros Hw; try by apply (labelled_same (W s)).
  - unfold drain_next in Hn. destruct (drainCh (W s)) as [|t' q]; simplify_eq. by apply (labelled_same (W s)).
  - by apply (ensures_drain_end t (W s)).
  - by apply (ensures_drain_end t (W s)).
  - destruct (ensures_waiter_step p x (W s) Hw) as [Hw' _]. rewrite Hr in Hw'. by apply (labelled_same w).
Qed.

Lemma reach_labels (R : sys -> sys -> Prop) s s' : (forall x y, R x y -> keeps_labels x y) -> reach R s s' -> keeps_labels s s'.
Proof. intros HR. unfold keeps_labels in *. induction 1 as [|s1 s2 _ IH Hs]; [done|]. intros Hw. by apply (HR s1 s2 Hs), IH. Qed.

Context (epp_source : Loop.Source Out EppDataConfig).
Context (table_source : Loop.Source Out (gmap string (list EndpointMetadata))).
Context (Equal : EndpointMetadata -> EndpointMetadata -> bool).
Context (plugin_of : Llmd.Discovery -> option Discovery.discovery).
Context (typed_source : forall v o, epp_data_typed (Loop.data (epp_source v o).1)).
Context (versions : versions_valid (m_compile (manager wt))).
Abbreviation go := (pstep wt epp_source table_source Equal plugin_of).

(** The world is labelled, and what is left of a [Handle] keeps it so. *)
Definition well_labelled (p : process (Out := Out)) : Prop :=
  labelled (p_world p) /\
  match p_epp_at p with Handling _ _ q => all_steps keeps_labels q | Idle => True end.

Lemma well_labelled_step p p' : well_labelled p -> go p p' -> well_labelled p'.
Proof.
  intros [Hw Hq] Hs. unfold well_labelled, p_world in *.
  destruct (pstep_epp wt epp_source table_source Equal plugin_of p p' Hs)
    as [He Hr|Hi Heq Hat|v cfg X f k Hp Hp' Hs'|v cfg e Hp Hp' Hs'].
  - rewrite He. split; [|done]. by apply (reach_labels _ _ _ (background_labels (manager wt)) Hr).
  - rewrite Heq. split; [done|]. destruct Hat as [->|(v & cfg & -> & version & o & ->)]; [done|].
    by apply Handle_prog_labels.
  - rewrite Hp', Hs'. rewrite Hp in Hq. destruct Hq as [Hf Hk]. split; [|apply Hk].
    by apply (reach_labels keeps_labels _ _ (fun _ _ h => h) (Hf (p_sys p))).
  - rewrite Hp', Hs'. by split.
Qed.

Lemma well_labelled_reach sc out opts p : reach go (boot sc out opts) p -> well_labelled p.
Proof.
  apply (reach_invariant go well_labelled); [intros; by eapply well_labelled_step|]. split; [|done].
  split; [done|constructor].
Qed.
End Process.

(** ** The versions of engines *)

Section Versions.
Context {L : LlmdRouter}.

(** Whenever [m] succeeds, its answer satisfies [P]. *)
Definition answers {A} (P : A -> Prop) (m : CM A) : Prop := forall s a, (m s).1 = Ok a -> P a.
Lemma answers_bind {A B} (P : B -> Prop) (m : CM A) (f : A -> CM B) : (forall a, answers P (f a)) -> answers P (m ≫= f).
Proof. intros Hf s b. unfold mbind, CM_bind. destruct (m s) as [[a|e] s']; [apply Hf|done]. Qed.

(** The version of an engine is the fingerprint of its configuration. *)
Lemma Compile_version key raw deps : answers (fun e => Version e = HashConfig raw) (Compile key raw deps).
Proof.
  unfold Compile. destruct (LoadRawConfig raw) as [[rc gates]|er]; [|by intros s a].
  do 2 (apply answers_bind; intros ?). destruct (InstantiateAndConfigure _ _) as [rcfg h].
  apply answers_bind. intros cfg. destruct (CreateMissingDataProducers h) as [rprod h'].
  do 6 (apply answers_bind; intros ?). repeat case_match; simplify_eq;
    (apply answers_bind; intros discs s e; by intros [= <-]).
Qed.

Lemma NewManager_versions o : opt_Compile o = None -> versions_valid (m_compile (NewManager o)).
Proof.
  intros Ho k raw s e. unfold NewManager. cbn [m_compile opt_Compile]. rewrite Ho. cbn [default].
  intros He. rewrite (Compile_version _ _ _ _ _ He). apply HashConfig_valid.
Qed.
End Versions.

(** ** The program *)

(** C22. No metric call panics: in every state the process can reach, with the
    manager and the sources [run] builds for its configuration and whatever bytes
    the API or the files contain, every label value passed to [WithLabelValues] so
    far (cluster names, role and state names, versions, results) is valid UTF-8,
    which is what Prometheus panics about. *)
Theorem metric_labels_are_valid {Net FS} `{L : LlmdRouter, InnerApi.Api.HTTP Net, FileSystem FS, MapRange} cfg
    Equal plugin_of sc (out : Net * FS) opts p :
  reach (pstep (program_watcher cfg) (eppDataSrc cfg) (discoverySrc cfg) Equal plugin_of) (boot sc out opts) p ->
  Forall (fun m => Forall valid_string (labels_of m)) (metrics (p_world p)) /\
  forall c o, cells (p_world p) !! c = Some o -> valid_string (c_key o).
Proof.
  intros Hr. destruct (well_labelled_reach (program_watcher cfg) (eppDataSrc cfg) (discoverySrc cfg) Equal plugin_of
    (eppDataSrc_typed cfg) (NewManager_versions (Config.manager_options cfg) eq_refl) sc out opts p Hr) as [[Hk Hm] _]. by split.
Qed.

Lemma metric_labels_are_valid_witness :
  (0 < List.length (metrics (L := ToyLlmd.toy) (p_world ToyServing.serving)))%nat /\
  Forall (fun m => Forall valid_string (labels_of m)) (metrics (L := ToyLlmd.toy) (p_world ToyServing.serving)).
Proof.
  split; [apply (proj1 (Nat.ltb_lt _ _)); vm_compute; reflexivity|].
  exact (proj1 (@metric_labels_are_valid unit unit ToyLlmd.toy ToyApi.net ToyProcess.files list_range ToyProcess.config
    ToyProcess.same ToyProcess.plugin_of 0%nat (tt, tt) (poller_options ToyProcess.config) ToyServing.serving
    ToyServing.serving_reached)).
Defined.
